(* ===== verification/_CoqProject ===== *)
-Q . S2P
Prelude.v
BigInt.v
Field.v
Curve.v
Pvss.v
Interpolate.v
Avss.v
Nizkpk.v
Signcrypt.v
Verenc.v
VerencProps.v
VerencToy.v
Ecdsa.v
Ids.v
Effects.v
EventBus.v
Services.v
ServicesProps.v
Keygen.v
KeygenInv.v
KeygenReach.v
KeygenSend.v
KeygenCorrect.v
KeygenDecide.v
KeygenToy.v
Mapping.v
MappingVotes.v
MappingToy.v
Dealer.v
GoTime.v
Auth.v
AuthProps.v
DateTime.v
SocialAuth.v
Cache.v
Base64.v
Middleware.v
Config.v
P2p.v
PssTypes.v
Pss.v
PssReach.v
PssRefresh.v
PssToy.v
Torusdb.v
TorusdbSpec.v
Library.v
Ethereum.v
EthereumLibrary.v
EthereumProps.v
Transport.v
KeygenService.v
LibrarySpec.v
PssService.v
TorusdbToy.v
Bft.v
BftProps.v
MappingService.v
ServiceLibrary.v
Handover.v
HandoverProps.v
Abci.v
AbciService.v
Tendermint.v
Rpc.v
AbciProps.v
Freeze.v
RpcProps.v
Server.v
TendermintProps.v
AbciToy.v
AbciServiceToy.v
RpcToy.v
NodeToy.v
GatewayToy.v
TendermintToy.v
