(* ===== verification/Prelude.v ===== *)
(** * Verification of the Torus node

    A Torus node is one of n servers that together hold secp256k1 keys for users,
    each key shared so that K nodes can use it and fewer learn nothing.  The nodes
    generate the keys (src/keygennofsm, on the secret sharing of src/pvss), agree
    on decisions and on who owns which key through a Tendermint chain
    (src/dkgnode/abci_app.go, bftruleset.go), hand the keys of one epoch's nodes to
    the next (src/pss refreshes the shares, src/mapping moves the table of owners),
    serve the shares to the users over JSON-RPC (src/dkgnode/jrpc_handlers.go, with
    the identity checks of src/auth), and let the holder of a key replace it
    (src/dealer).  Inside a node each of these is a service: services call each
    other by method name over an event bus (src/eventbus, src/dkgnode/services.go),
    through the methods of a library (service_library.go).  Nodes reach each other
    over libp2p (p2p.go, with the transports of keygen_nofsm.go, pss.go and
    mapping.go), know each other from a contract (ethereum.go), and submit
    transactions through Tendermint (tendermint.go, bft_tx.go).

    The parts meet in three places: the protocols broadcast transactions that the
    rules of the chain check; an accepted transaction leaves actions (a decision, a
    freeze, a new key generation) to the protocols; and what the protocols produce
    is kept in the node's database (src/db), from which the JSON-RPC handlers
    answer.

    ** How the code is read

    A Go function is a function here.  An error or a panic is a value: [res] below
    for plain functions, [status] (Effects) for protocol handlers, [outcome] (Bft)
    for transaction rules, [answer] (EthereumLibrary) for calls of another service,
    which may end the process or not return.  A handler maps the state it may
    change to the new state, the list of what it hands to goroutines and how it
    ended; the lock it holds makes it one atomic step, and what was changed before
    an error stays changed.  Where goroutines interleave (calls over the event bus,
    starting and stopping a service, the queue of transactions, queries, the freeze
    between epochs, the handlers of streams) the parts are step relations, and the
    theorems hold for every run; that a call is answered is proved of infinite
    runs, under the fairness that its statement spells out.  A store whose entry the code sets to nil keeps it
    as [None].  [int] and [uint] are [Z] with the wrap-around written out ([int64],
    [uint64]) where a value may leave the range; [big.Int] is [Z]; a Go map is a
    [gmap], and the order in which a loop visits it is a parameter ([MapRange], one
    order per loop and map; [RegisterRange] for the register of nodes).

    What is not under src/ is a parameter, with its documented behaviour as named
    laws where a theorem needs it: the curve and hash of torus-common
    ([Secp256k1], [Secp256k1Laws]) with its signatures ([TorusCrypto],
    [TorusSign]); go-ethereum's recoverable signature ([EthCrypto]), address
    ([EthAddress]), client ([EthClient]) and the contract of nodes
    ([NodeListContract]); bijson ([Codec], [CodecLaws] and the classes of codecs of
    each part), jsonrpc ([JsonRpc]); go-cache ([GoCache]); libp2p ([LibP2P]); the
    emmy library of the verifiable encryption ([Emmy]); Tendermint
    ([TendermintRPC], [TendermintKeys]); the order of the keys of the application's
    database ([AppDB]); the identity providers' web services ([Web]); the readers
    of the configuration ([ConfigReaders]); the table of Unicode's case folding
    ([Unicode]).  What one part reads of another's state is a parameter of the
    part: the configuration ([NodeConfig], [AuthConfig], [EthConfig],
    [CaptchaConfig]), the transport's key ([Transport]), the data sources of the
    protocols, and the services that rules, handlers and the router call
    ([Services], [RpcEnv], [P2pNode], [EthPeers], [ServiceCalls]; a service that
    the router asks may panic and may not come back).  The codec of the
    application's state leaves out the time of the block, as its tag in the code
    says, so a restart loses it ([Unmarshal_state]).  Every law class
    that a theorem uses has a concrete instance in the development (the modules
    [Toy], [ToySign], [ToyDealer], [ToyCodec], [EmmyToy], [ConfigToy] and the files
    whose names end in Toy), except [UnicodeLaws], which only says that four
    foldings lead back: a group of prime order 31, serialisations that are read
    back, small networks.  The witnesses run on them.

    ** Files

    - Prelude: outcomes, machine integers, separators (src/common), lemmas and
      tactics, the hint database [torus].  BigInt: math/big, strconv, strings and
      hex as the code uses them.  Field: arithmetic modulo the group order and
      polynomials.  Curve: the curve's interface, its laws, the toy curve.
    - Pvss, Interpolate: src/pvss/pvss.go, pss.go and gennaro2006.go.  Polynomials,
      shares, commitments, Pedersen checks; that the in-place interpolation loops
      compute the interpolating polynomial, so that shares give back the secret
      (C1).  Avss: src/pvss/avss.go, bivariate dealings and their verification
      (C2).  Nizkpk: src/pvss/nizkpk.go and src/pkcs7; from two proofs with the
      same commitments that verify under different challenges, the secrets are
      computed (C3).  Ecdsa: the signing and verifying functions of pvss.go.
    - Signcrypt: signcryption (pvss.go) over the block cipher in feedback mode
      (AES.go); prepared shares open to the right receiver (C32).  Verenc,
      VerencProps, VerencToy: src/pvss/verenc.go, the encryption of Camenisch and
      Shoup with the proof that it holds a discrete logarithm (C31).
    - Ids: the string identifiers of src/keygennofsm/types.go.  Effects:
      serialisation, map order and the shape of a handler.  GoTime: the part of the
      time package the handlers use.
    - EventBus: src/eventbus/event_bus.go and server.go.  Services, ServicesProps:
      dkgnode/service.go and services.go; a call over the bus brings back what
      the service it names gave, or the refusal of one that was not running at any
      attempt; a fair run that does not block it answers it within a bounded number
      of the call's own steps; services start once (C33 to C35).
    - Keygen: src/keygennofsm, all handlers and both routers.  KeygenInv,
      KeygenReach: the invariant of a keygen and of a node over every sequence of
      messages; quorums and uniqueness (C4, C5).  KeygenSend: what the handlers
      emit; messages of the right shape, between nodes with ids of eight bytes or
      more, do not make them panic (C6).  KeygenCorrect: the shares are the dealer's (C7, C8).
      KeygenDecide: decisions, completion and proposals (C9 to C11).  KeygenToy: a
      network of three nodes and the witnesses.
    - Mapping: src/mapping.  MappingVotes: a new node refines a ballot of the old
      nodes, so every summary and key with K votes is broadcast exactly once, and
      the hand-over reaches the new nodes (C14, C15).  MappingToy: witnesses.
    - Dealer: src/dealer/types.go and the user identities of src/auth/verifier.go;
      a key is replaced only with its holder's signature (C18).
    - Auth, AuthProps, DateTime, SocialAuth: src/auth, the general verifier and the
      eight verifiers behind it, with dates in the layout of RFC 3339 and the
      comparison of texts without case.  Cache: the cache of commitments and of
      signatures of dkgnode/cache.go on go-cache.
    - Base64, Middleware: the HTTP middleware of dkgnode/middleware.go, which lets a
      signature of the captcha through once (C38).  Config: src/config, with the
      management RPC of src/mrpc: where a setting's value comes from, and that it
      keeps its type (C40).
    - PssTypes: the identifiers and messages of src/pss/types.go.  Pss:
      src/pss/keygen_pss.go, all handlers of the refresh protocol and its routers.
      PssReach: its invariant over every sequence of messages.  PssRefresh: a
      decision gives each node a refreshed share of the same key (C12, C13).
      PssToy: two committees and the witnesses.
    - Torusdb: src/db/torus.go on an ordered key-value store, with its iterators,
      and the service of dkgnode/db.go.  TorusdbSpec: the abstract tables and the
      refinement (C19).  TorusdbToy: witnesses.
    - Library, EthereumLibrary, ServiceLibrary: the methods of
      dkgnode/service_library.go in front of the database, of the Ethereum service
      and of the cache, the verifiers, the P2P and the protocol services, with how
      each one fails; the streams of a protocol reach the handler that was set for
      it.  LibrarySpec: the database methods on the tables; a key generation is
      started once (C30).
    - P2p: dkgnode/p2p.go and ping.go.  Ethereum, EthereumProps: the service of
      ethereum.go and node_auth.go and its register of nodes.  Transport: sending
      and receiving the protocols' messages between nodes (C29).
    - KeygenService, PssService, MappingService: the services of keygen_nofsm.go,
      pss.go and mapping.go that run the protocols of a node.
    - Handover, HandoverProps: the monitors of ethereum.go that hand the keys of one
      epoch to the next; what is stored and what is frozen is dealt (C27, C28).
      Freeze: along every interleaving of the chain, the mapping service and the
      monitor, nothing is handed over before the freeze (C26).
    - Bft: the state of the replicated application and the rules of its
      transactions (bftruleset.go, the database functions of abci_app.go).  Abci:
      the calls of Tendermint, persistence, queries and authentication
      (abci_app.go, bft_tx.go, node_auth.go).  BftProps: what each rule may change,
      and that the verdict on a proposal does not depend on map order.  AbciProps:
      assignments, counters, missing keys, freezes, the mempool check and restarts
      (C20 to C25).  AbciToy: an application on two nodes, the witnesses, and
      concrete runs of the defects listed with the development.
    - AbciService, AbciServiceToy: the ABCI service of abci_server.go and the
      iteration over the users that have keys.
    - Tendermint, TendermintProps, TendermintToy: the way of a transaction through
      bft_tx.go and src/msgqueue to the chain, where it is delivered as its
      sender's, and the queries that tendermint.go forwards in order (C36, C37).
    - Rpc: the handlers of dkgnode/jrpc_handlers.go.  RpcProps: what a request must
      bring to obtain a share and how long a commitment is bound to its first key
      (C16, C17).  RpcToy: witnesses.  Server: dkgnode/server.go, a node learns
      the connections that another keeps out of the contract (C39).
    - NodeToy, GatewayToy: networks of nodes and a user's request, the witnesses of
      Transport, the hand-over, Middleware and Server.

    ** Bounds and fuel

    [digits] and [egcd] (BigInt) recurse on fuel: the binary length of the number
    plus one digit, and enough halvings for Euclid's algorithm; [log2_fuel] and
    [ModInverse_spec] show that they suffice.  The cipher in feedback mode
    (Signcrypt), the loop that empties a topic (EventBus), the count of an
    iterator's entries (Torusdb), the decoding of runes (DateTime,
    [runes_fuel]) and the deprecated fields taken from a body (Middleware) have the
    length of what they consume as fuel.  Starting a service runs at most five of its steps
    ([runPc], Services); the folding of a rune at most four ([foldLoop_enough]).
    The code's own limits are kept: the attempts of the queue (600) and of the
    search for a service ([DefaultAttempts]).  Two loops of the code end only with
    what they meet: the key generation of the verifiable encryption draws numbers
    until one is a unit ([chooseG1], with [chooseG1_found]), and a loop over the
    users' iterator takes a round per entry ([iterate], with
    [iteration_sees_users]), and does not end at an entry that cannot be read
    ([unreadable_entry_stalls]).  All other recursion is structural.  The handlers
    that poll (a node waits for the phase or for a completed sharing) are steps
    that end in [Waiting] without a change and are tried again.

    ** Not modelled

    Logging and telemetry (src/telemetry, src/tmlog, the names in
    src/common/constants.go).  The first eight bytes of ids that are logged are
    taken ([shortID]), since that panics on a shorter id, where a function of the
    code first takes them; where the same call has already taken them of the same
    id they are not taken again.  Start-up (dkgnode.go,
    starting Tendermint, the HTTP listeners and their certificates), whose state is
    that of the services it starts.  The client and the network bus of src/eventbus,
    which the node does not use.  Mutexes and contexts (src/idmutex, src/tcontext),
    which wrap the standard library's; a lock is what makes a handler one step.
    The bindings of the contract (src/solidity/goContracts), which are generated.
    LevelDB itself, with batches, reverse iteration and the SQLite variant that the
    node's database does not use.  The random permutation of pvss.go and the tests'
    helpers. *)
From Stdlib Require Export Ascii.
From stdpp Require Export prelude base list gmap strings numbers.

Open Scope Z_scope.

(** ** Outcomes of Go calls

    A Go function either returns a value, returns an [error], or panics
    (an index out of range, a nil dereference, an explicit panic).  [Err]
    carries the text of the error the source creates. *)

Inductive res (A : Type) : Type :=
  | Ok (a : A)
  | Err (e : string)
  | Panic.

Arguments Ok {A} a.
Arguments Err {A} e.
Arguments Panic {A}.

#[global] Instance res_ret : MRet res := fun A a => Ok a.

#[global] Instance res_bind : MBind res := fun A B f m =>
  match m with
  | Ok a => f a
  | Err e => Err e
  | Panic => Panic
  end.

#[global] Instance res_eq_dec `{EqDecision A} : EqDecision (res A).
Proof. solve_decision. Defined.

(** The value of an expression whose nil-ness the source does not test. *)
Definition deref {A} (o : option A) : res A :=
  match o with
  | Some a => Ok a
  | None => Panic
  end.

(** [l[i]] on a slice: out of range panics. *)
Definition index {A} (l : list A) (i : nat) : res A := deref (l !! i).

(** A [for ... range] loop whose body may fail. *)
Fixpoint foldlM {A B} (f : B -> A -> res B) (b : B) (l : list A) : res B :=
  match l with
  | [] => Ok b
  | a :: l' => b' ← f b a; foldlM f b' l'
  end.

(** ** Machine integers

    Go's [int] and [uint] are 64 bits wide on the node's platform. *)

Definition int64 (x : Z) : Z := (x + 2 ^ 63) mod 2 ^ 64 - 2 ^ 63.
Definition uint64 (x : Z) : Z := x mod 2 ^ 64.
Definition in_int64 (x : Z) : Prop := - 2 ^ 63 <= x < 2 ^ 63.
Definition in_uint64 (x : Z) : Prop := 0 <= x < 2 ^ 64.

(** ** Delimiters of the node's composite identifiers
    (src/common/types.go, the [Delimiter] constants). *)

Definition Delimiter1 : ascii := ascii_of_nat 28.
Definition Delimiter2 : ascii := ascii_of_nat 29.
Definition Delimiter3 : ascii := ascii_of_nat 30.
Definition Delimiter4 : ascii := ascii_of_nat 31.

(** ** Automation *)

Create HintDb torus.

(** Case analysis on every step of a computation in [res] that is known to
    have returned. *)
Ltac res_inv :=
  repeat match goal with
  | H : mbind _ ?m = _ |- _ =>
      let E := fresh "E" in
      destruct m eqn:E; simpl in H; try discriminate H
  | H : Ok _ = Ok _ |- _ => injection H as H; subst
  | H : mret _ = Ok _ |- _ => injection H as H; subst
  end.

(** Split the boolean tests of a definition into their propositions. *)
Ltac bool_tests :=
  repeat match goal with
  | H : context [Z.eqb ?a ?b] |- _ => destruct (Z.eqb_spec a b)
  | |- context [Z.eqb ?a ?b] => destruct (Z.eqb_spec a b)
  | H : context [Z.ltb ?a ?b] |- _ => destruct (Z.ltb_spec a b)
  | |- context [Z.ltb ?a ?b] => destruct (Z.ltb_spec a b)
  | H : context [Z.leb ?a ?b] |- _ => destruct (Z.leb_spec a b)
  | |- context [Z.leb ?a ?b] => destruct (Z.leb_spec a b)
  end.

(** ** Lemmas on [res] *)

Lemma bind_Ok {A B} (m : res A) (f : A -> res B) b :
  m ≫= f = Ok b <-> exists a, m = Ok a /\ f a = Ok b.
Proof. destruct m; naive_solver. Qed.

Lemma index_Ok {A} (l : list A) i a : index l i = Ok a <-> l !! i = Some a.
Proof. unfold index, deref. destruct (l !! i); naive_solver. Qed.

Lemma index_lt {A} (l : list A) i :
  (i < length l)%nat -> exists a, l !! i = Some a /\ index l i = Ok a.
Proof.
  intros H. destruct (lookup_lt_is_Some_2 l i H) as [a Ha].
  exists a. split; [done|]. by apply index_Ok.
Qed.

Lemma index_Some {A} (l : list A) i a : l !! i = Some a -> index l i = Ok a.
Proof. apply index_Ok. Qed.

Lemma index_fmap {A B} (f : A -> B) (l : list A) i a :
  l !! i = Some a -> index (f <$> l) i = Ok (f a).
Proof. intros E. apply index_Some. by rewrite list_lookup_fmap, E. Qed.

Lemma index_app_last {A} (l : list A) a : index (l ++ [a]) (length l) = Ok a.
Proof. unfold index. by rewrite lookup_app_r, Nat.sub_diag by lia. Qed.

Lemma foldlM_app {A B} (f : B -> A -> res B) l1 l2 b :
  foldlM f b (l1 ++ l2) = foldlM f b l1 ≫= (fun b' => foldlM f b' l2).
Proof.
  revert b. induction l1 as [|a l1 IH]; intros b; simpl; [done|].
  destruct (f b a); simpl; auto.
Qed.

Lemma foldlM_fmap {A B C} (f : B -> C -> res B) (g : A -> C) l b :
  foldlM f b (g <$> l) = foldlM (fun b a => f b (g a)) b l.
Proof.
  revert b. induction l as [|a l IH]; intros b; [done|]. rewrite fmap_cons. simpl.
  destruct (f b (g a)); simpl; auto.
Qed.

(** A loop whose body never fails is a fold. *)
Lemma foldlM_Ok {A B} (f : B -> A -> res B) (g : B -> A -> B) l b :
  (forall b a, a ∈ l -> f b a = Ok (g b a)) ->
  foldlM f b l = Ok (foldl g b l).
Proof.
  revert b. induction l as [|a l IH]; intros b H; simpl; [done|].
  rewrite H by set_solver. simpl. apply IH. set_solver.
Qed.

(** Loop invariants. *)
Lemma foldlM_inv {A B} (P : B -> Prop) (f : B -> A -> res B) l b b' :
  P b ->
  (forall b a b', a ∈ l -> P b -> f b a = Ok b' -> P b') ->
  foldlM f b l = Ok b' -> P b'.
Proof.
  revert b. induction l as [|a l IH]; intros b Hb Hstep; simpl.
  { by intros [= <-]. }
  intros H. apply bind_Ok in H as (b1 & H1 & H2).
  eapply IH; [| |exact H2]; [|set_solver].
  eapply Hstep; [|done|done]. set_solver.
Qed.

(** Every iteration of a loop that returned has returned. *)
Lemma foldlM_Ok_all {A B} (f : B -> A -> res B) l b b' :
  foldlM f b l = Ok b' -> forall a, a ∈ l -> exists b1 b2, f b1 a = Ok b2.
Proof.
  revert b. induction l as [|x l IH]; intros b E a Ha; simpl in E; [set_solver|].
  apply bind_Ok in E as (b1 & E1 & E2). apply elem_of_cons in Ha as [->|Ha]; eauto.
Qed.

(** A loop whose body returns no error returns none. *)
Lemma foldlM_no_Err {A B} (f : B -> A -> res B) l b e :
  (forall b a e, f b a <> Err e) -> foldlM f b l <> Err e.
Proof.
  intros Hf. revert b. induction l as [|a l IH]; intros b; simpl; [done|].
  destruct (f b a) eqn:E; simpl; [apply IH| |done]. by apply Hf in E.
Qed.

Lemma mapM_cons_res {A B} (f : A -> res B) a l :
  mapM f (a :: l) = b ← f a; bs ← mapM f l; Ok (b :: bs).
Proof. done. Qed.

Lemma mapM_app_res {A B} (f : A -> res B) l1 l2 :
  mapM f (l1 ++ l2) = bs1 ← mapM f l1; bs2 ← mapM f l2; Ok (bs1 ++ bs2).
Proof.
  induction l1 as [|a l1 IH]; [by simpl; destruct (mapM f l2)|].
  rewrite <-app_comm_cons, !mapM_cons_res, IH.
  destruct (f a); [|done|done]. cbn [mbind res_bind].
  destruct (mapM f l1); [|done|done]. cbn [mbind res_bind].
  by destruct (mapM f l2).
Qed.

Lemma mapM_ext_res {A B} (f g : A -> res B) l :
  (forall a, a ∈ l -> f a = g a) -> mapM f l = mapM g l.
Proof.
  induction l as [|a l IH]; intros E; [done|].
  rewrite !mapM_cons_res, E, IH by set_solver. done.
Qed.

Lemma mapM_total {A B} (f : A -> res B) l :
  (forall a, a ∈ l -> exists b, f a = Ok b) ->
  exists bs, mapM f l = Ok bs /\ Forall2 (fun a b => f a = Ok b) l bs.
Proof.
  induction l as [|a l IH]; intros Hf; [by exists []|].
  destruct (Hf a) as [b Hb]; [by left|]. destruct IH as (bs & E & H2); [intros; apply Hf; by right|].
  exists (b :: bs). rewrite mapM_cons_res, Hb. cbn [mbind res_bind]. rewrite E. auto.
Qed.

Lemma mapM_Ok_Forall2 {A B} (f : A -> res B) l bs :
  mapM f l = Ok bs -> Forall2 (fun a b => f a = Ok b) l bs.
Proof.
  revert bs. induction l as [|a l IH]; intros bs E; [by injection E as <-|].
  rewrite mapM_cons_res in E. apply bind_Ok in E as (b & Hb & (bs' & E & [= <-])%bind_Ok). auto.
Qed.

Lemma mapM_Ok_elem {A B} (f : A -> res B) l bs b :
  mapM f l = Ok bs -> b ∈ bs -> exists a, a ∈ l /\ f a = Ok b.
Proof.
  revert bs. induction l as [|x l IH]; intros bs E Hb.
  { injection E as <-. set_solver. }
  rewrite mapM_cons_res in E. apply bind_Ok in E as (y & Ey & E).
  apply bind_Ok in E as (ys & Eys & [= <-]). apply elem_of_cons in Hb as [->|Hb].
  - exists x. split; [set_solver|done].
  - destruct (IH ys Eys Hb) as (a & Ha & E). exists a. split; [set_solver|done].
Qed.

Lemma mapM_fmap_res {A B C} (f : B -> res C) (g : A -> B) l :
  mapM f (g <$> l) = mapM (fun a => f (g a)) l.
Proof. induction l as [|a l IH]; [done|]. by rewrite fmap_cons, !mapM_cons_res, IH. Qed.

Lemma mapM_Ok {A B} (f : A -> res B) (g : A -> B) l :
  (forall a, a ∈ l -> f a = Ok (g a)) -> mapM f l = Ok (g <$> l).
Proof.
  induction l as [|a l IH]; intros H; [done|].
  simpl. rewrite H by set_solver. simpl. rewrite IH by set_solver. done.
Qed.

(** ** Lemmas on machine integers *)

Lemma int64_id x : in_int64 x -> int64 x = x.
Proof. unfold in_int64, int64. intros. rewrite Z.mod_small; lia. Qed.

Lemma int64_range x : in_int64 (int64 x).
Proof. unfold in_int64, int64. pose proof (Z.mod_pos_bound (x + 2^63) (2^64)). lia. Qed.

Lemma uint64_id x : in_uint64 x -> uint64 x = x.
Proof. unfold in_uint64, uint64. apply Z.mod_small. Qed.

#[export] Hint Resolve int64_id int64_range uint64_id : torus.

(** ** Lemmas on lists *)

Lemma foldl_ext {A B} (f g : B -> A -> B) l b :
  (forall b a, a ∈ l -> f b a = g b a) -> foldl f b l = foldl g b l.
Proof.
  revert b. induction l as [|a l IH]; intros b H; [done|].
  simpl. rewrite H by set_solver. apply IH. set_solver.
Qed.

Lemma lookup_fmap_Some_nat {A B} (f : A -> B) (l : list A) i b :
  (f <$> l) !! i = Some b <-> exists a, l !! i = Some a /\ f a = b.
Proof. rewrite list_lookup_fmap. destruct (l !! i); naive_solver. Qed.

Lemma Forall_fmap_all {A B} (P : B -> Prop) (f : A -> B) l :
  (forall a, P (f a)) -> Forall P (f <$> l).
Proof. intros H. apply Forall_fmap, Forall_true. intros a. apply H. Qed.

Lemma elem_of_zip_seq {A} (l : list A) k i a :
  (i, a) ∈ zip (seq k (length l)) l -> (k <= i)%nat /\ l !! (i - k)%nat = Some a.
Proof.
  revert k. induction l as [|x l IH]; intros k; simpl; [set_solver|].
  rewrite elem_of_cons. intros [[= -> ->]|Hin].
  - split; [lia|]. by rewrite Nat.sub_diag.
  - apply IH in Hin as [Hk Hl]. split; [lia|]. by replace (i - k)%nat with (S (i - S k)) by lia.
Qed.

Lemma snd_zip_seq {A} (l : list A) k : snd <$> zip (seq k (length l)) l = l.
Proof. apply snd_zip. by rewrite length_seq. Qed.

Lemma fmap_zip_seq {A B} (f : A -> B) (l : list A) k :
  (fun ia => f (snd ia)) <$> zip (seq k (length l)) l = f <$> l.
Proof. rewrite <-(snd_zip_seq l k) at 3. by rewrite <-list_fmap_compose. Qed.

(** A checking loop: stop at the first test that fails. *)
Fixpoint allM {A} (f : A -> res bool) (l : list A) : res bool :=
  match l with
  | [] => Ok true
  | a :: l' => b ← f a; if (b : bool) then allM f l' else Ok false
  end.

Lemma allM_true {A} (f : A -> res bool) l :
  (forall a, a ∈ l -> f a = Ok true) -> allM f l = Ok true.
Proof.
  induction l as [|a l IH]; intros E; simpl; [done|].
  rewrite E by set_solver. simpl. apply IH. set_solver.
Qed.

Lemma allM_true_inv {A} (f : A -> res bool) l :
  allM f l = Ok true -> forall a, a ∈ l -> f a = Ok true.
Proof.
  induction l as [|a l IH]; simpl; [set_solver|].
  intros (b & Hb & E)%bind_Ok. destruct b; [|done].
  intros a' [->|Hin]%elem_of_cons; auto.
Qed.

Lemma fmap_lookup_total_seq {A} `{Inhabited A} (l : list A) :
  (fun i => l !!! i) <$> seq 0 (length l) = l.
Proof.
  apply list_eq. intros i. rewrite list_lookup_fmap.
  destruct (decide (i < length l)%nat) as [Hi|Hi].
  - rewrite lookup_seq_lt, list_lookup_lookup_total_lt by done. done.
  - rewrite lookup_seq_ge, lookup_ge_None_2 by lia. done.
Qed.

Lemma index_total {A} `{Inhabited A} (l : list A) i :
  (i < length l)%nat -> index l i = Ok (l !!! i).
Proof. intros. apply index_Some. by apply list_lookup_lookup_total_lt. Qed.

Lemma foldl_sum {A} (f : A -> Z) b l :
  foldl (fun acc a => acc + f a) b l = b + foldr (fun a acc => f a + acc) 0 l.
Proof. revert b. induction l as [|a l IH]; intros b; simpl; [lia|]. rewrite IH. lia. Qed.

Lemma lookup_total_zip_with {A B C} `{Inhabited A, Inhabited B, Inhabited C}
    (f : A -> B -> C) l k i :
  (i < length l)%nat -> (i < length k)%nat ->
  zip_with f l k !!! i = f (l !!! i) (k !!! i).
Proof.
  intros Hl Hk. apply list_lookup_total_correct. rewrite lookup_zip_with.
  by rewrite !list_lookup_lookup_total_lt by done.
Qed.

Lemma lookup_total_fmap_lt {A B} {IA : Inhabited A} {IB : Inhabited B} (f : A -> B) (l : list A) i :
  (i < length l)%nat -> (f <$> l) !!! i = f (l !!! i).
Proof.
  intros Hi. apply list_lookup_total_correct.
  by rewrite list_lookup_fmap, list_lookup_lookup_total_lt.
Qed.
