(* ===== verification/BigInt.v ===== *)
(** Go's arithmetic and text conversions as the node uses them: the parts of
    [math/big], [strconv], [strings] and [encoding/hex] its code calls.

    A [big.Int] is a [Z]; a byte is a [Z] in [0, 256); a byte slice is a list
    of such.  [Mod] on a positive modulus is [Z.modulo] (both are Euclidean),
    so [Z.modulo] is used directly. *)
From Stdlib Require Import Zdivisibility.
From S2P Require Import Prelude.

(** ** Positional notation *)

(** Little-endian digits of a non-negative [n]; [fuel] bounds their number. *)
Fixpoint digits_fuel (base : Z) (fuel : nat) (n : Z) : list Z :=
  match fuel with
  | O => []
  | S f => if n <=? 0 then [] else n mod base :: digits_fuel base f (n / base)
  end.

(** A non-negative [n] has at most [log2 n + 1] digits in any base. *)
Definition digits (base n : Z) : list Z :=
  digits_fuel base (S (Z.to_nat (Z.log2 n))) n.

(** The value of little-endian digits. *)
Definition undigits (base : Z) (ds : list Z) : Z :=
  foldr (fun d acc => d + base * acc) 0 ds.

(** ** [math/big] *)

(** [x.Bytes()]: the absolute value, big-endian. *)
Definition Bytes (x : Z) : list Z := reverse (digits 256 (Z.abs x)).

(** [new(big.Int).SetBytes(bs)]. *)
Definition SetBytes (bs : list Z) : Z := undigits 256 (reverse bs).

(** [new(big.Int).Exp(x, y, m)] for [m > 0] and [y >= 0]. *)
Definition Exp (x y m : Z) : Z := (x ^ y) mod m.

(** [new(big.Int).ModInverse(g, n)]: [None] is Go's [nil], returned when [g]
    and [n] are not coprime.  The extended Euclidean loop keeps
    [r0 = a0 * g (mod n)] and [r1 = a1 * g (mod n)]. *)
Fixpoint egcd_fuel (fuel : nat) (r0 a0 r1 a1 : Z) : Z * Z :=
  match fuel with
  | O => (r0, a0)
  | S f =>
      if r1 =? 0 then (r0, a0)
      else egcd_fuel f r1 a1 (r0 mod r1) (a0 - r0 / r1 * a1)
  end.

Definition ModInverse (g n : Z) : option Z :=
  let '(d, a) := egcd_fuel (S (S (2 * Z.to_nat (Z.log2 n)))) n 0 (g mod n) 1 in
  if d =? 1 then Some (a mod n) else None.

(** ** Digits as text *)

Definition digit_char (d : Z) : ascii :=
  ascii_of_N (Z.to_N (if d <? 10 then 48 + d else 87 + d)).

(** The value of a digit in bases up to 36, upper or lower case. *)
Definition char_digit (c : ascii) : option Z :=
  let n := Z.of_N (N_of_ascii c) in
  if (48 <=? n) && (n <=? 57) then Some (n - 48)
  else if (97 <=? n) && (n <=? 122) then Some (n - 87)
  else if (65 <=? n) && (n <=? 90) then Some (n - 55)
  else None.

(** [x.Text(base)]. *)
Definition text (base x : Z) : list ascii :=
  (if x <? 0 then ["-"%char] else []) ++
  (if x =? 0 then ["0"%char]
   else digit_char <$> reverse (digits base (Z.abs x))).

(** An unsigned numeral: at least one digit, every digit below the base. *)
Fixpoint parse_digits (base acc : Z) (s : list ascii) : option Z :=
  match s with
  | [] => Some acc
  | c :: s' =>
      match char_digit c with
      | Some d => if d <? base then parse_digits base (acc * base + d) s' else None
      | None => None
      end
  end.

Definition parse_unsigned (base : Z) (s : list ascii) : option Z :=
  match s with
  | [] => None
  | _ => parse_digits base 0 s
  end.

(** An optional sign followed by a numeral that extends to the end. *)
Definition parse_signed (base : Z) (s : list ascii) : option Z :=
  match s with
  | c :: s' =>
      if decide (c = "-"%char) then Z.opp <$> parse_unsigned base s'
      else if decide (c = "+"%char) then parse_unsigned base s'
      else parse_unsigned base s
  | [] => None
  end.

(** Conversions between the two views of a string. *)
Definition chars (s : string) : list ascii := String.list_ascii_of_string s.
Definition unchars (l : list ascii) : string := String.string_of_list_ascii l.

(** [x.Text(16)]. *)
Definition Text16 (x : Z) : string := unchars (text 16 x).

(** [new(big.Int).SetString(s, 16)]; [None] when its second result is false. *)
Definition SetString16 (s : string) : option Z := parse_signed 16 (chars s).

(** [strconv.Itoa] and [strconv.Atoi]: a value outside [int] is an error. *)
Definition Itoa (x : Z) : string := unchars (text 10 x).

Definition Atoi (s : string) : option Z :=
  match parse_signed 10 (chars s) with
  | Some x => if (- 2 ^ 63 <=? x) && (x <? 2 ^ 63) then Some x else None
  | None => None
  end.

(** ** [strings.Split] and [strings.Join] for a one-byte separator *)

Fixpoint split_chars (sep : ascii) (s : list ascii) : list (list ascii) :=
  match s with
  | [] => [[]]
  | c :: s' =>
      if decide (c = sep) then [] :: split_chars sep s'
      else
        match split_chars sep s' with
        | [] => [[c]]
        | w :: ws => (c :: w) :: ws
        end
  end.

Fixpoint join_chars (sep : ascii) (ws : list (list ascii)) : list ascii :=
  match ws with
  | [] => []
  | [w] => w
  | w :: ws' => w ++ sep :: join_chars sep ws'
  end.

Definition Split (s : string) (sep : ascii) : list string :=
  unchars <$> split_chars sep (chars s).

Definition Join (ws : list string) (sep : ascii) : string :=
  unchars (join_chars sep (chars <$> ws)).

(** [hex.EncodeToString]: two lower-case digits per byte. *)
Definition HexEncode (bs : list Z) : string :=
  unchars (bs ≫= fun b => [digit_char (b / 16); digit_char (b mod 16)]).

(** [strings.Compare(a, b) < 0] on the bytes of the strings. *)
Fixpoint chars_ltb (a b : list ascii) : bool :=
  match a, b with
  | [], [] => false
  | [], _ :: _ => true
  | _ :: _, [] => false
  | c :: a', d :: b' =>
      let m := N_of_ascii c in
      let n := N_of_ascii d in
      if (m <? n)%N then true else if (n <? m)%N then false else chars_ltb a' b'
  end.

Definition string_ltb (a b : string) : bool := chars_ltb (chars a) (chars b).

(** ** Positional notation: round trips *)

Lemma digits_fuel_undigits base fuel n :
  2 <= base -> 0 <= n < 2 ^ Z.of_nat fuel ->
  undigits base (digits_fuel base fuel n) = n.
Proof.
  intros Hb. revert n. induction fuel as [|f IH]; intros n Hn; simpl.
  { change (2 ^ Z.of_nat 0) with 1 in Hn. lia. }
  destruct (Z.leb_spec n 0); simpl; [lia|].
  rewrite Nat2Z.inj_succ, Z.pow_succ_r in Hn by lia.
  rewrite IH.
  - pose proof (Z.div_mod n base). lia.
  - split; [apply Z.div_pos; lia|].
    apply Z.div_lt_upper_bound; [lia|]. nia.
Qed.

Lemma log2_fuel n : 0 <= n -> n < 2 ^ Z.of_nat (S (Z.to_nat (Z.log2 n))).
Proof.
  intros Hn. rewrite Nat2Z.inj_succ, Z2Nat.id by apply Z.log2_nonneg.
  destruct (decide (n = 0)) as [->|]; [done|].
  apply Z.log2_spec; lia.
Qed.

Lemma undigits_digits base n : 2 <= base -> 0 <= n -> undigits base (digits base n) = n.
Proof. intros. apply digits_fuel_undigits; [done|]. split; [done|]. by apply log2_fuel. Qed.

Lemma digits_fuel_range base fuel n :
  2 <= base -> Forall (fun d => 0 <= d < base) (digits_fuel base fuel n).
Proof.
  intros Hb. revert n. induction fuel as [|f IH]; intros n; simpl; [done|].
  destruct (n <=? 0); [done|]. constructor; [apply Z.mod_pos_bound; lia | auto].
Qed.

Lemma digits_range base n : 2 <= base -> Forall (fun d => 0 <= d < base) (digits base n).
Proof. apply digits_fuel_range. Qed.

Lemma digits_nonempty base n : 0 < n -> digits base n <> [].
Proof. intros Hn. unfold digits. simpl. destruct (Z.leb_spec n 0); [lia|done]. Qed.

Lemma SetBytes_Bytes x : SetBytes (Bytes x) = Z.abs x.
Proof. unfold SetBytes, Bytes. rewrite reverse_involutive. apply undigits_digits; lia. Qed.

Lemma undigits_app base l l' : undigits base (l ++ l') = undigits base l + base ^ Z.of_nat (length l) * undigits base l'.
Proof.
  induction l as [|d l IH]; [simpl; lia|]. change (undigits base ((d :: l) ++ l')) with (d + base * undigits base (l ++ l')).
  rewrite IH. change (undigits base (d :: l)) with (d + base * undigits base l).
  change (length (d :: l)) with (S (length l)). rewrite Nat2Z.inj_succ, Z.pow_succ_r by lia. lia.
Qed.

Lemma undigits_zeros base n : undigits base (replicate n 0) = 0.
Proof. induction n as [|n IH]; [done|]. change (0 + base * undigits base (replicate n 0) = 0). rewrite IH. lia. Qed.

(** Leading zeros do not count. *)
Lemma SetBytes_zeros n bs : SetBytes (replicate n 0 ++ bs) = SetBytes bs.
Proof.
  unfold SetBytes. rewrite reverse_app, undigits_app, reverse_replicate, undigits_zeros, Z.mul_0_r. apply Z.add_0_r.
Qed.

Lemma undigits_nonneg bs : Forall (fun b => 0 <= b < 256) bs -> 0 <= SetBytes bs.
Proof.
  intros H%Forall_reverse. unfold SetBytes, undigits. induction H; simpl; lia.
Qed.

Lemma Bytes_range x : Forall (fun b => 0 <= b < 256) (Bytes x).
Proof. unfold Bytes. apply Forall_reverse, digits_range. lia. Qed.

Lemma digits_fuel_length base fuel n k :
  2 <= base -> n < base ^ Z.of_nat k -> (length (digits_fuel base fuel n) <= k)%nat.
Proof.
  intros Hb. revert n k. induction fuel as [|f IH]; intros n k Hn; simpl; [lia|].
  destruct (Z.leb_spec n 0); simpl; [lia|]. destruct k as [|k].
  { rewrite Z.pow_0_r in Hn. lia. }
  rewrite Nat2Z.inj_succ, Z.pow_succ_r in Hn by lia.
  apply le_n_S, IH. apply Z.div_lt_upper_bound; lia.
Qed.

Lemma Bytes_length x k : 0 <= x < 256 ^ Z.of_nat k -> (length (Bytes x) <= k)%nat.
Proof.
  intros Hx. unfold Bytes. rewrite length_reverse. apply digits_fuel_length; [lia|].
  rewrite Z.abs_eq; lia.
Qed.

Lemma Bytes_nil x : Bytes x = [] <-> x = 0.
Proof.
  split; [|by intros ->].
  intros H. destruct (decide (x = 0)) as [|Hx]; [done|].
  exfalso. apply (digits_nonempty 256 (Z.abs x)); [lia|].
  unfold Bytes in H. apply (f_equal reverse) in H. by rewrite reverse_involutive in H.
Qed.

Lemma Bytes_inj x y : 0 <= x -> 0 <= y -> Bytes x = Bytes y -> x = y.
Proof. intros Hx Hy H%(f_equal SetBytes). rewrite !SetBytes_Bytes in H. lia. Qed.

(** ** [ModInverse] *)

(** The loop returns the gcd and a coefficient of [g] for it. *)
Lemma egcd_fuel_spec fuel n g r0 a0 r1 a1 d a :
  0 < n -> 0 <= r1 < r0 ->
  Z.log2 r0 + Z.log2 r1 < Z.of_nat fuel - 1 ->
  (n | r0 - a0 * g) -> (n | r1 - a1 * g) ->
  egcd_fuel fuel r0 a0 r1 a1 = (d, a) ->
  d = Z.gcd r0 r1 /\ (n | d - a * g).
Proof.
  intros Hn. revert r0 a0 r1 a1.
  induction fuel as [|f IH]; intros r0 a0 r1 a1 Hr Hf H0 H1; simpl.
  { pose proof (Z.log2_nonneg r0). pose proof (Z.log2_nonneg r1). lia. }
  destruct (Z.eqb_spec r1 0) as [->|Hr1].
  { intros [= <- <-]. rewrite Z.gcd_0_r, Z.abs_eq by lia. done. }
  intros H. pose proof (Z.mod_pos_bound r0 r1 ltac:(lia)) as Hm.
  apply IH in H as [Hd Ha]; [| lia | | done |].
  - split; [|done]. rewrite Hd, Z.gcd_comm, Z.gcd_mod by lia. apply Z.gcd_comm.
  - assert (Z.log2 (r0 mod r1) < Z.log2 r0); [|lia].
    assert (2 * (r0 mod r1) <= r0) as H2.
    { pose proof (Z.div_mod r0 r1 ltac:(lia)). pose proof (Z.div_le_lower_bound r0 r1 1). nia. }
    destruct (decide (r0 mod r1 = 0)) as [->|].
    + change (Z.log2 0) with 0. apply Z.log2_pos. lia.
    + pose proof (Z.log2_le_mono _ _ H2) as Hl.
      rewrite Z.log2_double in Hl by lia. lia.
  - replace (r0 mod r1 - (a0 - r0 / r1 * a1) * g)
      with ((r0 - a0 * g) - r0 / r1 * (r1 - a1 * g))
      by (pose proof (Z.div_mod r0 r1 ltac:(lia)); lia).
    apply Z.divide_sub_r; [done|]. by apply Z.divide_mul_r.
Qed.

Lemma ModInverse_spec g n :
  1 < n ->
  match ModInverse g n with
  | Some a => 0 <= a < n /\ (a * g) mod n = 1
  | None => Z.gcd g n <> 1
  end.
Proof.
  intros Hn. unfold ModInverse.
  destruct (egcd_fuel _ _ _ _ _) as [d a] eqn:E.
  pose proof (Z.mod_pos_bound g n ltac:(lia)) as Hg.
  apply (egcd_fuel_spec _ n g) in E as [Hd Ha]; [| lia | lia | | |].
  - rewrite Z.gcd_comm, Z.gcd_mod, Z.gcd_comm in Hd by lia.
    destruct (Z.eqb_spec d 1) as [->|]; [|lia].
    split; [apply Z.mod_pos_bound; lia|].
    rewrite Z.mul_mod_idemp_l by lia.
    destruct Ha as [k Hk]. replace (a * g) with (1 + (- k) * n) by lia.
    rewrite Z.mod_add by lia. apply Z.mod_small. lia.
  - pose proof (Z.log2_nonneg n).
    pose proof (Z.log2_le_mono (g mod n) n ltac:(lia)). lia.
  - exists 1. lia.
  - exists (- (g / n)). pose proof (Z.div_mod g n ltac:(lia)). lia.
Qed.

(** Every residue that is not zero has an inverse modulo a prime. *)
Lemma ModInverse_prime g p :
  Z.prime p -> g mod p <> 0 ->
  exists a, ModInverse g p = Some a /\ 0 <= a < p /\ (a * g) mod p = 1.
Proof.
  intros Hp Hg. pose proof (Z.prime_ge_2 p Hp).
  pose proof (ModInverse_spec g p ltac:(lia)) as H1.
  destruct (ModInverse g p) as [a|]; [by exists a|]. destruct H1.
  rewrite Z.gcd_comm. apply Z.coprime_prime_l; [done|].
  intros Hd. apply Hg. by apply Z.mod_divide; [lia|].
Qed.

(** ** Text: round trips *)

Lemma chars_unchars l : chars (unchars l) = l.
Proof. apply String.list_ascii_of_string_of_list_ascii. Qed.

Lemma unchars_chars s : unchars (chars s) = s.
Proof. apply String.string_of_list_ascii_of_string. Qed.

(** What a digit's character can be: the finite check behind the lemmas. *)
Definition digit_ok (d : Z) : bool :=
  bool_decide (char_digit (digit_char d) = Some d) &&
  (31 <? N_of_ascii (digit_char d))%N &&
  bool_decide (digit_char d <> "-"%char) && bool_decide (digit_char d <> "+"%char).

Lemma digit_ok_all d : 0 <= d < 36 -> digit_ok d = true.
Proof.
  intros Hd.
  assert (forallb digit_ok (seqZ 0 36) = true) as H by (vm_compute; reflexivity).
  apply (proj1 (List.forallb_forall _ _) H d).
  apply list_elem_of_In, elem_of_seqZ. lia.
Qed.

Lemma digit_char_spec d :
  0 <= d < 36 ->
  char_digit (digit_char d) = Some d /\ (31 < N_of_ascii (digit_char d))%N /\
  digit_char d <> "-"%char /\ digit_char d <> "+"%char.
Proof.
  intros Hd%digit_ok_all. unfold digit_ok in Hd.
  rewrite !andb_true_iff, !bool_decide_eq_true, N.ltb_lt in Hd. tauto.
Qed.

Lemma parse_digits_text base acc ds :
  2 <= base <= 36 -> Forall (fun d => 0 <= d < base) ds ->
  parse_digits base acc (digit_char <$> ds) =
    Some (foldl (fun a d => a * base + d) acc ds).
Proof.
  intros Hb. revert acc. induction ds as [|d ds IH]; intros acc H; [done|].
  apply Forall_cons_1 in H as [Hd H]. simpl.
  destruct (digit_char_spec d) as [-> _]; [lia|].
  destruct (Z.ltb_spec d base); [|lia]. by apply IH.
Qed.

Lemma foldl_undigits base ds :
  foldl (fun a d => a * base + d) 0 (reverse ds) = undigits base ds.
Proof.
  unfold undigits. induction ds as [|d ds IH]; [done|].
  rewrite reverse_cons, foldl_app. simpl. rewrite IH. lia.
Qed.

Lemma parse_unsigned_digits base n :
  2 <= base <= 36 -> 0 < n ->
  parse_unsigned base (digit_char <$> reverse (digits base n)) = Some n.
Proof.
  intros Hb Hn. unfold parse_unsigned.
  rewrite parse_digits_text, foldl_undigits, undigits_digits; try lia.
  - destruct (digit_char <$> _) eqn:E; [|done].
    apply fmap_nil_inv in E. apply (f_equal reverse) in E.
    rewrite reverse_involutive in E. by apply digits_nonempty in E.
  - apply Forall_reverse, digits_range. lia.
Qed.

(** A numeral starts with no sign. *)
Lemma parse_signed_unsigned base ds :
  2 <= base <= 36 -> Forall (fun d => 0 <= d < base) ds ->
  parse_signed base (digit_char <$> ds) = parse_unsigned base (digit_char <$> ds).
Proof.
  intros Hb H. destruct ds as [|d ds]; [done|]. apply Forall_cons_1 in H as [Hd H].
  destruct (digit_char_spec d) as (_ & _ & Hm & Hp); [lia|].
  unfold parse_signed. simpl. by rewrite !decide_False.
Qed.

Lemma parse_signed_text base x :
  2 <= base <= 36 -> parse_signed base (text base x) = Some x.
Proof.
  intros Hb. unfold text. destruct (Z.eqb_spec x 0) as [->|Hx].
  { change (parse_signed base ["0"%char] = Some 0). unfold parse_signed.
    rewrite !decide_False by done. cbn [parse_unsigned parse_digits].
    change (char_digit "0") with (Some 0); cbv beta iota.
    destruct (Z.ltb_spec 0 base); [f_equal; lia|lia]. }
  destruct (Z.ltb_spec x 0); simpl.
  - rewrite parse_unsigned_digits by lia. simpl. f_equal. lia.
  - rewrite parse_signed_unsigned, parse_unsigned_digits; try lia.
    + f_equal. lia.
    + apply Forall_reverse, digits_range. lia.
Qed.

Lemma SetString16_Text16 x : SetString16 (Text16 x) = Some x.
Proof. unfold SetString16, Text16. rewrite chars_unchars. by apply parse_signed_text. Qed.

Lemma Atoi_Itoa x : in_int64 x -> Atoi (Itoa x) = Some x.
Proof.
  intros H. unfold Atoi, Itoa. rewrite chars_unchars, parse_signed_text by lia.
  unfold in_int64 in H.
  destruct (Z.leb_spec (- 2 ^ 63) x), (Z.ltb_spec x (2 ^ 63)); try lia. done.
Qed.

(** A parsed [int] is in range. *)
Lemma Atoi_range s x : Atoi s = Some x -> in_int64 x.
Proof.
  unfold Atoi. destruct (parse_signed _ _) as [y|]; [|done].
  destruct (Z.leb_spec (- 2 ^ 63) y), (Z.ltb_spec y (2 ^ 63)); simpl; try done.
  intros [= <-]. done.
Qed.

Lemma text_no_sep base x sep :
  2 <= base <= 36 -> (N_of_ascii sep <= 31)%N -> sep ∉ text base x.
Proof.
  intros Hb Hs. unfold text. rewrite not_elem_of_app. split.
  - destruct (x <? 0); [|set_solver]. rewrite list_elem_of_singleton. by intros ->.
  - destruct (x =? 0); [rewrite list_elem_of_singleton; by intros ->|].
    rewrite list_elem_of_fmap. intros (d & -> & Hd).
    pose proof (digits_range base (Z.abs x) ltac:(lia)) as Hr.
    apply Forall_reverse in Hr. rewrite list.Forall_forall in Hr. apply Hr in Hd.
    destruct (digit_char_spec d) as (_ & H & _); lia.
Qed.

(** ** [Split] and [Join] *)

Lemma split_chars_nonempty sep s : split_chars sep s <> [].
Proof. destruct s as [|c s]; [done|]. simpl. destruct (decide _); [done|]. by destruct (split_chars sep s). Qed.

Lemma split_chars_word sep w : sep ∉ w -> split_chars sep w = [w].
Proof.
  induction w as [|c w IH]; intros H; [done|].
  rewrite not_elem_of_cons in H. destruct H as [H1 H2].
  simpl. rewrite decide_False by done. by rewrite IH.
Qed.

Lemma split_chars_app sep w s :
  sep ∉ w -> split_chars sep (w ++ sep :: s) = w :: split_chars sep s.
Proof.
  induction w as [|c w IH]; intros H; simpl; [by rewrite decide_True|].
  rewrite not_elem_of_cons in H. destruct H as [H1 H2].
  rewrite decide_False by done. by rewrite IH.
Qed.

Lemma split_join_chars sep ws :
  ws <> [] -> Forall (fun w => sep ∉ w) ws ->
  split_chars sep (join_chars sep ws) = ws.
Proof.
  induction ws as [|w ws IH]; [done|]. intros _ H.
  apply Forall_cons_1 in H as [Hw H]. destruct ws as [|w' ws].
  - by apply split_chars_word.
  - change (join_chars sep (w :: w' :: ws)) with (w ++ sep :: join_chars sep (w' :: ws)).
    rewrite split_chars_app by done. by rewrite IH.
Qed.

(** [Split] undoes [Join] when no word contains the separator. *)
Lemma join_split_chars sep s : join_chars sep (split_chars sep s) = s.
Proof.
  induction s as [|c s IH]; [done|]. simpl.
  pose proof (split_chars_nonempty sep s) as Hne. destruct (decide (c = sep)) as [->|Hc].
  - destruct (split_chars sep s) as [|w ws]; [done|]. by rewrite <-IH.
  - destruct (split_chars sep s) as [|w ws]; [done|]. rewrite <-IH. by destruct ws.
Qed.

Lemma Join_Split s sep : Join (Split s sep) sep = s.
Proof.
  unfold Join, Split. rewrite <-list_fmap_compose.
  rewrite (list_fmap_ext _ id) by (intros i x _; apply chars_unchars).
  by rewrite list_fmap_id, join_split_chars, unchars_chars.
Qed.

Lemma Split_Join ws sep :
  ws <> [] -> Forall (fun w => sep ∉ chars w) ws -> Split (Join ws sep) sep = ws.
Proof.
  intros Hn H. unfold Split, Join. rewrite chars_unchars, split_join_chars.
  - rewrite <-list_fmap_compose. rewrite <-(list_fmap_id ws) at 2.
    apply list_fmap_ext. intros ? x ?. apply unchars_chars.
  - by destruct ws.
  - by apply Forall_fmap.
Qed.

Lemma Itoa_no_sep x sep : (N_of_ascii sep <= 31)%N -> sep ∉ chars (Itoa x).
Proof. intros. unfold Itoa. rewrite chars_unchars. by apply text_no_sep. Qed.

Lemma Text16_no_sep x sep : (N_of_ascii sep <= 31)%N -> sep ∉ chars (Text16 x).
Proof. intros. unfold Text16. rewrite chars_unchars. by apply text_no_sep. Qed.

#[export] Hint Resolve Itoa_no_sep Text16_no_sep : torus.
