(* ===== verification/Field.v ===== *)
(** Arithmetic modulo the group order and polynomials over it: the mathematics
    behind the secret-sharing code.  [eqm q] is congruence modulo [q], a setoid
    coarser than equality; a polynomial is its list of coefficients, constant
    term first, as [PrimaryPolynomial.Coeff] holds it. *)
From Stdlib Require Import Zdivisibility ZArith.
From S2P Require Import Prelude BigInt.

Declare Scope torus_scope.
Delimit Scope torus_scope with torus.

(** ** Congruence *)

Definition eqm (q a b : Z) : Prop := (q | a - b).

Notation "a ≡[ q ] b" := (eqm q a b) (at level 70, q at level 30) : torus_scope.
Open Scope torus_scope.

(** Value of a polynomial, by Horner's rule. *)
Definition peval (p : list Z) (x : Z) : Z := foldr (fun c acc => c + x * acc) 0 p.

(** Sums and products over a list. *)
Definition sumZ {A} (f : A -> Z) (l : list A) : Z := foldr (fun a acc => f a + acc) 0 l.
Definition prodZ {A} (f : A -> Z) (l : list A) : Z := foldr (fun a acc => f a * acc) 1 l.

(** Abscissae that are pairwise distinct modulo [q]. *)
Definition distinct (q : Z) (xs : list Z) : Prop := NoDup ((fun x => x mod q) <$> xs).

(** The product of [t - x] over the abscissae other than [xi]. *)
Definition others (xs : list Z) (xi : Z) : list Z := filter (fun x => x <> xi) xs.
Definition node_poly (xs : list Z) (xi t : Z) : Z := prodZ (fun x => t - x) (others xs xi).

(** Quotient of [p] by [X - a] (synthetic division). *)
Fixpoint pquot (a : Z) (p : list Z) : list Z :=
  match p with
  | [] => []
  | c :: p' => match p' with [] => [] | _ => peval p' a :: pquot a p' end
  end.

(** [f] is a polynomial function with [n] coefficients. *)
Definition is_poly (q : Z) (n : nat) (f : Z -> Z) : Prop :=
  exists c, length c = n /\ forall x, f x ≡[q] peval c x.

(** ** [eqm] is a congruence *)

#[global] Instance eqm_equiv q : Equivalence (eqm q).
Proof.
  split; unfold eqm.
  - intros a. rewrite Z.sub_diag. apply Z.divide_0_r.
  - intros a b H. replace (b - a) with (- (a - b)) by lia. by apply Z.divide_opp_r.
  - intros a b c H1 H2. replace (a - c) with ((a - b) + (b - c)) by lia. by apply Z.divide_add_r.
Qed.

#[global] Instance eqm_add q : Proper (eqm q ==> eqm q ==> eqm q) Z.add.
Proof.
  intros a a' Ha b b' Hb. unfold eqm in *.
  replace (a + b - (a' + b')) with ((a - a') + (b - b')) by lia. by apply Z.divide_add_r.
Qed.

#[global] Instance eqm_mul q : Proper (eqm q ==> eqm q ==> eqm q) Z.mul.
Proof.
  intros a a' Ha b b' Hb. unfold eqm in *.
  replace (a * b - a' * b') with ((a - a') * b + a' * (b - b')) by lia.
  apply Z.divide_add_r; [by apply Z.divide_mul_l | by apply Z.divide_mul_r].
Qed.

#[global] Instance eqm_sub q : Proper (eqm q ==> eqm q ==> eqm q) Z.sub.
Proof.
  intros a a' Ha b b' Hb. unfold eqm in *.
  replace (a - b - (a' - b')) with ((a - a') - (b - b')) by lia. by apply Z.divide_sub_r.
Qed.

#[global] Instance eqm_opp q : Proper (eqm q ==> eqm q) Z.opp.
Proof. intros a a' Ha. rewrite <-(Z.sub_0_l a), <-(Z.sub_0_l a'). by f_equiv. Qed.

#[global] Instance eqm_pow q : Proper (eqm q ==> (=) ==> eqm q) Z.pow.
Proof.
  intros a a' Ha n ? <-. destruct (decide (0 <= n)) as [Hn|]; [|by rewrite !Z.pow_neg_r by lia].
  revert n Hn. apply natlike_ind; [by rewrite !Z.pow_0_r|].
  intros n Hn IH. rewrite !Z.pow_succ_r by done. rewrite IH. by apply eqm_mul.
Qed.

(** The same class, the same remainder. *)
Lemma eqm_mod_iff q a b : 0 < q -> a ≡[q] b <-> a mod q = b mod q.
Proof.
  intros Hq. unfold eqm. split.
  - intros [k Hk]. replace a with (b + k * q) by lia. apply Z.mod_add. lia.
  - intros H. apply Z.mod_divide; [lia|]. rewrite Zminus_mod, H, Z.sub_diag. apply Zmod_0_l.
Qed.

Lemma eqm_mod q a : a mod q ≡[q] a.
Proof.
  unfold eqm. destruct (decide (q = 0)) as [->|Hq].
  - rewrite Z.mod_0_r, Z.sub_diag. done.
  - exists (- (a / q)). pose proof (Z.div_mod a q Hq). lia.
Qed.

(** Reduced representatives of one class are equal. *)
Lemma eqm_small q a b : 0 <= a < q -> 0 <= b < q -> a ≡[q] b -> a = b.
Proof. intros Ha Hb H. apply eqm_mod_iff in H; [|lia]. by rewrite !Z.mod_small in H. Qed.

Lemma eqm_0_mul q a b : Z.prime q -> a * b ≡[q] 0 -> a ≡[q] 0 \/ b ≡[q] 0.
Proof.
  intros Hq. unfold eqm. rewrite !Z.sub_0_r. by apply Z.divide_prime_mul.
Qed.

Lemma eqm_sub_0 q a b : a - b ≡[q] 0 <-> a ≡[q] b.
Proof.
  split; intros H.
  - replace a with (a - b + b) by lia. by rewrite H.
  - rewrite H. by rewrite Z.sub_diag.
Qed.

#[export] Hint Resolve eqm_mod : torus.

(** ** Polynomials *)

#[global] Instance peval_proper q : Proper (Forall2 (eqm q) ==> eqm q ==> eqm q) peval.
Proof.
  intros p p' Hp x x' Hx. induction Hp as [|c c' p p' Hc Hp IH]; [done|].
  simpl. rewrite Hc, IH. by rewrite Hx.
Qed.

Lemma peval_cons c p x : peval (c :: p) x = c + x * peval p x.
Proof. done. Qed.

Lemma peval_app p r x : peval (p ++ r) x = peval p x + x ^ Z.of_nat (length p) * peval r x.
Proof.
  induction p as [|c p IH]; simpl; [lia|].
  rewrite IH, Nat2Z.inj_succ, Z.pow_succ_r by lia. lia.
Qed.

Lemma peval_replicate_0 n x : peval (replicate n 0) x = 0.
Proof. induction n; simpl; lia. Qed.

Lemma peval_insert l i v x :
  (i < length l)%nat ->
  peval (<[i:=v]> l) x = peval l x + (v - l !!! i) * x ^ Z.of_nat i.
Proof.
  revert i. induction l as [|c l IH]; intros i Hi; simpl in Hi; [lia|].
  destruct i as [|i]; simpl.
  - rewrite Z.pow_0_r. lia.
  - rewrite IH by lia. rewrite Nat2Z.inj_succ, Z.pow_succ_r by lia. lia.
Qed.

Lemma length_pquot a p : length (pquot a p) = Nat.pred (length p).
Proof. induction p as [|c [|d p] IH]; simpl in *; auto. Qed.

Lemma pquot_spec a p x : peval p x = peval p a + (x - a) * peval (pquot a p) x.
Proof.
  induction p as [|c p IH]; simpl; [lia|].
  destruct p as [|d p]; [simpl; lia|].
  change (peval (peval (d :: p) a :: pquot a (d :: p)) x)
    with (peval (d :: p) a + x * peval (pquot a (d :: p)) x).
  rewrite IH. lia.
Qed.

(** [p] is recovered from its quotient and its value at [a]. *)
Lemma pquot_zero q a p :
  peval p a ≡[q] 0 -> Forall (fun c => c ≡[q] 0) (pquot a p) -> Forall (fun c => c ≡[q] 0) p.
Proof.
  induction p as [|c p IH]; [constructor|]. simpl. intros H0 H.
  destruct p as [|d p].
  - constructor; [|done]. simpl in H0. by replace (c + a * 0) with c in H0 by lia.
  - apply Forall_cons_1 in H as [H1 H2].
    assert (Forall (fun c => c ≡[q] 0) (d :: p)) as Hp by (by apply IH).
    constructor; [|done]. rewrite H1 in H0.
    by replace (c + a * 0) with c in H0 by lia.
Qed.

(** A polynomial with more roots than its degree is zero. *)
Lemma roots_zero q xs p :
  Z.prime q -> distinct q xs -> (length p <= length xs)%nat ->
  (forall x, x ∈ xs -> peval p x ≡[q] 0) -> Forall (fun c => c ≡[q] 0) p.
Proof.
  intros Hq. revert p. induction xs as [|a xs IH]; intros p Hd Hl H.
  { destruct p; simpl in Hl; [constructor|lia]. }
  unfold distinct in Hd. rewrite fmap_cons, list.NoDup_cons in Hd. destruct Hd as [Ha Hd].
  apply (pquot_zero q a); [apply H; set_solver|].
  apply IH; [done| |].
  { rewrite length_pquot. simpl in Hl. lia. }
  intros x Hx. pose proof (pquot_spec a p x) as Hs.
  assert ((x - a) * peval (pquot a p) x ≡[q] 0) as Hm.
  { replace ((x - a) * peval (pquot a p) x) with (peval p x - peval p a) by lia.
    rewrite !H by set_solver. done. }
  apply eqm_0_mul in Hm as [Hm|]; [|done|done]. exfalso. apply Ha.
  rewrite eqm_sub_0, eqm_mod_iff in Hm by (pose proof (Z.prime_ge_2 q Hq); lia).
  rewrite <-Hm. by apply (list_elem_of_fmap_2 (fun x => x mod q)).
Qed.

Lemma peval_zero q p x : Forall (fun c => c ≡[q] 0) p -> peval p x ≡[q] 0.
Proof.
  induction 1 as [|c p Hc Hp IH]; [done|]. simpl. rewrite Hc, IH. by rewrite Z.mul_0_r.
Qed.

Definition psub (p r : list Z) : list Z := zip_with Z.sub p r.

Lemma peval_psub p r x : length p = length r -> peval (psub p r) x = peval p x - peval r x.
Proof.
  revert r. induction p as [|c p IH]; intros [|d r] Hl; simplify_eq/=; [lia|].
  unfold psub in *. rewrite IH by done. lia.
Qed.

(** Coefficients are determined by enough values. *)
Lemma poly_unique q xs p r :
  Z.prime q -> distinct q xs -> length p = length r -> (length p <= length xs)%nat ->
  (forall x, x ∈ xs -> peval p x ≡[q] peval r x) -> Forall2 (eqm q) p r.
Proof.
  intros Hq Hd Hlen Hl H.
  assert (Forall (fun c => c ≡[q] 0) (psub p r)) as Hz.
  { apply (roots_zero q xs); [done|done| |].
    - unfold psub. rewrite length_zip_with. lia.
    - intros x Hx. rewrite peval_psub by done. by apply eqm_sub_0, H. }
  clear -Hlen Hz. revert r Hlen Hz. induction p as [|c p IH]; intros [|d r] Hlen Hz; simplify_eq/=; [done|].
  apply Forall_cons_1 in Hz as [H1 H2]. constructor; [by apply eqm_sub_0|]. by apply IH.
Qed.

(** ** Polynomial functions *)

Lemma is_poly_ext q n f g : (forall x, f x ≡[q] g x) -> is_poly q n g -> is_poly q n f.
Proof. intros H (c & Hl & Hc). exists c. split; [done|]. intros x. by rewrite H. Qed.

Lemma is_poly_peval q p n : (length p <= n)%nat -> is_poly q n (peval p).
Proof.
  intros H. exists (p ++ replicate (n - length p) 0). split.
  - rewrite length_app, length_replicate. lia.
  - intros x. rewrite peval_app, peval_replicate_0. by rewrite Z.mul_0_r, Z.add_0_r.
Qed.

Lemma is_poly_add q n f g : is_poly q n f -> is_poly q n g -> is_poly q n (fun x => f x + g x).
Proof.
  intros (c & Hl & Hc) (d & Hl' & Hd). exists (zip_with Z.add c d). split.
  { rewrite length_zip_with. lia. }
  intros x. rewrite Hc, Hd. clear -Hl Hl'.
  assert (peval (zip_with Z.add c d) x = peval c x + peval d x) as ->; [|done].
  revert d n Hl Hl'. induction c as [|a c IH]; intros [|b d] n Hl Hl'; simplify_eq/=; [lia|].
  rewrite (IH d (length c)) by lia. lia.
Qed.

Lemma is_poly_scale q n k f : is_poly q n f -> is_poly q n (fun x => k * f x).
Proof.
  intros (c & Hl & Hc). exists (Z.mul k <$> c). rewrite length_fmap. split; [done|].
  intros x. rewrite Hc.
  assert (peval (Z.mul k <$> c) x = k * peval c x) as ->; [|done].
  clear. induction c as [|a c IH]; csimpl; [lia|]. rewrite IH. lia.
Qed.

Lemma is_poly_shift q n f : is_poly q n f -> is_poly q (S n) (fun x => x * f x).
Proof.
  intros (c & Hl & Hc). exists (0 :: c). simpl. split; [lia|].
  intros x. rewrite Hc. by rewrite Z.add_0_l.
Qed.

Lemma is_poly_weaken q n f : is_poly q n f -> is_poly q (S n) f.
Proof.
  intros (c & Hl & Hc). destruct (is_poly_peval q c (S n)) as (d & Hd & He); [lia|].
  exists d. split; [done|]. intros x. by rewrite Hc, He.
Qed.

Lemma is_poly_lin q n a f : is_poly q n f -> is_poly q (S n) (fun x => (x - a) * f x).
Proof.
  intros H. apply (is_poly_ext q _ _ (fun x => x * f x + (- a) * f x)).
  { intros x. by replace ((x - a) * f x) with (x * f x + - a * f x) by lia. }
  apply is_poly_add; [by apply is_poly_shift|]. by apply is_poly_weaken, is_poly_scale.
Qed.

Lemma is_poly_sum {A} q n (f : A -> Z -> Z) l :
  (forall a, a ∈ l -> is_poly q n (f a)) -> is_poly q n (fun x => sumZ (fun a => f a x) l).
Proof.
  induction l as [|a l IH]; intros H; simpl.
  - apply (is_poly_ext q n _ (peval [])); [done|]. apply is_poly_peval. simpl. lia.
  - apply is_poly_add; [apply H | apply IH]; set_solver.
Qed.

Lemma is_poly_prod q l : is_poly q (S (length l)) (fun x => prodZ (fun a => x - a) l).
Proof.
  induction l as [|a l IH]; simpl.
  - apply (is_poly_ext q 1 _ (peval [1])); [intros x; cbn [peval foldr]; by rewrite Z.mul_0_r|].
    by apply is_poly_peval.
  - by apply (is_poly_lin q _ a).
Qed.

(** ** Lagrange interpolation *)

Lemma distinct_mod_inj q xs x y :
  distinct q xs -> x ∈ xs -> y ∈ xs -> x mod q = y mod q -> x = y.
Proof.
  unfold distinct. induction xs as [|a xs IH]; [set_solver|].
  rewrite fmap_cons, list.NoDup_cons. intros [Ha Hd] Hx Hy He.
  rewrite elem_of_cons in Hx, Hy. destruct Hx as [->|Hx], Hy as [->|Hy]; auto.
  - destruct Ha. rewrite He. by apply (list_elem_of_fmap_2 (fun x => x mod q)).
  - destruct Ha. rewrite <-He. by apply (list_elem_of_fmap_2 (fun x => x mod q)).
Qed.

Lemma distinct_NoDup q xs : distinct q xs -> NoDup xs.
Proof. apply NoDup_fmap_1. Qed.

Lemma length_others xs xi : NoDup xs -> xi ∈ xs -> S (length (others xs xi)) = length xs.
Proof.
  unfold others. induction xs as [|a xs IH]; [set_solver|].
  rewrite list.NoDup_cons. intros [Ha Hd] Hx. rewrite filter_cons.
  destruct (decide (a = xi)) as [->|Hne].
  - rewrite decide_False by auto. simpl. f_equal.
    clear -Ha. induction xs as [|b xs IH]; [done|]. rewrite filter_cons, decide_True by set_solver.
    simpl. f_equal. apply IH. set_solver.
  - rewrite decide_True by done. simpl. f_equal. apply IH; set_solver.
Qed.

Lemma prodZ_zero {A} (f : A -> Z) l a : a ∈ l -> f a = 0 -> prodZ f l = 0.
Proof.
  induction l as [|b l IH]; [set_solver|]. simpl. intros Hin H0.
  apply elem_of_cons in Hin as [->|Hin]; [by rewrite H0|]. rewrite IH by done. lia.
Qed.

Lemma prodZ_eqm_zero {A} q (f : A -> Z) l a : a ∈ l -> f a ≡[q] 0 -> prodZ f l ≡[q] 0.
Proof.
  induction l as [|b l IH]; [set_solver|]. simpl. intros Hin H0.
  apply elem_of_cons in Hin as [->|Hin]; [by rewrite H0, Z.mul_0_l|].
  by rewrite IH, Z.mul_0_r by done.
Qed.

Lemma prodZ_nonzero {A} q (f : A -> Z) l :
  Z.prime q -> (forall a, a ∈ l -> ~ f a ≡[q] 0) -> ~ prodZ f l ≡[q] 0.
Proof.
  intros Hq. pose proof (Z.prime_ge_2 q Hq). induction l as [|b l IH]; simpl; intros H0 H1.
  - apply eqm_mod_iff in H1; [|lia]. rewrite !Z.mod_small in H1; lia.
  - apply eqm_0_mul in H1 as [H1|H1]; [| |done].
    + by apply (H0 b); [set_solver|].
    + apply IH; [set_solver|done].
Qed.

Lemma node_poly_other xs xi xk : xk ∈ xs -> xk <> xi -> node_poly xs xi xk = 0.
Proof.
  intros Hk Hne. apply (prodZ_zero _ _ xk); [|lia].
  unfold others. apply list_elem_of_filter. done.
Qed.

Lemma node_poly_self q xs xi :
  Z.prime q -> distinct q xs -> xi ∈ xs -> ~ node_poly xs xi xi ≡[q] 0.
Proof.
  intros Hq Hd Hi. apply prodZ_nonzero; [done|].
  intros a Ha H. unfold others in Ha. apply list_elem_of_filter in Ha as [Hne Ha].
  rewrite eqm_sub_0, eqm_mod_iff in H by (pose proof (Z.prime_ge_2 q Hq); lia).
  by apply Hne, (distinct_mod_inj q xs).
Qed.

Lemma sumZ_ext {A} q (f g : A -> Z) l :
  (forall a, a ∈ l -> f a ≡[q] g a) -> sumZ f l ≡[q] sumZ g l.
Proof.
  induction l as [|a l IH]; simpl; intros H; [done|].
  rewrite IH by set_solver. rewrite H by set_solver. done.
Qed.

(** A sum with at most one class of non-zero terms. *)
Lemma sumZ_single {A} q (f : A -> Z) l a :
  NoDup l -> a ∈ l -> (forall b, b ∈ l -> b <> a -> f b ≡[q] 0) -> sumZ f l ≡[q] f a.
Proof.
  induction l as [|b l IH]; [set_solver|]. rewrite list.NoDup_cons. simpl.
  intros [Hb Hd] Ha H. apply elem_of_cons in Ha as [->|Ha].
  - assert (sumZ f l ≡[q] 0) as ->; [|by rewrite Z.add_0_r].
    clear IH Hd. induction l as [|c l IH]; [done|]. simpl. rewrite IH by set_solver.
    by rewrite H by set_solver.
  - rewrite IH by set_solver. rewrite H by set_solver. by rewrite Z.add_0_l.
Qed.

(** Lagrange's formula with inverses [inv xi] of the node products recovers a
    polynomial from its values at enough distinct abscissae, at every target. *)
Theorem lagrange q xs p (inv : Z -> Z) t :
  Z.prime q -> distinct q xs -> (length p <= length xs)%nat ->
  (forall xi, xi ∈ xs -> inv xi * node_poly xs xi xi ≡[q] 1) ->
  sumZ (fun xi => peval p xi * (node_poly xs xi t * inv xi)) xs ≡[q] peval p t.
Proof.
  intros Hq Hd Hl Hinv.
  set (f := fun t => sumZ (fun xi => peval p xi * (node_poly xs xi t * inv xi)) xs).
  assert (is_poly q (length xs) (fun t => f t + (-1) * peval p t)) as (c & Hc & Hf).
  { apply is_poly_add; [|by apply is_poly_scale, is_poly_peval].
    apply is_poly_sum. intros xi Hi. apply is_poly_scale.
    apply (is_poly_ext q _ _ (fun t => inv xi * node_poly xs xi t)); [intros; by rewrite Z.mul_comm|].
    apply is_poly_scale. rewrite <-(length_others xs xi); [|by apply (distinct_NoDup q)|done].
    apply is_poly_prod. }
  assert (Forall (fun a => a ≡[q] 0) c) as Hz.
  { apply (roots_zero q xs); [done|done|lia|]. intros x Hx. rewrite <-Hf.
    assert (f x ≡[q] peval p x) as ->; [|by replace (peval p x + -1 * peval p x) with 0 by lia].
    unfold f. rewrite (sumZ_single q _ xs x); [|by apply (distinct_NoDup q)|done|].
    - rewrite (Z.mul_comm (node_poly _ _ _)), Hinv by done. by rewrite Z.mul_1_r.
    - intros b Hb Hne. rewrite node_poly_other by done. by rewrite Z.mul_0_l, Z.mul_0_r. }
  apply eqm_sub_0. fold (f t). specialize (Hf t). rewrite (peval_zero q c t) in Hf by done.
  by replace (f t - peval p t) with (f t + -1 * peval p t) by lia.
Qed.

(** ** Prefixes of a coefficient list *)

Lemma peval_take_S p i c x :
  p !! i = Some c -> peval (take (S i) p) x = peval (take i p) x + c * x ^ Z.of_nat i.
Proof.
  intros Hi. rewrite (take_S_r _ _ _ Hi), peval_app, length_take.
  apply lookup_lt_Some in Hi. rewrite Nat.min_l by lia. cbn [peval foldr]. lia.
Qed.

Lemma peval_eqm q p x y : x ≡[q] y -> peval p x ≡[q] peval p y.
Proof. intros E. induction p as [|c p IH]; [done|]. cbn [peval foldr] in *. by rewrite E, IH. Qed.

#[global] Instance peval_proper_r q p : Proper (eqm q ==> eqm q) (peval p).
Proof. intros x y. apply peval_eqm. Qed.

Lemma prodZ_eqm {A} q (f g : A -> Z) l :
  (forall a, a ∈ l -> f a ≡[q] g a) -> prodZ f l ≡[q] prodZ g l.
Proof.
  induction l as [|a l IH]; simpl; intros E; [done|].
  rewrite IH by set_solver. rewrite E by set_solver. done.
Qed.

Lemma prodZ_app {A} (f : A -> Z) l1 l2 : prodZ f (l1 ++ l2) = prodZ f l1 * prodZ f l2.
Proof. induction l1 as [|a l1 IH]; simpl; [lia|]. rewrite IH. lia. Qed.

Lemma sumZ_app {A} (f : A -> Z) l1 l2 : sumZ f (l1 ++ l2) = sumZ f l1 + sumZ f l2.
Proof. induction l1 as [|a l1 IH]; simpl; [lia|]. rewrite IH. lia. Qed.

Lemma sumZ_fmap {A B} (f : B -> Z) (g : A -> B) l : sumZ f (g <$> l) = sumZ (fun a => f (g a)) l.
Proof. induction l as [|a l IH]; csimpl; [done|]. by rewrite IH. Qed.

Lemma sumZ_perm {A} (f : A -> Z) l1 l2 : l1 ≡ₚ l2 -> sumZ f l1 = sumZ f l2.
Proof. induction 1; simpl; lia. Qed.

Lemma prodZ_perm {A} (f : A -> Z) l1 l2 : l1 ≡ₚ l2 -> prodZ f l1 = prodZ f l2.
Proof. induction 1; simpl; lia. Qed.

(** A polynomial as the sum of its monomials. *)
Lemma peval_sum p x :
  peval p x = sumZ (fun ic => snd ic * x ^ Z.of_nat (fst ic)) (zip (seq 0 (length p)) p).
Proof.
  induction p as [|c p IH] using rev_ind; [done|].
  rewrite peval_app, IH, length_app. simpl length. rewrite seq_app.
  rewrite zip_with_app by (by rewrite length_seq). rewrite sumZ_app. simpl. lia.
Qed.

Lemma peval_sum_fmap {A} (g : A -> Z) l x :
  peval (g <$> l) x =
    sumZ (fun ia => g (snd ia) * x ^ Z.of_nat (fst ia)) (zip (seq 0 (length l)) l).
Proof.
  rewrite peval_sum, length_fmap.
  generalize (seq 0 (length l)) as k. clear. induction l as [|a l IH]; intros [|i k]; csimpl; auto.
  by rewrite IH.
Qed.

Lemma sumZ_nonneg {A} (f : A -> Z) l : (forall a, a ∈ l -> 0 <= f a) -> 0 <= sumZ f l.
Proof.
  induction l as [|a l IH]; intros E; simpl; [done|].
  pose proof (E a ltac:(set_solver)). pose proof (IH ltac:(set_solver)). lia.
Qed.

Lemma sumZ_ext_eq {A} (f g : A -> Z) l :
  (forall a, a ∈ l -> f a = g a) -> sumZ f l = sumZ g l.
Proof.
  induction l as [|a l IH]; simpl; intros E; [done|].
  rewrite IH by set_solver. by rewrite E by set_solver.
Qed.

Lemma sumZ_mul {A} k (f : A -> Z) l : sumZ (fun a => k * f a) l = k * sumZ f l.
Proof. induction l as [|a l IH]; simpl; [lia|]. rewrite IH. lia. Qed.
