(* ===== verification/Curve.v ===== *)
(** The interface of the elliptic-curve library the node builds on.

    [secp256k1] and [common.Point] come from the torus-common package, which is
    not part of this repository.  [Secp256k1] is the record of operations the
    node calls and [Secp256k1Laws] what it relies on: the points of the curve,
    with (0, 0) standing for the point at infinity, form a group of prime order
    in which every [ScalarMult] by a big-endian byte string is iterated addition.
    The protocol theorems are proved against this interface.  [Toy] is a concrete
    instance (y^2 = x^3 + 7 over the field with 43 elements, a curve of 31 points)
    that discharges every law, so the theorems can be evaluated. *)
From Stdlib Require Import Zdivisibility ZArith.
From S2P Require Import Prelude BigInt Field.

(** [common.Point]. *)
Record Point := mkPoint { PX : Z; PY : Z }.

#[global] Instance Point_eq_dec : EqDecision Point.
Proof. solve_decision. Defined.

#[global] Instance Point_inhabited : Inhabited Point := populate (mkPoint 0 0).

(** The zero value of [common.Point], which is also the point at infinity. *)
Definition PointO : Point := mkPoint 0 0.

(** ** Operations *)

Class Secp256k1 := {
  GeneratorOrder : Z;
  FieldOrder : Z;
  secp_G : Point;
  secp_H : Point;
  CurveAdd : Point -> Point -> Point;
  ScalarMult : Point -> list Z -> Point;
  ScalarBaseMult : list Z -> Point;
  Keccak256 : list Z -> list Z;
}.

(** The inverse as the node computes it: the ordinate negated modulo the field
    order. *)
Definition negP `{Secp256k1} (P : Point) : Point :=
  mkPoint (PX P) ((- PY P) mod FieldOrder).

(** Scalar multiplication by an integer, as a specification. *)
Definition smul `{Secp256k1} (k : Z) (P : Point) : Point :=
  Nat.iter (Z.to_nat (k mod GeneratorOrder)) (CurveAdd P) PointO.

Infix "⊕" := CurveAdd (at level 50, left associativity) : torus_scope.
Infix "⊙" := smul (at level 40, left associativity) : torus_scope.

(** ** Laws *)

Class Secp256k1Laws `{Secp256k1} := {
  on_curve : Point -> Prop;
  order_prime : Z.prime GeneratorOrder;
  O_on_curve : on_curve PointO;
  G_on_curve : on_curve secp_G;
  H_on_curve : on_curve secp_H;
  Add_on_curve P Q : on_curve P -> on_curve Q -> on_curve (P ⊕ Q);
  Add_comm P Q : on_curve P -> on_curve Q -> P ⊕ Q = Q ⊕ P;
  Add_assoc P Q R :
    on_curve P -> on_curve Q -> on_curve R -> P ⊕ (Q ⊕ R) = (P ⊕ Q) ⊕ R;
  Add_O_l P : on_curve P -> PointO ⊕ P = P;
  Neg_on_curve P : on_curve P -> on_curve (negP P);
  Add_neg P : on_curve P -> P ⊕ negP P = PointO;
  order_kills P :
    on_curve P -> Nat.iter (Z.to_nat GeneratorOrder) (CurveAdd P) PointO = PointO;
  ScalarMult_spec P k :
    on_curve P -> Forall (fun b => 0 <= b < 256) k ->
    ScalarMult P k = Nat.iter (Z.to_nat (SetBytes k)) (CurveAdd P) PointO;
  ScalarBaseMult_spec k : ScalarBaseMult k = ScalarMult secp_G k;
  G_not_O : secp_G <> PointO;
  coordinate_bound P : on_curve P -> 0 <= PX P < 2 ^ 256;
  abscissa_reduced P : on_curve P -> PX P mod FieldOrder = PX P;
  Keccak256_bytes bs : Forall (fun b => 0 <= b < 256) (Keccak256 bs);
}.

(** A sum of points, in the order the code accumulates it. *)
Definition sumP `{Secp256k1} (l : list Point) : Point := foldl CurveAdd PointO l.

(** ** The group action *)

Section group.
Context {SO : Secp256k1} {SL : Secp256k1Laws}.

Local Abbreviation q := GeneratorOrder.
Local Abbreviation iterP n P := (Nat.iter n (CurveAdd P) PointO).

Lemma order_ge_2 : 2 <= q.
Proof. apply Z.prime_ge_2, order_prime. Qed.

Lemma mod_order_bound a : 0 <= a mod q < q.
Proof. apply Z.mod_pos_bound. pose proof order_ge_2. lia. Qed.

Lemma iter_on_curve n P : on_curve P -> on_curve (iterP n P).
Proof. intros HP. induction n; simpl; auto using O_on_curve, Add_on_curve. Qed.

Lemma Add_O_r P : on_curve P -> P ⊕ PointO = P.
Proof. intros. rewrite Add_comm, Add_O_l; auto using O_on_curve. Qed.

Lemma iter_add n m P : on_curve P -> iterP (n + m) P = iterP n P ⊕ iterP m P.
Proof.
  intros HP. induction n as [|n IH]; simpl.
  - rewrite Add_O_l; auto using iter_on_curve.
  - rewrite IH, Add_assoc; auto using iter_on_curve.
Qed.

Lemma iter_mul_order n P : on_curve P -> iterP (n * Z.to_nat q) P = PointO.
Proof.
  intros HP. induction n as [|n IH]; simpl; [done|].
  rewrite iter_add, IH, order_kills, Add_O_r; auto using O_on_curve.
Qed.

(** Iterated addition only depends on the class of the multiplier. *)
Lemma iter_mod n P : on_curve P -> iterP n P = Z.of_nat n ⊙ P.
Proof.
  intros HP. unfold smul. pose proof order_ge_2.
  assert (iterP n P = iterP (Z.to_nat q * (n / Z.to_nat q) + n mod Z.to_nat q) P) as ->
    by (f_equal; apply Nat.div_mod_eq).
  rewrite iter_add, (Nat.mul_comm (Z.to_nat q)), iter_mul_order, Add_O_l; auto using iter_on_curve.
  f_equal. rewrite <-(Nat2Z.id (n mod Z.to_nat q)), Nat2Z.inj_mod, Z2Nat.id by lia. done.
Qed.

Lemma smul_on_curve k P : on_curve P -> on_curve (k ⊙ P).
Proof. apply iter_on_curve. Qed.

Lemma smul_eqm a b P : a ≡[q] b -> a ⊙ P = b ⊙ P.
Proof. intros E. unfold smul. apply eqm_mod_iff in E; [by rewrite E|]. pose proof order_ge_2. lia. Qed.

#[global] Instance smul_proper : Proper (eqm q ==> (=) ==> (=)) smul.
Proof. intros a b E P ? <-. by apply smul_eqm. Qed.

Lemma smul_iter k P : 0 <= k -> on_curve P -> k ⊙ P = iterP (Z.to_nat k) P.
Proof. intros Hk HP. rewrite iter_mod by done. by rewrite Z2Nat.id. Qed.

Lemma smul_add a b P : on_curve P -> (a + b) ⊙ P = a ⊙ P ⊕ b ⊙ P.
Proof.
  intros HP. pose proof order_ge_2.
  pose proof (mod_order_bound a). pose proof (mod_order_bound b).
  rewrite <-(eqm_mod q a), <-(eqm_mod q b), !smul_iter, Z2Nat.inj_add by (try lia; done).
  by apply iter_add.
Qed.

Lemma smul_0 P : 0 ⊙ P = PointO.
Proof. unfold smul. by rewrite Zmod_0_l. Qed.

Lemma smul_1 P : on_curve P -> 1 ⊙ P = P.
Proof. intros. rewrite smul_iter by done. change (P ⊕ PointO = P). by apply Add_O_r. Qed.

Lemma smul_O k : k ⊙ PointO = PointO.
Proof.
  unfold smul. induction (Z.to_nat (k mod q)) as [|n IH]; simpl; [done|].
  rewrite IH. apply Add_O_l, O_on_curve.
Qed.

Lemma smul_mul a b P : on_curve P -> (a * b) ⊙ P = a ⊙ (b ⊙ P).
Proof.
  intros HP. pose proof order_ge_2.
  pose proof (mod_order_bound a) as Ha.
  rewrite <-(eqm_mod q a). revert Ha. generalize (a mod q) as n. intros n [Hn _]. revert n Hn.
  apply natlike_ind; [by rewrite Z.mul_0_l, !smul_0|].
  intros n Hn IH. rewrite Z.mul_succ_l, smul_add, IH by done.
  rewrite <-Z.add_1_r, smul_add, smul_1; auto using smul_on_curve.
Qed.

Lemma Add_swap P Q R S :
  on_curve P -> on_curve Q -> on_curve R -> on_curve S ->
  (P ⊕ Q) ⊕ (R ⊕ S) = (P ⊕ R) ⊕ (Q ⊕ S).
Proof.
  intros. rewrite !Add_assoc by auto using Add_on_curve.
  rewrite <-(Add_assoc P Q R), (Add_comm Q R), Add_assoc by auto. done.
Qed.

Lemma smul_Add k P Q : on_curve P -> on_curve Q -> k ⊙ (P ⊕ Q) = k ⊙ P ⊕ k ⊙ Q.
Proof.
  intros HP HQ. pose proof order_ge_2.
  pose proof (mod_order_bound k) as Ha.
  rewrite <-(eqm_mod q k). revert Ha. generalize (k mod q) as n. intros n [Hn _]. revert n Hn.
  apply natlike_ind; [rewrite !smul_0, Add_O_l; auto using O_on_curve|].
  intros n Hn IH. rewrite <-Z.add_1_r, !smul_add, IH, !smul_1 by auto using Add_on_curve.
  apply Add_swap; auto using smul_on_curve.
Qed.

(** The library's scalar multiplication, on a non-negative integer's bytes. *)
Lemma ScalarMult_Bytes x P : on_curve P -> 0 <= x -> ScalarMult P (Bytes x) = x ⊙ P.
Proof.
  intros HP Hx. rewrite ScalarMult_spec, SetBytes_Bytes, Z.abs_eq by auto using Bytes_range.
  symmetry. by apply smul_iter.
Qed.

Lemma ScalarBaseMult_Bytes x : 0 <= x -> ScalarBaseMult (Bytes x) = x ⊙ secp_G.
Proof. intros. rewrite ScalarBaseMult_spec. apply ScalarMult_Bytes; auto using G_on_curve. Qed.

(** The opposite of a multiple, and its abscissa. *)
Lemma smul_opp k P : on_curve P -> (- k) ⊙ P = negP (k ⊙ P).
Proof.
  intros HP. pose proof (smul_on_curve k P HP) as Hk. pose proof (smul_on_curve (- k) P HP) as Hk'.
  rewrite <-(Add_O_l (negP (k ⊙ P))), <-(smul_0 P) by auto using Neg_on_curve.
  replace 0 with (- k + k) by lia. rewrite smul_add, <-Add_assoc, Add_neg by auto using Neg_on_curve.
  by rewrite Add_O_r.
Qed.

Lemma smul_abs_X k P : on_curve P -> PX (Z.abs k ⊙ P) = PX (k ⊙ P).
Proof.
  intros HP. destruct (Z.abs_spec k) as [[_ ->]|[_ ->]]; [done|]. by rewrite smul_opp.
Qed.

(** [secp_G] generates: its multiples are distinct classes. *)
Lemma smul_G_inj a b : a ⊙ secp_G = b ⊙ secp_G -> a ≡[q] b.
Proof.
  intros E. pose proof order_prime as Hp. pose proof order_ge_2.
  assert ((a - b) ⊙ secp_G = PointO) as E0.
  { replace (a - b) with (a + (- b)) by lia. rewrite smul_add by apply G_on_curve.
    rewrite E, <-smul_add by apply G_on_curve. by rewrite Z.add_opp_diag_r, smul_0. }
  apply eqm_sub_0. destruct (decide ((a - b) mod q = 0)) as [Hz|Hz].
  { apply eqm_mod_iff; [lia|]. by rewrite Hz, Zmod_0_l. }
  destruct (ModInverse_prime _ _ Hp Hz) as (i & _ & _ & Hi). destruct G_not_O.
  rewrite <-(smul_1 secp_G), <-(smul_O i), <-E0, <-smul_mul by apply G_on_curve.
  apply smul_eqm, eqm_mod_iff; [lia|]. rewrite Hi. by rewrite Z.mod_small by lia.
Qed.

(** Sums of multiples of one point. *)
Lemma foldl_Add_on_curve P l :
  on_curve P -> Forall on_curve l -> on_curve (foldl CurveAdd P l).
Proof. revert P. induction l; intros P HP Hl; [done|]. inv Hl. simpl. auto using Add_on_curve. Qed.

Lemma foldl_Add_acc P l :
  on_curve P -> Forall on_curve l -> foldl CurveAdd P l = P ⊕ sumP l.
Proof.
  unfold sumP. revert P. induction l as [|Q l IH]; intros P HP Hl; simpl.
  - by rewrite Add_O_r.
  - inv Hl. rewrite (IH (P ⊕ Q)), (IH (PointO ⊕ Q)), Add_O_l, Add_assoc;
      auto using Add_on_curve, O_on_curve, foldl_Add_on_curve.
Qed.

Lemma sumP_on_curve l : Forall on_curve l -> on_curve (sumP l).
Proof. apply foldl_Add_on_curve, O_on_curve. Qed.

Lemma sumP_cons P l : on_curve P -> Forall on_curve l -> sumP (P :: l) = P ⊕ sumP l.
Proof. intros. unfold sumP at 1. simpl. rewrite Add_O_l by done. by apply foldl_Add_acc. Qed.

Lemma sumP_smul {A} (f : A -> Z) P l :
  on_curve P -> sumP ((fun a => f a ⊙ P) <$> l) = sumZ f l ⊙ P.
Proof.
  intros HP. induction l as [|a l IH]; simpl; [by rewrite smul_0|].
  rewrite sumP_cons; [|by apply smul_on_curve|].
  - rewrite smul_add by done. f_equal. apply IH.
  - apply Forall_fmap_all. intros. by apply smul_on_curve.
Qed.

Lemma foldl_sumP {A} (f : A -> Point) P l :
  foldl (fun acc a => acc ⊕ f a) P l = foldl CurveAdd P (f <$> l).
Proof. revert P. induction l as [|a l IH]; intros P; csimpl; auto. Qed.

Lemma foldl_sumP_l {A} (f : A -> Point) P l :
  on_curve P -> (forall a, on_curve (f a)) ->
  foldl (fun acc a => f a ⊕ acc) P l = foldl CurveAdd P (f <$> l).
Proof.
  intros HP Hf. revert P HP. induction l as [|a l IH]; intros P HP; csimpl; [done|].
  rewrite IH by auto using Add_on_curve. by rewrite (Add_comm (f a)) by auto.
Qed.

Lemma sumP_Add {A} (f g : A -> Point) l :
  (forall a, on_curve (f a)) -> (forall a, on_curve (g a)) ->
  sumP ((fun a => f a ⊕ g a) <$> l) = sumP (f <$> l) ⊕ sumP (g <$> l).
Proof.
  intros Hf Hg. induction l as [|a l IH]; csimpl; [by rewrite Add_O_l by apply O_on_curve|].
  rewrite !sumP_cons, IH by auto using Add_on_curve, Forall_fmap_all.
  apply Add_swap; auto using sumP_on_curve, Forall_fmap_all.
Qed.
(** ** Pedersen commitments *)

Definition ped (a b : Z) : Point := a ⊙ secp_G ⊕ b ⊙ secp_H.

#[global] Instance ped_proper : Proper (eqm q ==> eqm q ==> (=)) ped.
Proof. intros a a' Ea b b' Eb. unfold ped. by rewrite (smul_eqm _ _ _ Ea), (smul_eqm _ _ _ Eb). Qed.

Lemma ped_on_curve a b : on_curve (ped a b).
Proof. apply Add_on_curve; apply smul_on_curve; [apply G_on_curve | apply H_on_curve]. Qed.

(** With the blinding fixed, a commitment opens to one class. *)
Lemma ped_inj_l a a' b : ped a b = ped a' b <-> a ≡[q] a'.
Proof.
  split; [|by intros ->]. intros E. apply smul_G_inj.
  assert (forall c, c ⊙ secp_G = ped c b ⊕ (- b) ⊙ secp_H) as Hc; [|by rewrite !Hc, E].
  intros c. unfold ped. rewrite <-Add_assoc by auto using smul_on_curve, G_on_curve, H_on_curve.
  rewrite <-smul_add by apply H_on_curve.
  rewrite Z.add_opp_diag_r, smul_0, Add_O_r; auto using smul_on_curve, G_on_curve.
Qed.


Lemma ped_0 : ped 0 0 = PointO.
Proof. unfold ped. rewrite !smul_0. apply Add_O_l, O_on_curve. Qed.

Lemma ped_G a : ped a 0 = a ⊙ secp_G.
Proof. unfold ped. rewrite smul_0. apply Add_O_r, smul_on_curve, G_on_curve. Qed.

Lemma ped_add a b c d : ped a b ⊕ ped c d = ped (a + c) (b + d).
Proof.
  unfold ped. rewrite Add_swap, <-!smul_add;
    auto using smul_on_curve, G_on_curve, H_on_curve.
Qed.

Lemma smul_ped k a b : k ⊙ ped a b = ped (k * a) (k * b).
Proof.
  unfold ped. rewrite smul_Add, !smul_mul;
    auto using smul_on_curve, G_on_curve, H_on_curve.
Qed.

Lemma sumP_ped {A} (f g : A -> Z) l :
  sumP ((fun a => ped (f a) (g a)) <$> l) = ped (sumZ f l) (sumZ g l).
Proof.
  induction l as [|a l IH]; csimpl; [by rewrite ped_0|].
  rewrite sumP_cons, IH, ped_add; auto using ped_on_curve, Forall_fmap_all.
Qed.

(** The commitment as the code computes it. *)
Lemma ped_code a b :
  0 <= a -> 0 <= b -> ScalarBaseMult (Bytes a) ⊕ ScalarMult secp_H (Bytes b) = ped a b.
Proof.
  intros. unfold ped. by rewrite ScalarBaseMult_Bytes, ScalarMult_Bytes by (done || apply H_on_curve).
Qed.

End group.

#[export] Hint Resolve G_on_curve H_on_curve O_on_curve Add_on_curve smul_on_curve
  Neg_on_curve sumP_on_curve ped_on_curve : torus.

(** ** A concrete instance *)

Module Toy.

(** Affine addition on y^2 = x^3 + 7 over the field with 43 elements.  The coordinates
    are kept as multiples of a scale, so that they are as long to write as those of a
    large curve; the scale is one modulo the order. *)
Definition scale : Z := 4160749569.

Definition slope (n d : Z) : Z :=
  match ModInverse (d mod 43) 43 with
  | Some i => (n * i) mod 43
  | None => 0
  end.

Definition chord (P Q : Point) (m : Z) : Point :=
  let x := (m * m - PX P - PX Q) mod 43 in
  mkPoint x ((m * (PX P - x) - PY P) mod 43).

Definition addSmall (P Q : Point) : Point :=
  if decide (PX P = PX Q) then
    if (PY P + PY Q) mod 43 =? 0 then PointO
    else chord P Q (slope (3 * (PX P * PX P)) (2 * PY P))
  else chord P Q (slope (PY Q - PY P) (PX Q - PX P)).

Definition scaleDown (P : Point) : Point := mkPoint (PX P / scale) (PY P / scale).
Definition scaleUp (P : Point) : Point := mkPoint (PX P * scale) (PY P * scale).

Definition add (P Q : Point) : Point :=
  if decide (P = PointO) then Q
  else if decide (Q = PointO) then P
  else scaleUp (addSmall (scaleDown P) (scaleDown Q)).

Definition base : Point := scaleUp (mkPoint 2 12).
Definition second : Point := scaleUp (mkPoint 12 12).

Definition mult (P : Point) (k : list Z) : Point :=
  Nat.iter (Z.to_nat (SetBytes k mod 31)) (add P) PointO.

(** A stand-in for the hash: two bytes that depend on every input byte. *)
Definition hash (bs : list Z) : list Z :=
  let h := foldl (fun acc b => (acc * 257 + b + 1) mod 65521) 7 bs in
  [h / 256; h mod 256].

#[global] Instance ops : Secp256k1 := {|
  GeneratorOrder := 31;
  FieldOrder := 43 * scale;
  secp_G := base;
  secp_H := second;
  CurveAdd := add;
  ScalarMult := mult;
  ScalarBaseMult := mult base;
  Keccak256 := hash;
|}.

(** The curve is the table of multiples of [base]. *)
Definition point (k : nat) : Point := Nat.iter k (add base) PointO.
Definition points : list Point := point <$> seq 0 31.

(** One evaluation of the group table: addition is addition of multipliers
    modulo 31 and opposites are opposite multipliers. *)
Definition entry_ok (a b : nat) : bool :=
  bool_decide (add (point a) (point b) = point ((a + b) mod 31)).

Definition neg_ok (a : nat) : bool := bool_decide (negP (point a) = point ((31 - a) mod 31)).

Definition row_ok (a : nat) : bool := forallb (entry_ok a) (seq 0 31) && neg_ok a.

Lemma table_ok : forallb row_ok (seq 0 31) = true.
Proof. vm_compute. reflexivity. Qed.

Lemma table_row a : (a < 31)%nat -> row_ok a = true.
Proof. intros Ha. apply (proj1 (List.forallb_forall _ _) table_ok a). apply in_seq. lia. Qed.

Lemma table a b :
  (a < 31)%nat -> (b < 31)%nat -> add (point a) (point b) = point ((a + b) mod 31).
Proof.
  intros Ha Hb. apply table_row, andb_true_iff in Ha as [Ha _].
  apply (bool_decide_eq_true_1 (add (point a) (point b) = _)).
  apply (proj1 (List.forallb_forall _ _) Ha b). apply in_seq. lia.
Qed.

Lemma table_neg a : (a < 31)%nat -> negP (point a) = point ((31 - a) mod 31).
Proof.
  intros Ha. apply table_row, andb_true_iff in Ha as [_ Ha].
  by apply (bool_decide_eq_true_1 (negP (point a) = _)).
Qed.

Lemma elem_points P : P ∈ points <-> exists a, (a < 31)%nat /\ P = point a.
Proof.
  unfold points. rewrite list_elem_of_fmap. setoid_rewrite elem_of_seq.
  split; intros (a & ? & ?); exists a; split; auto; lia.
Qed.

Lemma point_elem a : (a < 31)%nat -> point a ∈ points.
Proof. intros. apply elem_points. eauto. Qed.

Lemma mod31 n : (n mod 31 < 31)%nat.
Proof. by apply Nat.mod_upper_bound. Qed.

(** Iterating past the order starts again. *)
Lemma iter_mod31 P n :
  P ∈ points -> Nat.iter n (add P) PointO = Nat.iter (n mod 31) (add P) PointO.
Proof.
  intros (a & Ha & ->)%elem_points.
  assert (forall n, Nat.iter n (add (point a)) PointO = point ((a * n) mod 31)) as E.
  { clear n. intros n. induction n as [|n IH]; [by rewrite Nat.mul_0_r|].
    change (Nat.iter (S n) (add (point a)) PointO)
      with (add (point a) (Nat.iter n (add (point a)) PointO)).
    rewrite IH, table by (done || apply mod31).
    f_equal. rewrite Nat.Div0.add_mod_idemp_r. f_equal. lia. }
  rewrite !E. f_equal. by rewrite Nat.Div0.mul_mod_idemp_r.
Qed.

Lemma iter_order P n :
  P ∈ points -> (n mod 31)%nat = 0%nat -> Nat.iter n (add P) PointO = PointO.
Proof. intros HP Hn. rewrite iter_mod31 by done. by rewrite Hn. Qed.

Lemma prime_31 : Z.prime 31.
Proof.
  split; [lia|]. intros n Hn Hd.
  assert (In n (seqZ 2 29)) as Hin by (apply list_elem_of_In, elem_of_seqZ; lia).
  assert (forallb (fun n => negb (31 mod n =? 0)) (seqZ 2 29) = true) as T by (by vm_compute).
  pose proof (proj1 (List.forallb_forall _ _) T n Hin) as Hm. simpl in Hm.
  apply negb_true_iff, Z.eqb_neq in Hm. apply Hm, Z.mod_divide; [lia|done].
Qed.

Lemma coordinates_ok P : In P points -> (0 <=? PX P) && (PX P <? 2 ^ 256) = true.
Proof.
  apply (proj1 (List.forallb_forall (fun P => (0 <=? PX P) && (PX P <? 2 ^ 256)) points)).
  vm_compute. reflexivity.
Qed.

Lemma abscissas_ok P : In P points -> (PX P mod (43 * scale) =? PX P) = true.
Proof. apply (proj1 (List.forallb_forall (fun P => PX P mod (43 * scale) =? PX P) points)). vm_compute. reflexivity. Qed.

#[global] Instance laws : Secp256k1Laws.
Proof.
  refine {| on_curve P := P ∈ points |};
    cbn [GeneratorOrder secp_G secp_H CurveAdd ScalarMult ScalarBaseMult ops].
  - apply prime_31.
  - apply (point_elem 0). lia.
  - apply elem_points. exists 1%nat. split; [lia|]. by vm_compute.
  - apply elem_points. exists 5%nat. split; [lia|]. by vm_compute.
  - intros P Q (a & Ha & ->)%elem_points (b & Hb & ->)%elem_points.
    rewrite table by done. apply point_elem, mod31.
  - intros P Q (a & Ha & ->)%elem_points (b & Hb & ->)%elem_points.
    rewrite !table by done. do 2 f_equal. lia.
  - intros P Q R (a & Ha & ->)%elem_points (b & Hb & ->)%elem_points (c & Hc & ->)%elem_points.
    rewrite (table b c), (table a b), !table by (done || apply mod31).
    f_equal. rewrite Nat.Div0.add_mod_idemp_r, Nat.Div0.add_mod_idemp_l. f_equal. lia.
  - intros P _. unfold add. by rewrite decide_True.
  - intros P (a & Ha & ->)%elem_points. rewrite table_neg by done. apply point_elem, mod31.
  - intros P (a & Ha & ->)%elem_points. rewrite table_neg by done.
    rewrite table by (done || apply mod31).
    rewrite Nat.Div0.add_mod_idemp_r. by replace (a + (31 - a))%nat with 31%nat by lia.
  - intros P HP. apply (iter_order P (Z.to_nat 31) HP). by vm_compute.
  - intros P k HP Hk. unfold mult. rewrite (iter_mod31 P (Z.to_nat (SetBytes k))) by done.
    f_equal. apply (Z2Nat.inj_mod (SetBytes k) 31); [|lia]. by apply undigits_nonneg.
  - done.
  - done.
  - intros P HP%list_elem_of_In. apply coordinates_ok in HP.
    apply andb_true_iff in HP as [H1%Z.leb_le H2%Z.ltb_lt]. done.
  - intros P HP%list_elem_of_In. by apply Z.eqb_eq, abscissas_ok.
  - intros bs. simpl. unfold hash. set (h := foldl _ _ bs).
    assert (0 <= h < 65521) as Hh.
    { unfold h. destruct bs as [|b bs] using rev_ind; [simpl; lia|].
      rewrite foldl_app. simpl. apply Z.mod_pos_bound. lia. }
    repeat constructor; try apply Z.mod_pos_bound; try lia.
    + apply Z.div_pos; lia.
    + apply Z.div_lt_upper_bound; lia.
Qed.

End Toy.
