(* ===== verification/Pvss.v ===== *)
(** Secret sharing: polynomials, shares and Lagrange interpolation
    (src/pvss/pvss.go, src/pvss/pss.go, src/pvss/gennaro2006.go).

    Randomness is an explicit tape of draws: [RandomBigInt] takes the next one.
    Slices the code allocates itself are indexed with [!!!], the indices being
    in range by construction; slices that come from outside are indexed with
    [index], which panics out of range as Go does. *)
From Stdlib Require Import Zdivisibility ZArith.
From S2P Require Import Prelude BigInt Field Curve.

(** ** Data (src/common/types.go) *)

Record PrimaryPolynomial := mkPrimaryPolynomial { Coeff : list Z; Threshold : Z }.
Record PrimaryShare := mkPrimaryShare { Index : Z; Value : Z }.
Record Node := mkNode { NodeIndex : Z; PubKey : Point }.

(** Draws of [rand.Int(rand.Reader, GeneratorOrder)]. *)
Definition Tape := nat -> Z.

Section pvss.
Context {SO : Secp256k1}.

Local Abbreviation q := GeneratorOrder.

(** Every draw is a residue. *)
Definition tape_ok (tape : Tape) : Prop := forall n, 0 <= tape n < q.

(** ** pvss.go *)

Definition RandomBigInt (tape : Tape) : Z * Tape := (tape 0%nat, fun n => tape (S n)).

(** [n] draws in a row. *)
Fixpoint draws (n : nat) (tape : Tape) : list Z * Tape :=
  match n with
  | O => ([], tape)
  | S n' =>
      let '(r, tape1) := RandomBigInt tape in
      let '(rs, tape2) := draws n' tape1 in
      (r :: rs, tape2)
  end.

Definition polyEval (polynomial : PrimaryPolynomial) (x : Z) : res Z :=
  c0 ← index (Coeff polynomial) 0;
  st ← foldlM (fun '(sum, xi) i =>
         ci ← index (Coeff polynomial) i;
         Ok ((sum + xi * ci) mod q, (xi * x) mod q))
       (c0, x) (seq 1 (Z.to_nat (Threshold polynomial) - 1));
  Ok (fst st).

(** The exported wrapper narrows its argument to [int]. *)
Definition PolyEval (polynomial : PrimaryPolynomial) (x : Z) : res Z :=
  polyEval polynomial (int64 x).

Definition getShares (polynomial : PrimaryPolynomial) (nodes : list Node)
    : res (list PrimaryShare) :=
  mapM (fun node =>
    v ← polyEval polynomial (NodeIndex node);
    Ok (mkPrimaryShare (NodeIndex node) v)) nodes.

Definition GetCommit (polynomial : PrimaryPolynomial) : res (list Point) :=
  if Threshold polynomial <? 0 then Panic
  else mapM (fun i =>
    c ← index (Coeff polynomial) i;
    Ok (ScalarBaseMult (Bytes c))) (seq 0 (Z.to_nat (Threshold polynomial))).

Definition AddCommitments (commitments : list (list Point)) : res (list Point) :=
  first ← index commitments 0;
  mapM (fun i =>
    foldlM (fun sumPt commitment =>
      p ← index commitment i;
      Ok (CurveAdd sumPt p)) PointO commitments) (seq 0 (length first)).

Definition AddPolynomials (poly1 poly2 : PrimaryPolynomial) : PrimaryPolynomial :=
  if negb (Threshold poly1 =? Threshold poly2) then mkPrimaryPolynomial [] 0
  else if negb (Nat.eqb (length (Coeff poly1)) (length (Coeff poly2)))
  then mkPrimaryPolynomial [] 0
  else mkPrimaryPolynomial
    (zip_with (fun a b => (a + b) mod q) (Coeff poly1) (Coeff poly2))
    (Threshold poly1).

Definition generateRandomZeroPolynomial (secret threshold : Z) (tape : Tape)
    : res (PrimaryPolynomial * Tape) :=
  if threshold <=? 0 then Panic
  else
    let '(rs, tape') := draws (Z.to_nat threshold - 1) tape in
    Ok (mkPrimaryPolynomial (secret :: rs) threshold, tape').

Definition RandomPoly (secret threshold : Z) (tape : Tape)
    : res (PrimaryPolynomial * Tape) :=
  generateRandomZeroPolynomial secret threshold tape.

Definition CreateShares (nodes : list Node) (secret threshold : Z) (tape : Tape)
    : res (list PrimaryShare * list Point * Tape) :=
  pt ← generateRandomZeroPolynomial secret threshold tape;
  shares ← getShares (fst pt) nodes;
  pubPoly ← GetCommit (fst pt);
  Ok (shares, pubPoly, snd pt).

(** The closure [denominator] of [LagrangeInterpolatePolynomial]. *)
Definition denominator (i : nat) (points : list Point) : Z :=
  foldl (fun result j =>
    if Nat.eqb i j then result
    else (result * ((PX (points !!! i) - PX (points !!! j)) mod q)) mod q)
  1 (reverse (seq 0 (length points))).

(** One step of the inner loop of [interpolationPoly]. *)
Definition mul_step (xk : Z) (coefficients new_coefficients : list Z) (j : nat) : list Z :=
  let new1 := <[S j := (new_coefficients !!! S j + coefficients !!! j) mod q]> new_coefficients in
  <[j := (new1 !!! j - (xk * coefficients !!! j) mod q) mod q]> new1.

(** The closure [interpolationPoly]: a missing inverse is a nil dereference. *)
Definition interpolationPoly (i : nat) (points : list Point) : res (list Z) :=
  let n := length points in
  inv ← deref (ModInverse (denominator i points) q);
  Ok (foldl (fun coefficients k =>
        if Nat.eqb k i then coefficients
        else
          let j0 := if Nat.ltb k i then k else (k - 1)%nat in
          foldl (mul_step (PX (points !!! k)) coefficients) (replicate n 0)
            (reverse (seq 0 (S j0))))
      (<[0%nat := inv]> (replicate n 0)) (seq 0 n)).

(** [sort.SliceStable] by abscissa. *)
Fixpoint insertPoint (p : Point) (l : list Point) : list Point :=
  match l with
  | [] => [p]
  | x :: l' => if PX x <? PX p then x :: insertPoint p l' else p :: l
  end.

Definition pointSort (points : list Point) : list Point := foldr insertPoint [] points.

Definition LagrangeInterpolatePolynomial (unsortedPoints : list Point) : res (list Z) :=
  let points := pointSort unsortedPoints in
  foldlM (fun polynomial i =>
    coefficients ← interpolationPoly i points;
    Ok (zip_with (fun a c => (a + PY (points !!! i) * c) mod q) polynomial coefficients))
  (replicate (length points) 0) (seq 0 (length points)).

(** The double product of [LagrangeScalar] and [LagrangePolys]: numerator and
    denominator of the coefficient of [idx] at [target]. *)
Definition upper_lower (indexes : list Z) (target idx : Z) : Z * Z :=
  foldl (fun '(upper, lower) j =>
    if j =? idx then (upper, lower)
    else ((upper * (target - j)) mod q, (lower * ((idx - j) mod q)) mod q))
  (1, 1) indexes.

(** The quotient; [inv.ModInverse] leaves [inv] at zero when there is none. *)
Definition lagrangeDelta (indexes : list Z) (target idx : Z) : Z :=
  let '(upper, lower) := upper_lower indexes target idx in
  (upper * default 0 (ModInverse lower q)) mod q.

Definition LagrangeScalar (shares : list PrimaryShare) (target : Z) : Z :=
  (foldl (fun secret share =>
     secret + (Value share * lagrangeDelta (Index <$> shares) target (Index share)) mod q)
   0 shares) mod q.

Definition LagrangeScalarCP (pts : list Point) (target : Z) : Z :=
  LagrangeScalar ((fun pt => mkPrimaryShare (int64 (PX pt)) (PY pt)) <$> pts) target.

Definition SumScalars (scalars : list Z) : Z := foldl Z.add 0 scalars mod q.

Definition SumPoints (pts : list Point) : Point := foldl CurveAdd PointO pts.

(** ** pss.go *)

Definition generateRandomPolynomial (threshold : Z) (tape : Tape)
    : res (PrimaryPolynomial * Tape) :=
  if threshold <? 0 then Panic
  else
    let '(rs, tape') := draws (Z.to_nat threshold) tape in
    Ok (mkPrimaryPolynomial rs threshold, tape').

(** A random polynomial with its constant changed so that it is zero at [x]. *)
Definition genPolyForTarget (x threshold : Z) (tape : Tape) : res (PrimaryPolynomial * Tape) :=
  pt ← generateRandomPolynomial threshold tape;
  valAtX ← polyEval (fst pt) x;
  c0 ← index (Coeff (fst pt)) 0;
  Ok (mkPrimaryPolynomial (<[0%nat := (c0 - valAtX) mod q]> (Coeff (fst pt))) (Threshold (fst pt)), snd pt).

Definition LagrangePolys (indexes : list Z) (polys : list (list Point)) : res (list Point) :=
  match polys with
  | [] => Ok []
  | poly0 :: _ =>
      if negb (Nat.eqb (length indexes) (length polys)) then Ok []
      else mapM (fun l =>
        foldlM (fun sum jindex =>
          poly ← index polys (fst jindex);
          pt ← index poly l;
          let lambda := lagrangeDelta indexes 0 (snd jindex) in
          Ok (CurveAdd (ScalarMult pt (Bytes lambda)) sum))
        PointO (zip (seq 0 (length indexes)) indexes)) (seq 0 (length poly0))
  end.

Definition LagrangeCurvePts (indexes : list Z) (points : list Point) : res Point :=
  poly ← LagrangePolys indexes ((fun p => [p]) <$> points);
  index poly 0.

(** ** gennaro2006.go *)

Definition GetCommitH (polynomial : PrimaryPolynomial) : res (list Point) :=
  if Threshold polynomial <? 0 then Panic
  else mapM (fun i =>
    c ← index (Coeff polynomial) i;
    Ok (ScalarMult secp_H (Bytes c))) (seq 0 (Z.to_nat (Threshold polynomial))).

Definition CreateSharesGen (nodes : list Node) (secret threshold : Z) (tape : Tape)
    : res (list PrimaryShare * list PrimaryShare * list Point * list Point * Tape) :=
  p ← generateRandomZeroPolynomial secret threshold tape;
  let '(r, tape1) := RandomBigInt (snd p) in
  p' ← generateRandomZeroPolynomial r threshold tape1;
  shares ← getShares (fst p) nodes;
  sharesPrime ← getShares (fst p') nodes;
  pubPoly ← GetCommit (fst p);
  pubPolyPrime ← GetCommitH (fst p');
  Ci ← mapM (fun i =>
    a ← index pubPoly i;
    b ← index pubPolyPrime i;
    Ok (CurveAdd a b)) (seq 0 (length pubPoly));
  Ok (shares, sharesPrime, pubPoly, Ci, snd p').

(** The commitment to the value at [index] computed from a commitment to the
    coefficients: the accumulation loop of [VerifyShare], [VerifyShareCommitment],
    [VerifyPedersonCommitment] and [RHS]. *)
Definition RHS (pubPoly : list Point) (idx : Z) : Point :=
  foldl (fun rhs ip =>
    CurveAdd rhs (ScalarMult (snd ip) (Bytes (Exp idx (Z.of_nat (fst ip)) q))))
  PointO (zip (seq 0 (length pubPoly)) pubPoly).

Definition VerifyPedersonCommitment (share sharePrime : PrimaryShare) (ci : list Point)
    (idx : Z) : bool :=
  let gSik := ScalarBaseMult (Bytes (Value share)) in
  let hSikPrime := ScalarMult secp_H (Bytes (Value sharePrime)) in
  let lhs := CurveAdd gSik hSikPrime in
  PX lhs =? PX (RHS ci idx).

Definition VerifyShare (share : PrimaryShare) (pubPoly : list Point) (idx : Z) : bool :=
  let lhs := ScalarBaseMult (Bytes (Value share)) in
  PX lhs =? PX (RHS pubPoly idx).

(** Only the abscissae are compared. *)
Definition VerifyShareCommitment (shareCommitment : Point) (pubPoly : list Point)
    (idx : Z) : bool :=
  PX shareCommitment =? PX (RHS pubPoly idx).

End pvss.

(** ** Evaluation *)

Section pvss_proofs.
Context {SO : Secp256k1} {SL : Secp256k1Laws}.

Local Abbreviation q := GeneratorOrder.

Lemma polyEval_loop coeff x m c0 :
  coeff !! 0%nat = Some c0 -> (S m <= length coeff)%nat ->
  exists s xi,
    foldlM (fun '(sum, xi) i =>
         ci ← index coeff i; Ok ((sum + xi * ci) mod q, (xi * x) mod q))
       (c0, x) (seq 1 m) = Ok (s, xi) /\
    s ≡[q] peval (take (S m) coeff) x /\ xi ≡[q] x ^ Z.of_nat (S m).
Proof.
  intros H0 Hm. induction m as [|m IH].
  - exists c0, x. split; [done|]. rewrite (peval_take_S _ _ _ _ H0), Z.pow_0_r.
    change (peval (take 0 coeff) x) with 0. split; [by rewrite Z.mul_1_r | by rewrite Z.pow_1_r].
  - destruct IH as (s & xi & E & Es & Ex); [lia|].
    rewrite seq_S, foldlM_app, E. cbn [mbind res_bind foldlM].
    destruct (index_lt coeff (1 + m)) as (c & Hc & ->); [lia|]. cbn [mbind res_bind].
    eexists _, _. split; [done|]. split.
    + rewrite (peval_take_S _ _ _ _ Hc), eqm_mod, Es, Ex. by rewrite (Z.mul_comm c).
    + rewrite eqm_mod, Ex, (Nat2Z.inj_succ (S m)), Z.pow_succ_r by lia. by rewrite Z.mul_comm.
Qed.

(** The evaluation loop computes the polynomial given by the first [Threshold]
    coefficients, modulo the order. *)
Lemma polyEval_spec poly x t :
  Threshold poly = Z.of_nat (S t) -> (S t <= length (Coeff poly))%nat ->
  exists v, polyEval poly x = Ok v /\ v ≡[q] peval (take (S t) (Coeff poly)) x /\
    ((0 < t)%nat -> 0 <= v < q).
Proof.
  intros Ht Hl. unfold polyEval. destruct (index_lt (Coeff poly) 0) as (c0 & H0 & ->); [lia|].
  cbn [mbind res_bind]. rewrite Ht, Nat2Z.id.
  replace (S t - 1)%nat with t by lia.
  destruct (polyEval_loop (Coeff poly) x t c0 H0 Hl) as (s & xi & E & Es & _).
  exists s. rewrite E. split; [done|]. split; [done|]. intros Hpos.
  destruct t as [|t]; [lia|]. rewrite seq_S, foldlM_app in E.
  destruct (foldlM _ _ _) as [[s1 xi1]| |]; try discriminate. cbn [mbind res_bind foldlM] in E.
  destruct (index (Coeff poly) (1 + t)); try discriminate.
  injection E as <- _. apply mod_order_bound.
Qed.

Lemma polyEval_nonneg poly x v :
  Forall (fun c => 0 <= c) (Coeff poly) -> polyEval poly x = Ok v -> 0 <= v.
Proof.
  intros Hc. unfold polyEval. intros (c0 & H0 & (st & E & [= <-])%bind_Ok)%bind_Ok.
  refine (foldlM_inv (fun st => 0 <= fst st) _ _ _ _ _ _ E).
  - rewrite index_Ok in H0. rewrite Forall_lookup in Hc. simpl. by apply (Hc 0%nat).
  - intros [s1 x1] i st1 _ _ (ci & _ & [= <-])%bind_Ok. apply mod_order_bound.
Qed.

(** A polynomial with exactly [Threshold] coefficients. *)
Definition poly_wf (poly : PrimaryPolynomial) : Prop :=
  (0 < length (Coeff poly))%nat /\ Threshold poly = Z.of_nat (length (Coeff poly)).

Lemma polyEval_wf poly x :
  poly_wf poly -> exists v, polyEval poly x = Ok v /\ v ≡[q] peval (Coeff poly) x.
Proof.
  intros [Hp Ht]. destruct (length (Coeff poly)) as [|t] eqn:E; [lia|].
  destruct (polyEval_spec poly x t) as (v & Hv & Ev & _); [done|lia|].
  exists v. split; [done|]. by rewrite Ev, take_ge by lia.
Qed.

Lemma draws_spec n tape :
  tape_ok tape -> length (fst (draws n tape)) = n /\
    Forall (fun r => 0 <= r < q) (fst (draws n tape)) /\ tape_ok (snd (draws n tape)).
Proof.
  revert tape. induction n as [|n IH]; intros tape Ht; [by split_and!|].
  simpl. destruct (IH (fun n => tape (S n))) as (H1 & H2 & H3); [intros k; apply Ht|].
  destruct (draws n _) as [rs tape2]; simpl in *.
  split_and!; [lia | constructor; [apply Ht|done] | done].
Qed.

Lemma generateRandomZeroPolynomial_spec secret threshold tape :
  0 < threshold -> tape_ok tape ->
  exists poly tape', generateRandomZeroPolynomial secret threshold tape = Ok (poly, tape') /\
    poly_wf poly /\ Threshold poly = threshold /\ tape_ok tape' /\
    exists rs, Coeff poly = secret :: rs /\ Forall (fun r => 0 <= r < q) rs.
Proof.
  intros Ht Htape. unfold generateRandomZeroPolynomial.
  destruct (Z.leb_spec threshold 0); [lia|].
  destruct (draws_spec (Z.to_nat threshold - 1) tape Htape) as (H1 & H2 & H3).
  destruct (draws _ tape) as [rs tape']; simpl in *.
  eexists _, _. split; [done|]. unfold poly_wf. simpl.
  split; [lia|]. split; [done|]. split; [done|]. by exists rs.
Qed.

Lemma genPolyForTarget_spec x threshold tape :
  0 < threshold -> tape_ok tape ->
  exists poly tape', genPolyForTarget x threshold tape = Ok (poly, tape') /\
    poly_wf poly /\ Threshold poly = threshold /\ tape_ok tape' /\ peval (Coeff poly) x ≡[q] 0.
Proof.
  intros Ht Htape. unfold genPolyForTarget, generateRandomPolynomial.
  destruct (Z.ltb_spec threshold 0); [lia|].
  destruct (draws_spec (Z.to_nat threshold) tape Htape) as (H1 & _ & H3).
  destruct (draws _ tape) as [rs tape']; simpl in *. cbn [mbind res_bind fst snd].
  destruct (polyEval_wf (mkPrimaryPolynomial rs threshold) x) as (v & -> & Ev); [split; simpl; lia|]. cbn [mbind res_bind].
  destruct rs as [|c cs]; [simpl in H1; lia|]. cbn [Coeff index deref lookup list_lookup mbind res_bind fst snd].
  eexists _, _. split; [done|]. unfold poly_wf. cbn [Coeff Threshold insert list_insert].
  split_and!; [simpl; lia|simpl in *; lia|done|done|].
  rewrite peval_cons, eqm_mod. cbn [Coeff] in Ev. rewrite peval_cons in Ev.
  rewrite Ev. apply eq_subrelation; [apply _|lia].
Qed.

Lemma getShares_spec poly nodes :
  poly_wf poly ->
  exists shares, getShares poly nodes = Ok shares /\
    Index <$> shares = NodeIndex <$> nodes /\
    Forall (fun s => Value s ≡[q] peval (Coeff poly) (Index s)) shares.
Proof.
  intros Hp. unfold getShares. induction nodes as [|nd nodes (shares & Es & Ei & Ev)].
  - exists []. by split_and!.
  - rewrite mapM_cons_res. destruct (polyEval_wf poly (NodeIndex nd) Hp) as (v & -> & Hv).
    cbn [mbind res_bind]. rewrite Es. eexists. split; [done|]. csimpl. rewrite Ei. split; [done|]. by constructor.
Qed.

(** ** Lagrange coefficients *)

(** The inverse of the node product, as a specification. *)
Definition lag_inv (xs : list Z) (xi : Z) : Z :=
  default 0 (ModInverse (node_poly xs xi xi) q).

Lemma lag_inv_spec xs xi :
  distinct q xs -> xi ∈ xs -> lag_inv xs xi * node_poly xs xi xi ≡[q] 1.
Proof.
  intros Hd Hi. pose proof order_prime as Hq. pose proof order_ge_2.
  destruct (ModInverse_prime (node_poly xs xi xi) q Hq) as (a & Ha & _ & Hm).
  { intros E. apply (node_poly_self q xs xi); [done|done|done|].
    apply eqm_mod_iff; [lia|]. by rewrite E, Zmod_0_l. }
  unfold lag_inv. rewrite Ha. simpl. apply eqm_mod_iff; [lia|].
  by rewrite Hm, Z.mod_small by lia.
Qed.

Lemma upper_lower_spec xs t idx :
  fst (upper_lower xs t idx) ≡[q] node_poly xs idx t /\
  snd (upper_lower xs t idx) ≡[q] node_poly xs idx idx.
Proof.
  unfold upper_lower, node_poly, others.
  assert (forall u l,
    let r := foldl (fun '(upper, lower) j =>
      if j =? idx then (upper, lower)
      else ((upper * (t - j)) mod q, (lower * ((idx - j) mod q)) mod q)) (u, l) xs in
    fst r ≡[q] u * prodZ (fun x => t - x) (filter (fun x => x <> idx) xs) /\
    snd r ≡[q] l * prodZ (fun x => idx - x) (filter (fun x => x <> idx) xs)) as Hgen.
  { induction xs as [|x xs IH]; intros u l; simpl.
    { by rewrite !Z.mul_1_r. }
    rewrite filter_cons. destruct (Z.eqb_spec x idx) as [->|Hne].
    - rewrite decide_False by auto. apply IH.
    - rewrite decide_True by done. cbn [prodZ foldr].
      destruct (IH ((u * (t - x)) mod q) ((l * ((idx - x) mod q)) mod q)) as [H1 H2].
      simpl in H1, H2. fold (prodZ (fun x => t - x) (filter (fun x => x <> idx) xs)).
      fold (prodZ (fun x => idx - x) (filter (fun x => x <> idx) xs)).
      rewrite H1, H2, !eqm_mod. by rewrite !Z.mul_assoc. }
  destruct (Hgen 1 1) as [H1 H2]. simpl in H1, H2. rewrite H1, H2. by rewrite !Z.mul_1_l.
Qed.

Lemma lagrangeDelta_spec xs t idx :
  distinct q xs -> idx ∈ xs ->
  lagrangeDelta xs t idx ≡[q] node_poly xs idx t * lag_inv xs idx.
Proof.
  intros Hd Hi. unfold lagrangeDelta. pose proof (upper_lower_spec xs t idx) as [Hu Hl].
  destruct (upper_lower xs t idx) as [u l]; simpl in Hu, Hl. rewrite eqm_mod, Hu.
  pose proof order_prime as Hq. pose proof order_ge_2.
  destruct (ModInverse_prime l q Hq) as (a & -> & _ & Hm).
  { intros E. apply (node_poly_self q xs idx); [done|done|done|].
    rewrite <-Hl. apply eqm_mod_iff; [lia|]. by rewrite E, Zmod_0_l. }
  simpl. f_equiv.
  assert (a * l ≡[q] 1) as Hal by (apply eqm_mod_iff; [lia|]; by rewrite Hm, Z.mod_small by lia).
  rewrite <-(Z.mul_1_r a), <-(lag_inv_spec xs idx Hd Hi), <-Hl.
  replace (a * (lag_inv xs idx * l)) with (lag_inv xs idx * (a * l)) by lia.
  rewrite Hal. by rewrite Z.mul_1_r.
Qed.

Lemma LagrangeScalar_sum shares t :
  LagrangeScalar shares t ≡[q]
    sumZ (fun s => Value s * lagrangeDelta (Index <$> shares) t (Index s)) shares.
Proof.
  unfold LagrangeScalar. rewrite eqm_mod. generalize (Index <$> shares) as xs. intros xs.
  assert (forall acc, foldl (fun secret share =>
     secret + (Value share * lagrangeDelta xs t (Index share)) mod q) acc shares ≡[q]
     acc + sumZ (fun s => Value s * lagrangeDelta xs t (Index s)) shares) as Hgen.
  { induction shares as [|s shares IH]; intros acc; simpl; [by rewrite Z.add_0_r|].
    rewrite IH, eqm_mod. by rewrite Z.add_assoc. }
  by rewrite Hgen, Z.add_0_l.
Qed.

(** Interpolation of shares of a polynomial gives the polynomial, at any target. *)
Lemma LagrangeScalar_spec p shares t :
  distinct q (Index <$> shares) -> (length p <= length shares)%nat ->
  Forall (fun s => Value s ≡[q] peval p (Index s)) shares ->
  LagrangeScalar shares t = peval p t mod q.
Proof.
  intros Hd Hl Hs. apply (eqm_small q); [apply mod_order_bound|apply mod_order_bound|].
  rewrite LagrangeScalar_sum, eqm_mod.
  rewrite <-(lagrange q (Index <$> shares) p (lag_inv (Index <$> shares)) t);
    [|apply order_prime|done|by rewrite length_fmap|intros; by apply lag_inv_spec].
  rewrite sumZ_fmap. apply sumZ_ext. intros s Hin.
  rewrite list.Forall_forall in Hs. rewrite (Hs s Hin), lagrangeDelta_spec; [done|done|].
  by apply list_elem_of_fmap_2.
Qed.

(** ** Commitments *)

Lemma Exp_nonneg x n : 0 <= Exp x n q.
Proof. apply mod_order_bound. Qed.

Lemma RHS_app pts P idx :
  on_curve P -> RHS (pts ++ [P]) idx = RHS pts idx ⊕ (idx ^ Z.of_nat (length pts)) ⊙ P.
Proof.
  intros HP. unfold RHS. rewrite length_app, seq_app. simpl.
  rewrite zip_with_app by (by rewrite length_seq). rewrite foldl_app. simpl. f_equal.
  rewrite ScalarMult_Bytes by auto using Exp_nonneg. apply smul_eqm, eqm_mod.
Qed.

(** Evaluating a Pedersen commitment to two polynomials commits to their values. *)
Lemma RHS_ped cs ds idx :
  length cs = length ds ->
  RHS (zip_with ped cs ds) idx = ped (peval cs idx) (peval ds idx).
Proof.
  revert ds. induction cs as [|c cs IH] using rev_ind; intros ds Hl.
  { destruct ds; [|done]. simpl. by rewrite ped_0. }
  destruct ds as [|d ds _] using rev_ind; rewrite !length_app in Hl; simpl in Hl; [lia|].
  rewrite zip_with_app by lia. cbn [zip_with]. rewrite RHS_app by apply ped_on_curve.
  rewrite IH, smul_ped, ped_add, length_zip_with, !peval_app by lia. cbn [peval foldr].
  f_equal; [by rewrite Nat.min_l by lia; lia | replace (length ds) with (length cs) by lia;
    rewrite Nat.min_l by lia; lia].
Qed.

Lemma RHS_G cs idx : RHS ((fun c => c ⊙ secp_G) <$> cs) idx = peval cs idx ⊙ secp_G.
Proof.
  rewrite <-(ped_G (peval cs idx)). rewrite <-(peval_replicate_0 (length cs) idx).
  rewrite <-RHS_ped by (by rewrite length_replicate). f_equal.
  induction cs as [|c cs IH]; csimpl; [done|]. by rewrite ped_G, IH.
Qed.

Lemma GetCommit_spec poly :
  poly_wf poly -> Forall (fun c => 0 <= c) (Coeff poly) ->
  GetCommit poly = Ok ((fun c => c ⊙ secp_G) <$> Coeff poly).
Proof.
  intros [Hp Ht] Hc. unfold GetCommit. rewrite Ht.
  destruct (Z.ltb_spec (Z.of_nat (length (Coeff poly))) 0); [lia|]. rewrite Nat2Z.id.
  clear -Hc SL. induction (Coeff poly) as [|c cs IH] using rev_ind; [done|].
  rewrite length_app, seq_app. simpl. rewrite mapM_app_res.
  apply Forall_app in Hc as [Hcs Hc]. apply Forall_cons_1 in Hc as [Hc _].
  rewrite (mapM_ext_res _ (fun i => c ← index cs i; Ok (ScalarBaseMult (Bytes c)))
    (seq 0 (length cs))), IH by
    (done || intros i [_ Hi]%elem_of_seq; unfold index; by rewrite lookup_app_l by lia).
  cbn [mbind res_bind]. rewrite mapM_cons_res, index_app_last. simpl.
  by rewrite fmap_app, ScalarBaseMult_Bytes by done.
Qed.

(** A share of a committed polynomial verifies. *)
Lemma VerifyShare_honest cs idx v :
  0 <= v -> v ≡[q] peval cs idx ->
  VerifyShare (mkPrimaryShare idx v) ((fun c => c ⊙ secp_G) <$> cs) idx = true.
Proof.
  intros Hv E. unfold VerifyShare. simpl. rewrite ScalarBaseMult_Bytes, RHS_G by done.
  apply Z.eqb_eq. by rewrite (smul_eqm _ _ _ E).
Qed.

(** ** Interpolation in the exponent *)

Lemma lagrangeDelta_nonneg xs t idx : 0 <= lagrangeDelta xs t idx.
Proof. unfold lagrangeDelta. destruct (upper_lower _ _ _). apply mod_order_bound. Qed.

Lemma lagrange_delta p xs t :
  distinct q xs -> (length p <= length xs)%nat ->
  sumZ (fun x => lagrangeDelta xs t x * peval p x) xs ≡[q] peval p t.
Proof.
  intros Hd Hl.
  rewrite <-(lagrange q xs p (lag_inv xs) t);
    [|apply order_prime|done|done|intros; by apply lag_inv_spec].
  apply sumZ_ext. intros x Hx. rewrite lagrangeDelta_spec by done. by rewrite Z.mul_comm.
Qed.

(** Column [l] of the interpolated commitments commits to the values at zero of
    the polynomials behind column [l]. *)
Lemma LagrangePolys_ped (P P' : nat -> list Z) m xs :
  xs <> [] -> distinct q xs ->
  (forall l, (length (P l) <= length xs)%nat /\ (length (P' l) <= length xs)%nat) ->
  LagrangePolys xs ((fun x => (fun l => ped (peval (P l) x) (peval (P' l) x)) <$> seq 0 m) <$> xs)
    = Ok ((fun l => ped (peval (P l) 0) (peval (P' l) 0)) <$> seq 0 m).
Proof.
  intros Hne Hd Hl. unfold LagrangePolys.
  destruct (_ <$> xs) as [|poly0 polys'] eqn:E; [by apply fmap_nil_inv in E|].
  assert (length poly0 = m) as ->.
  { destruct xs; [done|]. rewrite fmap_cons in E. injection E as <- _.
    by rewrite length_fmap, length_seq. }
  rewrite <-E, length_fmap, Nat.eqb_refl. cbn [negb]. apply mapM_Ok. intros l [_ Hlm]%elem_of_seq.
  rewrite (foldlM_Ok _ (fun sum jx =>
    lagrangeDelta xs 0 (snd jx) ⊙ ped (peval (P l) (snd jx)) (peval (P' l) (snd jx)) ⊕ sum)).
  - f_equal. rewrite foldl_sumP_l by auto with torus.
    rewrite (fmap_zip_seq (fun x => lagrangeDelta xs 0 x ⊙ ped (peval (P l) x) (peval (P' l) x))).
    fold (sumP ((fun x => lagrangeDelta xs 0 x ⊙ ped (peval (P l) x) (peval (P' l) x)) <$> xs)).
    setoid_rewrite smul_ped. rewrite sumP_ped. by rewrite !lagrange_delta by (done || apply Hl).
  - intros sum [j x] [_ Hj]%elem_of_zip_seq. rewrite Nat.sub_0_r in Hj. simpl.
    rewrite (index_fmap _ _ _ _ Hj). cbn [mbind res_bind].
    rewrite (index_fmap _ _ _ l) by (by rewrite lookup_seq_lt). cbn [mbind res_bind].
    by rewrite ScalarMult_Bytes by auto using lagrangeDelta_nonneg, ped_on_curve.
Qed.

Lemma LagrangeCurvePts_ped p p' xs :
  xs <> [] -> distinct q xs -> (length p <= length xs)%nat -> (length p' <= length xs)%nat ->
  LagrangeCurvePts xs ((fun x => ped (peval p x) (peval p' x)) <$> xs)
    = Ok (ped (peval p 0) (peval p' 0)).
Proof.
  intros Hne Hd Hl Hl'. unfold LagrangeCurvePts. rewrite <-list_fmap_compose.
  pose proof (LagrangePolys_ped (fun _ => p) (fun _ => p') 1 xs Hne Hd) as E. simpl in E.
  unfold compose. rewrite E by auto. done.
Qed.

(** The curve routine on arbitrary points of the curve. *)
Lemma LagrangeCurvePts_sum {A} (idx : A -> Z) (pt : A -> Point) l :
  l <> [] -> (forall a, on_curve (pt a)) ->
  LagrangeCurvePts (idx <$> l) (pt <$> l) =
    Ok (sumP ((fun a => lagrangeDelta (idx <$> l) 0 (idx a) ⊙ pt a) <$> l)).
Proof.
  intros Hne Hc. unfold LagrangeCurvePts, LagrangePolys.
  destruct (_ <$> (pt <$> l)) as [|poly0 polys'] eqn:E.
  { apply fmap_nil_inv, fmap_nil_inv in E. done. }
  assert (length poly0 = 1%nat) as ->.
  { destruct l; [done|]. rewrite !fmap_cons in E. by injection E as <- _. }
  rewrite <-E, !length_fmap, Nat.eqb_refl. cbn [negb]. rewrite <-list_fmap_compose.
  change (seq 0 1) with [0%nat]. rewrite mapM_cons_res.
  assert (zip (seq 0 (length l)) (idx <$> l) = (fun ja => (fst ja, idx (snd ja))) <$>
    zip (seq 0 (length l)) l) as ->.
  { clear. generalize (seq 0 (length l)). induction l as [|a l IH]; intros [|j k]; csimpl; auto.
    by rewrite IH. }
  rewrite foldlM_fmap.
  rewrite (foldlM_Ok _ (fun sum ja => lagrangeDelta (idx <$> l) 0 (idx (snd ja)) ⊙ pt (snd ja) ⊕ sum)).
  - cbn [mbind res_bind mapM mret res_ret]. rewrite foldl_sumP_l by auto with torus.
    by rewrite (fmap_zip_seq (fun a => lagrangeDelta (idx <$> l) 0 (idx a) ⊙ pt a)).
  - intros sum [j a] [_ Hj]%elem_of_zip_seq. rewrite Nat.sub_0_r in Hj. simpl.
    rewrite (index_fmap _ _ _ _ Hj). cbn [mbind res_bind]. unfold compose, index at 1. simpl.
    by rewrite ScalarMult_Bytes by auto using lagrangeDelta_nonneg.
Qed.

(** Adding commitments column by column commits to the sums. *)
Lemma AddCommitments_ped (css : list (list Z * list Z)) m :
  css <> [] -> Forall (fun cd => length (fst cd) = m /\ length (snd cd) = m) css ->
  AddCommitments ((fun cd => zip_with ped (fst cd) (snd cd)) <$> css) =
    Ok ((fun i => ped (sumZ (fun cd => fst cd !!! i) css) (sumZ (fun cd => snd cd !!! i) css))
        <$> seq 0 m).
Proof.
  intros Hne Hm. unfold AddCommitments.
  assert (exists first, index ((fun cd => zip_with ped (fst cd) (snd cd)) <$> css) 0 = Ok first
    /\ length first = m) as (first & -> & Hf).
  { destruct css as [|cd0 css']; [done|]. eexists. split; [done|].
    apply Forall_cons_1 in Hm as [[H1 H2] _]. rewrite length_zip_with. lia. }
  cbn [mbind res_bind]. rewrite Hf. apply mapM_Ok. intros i [_ Hi]%elem_of_seq.
  rewrite (foldlM_Ok _ (fun acc pts => acc ⊕ pts !!! i)).
  - f_equal. rewrite foldl_sumP. fold (sumP ((fun pts : list Point => pts !!! i) <$>
      ((fun cd => zip_with ped (fst cd) (snd cd)) <$> css))).
    rewrite <-list_fmap_compose, <-sumP_ped. f_equal. apply list_fmap_ext.
    intros k [cs ds] Hk. rewrite Forall_lookup in Hm. apply Hm in Hk as [H1 H2]. simpl in *.
    apply list_lookup_total_correct. rewrite lookup_zip_with.
    rewrite !list_lookup_lookup_total_lt by lia. done.
  - intros acc pts (cd & -> & Hin)%list_elem_of_fmap. rewrite list.Forall_forall in Hm.
    apply Hm in Hin as [H1 H2].
    destruct (index_lt (zip_with ped (fst cd) (snd cd)) i) as (P & HP & ->).
    { rewrite length_zip_with. lia. }
    cbn [mbind res_bind]. by rewrite (list_lookup_total_correct _ _ _ HP).
Qed.

End pvss_proofs.
