(* ===== verification/Interpolate.v ===== *)
(** Correctness of [LagrangeInterpolatePolynomial] (src/pvss/pvss.go): its
    in-place product and accumulation loops compute the interpolating
    polynomial. *)
From Stdlib Require Import Zdivisibility ZArith.
From S2P Require Import Prelude BigInt Field Curve Pvss.

Section interpolate.
Context {SO : Secp256k1} {SL : Secp256k1Laws}.

Local Abbreviation q := GeneratorOrder.

(** ** The product loop *)

Lemma length_mul_step xk cs new j : length (mul_step xk cs new j) = length new.
Proof. unfold mul_step. by rewrite !length_insert. Qed.

Lemma mul_step_eval xk cs new j x :
  (S j < length new)%nat ->
  peval (mul_step xk cs new j) x ≡[q] peval new x + (x - xk) * (cs !!! j * x ^ Z.of_nat j).
Proof.
  intros Hj. unfold mul_step. rewrite !peval_insert by (rewrite ?length_insert; lia).
  rewrite list_lookup_total_insert_ne by lia.
  rewrite !eqm_mod, Nat2Z.inj_succ, Z.pow_succ_r by lia.
  apply eqm_sub_0. match goal with |- ?a ≡[_] _ => replace a with 0 by ring end. done.
Qed.

Lemma length_mul_loop xk cs new js : length (foldl (mul_step xk cs) new js) = length new.
Proof. revert new. induction js as [|j js IH]; intros new; simpl; [done|]. by rewrite IH, length_mul_step. Qed.

Lemma mul_loop_eval xk cs new js x :
  (forall j, j ∈ js -> (S j < length new)%nat) ->
  peval (foldl (mul_step xk cs) new js) x ≡[q]
    peval new x + (x - xk) * sumZ (fun j => cs !!! j * x ^ Z.of_nat j) js.
Proof.
  revert new. induction js as [|j js IH]; intros new Hj; simpl.
  { by rewrite Z.mul_0_r, Z.add_0_r. }
  rewrite IH by (intros j' Hj'; rewrite length_mul_step; apply Hj; set_solver).
  rewrite mul_step_eval by (apply Hj; set_solver). apply eqm_sub_0.
  match goal with |- ?a ≡[_] _ => replace a with 0 by ring end. done.
Qed.

Lemma mul_loop_lookup xk cs new js l :
  (forall j, j ∈ js -> (S j < l)%nat) -> foldl (mul_step xk cs) new js !! l = new !! l.
Proof.
  revert new. induction js as [|j js IH]; intros new Hj; simpl; [done|].
  rewrite IH by set_solver. unfold mul_step.
  assert (S j < l)%nat by (apply Hj; set_solver).
  by rewrite !list_lookup_insert_ne by lia.
Qed.

(** A prefix of the coefficients as a sum of monomials. *)
Lemma sum_monomials cs n x :
  (n <= length cs)%nat ->
  sumZ (fun j => cs !!! j * x ^ Z.of_nat j) (seq 0 n) = peval (take n cs) x.
Proof.
  induction n as [|n IH]; intros Hn; [done|].
  rewrite seq_S, sumZ_app, IH by lia. simpl.
  destruct (lookup_lt_is_Some_2 cs n) as [c Hc]; [lia|].
  rewrite (peval_take_S _ _ _ _ Hc), (list_lookup_total_correct _ _ _ Hc). lia.
Qed.

(** Multiplication by [X - xk] of a polynomial that occupies [S m] cells. *)
Lemma mul_loop_spec xk cs n m :
  length cs = n -> (S m < n)%nat -> (forall l, (m < l < n)%nat -> cs !! l = Some 0) ->
  let r := foldl (mul_step xk cs) (replicate n 0) (reverse (seq 0 (S m))) in
  length r = n /\ (forall l, (S m < l < n)%nat -> r !! l = Some 0) /\
  forall x, peval r x ≡[q] (x - xk) * peval cs x.
Proof.
  intros Hl Hm Hz r. unfold r. split; [|split].
  - by rewrite length_mul_loop, length_replicate.
  - intros l Hln. rewrite mul_loop_lookup.
    + apply lookup_replicate_2. lia.
    + intros j Hj. rewrite elem_of_reverse, elem_of_seq in Hj. lia.
  - intros x. rewrite mul_loop_eval.
    2:{ intros j Hj. rewrite elem_of_reverse, elem_of_seq in Hj. rewrite length_replicate. lia. }
    rewrite peval_replicate_0, (sumZ_perm _ _ (seq 0 (S m))) by apply reverse_Permutation.
    rewrite sum_monomials, Z.add_0_l by lia.
    rewrite <-(take_drop (S m) cs) at 2. rewrite peval_app.
    assert (drop (S m) cs = replicate (n - S m) 0) as ->.
    { apply list_eq_same_length with (n := (n - S m)%nat); rewrite ?length_drop, ?length_replicate; [lia..|].
      intros i a b Hi. rewrite lookup_drop, Hz by lia.
      rewrite lookup_replicate_2 by lia. congruence. }
    by rewrite peval_replicate_0, Z.mul_0_r, Z.add_0_r.
Qed.

(** ** One basis polynomial *)

Section basis.
Context (points : list Point).

Local Abbreviation n := (length points).
Local Abbreviation xat k := (PX (points !!! k)).

(** Positions below [K] other than [i]. *)
Definition positions (i K : nat) : list nat := filter (fun k => k <> i) (seq 0 K).

Lemma positions_S i K :
  positions i (S K) = positions i K ++ (if Nat.eqb K i then [] else [K]).
Proof.
  unfold positions. rewrite seq_S, list.filter_app. f_equal. simpl. rewrite filter_cons.
  destruct (Nat.eqb_spec K i); [by rewrite decide_False by auto | by rewrite decide_True].
Qed.

(** The degree reached after the first [K] factors. *)
Definition degree (i K : nat) : nat := if Nat.ltb i K then (K - 1)%nat else K.

Lemma interpolationPoly_loop i inv K :
  (i < n)%nat -> (K <= n)%nat ->
  let r := foldl (fun coefficients k =>
        if Nat.eqb k i then coefficients
        else
          let j0 := if Nat.ltb k i then k else (k - 1)%nat in
          foldl (mul_step (xat k) coefficients) (replicate n 0) (reverse (seq 0 (S j0))))
      (<[0%nat := inv]> (replicate n 0)) (seq 0 K) in
  length r = n /\ (forall l, (degree i K < l < n)%nat -> r !! l = Some 0) /\
  forall x, peval r x ≡[q] inv * prodZ (fun k => x - xat k) (positions i K).
Proof.
  intros Hi. induction K as [|K IH]; intros HK.
  - simpl. split; [by rewrite length_insert, length_replicate|]. split.
    + intros l Hl. rewrite list_lookup_insert_ne by lia. apply lookup_replicate_2. lia.
    + intros x. rewrite peval_insert by (rewrite length_replicate; lia).
      rewrite peval_replicate_0, lookup_total_replicate_2, Z.pow_0_r by lia. simpl.
      by replace (0 + (inv - 0) * 1) with (inv * 1) by lia.
  - destruct IH as (H1 & H2 & H3); [lia|]. rewrite seq_S, foldl_app, Nat.add_0_l.
    set (r0 := foldl _ _ (seq 0 K)) in *. clearbody r0. simpl foldl. rewrite positions_S.
    unfold degree in *. destruct (Nat.eqb_spec K i) as [->|Hne].
    + rewrite app_nil_r. split; [done|]. split; [|done]. intros l Hl. apply H2.
      destruct (Nat.ltb_spec i (S i)), (Nat.ltb_spec i i); lia.
    + set (m := if Nat.ltb K i then K else (K - 1)%nat).
      assert (m = if Nat.ltb i K then (K - 1)%nat else K) as Em.
      { unfold m. destruct (Nat.ltb_spec K i), (Nat.ltb_spec i K); lia. }
      destruct (mul_loop_spec (xat K) r0 n m) as (G1 & G2 & G3); [done| | |].
      { rewrite Em. destruct (Nat.ltb_spec i K); lia. }
      { intros l Hl. apply H2. by rewrite Em in Hl. }
      split; [done|]. split.
      * intros l Hl. apply G2. rewrite Em. destruct (Nat.ltb_spec i K), (Nat.ltb_spec i (S K)); lia.
      * intros x. rewrite G3, H3, prodZ_app. simpl.
        by replace ((x - xat K) * (inv * prodZ (fun k => x - xat k) (positions i K)))
          with (inv * (prodZ (fun k => x - xat k) (positions i K) * ((x - xat K) * 1))) by ring.
Qed.

Lemma denominator_spec i :
  denominator i points ≡[q] prodZ (fun k => xat i - xat k) (positions i n).
Proof.
  unfold denominator, positions.
  assert (forall js acc, foldl (fun result j =>
    if Nat.eqb i j then result else (result * ((xat i - xat j) mod q)) mod q) acc js ≡[q]
    acc * prodZ (fun k => xat i - xat k) (filter (fun k => k <> i) js)) as Hgen.
  { induction js as [|j js IH]; intros acc; simpl; [by rewrite Z.mul_1_r|].
    rewrite filter_cons. destruct (Nat.eqb_spec i j) as [->|Hne].
    - rewrite decide_False by auto. apply IH.
    - rewrite decide_True by auto. rewrite IH, !eqm_mod. simpl. by rewrite Z.mul_assoc. }
  rewrite Hgen, Z.mul_1_l. rewrite (prodZ_perm _ _ (filter (fun k => k <> i) (seq 0 n))); [done|].
  by rewrite reverse_Permutation.
Qed.

(** ** The basis property *)

Hypothesis Hdistinct : distinct q (PX <$> points).

Lemma xat_lookup k : (k < n)%nat -> ((fun x => x mod q) <$> (PX <$> points)) !! k = Some (xat k mod q).
Proof.
  intros Hk. rewrite !list_lookup_fmap, list_lookup_lookup_total_lt by done. done.
Qed.

Lemma xat_inj i k : (i < n)%nat -> (k < n)%nat -> xat i ≡[q] xat k -> i = k.
Proof.
  intros Hi Hk E. pose proof order_ge_2.
  eapply NoDup_lookup; [exact Hdistinct|by apply xat_lookup|].
  apply eqm_mod_iff in E; [|lia]. rewrite E. by apply xat_lookup.
Qed.

Lemma elem_of_positions i K k : k ∈ positions i K <-> k <> i /\ (k < K)%nat.
Proof. unfold positions. rewrite list_elem_of_filter, elem_of_seq. lia. Qed.

Lemma denominator_nonzero i : (i < n)%nat -> denominator i points mod q <> 0.
Proof.
  intros Hi E. pose proof order_ge_2.
  apply (prodZ_nonzero q (fun k => xat i - xat k) (positions i n) order_prime).
  - intros k [Hne Hk]%elem_of_positions Hz. apply Hne. symmetry.
    apply xat_inj; [done|done|]. by apply eqm_sub_0.
  - rewrite <-denominator_spec. apply eqm_mod_iff; [lia|]. by rewrite E, Zmod_0_l.
Qed.

Lemma interpolationPoly_spec i :
  (i < n)%nat ->
  exists cs, interpolationPoly i points = Ok cs /\ length cs = n /\
    forall k, (k < n)%nat -> peval cs (xat k) ≡[q] if decide (k = i) then 1 else 0.
Proof.
  intros Hi. unfold interpolationPoly. pose proof order_ge_2.
  destruct (ModInverse_prime _ q order_prime (denominator_nonzero i Hi)) as (inv & -> & _ & Hinv).
  cbn [deref mbind res_bind].
  destruct (interpolationPoly_loop i inv n) as (H1 & _ & H3); [done|lia|].
  eexists. split; [done|]. split; [done|]. intros k Hk. rewrite H3.
  destruct (decide (k = i)) as [->|Hne].
  - rewrite <-denominator_spec. apply eqm_mod_iff; [lia|]. by rewrite Hinv, Z.mod_small by lia.
  - rewrite (prodZ_zero _ _ k); [by rewrite Z.mul_0_r| |lia].
    apply elem_of_positions. done.
Qed.

(** ** The accumulation loop *)

Lemma length_interpolationPoly i cs :
  (i < n)%nat -> interpolationPoly i points = Ok cs -> length cs = n.
Proof.
  intros Hi E. destruct (interpolationPoly_spec i Hi) as (cs' & E' & Hl & _). congruence.
Qed.

Lemma peval_accumulate (acc cs : list Z) y x :
  length acc = length cs ->
  peval (zip_with (fun a c => (a + y * c) mod q) acc cs) x ≡[q] peval acc x + y * peval cs x.
Proof.
  revert cs. induction acc as [|a acc IH]; intros [|c cs] Hl; simplify_eq/=.
  { by rewrite Z.mul_0_r. }
  rewrite IH, eqm_mod by done.
  by replace (a + y * c + x * (peval acc x + y * peval cs x))
    with (a + x * peval acc x + y * (c + x * peval cs x)) by ring.
Qed.

Lemma lagrange_loop K :
  (K <= n)%nat ->
  exists r, foldlM (fun polynomial i =>
    coefficients ← interpolationPoly i points;
    Ok (zip_with (fun a c => (a + PY (points !!! i) * c) mod q) polynomial coefficients))
    (replicate n 0) (seq 0 K) = Ok r /\
  length r = n /\ Forall (fun c => 0 <= c < q) r /\
  forall k, (k < n)%nat ->
    peval r (xat k) ≡[q] if decide (k < K)%nat then PY (points !!! k) else 0.
Proof.
  pose proof order_ge_2. induction K as [|K IH]; intros HK.
  - eexists. split; [done|]. rewrite length_replicate. split; [done|]. split.
    + apply Forall_replicate. lia.
    + intros k Hk. rewrite peval_replicate_0. by rewrite decide_False by lia.
  - destruct IH as (r & E & Hl & Hr & Hev); [lia|].
    destruct (interpolationPoly_spec K) as (cs & Ec & Hlc & Hc); [lia|].
    rewrite seq_S, foldlM_app, E. cbn [mbind res_bind foldlM]. rewrite Nat.add_0_l, Ec.
    cbn [mbind res_bind]. eexists. split; [done|].
    rewrite length_zip_with. split; [lia|]. split.
    + apply Forall_lookup. intros i c Hi. apply lookup_zip_with_Some in Hi as (a & b & -> & _).
      apply mod_order_bound.
    + intros k Hk. rewrite peval_accumulate, Hev, Hc by (done || lia).
      destruct (decide (k = K)) as [->|Hne].
      * rewrite decide_False, decide_True by lia. by rewrite Z.add_0_l, Z.mul_1_r.
      * rewrite Z.mul_0_r, Z.add_0_r.
        destruct (decide (k < K)%nat), (decide (k < S K)%nat); try lia; done.
Qed.

End basis.

(** ** The whole routine *)

Lemma pointSort_perm points : pointSort points ≡ₚ points.
Proof.
  unfold pointSort. induction points as [|p points IH]; simpl; [done|].
  rewrite <-IH at 2. generalize (foldr insertPoint [] points) as l. intros l.
  induction l as [|x l IHl]; simpl; [done|].
  destruct (PX x <? PX p); [|done]. rewrite IHl. apply Permutation_swap.
Qed.

Lemma distinct_perm xs ys : xs ≡ₚ ys -> distinct q xs -> distinct q ys.
Proof. unfold distinct. intros Hp. by rewrite Hp. Qed.

Lemma LagrangeInterpolatePolynomial_spec points :
  distinct q (PX <$> points) ->
  exists r, LagrangeInterpolatePolynomial points = Ok r /\
    length r = length points /\ Forall (fun c => 0 <= c < q) r /\
    forall pt, pt ∈ points -> peval r (PX pt) ≡[q] PY pt.
Proof.
  intros Hd. unfold LagrangeInterpolatePolynomial. pose proof (pointSort_perm points) as Hp.
  destruct (lagrange_loop (pointSort points)) with (K := length (pointSort points))
    as (r & E & Hl & Hr & Hev); [|done|].
  { apply (distinct_perm (PX <$> points)); [|done]. by rewrite Hp. }
  exists r. split; [done|]. split; [by rewrite Hl, Hp|]. split; [done|].
  intros pt Hin. rewrite <-Hp in Hin. apply list_elem_of_lookup in Hin as [k Hk].
  pose proof (lookup_lt_Some _ _ _ Hk) as Hlt. specialize (Hev k Hlt).
  rewrite decide_True, (list_lookup_total_correct _ _ _ Hk) in Hev by done. done.
Qed.

(** Points on a polynomial [p] with no more coefficients than points give back
    its coefficients, reduced and padded with zeros. *)
Lemma LagrangeInterpolatePolynomial_poly points p :
  distinct q (PX <$> points) -> (length p <= length points)%nat ->
  (forall pt, pt ∈ points -> PY pt ≡[q] peval p (PX pt)) ->
  LagrangeInterpolatePolynomial points =
    Ok (((fun c => c mod q) <$> p) ++ replicate (length points - length p) 0).
Proof.
  intros Hd Hl Hp. pose proof order_ge_2.
  destruct (LagrangeInterpolatePolynomial_spec points Hd) as (r & E & Hlr & Hr & Hev).
  rewrite E. f_equal. set (p' := _ ++ _).
  assert (Forall2 (eqm q) r p') as H2.
  { apply (poly_unique q (PX <$> points)); [apply order_prime|done| | |].
    - unfold p'. rewrite length_app, length_fmap, length_replicate. lia.
    - rewrite length_fmap. lia.
    - intros x (pt & -> & Hin)%list_elem_of_fmap. rewrite Hev, Hp by done.
      unfold p'. rewrite peval_app, peval_replicate_0, Z.mul_0_r, Z.add_0_r.
      apply peval_proper; [|done]. clear. induction p; constructor; auto. by rewrite eqm_mod. }
  assert (Forall (fun c => 0 <= c < q) p') as Hr'.
  { unfold p'. apply Forall_app. split; [apply Forall_fmap_all, mod_order_bound|].
    apply Forall_replicate. lia. }
  clear -H2 Hr Hr'. induction H2 as [|a b r p' Hab H2 IH]; [done|].
  inv Hr. inv Hr'. f_equal; [by apply (eqm_small q)|auto].
Qed.

(** The routine returns only on distinct abscissae: otherwise a denominator has
    no inverse and the nil result is dereferenced. *)
Lemma LagrangeInterpolatePolynomial_Ok points r :
  LagrangeInterpolatePolynomial points = Ok r -> distinct q (PX <$> points).
Proof.
  intros E. apply (distinct_perm (PX <$> pointSort points)); [by rewrite pointSort_perm|].
  unfold LagrangeInterpolatePolynomial in E. set (pts := pointSort points) in *. clearbody pts.
  pose proof order_ge_2 as Hq. apply NoDup_alt. intros i k x Hi Hk.
  rewrite !list_lookup_fmap in Hi, Hk.
  destruct (pts !! i) as [Pi|] eqn:Ei; [|done]. destruct (pts !! k) as [Pk|] eqn:Ek; [|done].
  injection Hi as <-. injection Hk as Hk. pose proof (lookup_lt_Some _ _ _ Ei).
  pose proof (lookup_lt_Some _ _ _ Ek). destruct (decide (k = i)) as [|Hne]; [done|]. exfalso.
  apply (foldlM_Ok_all _ _ _ _) with (a := i) in E as (b1 & b2 & (cs & E & _)%bind_Ok).
  2:{ apply elem_of_seq. lia. }
  unfold interpolationPoly in E. apply bind_Ok in E as (inv & Hinv & _).
  assert (1 < q) as Hq1 by lia.
  pose proof (ModInverse_spec (denominator i pts) q Hq1) as Hs.
  destruct (ModInverse _ _) as [a|]; [|done]. destruct Hs as [_ Hs].
  assert (denominator i pts ≡[q] 0) as Hz.
  { rewrite denominator_spec. apply (prodZ_eqm_zero q _ _ k); [by apply elem_of_positions|].
    rewrite (list_lookup_total_correct _ _ _ Ei), (list_lookup_total_correct _ _ _ Ek).
    apply eqm_sub_0, eqm_mod_iff; [lia|done]. }
  assert (a * denominator i pts ≡[q] 0) as Hz' by (by rewrite Hz, Z.mul_0_r).
  apply eqm_mod_iff in Hz'; [|lia]. rewrite Hs, Zmod_0_l in Hz'. done.
Qed.

Lemma LagrangeInterpolatePolynomial_no_Err points e :
  LagrangeInterpolatePolynomial points <> Err e.
Proof.
  apply foldlM_no_Err. intros b a e'. unfold interpolationPoly.
  by destruct (ModInverse _ _).
Qed.

End interpolate.

(** ** Properties *)

Section properties.
Context {SO : Secp256k1} {SL : Secp256k1Laws}.

Local Abbreviation q := GeneratorOrder.

(** What a dealer deals: the polynomial, its shares and its commitment. *)
Lemma dealt_shares nodes secret threshold tape :
  0 < threshold -> 0 <= secret < q -> tape_ok tape ->
  exists poly tape' shares pubPoly,
    generateRandomZeroPolynomial secret threshold tape = Ok (poly, tape') /\ tape_ok tape' /\
    getShares poly nodes = Ok shares /\ GetCommit poly = Ok pubPoly /\
    Index <$> shares = NodeIndex <$> nodes /\
    Forall (fun s => 0 <= Value s /\ VerifyShare s pubPoly (Index s) = true) shares /\
    forall sub, sub ⊆ shares -> distinct q (Index <$> sub) ->
      threshold <= Z.of_nat (length sub) -> LagrangeScalar sub 0 = secret.
Proof.
  intros Ht Hs Htape.
  destruct (generateRandomZeroPolynomial_spec secret threshold tape Ht Htape)
    as (poly & tape' & -> & Hwf & Hthr & Ht' & rs & Hrs & Hrange).
  destruct (getShares_spec poly nodes Hwf) as (shares & E & Hidx & Hval).
  assert (Forall (fun c => 0 <= c) (Coeff poly)) as Hnn.
  { rewrite Hrs. constructor; [lia|]. eapply list.Forall_impl; [exact Hrange|simpl; lia]. }
  rewrite list.Forall_forall in Hval. eexists poly, tape', shares, _. split_and!; try done; [by rewrite GetCommit_spec|..].
  - apply list.Forall_forall. intros [idx v] Hin. unfold getShares in E.
    destruct (mapM_Ok_elem _ _ _ _ E Hin) as (nd & _ & (v' & E' & [= _ ->])%bind_Ok).
    pose proof (polyEval_nonneg poly (NodeIndex nd) v Hnn E') as Hv. split; [done|]. simpl.
    apply VerifyShare_honest; [done|apply (Hval _ Hin)].
  - intros sub Hsub Hd Hlen. rewrite (LagrangeScalar_spec (Coeff poly)); [|done|destruct Hwf as [_ Hwf]; lia|].
    + rewrite Hrs, peval_cons, Z.mul_0_l, Z.add_0_r. by apply Z.mod_small.
    + apply list.Forall_forall. auto.
Qed.

(** C1: [CreateShares] returns for every node list and positive threshold, and
    any set of at least [threshold] of the shares it returns, at indices that
    are distinct modulo the group order, interpolates at zero to the secret. *)
Theorem shares_reconstruct_secret nodes secret threshold tape :
  0 < threshold -> 0 <= secret < q -> tape_ok tape ->
  exists shares pubPoly tape',
    CreateShares nodes secret threshold tape = Ok (shares, pubPoly, tape') /\
    Index <$> shares = NodeIndex <$> nodes /\
    forall sub, sub ⊆ shares -> distinct q (Index <$> sub) ->
      threshold <= Z.of_nat (length sub) -> LagrangeScalar sub 0 = secret.
Proof.
  intros Ht Hs Htape. unfold CreateShares.
  destruct (dealt_shares nodes secret threshold tape Ht Hs Htape)
    as (poly & tape' & shares & pubPoly & -> & _ & E1 & E2 & Hidx & _ & Hsub).
  cbn [mbind res_bind fst snd]. rewrite E1. cbn [mbind res_bind]. rewrite E2. by eexists _, _, _.
Qed.

(** Every share [CreateShares] hands out passes [VerifyShare] against the
    public commitment polynomial it publishes with them. *)
Theorem created_shares_verify nodes secret threshold tape shares pubPoly tape' :
  0 < threshold -> 0 <= secret < q -> tape_ok tape ->
  CreateShares nodes secret threshold tape = Ok (shares, pubPoly, tape') ->
  Forall (fun s => VerifyShare s pubPoly (Index s) = true) shares.
Proof.
  intros Ht Hs Htape. unfold CreateShares.
  destruct (dealt_shares nodes secret threshold tape Ht Hs Htape)
    as (poly & tape1 & shares1 & pubPoly1 & -> & _ & E1 & E2 & _ & Hv & _).
  cbn [mbind res_bind fst snd]. rewrite E1. cbn [mbind res_bind]. rewrite E2. cbn [mbind res_bind]. intros [= <- <- <-].
  eapply list.Forall_impl; [exact Hv|]. by intros s [_ ?].
Qed.

(** [LagrangeInterpolatePolynomial] inverts evaluation: from points of a
    polynomial [p] at distinct abscissae, at least as many as [p] has
    coefficients, it returns exactly the coefficients of [p], reduced modulo the
    group order and padded with zeros. *)
Theorem interpolation_recovers_coefficients p xs :
  distinct q xs -> (length p <= length xs)%nat ->
  LagrangeInterpolatePolynomial ((fun x => mkPoint x (peval p x mod q)) <$> xs) =
    Ok (((fun c => c mod q) <$> p) ++ replicate (length xs - length p) 0).
Proof.
  intros Hd Hl. rewrite (LagrangeInterpolatePolynomial_poly _ p).
  - by rewrite length_fmap.
  - rewrite <-list_fmap_compose. unfold compose. simpl. by rewrite list_fmap_id.
  - by rewrite length_fmap.
  - intros pt (x & -> & _)%list_elem_of_fmap. simpl. apply eqm_mod.
Qed.

(** The result of [LagrangeInterpolatePolynomial] does not depend on the
    order of its points, so the random iteration order of the Go map they are
    read from is harmless; this includes the inputs on which it panics. *)
Theorem interpolation_order_independent pts pts' :
  pts ≡ₚ pts' ->
  LagrangeInterpolatePolynomial pts = LagrangeInterpolatePolynomial pts'.
Proof.
  intros Hp.
  assert (forall a b r, a ≡ₚ b -> LagrangeInterpolatePolynomial a = Ok r ->
    LagrangeInterpolatePolynomial b = Ok r) as Hok.
  { intros a b r Hab E. pose proof (LagrangeInterpolatePolynomial_Ok a r E) as Hd.
    destruct (LagrangeInterpolatePolynomial_spec a Hd) as (r' & E' & Hl & Hr & Hev).
    rewrite E in E'. injection E' as <-.
    rewrite (LagrangeInterpolatePolynomial_poly b r).
    - rewrite Hl, <-Hab, Nat.sub_diag, app_nil_r. f_equal.
      rewrite <-(list_fmap_id r) at 2. apply list_fmap_ext. intros i c Hi.
      rewrite Forall_lookup in Hr. apply Z.mod_small, (Hr i c Hi).
    - apply (distinct_perm (PX <$> a)); [by rewrite Hab|done].
    - by rewrite Hl, Hab.
    - intros pt Hin. rewrite <-Hab in Hin. symmetry. by apply Hev. }
  destruct (LagrangeInterpolatePolynomial pts) as [r|e|] eqn:E.
  - symmetry. by apply (Hok pts).
  - by apply LagrangeInterpolatePolynomial_no_Err in E.
  - destruct (LagrangeInterpolatePolynomial pts') as [r|e|] eqn:E'; [|by apply LagrangeInterpolatePolynomial_no_Err in E'|done].
    rewrite (Hok pts' pts r) in E by done. done.
Qed.

(** Interpolating commitments agrees with committing to the interpolation:
    [LagrangeCurvePts] on the public values of any shares is the public value of
    [LagrangeScalar] on those shares. *)
Theorem interpolation_commutes_with_commitment shares :
  shares <> [] ->
  LagrangeCurvePts (Index <$> shares) ((fun s => Value s ⊙ secp_G) <$> shares) =
    Ok (LagrangeScalar shares 0 ⊙ secp_G).
Proof.
  intros Hne. rewrite LagrangeCurvePts_sum by auto with torus. f_equal.
  rewrite LagrangeScalar_sum, <-sumP_smul by auto with torus. f_equal.
  apply list_fmap_ext. intros i s _. rewrite <-smul_mul by auto with torus.
  by rewrite Z.mul_comm.
Qed.

End properties.

(** ** Witnesses *)

Definition toy_tape : Tape := fun n => Z.of_nat (7 * n + 3) mod 31.
Definition toy_nodes : list Node :=
  (fun i => mkNode i (Toy.mult Toy.base [i])) <$> [1; 2; 3; 4; 5].

Lemma toy_tape_ok : @tape_ok Toy.ops toy_tape.
Proof. intros n. apply Z.mod_pos_bound. simpl. lia. Qed.

Lemma shares_reconstruct_secret_witness :
  exists shares pubPoly tape',
    CreateShares toy_nodes 19 3 toy_tape = Ok (shares, pubPoly, tape') /\
    LagrangeScalar (reverse (drop 2 shares)) 0 = 19.
Proof.
  destruct (shares_reconstruct_secret toy_nodes 19 3 toy_tape) as (sh & pp & tp & E & Hi & Hr);
    [lia | simpl; lia | apply toy_tape_ok |].
  exists sh, pp, tp. split; [exact E|]. vm_compute in E. injection E as <- _ _.
  apply Hr; [|vm_compute; repeat constructor; set_solver|vm_compute; congruence].
  vm_compute. set_solver.
Defined.

Definition toy_dealing : list PrimaryShare * list Point * Tape :=
  match CreateShares toy_nodes 19 3 toy_tape with
  | Ok r => r
  | _ => ([], [], toy_tape)
  end.

Lemma created_shares_verify_witness :
  length toy_dealing.1.1 = 5%nat /\
  Forall (fun s => VerifyShare s toy_dealing.1.2 (Index s) = true) toy_dealing.1.1.
Proof.
  split; [reflexivity|].
  apply (created_shares_verify toy_nodes 19 3 toy_tape _ _ toy_dealing.2);
    [lia | simpl; lia | apply toy_tape_ok | reflexivity].
Defined.

Lemma interpolation_recovers_coefficients_witness :
  LagrangeInterpolatePolynomial
    ((fun x => mkPoint x (peval [5; 3; 7] x mod GeneratorOrder)) <$> [1; 2; 4; 6]) =
  Ok [5; 3; 7; 0].
Proof.
  etransitivity; [apply (interpolation_recovers_coefficients [5; 3; 7] [1; 2; 4; 6])|reflexivity].
  - vm_compute. repeat constructor; set_solver.
  - simpl. lia.
Defined.

Lemma interpolation_order_independent_witness :
  LagrangeInterpolatePolynomial [mkPoint 1 15; mkPoint 2 8] =
  LagrangeInterpolatePolynomial [mkPoint 2 8; mkPoint 1 15].
Proof. apply interpolation_order_independent. constructor. Defined.

Lemma interpolation_commutes_with_commitment_witness :
  LagrangeCurvePts [1; 2] [7 ⊙ secp_G; 9 ⊙ secp_G] =
    Ok (LagrangeScalar [mkPrimaryShare 1 7; mkPrimaryShare 2 9] 0 ⊙ secp_G).
Proof.
  apply (interpolation_commutes_with_commitment [mkPrimaryShare 1 7; mkPrimaryShare 2 9]).
  discriminate.
Defined.
