(* ===== verification/Avss.v ===== *)
(** Asynchronous verifiable secret sharing (src/pvss/avss.go): bivariate
    polynomials, their Pedersen commitment matrices, and the verification of
    slices, points and shares against them. *)
From Stdlib Require Import Zdivisibility ZArith.
From S2P Require Import Prelude BigInt Field Curve Pvss.

Section avss.
Context {SO : Secp256k1}.

Local Abbreviation q := GeneratorOrder.

(** ** Operations *)

(** Rows of fresh draws; the first cell of the first row is the secret. *)
Fixpoint randomRows (rows cols : nat) (tape : Tape) : list (list Z) * Tape :=
  match rows with
  | O => ([], tape)
  | S r =>
      let '(row, tape1) := draws cols tape in
      let '(rest, tape2) := randomRows r cols tape1 in
      (row :: rest, tape2)
  end.

Definition GenerateRandomBivariatePolynomial (secret threshold : Z) (tape : Tape)
    : res (list (list Z) * Tape) :=
  if threshold <? 0 then Panic
  else
    match Z.to_nat threshold with
    | O => Ok ([], tape)
    | S t =>
        let '(row0, tape1) := draws t tape in
        let '(rest, tape2) := randomRows t (S t) tape1 in
        Ok ((secret :: row0) :: rest, tape2)
    end.

Definition GetCommitmentMatrix (f fprime : list (list Z)) : res (list (list Point)) :=
  let threshold := length f in
  mapM (fun j =>
    mapM (fun l =>
      frow ← index f j;
      fjl ← index frow l;
      fprow ← index fprime j;
      fprimejl ← index fprow l;
      let gfjl := ScalarBaseMult (Bytes fjl) in
      let hfprimejl := ScalarMult secp_H (Bytes fprimejl) in
      Ok (CurveAdd gfjl hfprimejl)) (seq 0 threshold)) (seq 0 threshold).

(** The coefficients are sums of products by reduced powers; they are not
    themselves reduced. *)
Definition EvaluateBivarPolyAtX (bivarPoly : list (list Z)) (idx : Z) : res PrimaryPolynomial :=
  let n := length bivarPoly in
  row0 ← index bivarPoly 0;
  if Nat.ltb n (length row0) then Panic
  else
    vs ← mapM (fun l =>
      foldlM (fun acc jrow =>
        c ← index (snd jrow) l;
        Ok (acc + c * Exp idx (Z.of_nat (fst jrow)) q))
      0 (zip (seq 0 n) bivarPoly)) (seq 0 (length row0));
    Ok (mkPrimaryPolynomial (vs ++ replicate (n - length row0) 0) (Z.of_nat n)).

Definition EvaluateBivarPolyAtY (bivarPoly : list (list Z)) (idx : Z) : PrimaryPolynomial :=
  mkPrimaryPolynomial
    ((fun row =>
        foldl (fun acc lc => acc + snd lc * Exp idx (Z.of_nat (fst lc)) q)
        0 (zip (seq 0 (length row)) row)) <$> bivarPoly)
    (Z.of_nat (length bivarPoly)).

(** [C[j][l]]. *)
Definition entry (C : list (list Point)) (j l : nat) : res Point :=
  row ← index C j; index row l.

(** g^a . h^b, as every verification computes it. *)
Definition pedersen (a b : Z) : Point :=
  CurveAdd (ScalarBaseMult (Bytes a)) (ScalarMult secp_H (Bytes b)).

Definition pointEqb (P Q : Point) : bool := (PX P =? PX Q) && (PY P =? PY Q).

(** One half of [AVSSVerifyPoly]: every coefficient of a slice against the
    column (or row) of the matrix that commits to it. *)
Definition verifySlice (cell : nat -> nat -> res Point) (threshold : Z)
    (idx : Z) (a aprime : list Z) : res bool :=
  allM (fun l =>
    al ← index a l;
    aprimel ← index aprime l;
    pts ← mapM (fun j => cell j l) (seq 0 (Z.to_nat threshold));
    Ok (pointEqb (pedersen al aprimel) (RHS pts idx))) (seq 0 (length a)).

Definition AVSSVerifyPoly (C : list (list Point)) (idx : Z)
    (a aprime b bprime : PrimaryPolynomial) : res bool :=
  if negb (Threshold a =? Threshold aprime) || negb (Threshold a =? Threshold b)
     || negb (Threshold a =? Threshold bprime)
  then Ok false
  else if negb (Threshold a =? Z.of_nat (length C)) then Ok false
  else
    C0 ← index C 0;
    if negb (Threshold a =? Z.of_nat (length C0)) then Ok false
    else
      okA ← verifySlice (fun j l => entry C j l) (Threshold a) idx (Coeff a) (Coeff aprime);
      if (okA : bool)
      then verifySlice (fun l j => entry C j l) (Threshold b) idx (Coeff b) (Coeff bprime)
      else Ok false.

(** [beta] and [betaprime] are parameters of the source that its body never
    reads. *)
Definition AVSSVerifyPoint (C : list (list Point)) (m idx alpha alphaprime beta betaprime : Z)
    : res bool :=
  terms ← match C with
    | [] => Ok []
    | C0 :: _ =>
        mapM (fun j =>
          mapM (fun l =>
            Cjl ← entry C j l;
            let mj := Exp m (Z.of_nat j) q in
            let il := Exp idx (Z.of_nat l) q in
            Ok (ScalarMult Cjl (Bytes (mj * il)))) (seq 0 (length C0))) (seq 0 (length C))
    end;
  Ok (pointEqb (pedersen alpha alphaprime) (foldl CurveAdd PointO (concat terms))).

Definition AVSSVerifyShareCommitment (C : list (list Point)) (m : Z)
    (gsigmahsigmaprime : Point) : res bool :=
  col ← mapM (fun row => index row 0) C;
  Ok (pointEqb gsigmahsigmaprime (RHS col m)).

Definition AVSSVerifyShare (C : list (list Point)) (m sigma sigmaprime : Z) : res bool :=
  AVSSVerifyShareCommitment C m (pedersen sigma sigmaprime).

(** Rows of the sum are allocated with the number of rows as their width. *)
Definition addRow (width : nat) (r1 r2 : list Point) : res (list Point) :=
  if Nat.ltb width (length r1) then Panic
  else Ok (zip_with CurveAdd r1 r2 ++ replicate (width - length r1) PointO).

Definition AVSSAddCommitment (C1 C2 : list (list Point)) : res (list (list Point)) :=
  if negb (Nat.eqb (length C1) (length C2)) then Err "Commitment not same width"
  else mapM (fun rr =>
    if negb (Nat.eqb (length (fst rr)) (length (snd rr)))
    then Err "Commitment not same length"
    else addRow (length C1) (fst rr) (snd rr)) (zip C1 C2).

(** src/common/utils.go: the column of a matrix of points. *)
Definition GetColumnPoint (matrix : list (list Point)) (columnIndex : nat) : res (list Point) :=
  mapM (fun row => index row columnIndex) matrix.

(** ** The bivariate polynomial *)

(** Value at (x, y) of the polynomial with coefficient [f[j][l]] of x^j y^l. *)
Definition beval (f : list (list Z)) (x y : Z) : Z := peval ((fun row => peval row y) <$> f) x.

(** A square matrix of residues: what a dealer draws. *)
Definition matrix_ok (t : nat) (f : list (list Z)) : Prop :=
  (0 < t)%nat /\ length f = t /\
  Forall (fun row => length row = t /\ Forall (fun c => 0 <= c < q) row) f.

(** Column [l] of a matrix of coefficients. *)
Definition column (l : nat) (f : list (list Z)) : list Z := (fun row => row !!! l) <$> f.

(** The commitment matrix, as a specification. *)
Definition commit_matrix `{!Secp256k1Laws} (f f' : list (list Z)) : list (list Point) :=
  zip_with (fun r r' => zip_with ped r r') f f'.

End avss.

Section avss_proofs.
Context {SO : Secp256k1} {SL : Secp256k1Laws}.

Local Abbreviation q := GeneratorOrder.

(** ** Shapes *)

Lemma matrix_row t f j :
  matrix_ok t f -> (j < t)%nat ->
  length (f !!! j) = t /\ Forall (fun c => 0 <= c < q) (f !!! j).
Proof.
  intros (Ht & Hl & Hf) Hj. rewrite Forall_lookup in Hf. apply (Hf j).
  apply list_lookup_lookup_total_lt. lia.
Qed.

Lemma matrix_entry t f j l :
  matrix_ok t f -> (j < t)%nat -> (l < t)%nat -> 0 <= (f !!! j) !!! l < q.
Proof.
  intros Hf Hj Hl. destruct (matrix_row t f j Hf Hj) as [H1 H2].
  rewrite Forall_lookup in H2. apply (H2 l). apply list_lookup_lookup_total_lt. lia.
Qed.

Lemma length_column l f : length (column l f) = length f.
Proof. apply length_fmap. Qed.

Lemma peval_column_cons row f ls x y :
  peval ((fun l => peval (column l (row :: f)) x) <$> ls) y =
    peval ((fun l => row !!! l) <$> ls) y + x * peval ((fun l => peval (column l f) x) <$> ls) y.
Proof.
  induction ls as [|l ls IH]; [cbn; lia|]. rewrite !fmap_cons.
  rewrite !peval_cons, IH. change (column l (row :: f)) with (row !!! l :: column l f).
  rewrite peval_cons. lia.
Qed.

(** Summing rows first or columns first gives the same value. *)
Lemma beval_columns t f x y :
  matrix_ok t f ->
  beval f x y = peval ((fun l => peval (column l f) x) <$> seq 0 t) y.
Proof.
  intros (_ & _ & Hf). unfold beval.
  assert (Forall (fun row => length row = t) f) as Hlen by (eapply list.Forall_impl; [exact Hf|naive_solver]).
  clear Hf. induction Hlen as [|row f Hrow Hlen IH].
  - generalize (seq 0 t). intros l. symmetry. induction l as [|a l IH]; [done|].
    rewrite fmap_cons, peval_cons, IH. cbn. lia.
  - rewrite fmap_cons, peval_cons, peval_column_cons, <-IH, <-Hrow, fmap_lookup_total_seq. done.
Qed.

(** ** Slices *)

Lemma slice_sum row idx :
  foldl (fun acc lc => acc + snd lc * Exp idx (Z.of_nat (fst lc)) q) 0
    (zip (seq 0 (length row)) row) ≡[q] peval row idx.
Proof.
  rewrite (foldl_sum (fun lc => snd lc * Exp idx (Z.of_nat (fst lc)) q)), Z.add_0_l.
  rewrite peval_sum. apply (sumZ_ext q (fun lc => snd lc * Exp idx (Z.of_nat (fst lc)) q)).
  intros lc _. unfold Exp. by rewrite eqm_mod.
Qed.

Lemma slice_sum_nonneg row idx :
  Forall (fun c => 0 <= c < q) row ->
  0 <= foldl (fun acc lc => acc + snd lc * Exp idx (Z.of_nat (fst lc)) q) 0
    (zip (seq 0 (length row)) row).
Proof.
  intros Hr. rewrite (foldl_sum (fun lc => snd lc * Exp idx (Z.of_nat (fst lc)) q)), Z.add_0_l.
  apply (sumZ_nonneg (fun lc => snd lc * Exp idx (Z.of_nat (fst lc)) q)).
  intros [l c] [_ Hc]%elem_of_zip_seq. rewrite Forall_lookup in Hr. apply Hr in Hc.
  pose proof (Exp_nonneg idx (Z.of_nat l)). simpl. nia.
Qed.

(** What a slice of an honest matrix is: [t] non-negative coefficients in the
    classes of the values of the rows (or columns). *)
Definition slice_of (t : nat) (values : nat -> Z) (poly : PrimaryPolynomial) : Prop :=
  Threshold poly = Z.of_nat t /\ length (Coeff poly) = t /\
  forall l, (l < t)%nat -> 0 <= Coeff poly !!! l /\ Coeff poly !!! l ≡[q] values l.

Lemma EvaluateBivarPolyAtY_spec t f idx :
  matrix_ok t f ->
  slice_of t (fun j => peval (f !!! j) idx) (EvaluateBivarPolyAtY f idx).
Proof.
  intros Hf. pose proof Hf as (Ht & Hl & _). unfold EvaluateBivarPolyAtY, slice_of. simpl.
  rewrite length_fmap, Hl. split; [done|]. split; [done|]. intros j Hj.
  rewrite (lookup_total_fmap_lt (IA := _)) by lia.
  split; [apply slice_sum_nonneg, (matrix_row t f j Hf Hj) | apply slice_sum].
Qed.

Lemma EvaluateBivarPolyAtX_spec t f idx :
  matrix_ok t f ->
  exists poly, EvaluateBivarPolyAtX f idx = Ok poly /\
    slice_of t (fun l => peval (column l f) idx) poly.
Proof.
  intros Hf. pose proof Hf as (Ht & Hl & _). unfold EvaluateBivarPolyAtX.
  rewrite index_total by lia. cbn [mbind res_bind].
  destruct (matrix_row t f 0 Hf) as [Hrow0 _]; [lia|]. rewrite Hrow0, Hl.
  rewrite (proj2 (Nat.ltb_ge t t)) by lia.
  rewrite (mapM_Ok _ (fun l => sumZ (fun jrow =>
    (snd jrow !!! l) * Exp idx (Z.of_nat (fst jrow)) q) (zip (seq 0 t) f))).
  - cbn [mbind res_bind]. rewrite Nat.sub_diag, app_nil_r.
    eexists. split; [done|]. unfold slice_of. simpl.
    rewrite length_fmap, length_seq. split; [done|]. split; [done|]. intros l Hlt.
    rewrite (lookup_total_fmap_lt (IA := _)) by (rewrite length_seq; lia).
    rewrite (list_lookup_total_correct (seq 0 t) l l) by (by apply lookup_seq_lt).
    split.
    + apply sumZ_nonneg. intros [j row] Hin. rewrite <-Hl in Hin.
      apply elem_of_zip_seq in Hin as [_ Hj]. rewrite Nat.sub_0_r in Hj. simpl.
      pose proof (lookup_lt_Some _ _ _ Hj). pose proof (Exp_nonneg idx (Z.of_nat j)).
      pose proof (matrix_entry t f j l Hf ltac:(lia) Hlt) as He.
      rewrite (list_lookup_total_correct _ _ _ Hj) in He. nia.
    + unfold column. rewrite peval_sum_fmap, Hl. apply sumZ_ext. intros jr _.
      unfold Exp. by rewrite eqm_mod.
  - intros l [_ Hlt]%elem_of_seq.
    rewrite (foldlM_Ok _ (fun acc jrow =>
      acc + (snd jrow !!! l) * Exp idx (Z.of_nat (fst jrow)) q)).
    + f_equal. rewrite (foldl_sum (fun jrow : nat * list Z =>
        (snd jrow !!! l) * Exp idx (Z.of_nat (fst jrow)) q)). apply Z.add_0_l.
    + intros acc [j row] Hin. rewrite <-Hl in Hin. apply elem_of_zip_seq in Hin as [_ Hj].
      rewrite Nat.sub_0_r in Hj. simpl.
      pose proof (lookup_lt_Some _ _ _ Hj).
      destruct (matrix_row t f j Hf ltac:(lia)) as [Hrl _].
      rewrite (list_lookup_total_correct _ _ _ Hj) in Hrl.
      by rewrite index_total by lia.
Qed.

(** The value of a slice. *)
Lemma slice_eval t values poly x :
  slice_of t values poly -> peval (Coeff poly) x ≡[q] peval (values <$> seq 0 t) x.
Proof.
  intros (_ & Hl & Hv). apply peval_proper; [|done].
  apply Forall2_same_length_lookup. rewrite length_fmap, length_seq. split; [done|].
  intros i a b Ha Hb. pose proof (lookup_lt_Some _ _ _ Ha).
  rewrite list_lookup_fmap, lookup_seq_lt in Hb by lia. injection Hb as <-.
  destruct (Hv i) as [_ E]; [lia|]. by rewrite (list_lookup_total_correct _ _ _ Ha) in E.
Qed.

Lemma slice_wf t values poly : (0 < t)%nat -> slice_of t values poly -> poly_wf poly.
Proof. intros Ht (H1 & H2 & _). unfold poly_wf. lia. Qed.

Lemma sliceX_eval t f idx poly y :
  matrix_ok t f -> slice_of t (fun l => peval (column l f) idx) poly ->
  peval (Coeff poly) y ≡[q] beval f idx y.
Proof. intros Hf Hs. by rewrite (slice_eval _ _ _ _ Hs), (beval_columns t f). Qed.

Lemma sliceY_eval t f idx poly x :
  matrix_ok t f -> slice_of t (fun j => peval (f !!! j) idx) poly ->
  peval (Coeff poly) x ≡[q] beval f x idx.
Proof.
  intros Hf Hs. rewrite (slice_eval _ _ _ _ Hs). unfold beval.
  pose proof Hf as (_ & Hl & _). rewrite <-(fmap_lookup_total_seq f) at 1.
  rewrite <-list_fmap_compose, Hl. done.
Qed.

(** ** The commitment matrix *)

Lemma pedersen_ped a b : 0 <= a -> 0 <= b -> pedersen a b = ped a b.
Proof. apply ped_code. Qed.

Lemma pointEqb_true P Q : pointEqb P Q = true <-> P = Q.
Proof.
  unfold pointEqb. rewrite andb_true_iff, !Z.eqb_eq. destruct P, Q; simpl.
  split; [intros [-> ->] | intros [= -> ->]]; done.
Qed.

Lemma pointEqb_refl P : pointEqb P P = true.
Proof. by apply pointEqb_true. Qed.

Lemma length_commit_matrix t f f' :
  matrix_ok t f -> matrix_ok t f' -> length (commit_matrix f f') = t.
Proof. intros (_ & Hl & _) (_ & Hl' & _). unfold commit_matrix. rewrite length_zip_with. lia. Qed.

Lemma commit_matrix_row t f f' j :
  matrix_ok t f -> matrix_ok t f' -> (j < t)%nat ->
  commit_matrix f f' !! j = Some (zip_with ped (f !!! j) (f' !!! j)).
Proof.
  intros (_ & Hl & _) (_ & Hl' & _) Hj. unfold commit_matrix. rewrite lookup_zip_with.
  by rewrite !list_lookup_lookup_total_lt by lia.
Qed.

Lemma commit_matrix_entry t f f' j l :
  matrix_ok t f -> matrix_ok t f' -> (j < t)%nat -> (l < t)%nat ->
  entry (commit_matrix f f') j l = Ok (ped ((f !!! j) !!! l) ((f' !!! j) !!! l)).
Proof.
  intros Hf Hf' Hj Hl. unfold entry.
  rewrite (index_Some _ _ _ (commit_matrix_row t f f' j Hf Hf' Hj)). cbn [mbind res_bind].
  destruct (matrix_row t f j Hf Hj) as [H1 _], (matrix_row t f' j Hf' Hj) as [H2 _].
  rewrite index_total by (rewrite length_zip_with; lia).
  f_equal. apply list_lookup_total_correct. rewrite lookup_zip_with.
  by rewrite !list_lookup_lookup_total_lt by lia.
Qed.

Lemma GetCommitmentMatrix_spec t f f' :
  matrix_ok t f -> matrix_ok t f' -> GetCommitmentMatrix f f' = Ok (commit_matrix f f').
Proof.
  intros Hf Hf'. pose proof Hf as (_ & Hl & _). pose proof Hf' as (_ & Hl' & _).
  unfold GetCommitmentMatrix. rewrite Hl.
  rewrite (mapM_Ok _ (fun j => commit_matrix f f' !!! j)).
  - rewrite <-(length_commit_matrix t f f') at 1 by done. by rewrite fmap_lookup_total_seq.
  - intros j [_ Hj]%elem_of_seq. simpl in Hj.
    rewrite (list_lookup_total_correct _ _ _ (commit_matrix_row t f f' j Hf Hf' Hj)).
    destruct (matrix_row t f j Hf Hj) as [H1 _], (matrix_row t f' j Hf' Hj) as [H2 _].
    rewrite (mapM_Ok _ (fun l => zip_with ped (f !!! j) (f' !!! j) !!! l)).
    + f_equal. assert (length (zip_with ped (f !!! j) (f' !!! j)) = t) as <-
        by (rewrite length_zip_with; lia). apply fmap_lookup_total_seq.
    + intros l [_ Hlt]%elem_of_seq. simpl in Hlt.
      rewrite !index_total by lia. cbn [mbind res_bind]. rewrite !index_total by lia.
      cbn [mbind res_bind]. rewrite ped_code; [|apply (matrix_entry t f); done|apply (matrix_entry t f'); done].
      f_equal. symmetry. apply list_lookup_total_correct. rewrite lookup_zip_with.
      by rewrite !list_lookup_lookup_total_lt by lia.
Qed.

Lemma zip_with_fmap_seq {A B} (f : A -> B -> Point) (g : nat -> A) (h : nat -> B) ls :
  zip_with f (g <$> ls) (h <$> ls) = (fun l => f (g l) (h l)) <$> ls.
Proof. induction ls as [|l ls IH]; csimpl; [done|]. by rewrite IH. Qed.

Lemma commit_column t f f' l :
  matrix_ok t f -> matrix_ok t f' -> (l < t)%nat ->
  mapM (fun j => entry (commit_matrix f f') j l) (seq 0 t) =
    Ok (zip_with ped (column l f) (column l f')).
Proof.
  intros Hf Hf' Hl. pose proof Hf as (_ & Hlen & _). pose proof Hf' as (_ & Hlen' & _).
  rewrite (mapM_Ok _ (fun j => ped ((f !!! j) !!! l) ((f' !!! j) !!! l))).
  - f_equal. unfold column. rewrite <-(fmap_lookup_total_seq f) at 1.
    rewrite <-(fmap_lookup_total_seq f') at 1. rewrite Hlen, Hlen', <-!list_fmap_compose.
    by rewrite zip_with_fmap_seq.
  - intros j [_ Hj]%elem_of_seq. by apply (commit_matrix_entry t).
Qed.

Lemma commit_row t f f' j :
  matrix_ok t f -> matrix_ok t f' -> (j < t)%nat ->
  mapM (fun l => entry (commit_matrix f f') j l) (seq 0 t) =
    Ok (zip_with ped (f !!! j) (f' !!! j)).
Proof.
  intros Hf Hf' Hj.
  destruct (matrix_row t f j Hf Hj) as [H1 _], (matrix_row t f' j Hf' Hj) as [H2 _].
  rewrite (mapM_Ok _ (fun l => ped ((f !!! j) !!! l) ((f' !!! j) !!! l))).
  - f_equal. rewrite <-(fmap_lookup_total_seq (f !!! j)) at 1.
    rewrite <-(fmap_lookup_total_seq (f' !!! j)) at 1. rewrite H1, H2.
    by rewrite zip_with_fmap_seq.
  - intros l [_ Hl]%elem_of_seq. by apply (commit_matrix_entry t).
Qed.

(** ** Verification of honest slices *)

Lemma verifySlice_honest cell t idx vs vs' a a' (cs cs' : nat -> list Z) :
  slice_of t vs a -> slice_of t vs' a' ->
  (forall l, (l < t)%nat -> mapM (fun j => cell j l) (seq 0 t) = Ok (zip_with ped (cs l) (cs' l))) ->
  (forall l, (l < t)%nat -> length (cs l) = length (cs' l) /\
    vs l = peval (cs l) idx /\ vs' l = peval (cs' l) idx) ->
  verifySlice cell (Z.of_nat t) idx (Coeff a) (Coeff a') = Ok true.
Proof.
  intros (Ht & Hl & Ha) (Ht' & Hl' & Ha') Hcell Hcs. unfold verifySlice. apply allM_true.
  intros l [_ Hlt]%elem_of_seq. rewrite Hl in Hlt. simpl in Hlt.
  rewrite !index_total by lia. cbn [mbind res_bind]. rewrite Nat2Z.id, Hcell by done.
  cbn [mbind res_bind]. f_equal. apply pointEqb_true.
  destruct (Ha l Hlt) as [H1 H2], (Ha' l Hlt) as [H3 H4], (Hcs l Hlt) as (H5 & H6 & H7).
  rewrite pedersen_ped, RHS_ped by done. by rewrite H2, H4, H6, H7.
Qed.

Lemma AVSSVerifyPoly_honest t f f' idx a a' b b' :
  matrix_ok t f -> matrix_ok t f' ->
  slice_of t (fun l => peval (column l f) idx) a ->
  slice_of t (fun l => peval (column l f') idx) a' ->
  slice_of t (fun j => peval (f !!! j) idx) b ->
  slice_of t (fun j => peval (f' !!! j) idx) b' ->
  AVSSVerifyPoly (commit_matrix f f') idx a a' b b' = Ok true.
Proof.
  intros Hf Hf' Ha Ha' Hb Hb'. pose proof Hf as (Ht & Hl & _). pose proof Hf' as (_ & Hl' & _).
  unfold AVSSVerifyPoly.
  rewrite (proj1 Ha), (proj1 Ha'), (proj1 Hb), (proj1 Hb'), (length_commit_matrix t), !Z.eqb_refl by done.
  cbn [negb orb].
  rewrite (index_Some _ _ _ (commit_matrix_row t f f' 0 Hf Hf' Ht)). cbn [mbind res_bind].
  rewrite length_zip_with, (proj1 (matrix_row t f 0 Hf Ht)), (proj1 (matrix_row t f' 0 Hf' Ht)),
    Nat.min_id, Z.eqb_refl. cbn [negb].
  rewrite (verifySlice_honest _ t idx _ _ a a' (fun l => column l f) (fun l => column l f') Ha Ha').
  - cbn [mbind res_bind].
    apply (verifySlice_honest _ t idx _ _ b b' (fun j => f !!! j) (fun j => f' !!! j) Hb Hb').
    + intros j Hj. by apply commit_row.
    + intros j Hj. split; [|done].
      by rewrite (proj1 (matrix_row t f j Hf Hj)), (proj1 (matrix_row t f' j Hf' Hj)).
  - intros l Hlt. by apply commit_column.
  - intros l Hlt. split; [|done]. rewrite !length_column. lia.
Qed.

(** ** Verification of points *)

Lemma sumP_app l1 l2 :
  Forall on_curve l1 -> Forall on_curve l2 -> sumP (l1 ++ l2) = sumP l1 ⊕ sumP l2.
Proof.
  intros H1 H2. unfold sumP at 1. rewrite foldl_app. apply foldl_Add_acc; [|done].
  by apply sumP_on_curve.
Qed.

Lemma sumP_concat_ped {A} (f g : A -> Z) (lss : list (list A)) :
  sumP (concat ((fun ls : list A => (fun a => ped (f a) (g a)) <$> ls) <$> lss)) =
    ped (sumZ (fun ls => sumZ f ls) lss) (sumZ (fun ls => sumZ g ls) lss).
Proof.
  induction lss as [|ls lss IH]; csimpl; [by rewrite ped_0|].
  rewrite sumP_app, IH, sumP_ped, ped_add; [done|apply Forall_fmap_all; intros; apply ped_on_curve|].
  clear. induction lss as [|ls lss IH]; csimpl; [done|]. apply Forall_app. split; [|done].
  apply Forall_fmap_all. intros. apply ped_on_curve.
Qed.

(** The exponents of a commitment's entries add up to the bivariate value. *)
Lemma beval_double_sum t f x y :
  matrix_ok t f ->
  sumZ (fun js => sumZ (fun jl : nat * nat =>
      (x ^ Z.of_nat (fst jl) * y ^ Z.of_nat (snd jl)) * ((f !!! fst jl) !!! snd jl)) js)
    ((fun j => (fun l => (j, l)) <$> seq 0 t) <$> seq 0 t) = beval f x y.
Proof.
  intros Hf. pose proof Hf as (_ & Hl & _). unfold beval.
  rewrite <-(fmap_lookup_total_seq f) at 1. rewrite <-list_fmap_compose, Hl, sumZ_fmap.
  rewrite peval_sum_fmap, length_seq.
  assert (zip (seq 0 t) (seq 0 t) = (fun j => (j, j)) <$> seq 0 t) as ->.
  { generalize (seq 0 t). intros l. induction l as [|a l IH]; csimpl; [done|]. by rewrite IH. }
  rewrite sumZ_fmap. apply sumZ_ext_eq. intros j [_ Hj]%elem_of_seq. simpl in *.
  rewrite sumZ_fmap. simpl. destruct (matrix_row t f j Hf Hj) as [Hrl _].
  rewrite <-(fmap_lookup_total_seq (f !!! j)) at 1. rewrite Hrl, peval_sum_fmap, length_seq.
  assert (zip (seq 0 t) (seq 0 t) = (fun j => (j, j)) <$> seq 0 t) as ->.
  { generalize (seq 0 t). intros l. induction l as [|a l IH]; csimpl; [done|]. by rewrite IH. }
  rewrite sumZ_fmap. simpl. rewrite Z.mul_comm, <-sumZ_mul. apply sumZ_ext_eq. intros l _. simpl. lia.
Qed.

(** What [AVSSVerifyPoint] decides on an honest matrix. *)
Lemma AVSSVerifyPoint_spec t f f' m idx alpha alpha' beta beta' :
  matrix_ok t f -> matrix_ok t f' ->
  AVSSVerifyPoint (commit_matrix f f') m idx alpha alpha' beta beta' =
    Ok (pointEqb (pedersen alpha alpha') (ped (beval f m idx) (beval f' m idx))).
Proof.
  intros Hf Hf'. pose proof Hf as (Ht & _). unfold AVSSVerifyPoint.
  destruct (commit_matrix f f') as [|C0 C'] eqn:EC.
  { pose proof (length_commit_matrix t f f' Hf Hf') as E. rewrite EC in E. simpl in E. lia. }
  assert (length C0 = t) as ->.
  { pose proof (commit_matrix_row t f f' 0 Hf Hf' Ht) as E. rewrite EC in E. injection E as ->.
    rewrite length_zip_with, (proj1 (matrix_row t f 0 Hf Ht)), (proj1 (matrix_row t f' 0 Hf' Ht)).
    apply Nat.min_id. }
  rewrite <-EC, (length_commit_matrix t) by done.
  set (w := fun (g : list (list Z)) (jl : nat * nat) =>
    (m ^ Z.of_nat (fst jl) * idx ^ Z.of_nat (snd jl)) * ((g !!! fst jl) !!! snd jl)).
  rewrite (mapM_Ok _ (fun j => (fun jl => ped (w f jl) (w f' jl)) <$> ((fun l => (j, l)) <$> seq 0 t))).
  - cbn [mbind res_bind]. do 2 f_equal.
    fold (sumP (concat ((fun j => (fun jl => ped (w f jl) (w f' jl)) <$>
      ((fun l => (j, l)) <$> seq 0 t)) <$> seq 0 t))).
    rewrite <-(beval_double_sum t f m idx Hf), <-(beval_double_sum t f' m idx Hf').
    rewrite <-(sumP_concat_ped (w f) (w f')). by rewrite <-list_fmap_compose.
  - intros j [_ Hj]%elem_of_seq. rewrite <-list_fmap_compose. apply mapM_Ok.
    intros l [_ Hl]%elem_of_seq. rewrite (commit_matrix_entry t) by done. cbn [mbind res_bind].
    rewrite ScalarMult_Bytes; [|apply ped_on_curve|].
    + rewrite smul_ped. unfold w, Exp. simpl. f_equal. by rewrite !eqm_mod.
    + apply Z.mul_nonneg_nonneg; apply Exp_nonneg.
Qed.

Lemma peval_0 p : peval p 0 = default 0 (head p).
Proof. destruct p; cbn; lia. Qed.

Lemma beval_0_r t f x : matrix_ok t f -> beval f x 0 = peval (column 0 f) x.
Proof.
  intros (Ht & _ & Hf). unfold beval, column. f_equal. apply list_fmap_ext. intros j row Hj.
  rewrite Forall_lookup in Hf. apply Hf in Hj as [Hlen _].
  rewrite peval_0. destruct row; [simpl in Hlen; lia|done].
Qed.

(** What the share verifications decide on an honest matrix. *)
Lemma AVSSVerifyShareCommitment_spec t f f' m P :
  matrix_ok t f -> matrix_ok t f' ->
  AVSSVerifyShareCommitment (commit_matrix f f') m P =
    Ok (pointEqb P (ped (beval f m 0) (beval f' m 0))).
Proof.
  intros Hf Hf'. pose proof Hf as (Ht & Hl & _). pose proof Hf' as (_ & Hl' & _).
  unfold AVSSVerifyShareCommitment.
  assert (mapM (fun row => index row 0) (commit_matrix f f') =
    Ok (zip_with ped (column 0 f) (column 0 f'))) as ->.
  { rewrite <-(commit_column t f f' 0) by (done || lia).
    rewrite <-(fmap_lookup_total_seq (commit_matrix f f')) at 1.
    rewrite (length_commit_matrix t) by done. rewrite mapM_fmap_res. apply mapM_ext_res.
    intros j [_ Hj]%elem_of_seq. unfold entry.
    by rewrite (index_total (commit_matrix f f') j) by (rewrite (length_commit_matrix t) by done; lia). }
  cbn [mbind res_bind]. rewrite RHS_ped by (rewrite !length_column; lia).
  by rewrite !(beval_0_r t).
Qed.

Lemma GetColumnPoint_spec t f f' :
  matrix_ok t f -> matrix_ok t f' ->
  GetColumnPoint (commit_matrix f f') 0 = Ok (zip_with ped (column 0 f) (column 0 f')).
Proof.
  intros Hf Hf'. pose proof Hf as (Ht & _). unfold GetColumnPoint.
  rewrite <-(commit_column t f f' 0) by (done || lia).
  rewrite <-(fmap_lookup_total_seq (commit_matrix f f')) at 1.
  rewrite (length_commit_matrix t) by done. rewrite mapM_fmap_res. apply mapM_ext_res.
  intros j [_ Hj]%elem_of_seq. unfold entry.
  by rewrite (index_total (commit_matrix f f') j) by (rewrite (length_commit_matrix t) by done; lia).
Qed.

(** ** Dealing *)

Lemma randomRows_spec rows cols tape :
  tape_ok tape ->
  length (fst (randomRows rows cols tape)) = rows /\
  Forall (fun row => length row = cols /\ Forall (fun c => 0 <= c < q) row)
    (fst (randomRows rows cols tape)) /\
  tape_ok (snd (randomRows rows cols tape)).
Proof.
  revert tape. induction rows as [|r IH]; intros tape Ht; [by split_and!|]. simpl.
  destruct (draws_spec cols tape Ht) as (H1 & H2 & H3).
  destruct (draws cols tape) as [row tape1]; simpl in *.
  destruct (IH tape1 H3) as (H4 & H5 & H6).
  destruct (randomRows r cols tape1) as [rest tape2]; simpl in *.
  split_and!; [lia|by constructor|done].
Qed.

Lemma GenerateRandomBivariatePolynomial_spec secret t tape :
  (0 < t)%nat -> 0 <= secret < q -> tape_ok tape ->
  exists f tape', GenerateRandomBivariatePolynomial secret (Z.of_nat t) tape = Ok (f, tape') /\
    matrix_ok t f /\ beval f 0 0 = secret /\ tape_ok tape'.
Proof.
  intros Ht Hs Htape. unfold GenerateRandomBivariatePolynomial.
  destruct (Z.ltb_spec (Z.of_nat t) 0); [lia|]. rewrite Nat2Z.id.
  destruct t as [|t]; [lia|].
  destruct (draws_spec t tape Htape) as (H1 & H2 & H3).
  destruct (draws t tape) as [row0 tape1]; simpl in *.
  destruct (randomRows_spec t (S t) tape1 H3) as (H4 & H5 & H6).
  destruct (randomRows t (S t) tape1) as [rest tape2]; simpl in *.
  eexists _, _. split; [done|]. unfold matrix_ok. split_and!; [lia|simpl; lia| |cbn; lia|done].
  constructor; [|done]. split; [simpl; lia|]. by constructor.
Qed.

End avss_proofs.

(** ** Properties *)

Section properties.
Context {SO : Secp256k1} {SL : Secp256k1Laws}.

Local Abbreviation q := GeneratorOrder.

Lemma slice_PolyEval t values poly x :
  (0 < t)%nat -> in_int64 x -> slice_of t values poly ->
  exists v, PolyEval poly x = Ok v /\ 0 <= v /\ v ≡[q] peval (values <$> seq 0 t) x.
Proof.
  intros Ht Hx Hs. unfold PolyEval. rewrite int64_id by done.
  destruct (polyEval_wf poly x) as (v & E & Ev); [by eapply slice_wf|].
  exists v. split_and!; [done| |by rewrite Ev, (slice_eval t)].
  refine (polyEval_nonneg poly x v _ E). destruct Hs as (_ & Hl & Hv).
  apply Forall_lookup. intros i c Hi. pose proof (lookup_lt_Some _ _ _ Hi).
  destruct (Hv i) as [H0 _]; [lia|]. by rewrite (list_lookup_total_correct _ _ _ Hi) in H0.
Qed.

Lemma sliceX_PolyEval t f i y :
  matrix_ok t f -> in_int64 y ->
  exists a v, EvaluateBivarPolyAtX f i = Ok a /\
    PolyEval a y = Ok v /\ 0 <= v /\ v ≡[q] beval f i y.
Proof.
  intros Hf Hy. destruct (EvaluateBivarPolyAtX_spec t f i Hf) as (a & E & Hs).
  pose proof Hf as (Ht & _). destruct (slice_PolyEval t _ a y Ht Hy Hs) as (v & Ev & H0 & Hv).
  exists a, v. rewrite (beval_columns t f) by done. auto.
Qed.

Lemma sliceY_PolyEval t f i x :
  matrix_ok t f -> in_int64 x ->
  exists v, PolyEval (EvaluateBivarPolyAtY f i) x = Ok v /\ 0 <= v /\ v ≡[q] beval f x i.
Proof.
  intros Hf Hx. pose proof Hf as (Ht & Hl & _).
  destruct (slice_PolyEval t _ _ x Ht Hx (EvaluateBivarPolyAtY_spec t f i Hf)) as (v & Ev & H0 & Hv).
  exists v. split_and!; [done|done|]. rewrite Hv. unfold beval.
  assert (f = (fun j => f !!! j) <$> seq 0 t) as E by (by rewrite <-Hl, fmap_lookup_total_seq).
  rewrite E at 1. by rewrite <-list_fmap_compose.
Qed.

(** A dealing is accepted by every receiver: for any two random bivariate
    polynomials a dealer draws, the slices it computes for any index pass
    [AVSSVerifyPoly] against the commitment matrix it publishes, and the drawn
    polynomial has the dealer's secret at the origin. *)
Theorem dealing_verifies secret blinding t tape :
  (0 < t)%nat -> 0 <= secret < q -> 0 <= blinding < q -> tape_ok tape ->
  exists f tape1 f' tape2 C,
    GenerateRandomBivariatePolynomial secret (Z.of_nat t) tape = Ok (f, tape1) /\
    GenerateRandomBivariatePolynomial blinding (Z.of_nat t) tape1 = Ok (f', tape2) /\
    GetCommitmentMatrix f f' = Ok C /\ beval f 0 0 = secret /\
    forall idx, exists a a',
      EvaluateBivarPolyAtX f idx = Ok a /\ EvaluateBivarPolyAtX f' idx = Ok a' /\
      AVSSVerifyPoly C idx a a' (EvaluateBivarPolyAtY f idx) (EvaluateBivarPolyAtY f' idx)
        = Ok true.
Proof.
  intros Ht Hs Hb Htape.
  destruct (GenerateRandomBivariatePolynomial_spec secret t tape Ht Hs Htape)
    as (f & tape1 & E1 & Hf & H0 & Htape1).
  destruct (GenerateRandomBivariatePolynomial_spec blinding t tape1 Ht Hb Htape1)
    as (f' & tape2 & E2 & Hf' & _ & _).
  exists f, tape1, f', tape2, (commit_matrix f f').
  split_and!; [done|done|by apply (GetCommitmentMatrix_spec t)|done|].
  intros idx. destruct (EvaluateBivarPolyAtX_spec t f idx Hf) as (a & Ea & Ha).
  destruct (EvaluateBivarPolyAtX_spec t f' idx Hf') as (a' & Ea' & Ha').
  exists a, a'. split_and!; [done|done|].
  apply (AVSSVerifyPoly_honest t); auto using EvaluateBivarPolyAtY_spec.
Qed.

(** An echo point is accepted exactly when it is right: the pair a sender
    [m] computes for receiver [i] from its slices passes [AVSSVerifyPoint], and
    with that blinding value a non-negative integer passes only if it is
    congruent to the sender's value. *)
Theorem echo_point_sound_complete t f f' C m i :
  matrix_ok t f -> matrix_ok t f' -> in_int64 i -> GetCommitmentMatrix f f' = Ok C ->
  exists a a' alpha alpha',
    EvaluateBivarPolyAtX f m = Ok a /\ EvaluateBivarPolyAtX f' m = Ok a' /\
    PolyEval a i = Ok alpha /\ PolyEval a' i = Ok alpha' /\
    forall x beta beta', 0 <= x ->
      AVSSVerifyPoint C m i x alpha' beta beta' = Ok (bool_decide (x mod q = alpha mod q)).
Proof.
  intros Hf Hf' Hi HC. pose proof order_ge_2.
  rewrite (GetCommitmentMatrix_spec t) in HC by done. injection HC as <-.
  destruct (sliceX_PolyEval t f m i Hf Hi) as (a & v & Ea & Ev & H0 & Hv).
  destruct (sliceX_PolyEval t f' m i Hf' Hi) as (a' & v' & Ea' & Ev' & H0' & Hv').
  exists a, a', v, v'. split_and!; [done..|]. intros x beta beta' Hx.
  rewrite (AVSSVerifyPoint_spec t) by done. f_equal. rewrite pedersen_ped by done.
  rewrite <-Hv, <-Hv'. apply eq_bool_prop_intro.
  rewrite bool_decide_spec, Is_true_true, pointEqb_true, ped_inj_l.
  apply eqm_mod_iff. lia.
Qed.

(** The two families of slices agree: what sender [m] evaluates from its
    row polynomial at [i] is, modulo the order, what receiver [i] evaluates from
    its column polynomial at [m]. *)
Theorem slices_cross_consistent t f m i :
  matrix_ok t f -> in_int64 m -> in_int64 i ->
  exists a v w, EvaluateBivarPolyAtX f m = Ok a /\ PolyEval a i = Ok v /\
    PolyEval (EvaluateBivarPolyAtY f i) m = Ok w /\ v ≡[q] w.
Proof.
  intros Hf Hm Hi. destruct (sliceX_PolyEval t f m i Hf Hi) as (a & v & Ea & Ev & _ & Hv).
  destruct (sliceY_PolyEval t f i m Hf Hm) as (w & Ew & _ & Hw).
  exists a, v, w. split_and!; [done..|]. by rewrite Hv, Hw.
Qed.

(** C2: the sharing is correct: the values at zero of the row polynomials of any
    [t] or more parties with distinct indices pass [AVSSVerifyShare] with the
    blinding values computed alike, and interpolate to the dealer's secret. *)
Theorem avss_reconstructs t f f' C (parties : list Z) :
  matrix_ok t f -> matrix_ok t f' -> GetCommitmentMatrix f f' = Ok C ->
  distinct q parties -> (t <= length parties)%nat ->
  exists shares, mapM (fun i =>
      a ← EvaluateBivarPolyAtX f i; s ← PolyEval a 0; Ok (mkPrimaryShare i s)) parties = Ok shares /\
    LagrangeScalar shares 0 = beval f 0 0 mod q /\
    Forall (fun s => exists a' s', EvaluateBivarPolyAtX f' (Index s) = Ok a' /\
      PolyEval a' 0 = Ok s' /\ AVSSVerifyShare C (Index s) (Value s) s' = Ok true) shares.
Proof.
  intros Hf Hf' HC Hd Hlen. pose proof Hf as (Ht & Hl & _).
  assert (in_int64 0) as H0 by (unfold in_int64; lia).
  rewrite (GetCommitmentMatrix_spec t) in HC by done. injection HC as <-.
  set (g := fun i => a ← EvaluateBivarPolyAtX f i; s ← PolyEval a 0; Ok (mkPrimaryShare i s)).
  assert (forall i, exists v, g i = Ok (mkPrimaryShare i v) /\ 0 <= v /\ v ≡[q] beval f i 0) as Hg.
  { intros i. destruct (sliceX_PolyEval t f i 0 Hf H0) as (a & v & Ea & Ev & Hv).
    exists v. unfold g. rewrite Ea. cbn [mbind res_bind]. by rewrite Ev. }
  destruct (mapM_total g parties) as (shares & E & Hall).
  { intros i _. destruct (Hg i) as (v & -> & _). eauto. }
  exists shares. split; [done|].
  assert (Forall2 (fun i s => Index s = i /\ 0 <= Value s /\ Value s ≡[q] beval f i 0) parties shares) as H2.
  { eapply Forall2_impl; [|exact Hall]. intros i s Hs. destruct (Hg i) as (v & E' & Hv).
    rewrite Hs in E'. injection E' as ->. done. }
  assert (Index <$> shares = parties) as Hidx.
  { clear -H2. induction H2 as [|i s ? ? [Hi _] _ IH]; csimpl; [done|]. by rewrite Hi, IH. }
  assert (Forall (fun s => 0 <= Value s /\ Value s ≡[q] beval f (Index s) 0) shares) as H1.
  { clear -H2. induction H2 as [|i s ? ? [<- Hs] _ IH]; constructor; auto. }
  split.
  - rewrite (LagrangeScalar_spec (column 0 f)).
    + by rewrite (beval_0_r t).
    + by rewrite Hidx.
    + rewrite length_column, <-(length_fmap Index shares), Hidx. lia.
    + eapply list.Forall_impl; [exact H1|]. intros s [_ Hs]. by rewrite Hs, (beval_0_r t).
  - eapply list.Forall_impl; [exact H1|]. intros s [Hs0 Hs].
    destruct (sliceX_PolyEval t f' (Index s) 0 Hf' H0) as (a' & v' & Ea' & Ev' & Hv0 & Hv').
    exists a', v'. split_and!; [done|done|]. unfold AVSSVerifyShare.
    rewrite (AVSSVerifyShareCommitment_spec t) by done. f_equal.
    apply pointEqb_true. rewrite pedersen_ped by done. by rewrite Hs, Hv'.
Qed.

(** The sum of two coefficient matrices. *)
Definition add_matrix (f g : list (list Z)) : list (list Z) :=
  zip_with (zip_with (fun a b => (a + b) mod q)) f g.

Lemma add_matrix_ok t f g : matrix_ok t f -> matrix_ok t g -> matrix_ok t (add_matrix f g).
Proof.
  intros (Ht & Hl & Hf) (_ & Hl' & Hg). unfold matrix_ok, add_matrix.
  split_and!; [done|rewrite length_zip_with; lia|].
  apply Forall_lookup. intros j row. rewrite lookup_zip_with.
  destruct (f !! j) as [r|] eqn:Er; [|done]. destruct (g !! j) as [r'|] eqn:Er'; [|done]. intros [= <-].
  rewrite Forall_lookup in Hf, Hg. apply Hf in Er as [H1 _]. apply Hg in Er' as [H2 _].
  rewrite length_zip_with. split; [lia|]. apply Forall_lookup. intros l c. rewrite lookup_zip_with.
  destruct (r !! l); [|done]. destruct (r' !! l); [|done]. intros [= <-]. apply mod_order_bound.
Qed.

Lemma zip_with_ped_add (r r' s s' : list Z) :
  zip_with CurveAdd (zip_with ped r r') (zip_with ped s s') =
  zip_with ped (zip_with (fun a b => (a + b) mod q) r s) (zip_with (fun a b => (a + b) mod q) r' s').
Proof.
  revert r' s s'. induction r as [|a r IH]; intros [|a' r'] [|b s] [|b' s']; try done.
  simpl. rewrite IH, ped_add. f_equal. by rewrite !eqm_mod.
Qed.

Lemma addRow_exact w r1 r2 : length r1 = w -> addRow w r1 r2 = Ok (zip_with CurveAdd r1 r2).
Proof.
  intros <-. unfold addRow. by rewrite (proj2 (Nat.ltb_ge _ _)), Nat.sub_diag, app_nil_r by lia.
Qed.

Lemma AVSSAddCommitment_rows t (f f' g g' : list (list Z)) w :
  length f = length f' -> length g = length g' -> length f = length g ->
  Forall (fun r => length r = t) f -> Forall (fun r => length r = t) f' ->
  Forall (fun r => length r = t) g -> Forall (fun r => length r = t) g' -> w = t ->
  mapM (fun rr => if negb (Nat.eqb (length (fst rr)) (length (snd rr)))
    then Err "Commitment not same length" else addRow w (fst rr) (snd rr))
    (zip (commit_matrix f f') (commit_matrix g g')) =
  Ok (commit_matrix (add_matrix f g) (add_matrix f' g')).
Proof.
  intros H1 H2 H3 Hf Hf' Hg Hg' ->. revert f' g g' H1 H2 H3 Hf' Hg Hg'.
  induction Hf as [|r f Hr Hf IH]; intros [|r' f'] [|s g] [|s' g'] H1 H2 H3 Hf' Hg Hg'; try done.
  inv Hf'. inv Hg. inv Hg'. simpl in H1, H2, H3.
  change (zip (commit_matrix (r :: f) (r' :: f')) (commit_matrix (s :: g) (s' :: g')))
    with ((zip_with ped r r', zip_with ped s s') :: zip (commit_matrix f f') (commit_matrix g g')).
  rewrite mapM_cons_res. cbn [fst snd].
  rewrite !length_zip_with. replace (Nat.min _ _ =? Nat.min _ _)%nat with true by (symmetry; apply Nat.eqb_eq; lia).
  cbn [negb]. rewrite addRow_exact by (rewrite length_zip_with; lia).
  cbn [mbind res_bind]. rewrite IH by (done || lia).
  by rewrite zip_with_ped_add.
Qed.

(** Commitments are additive: adding the commitment matrices of two
    dealings gives the commitment matrix of the sum of their polynomials. *)
Theorem commitment_matrices_add t f f' g g' C1 C2 :
  matrix_ok t f -> matrix_ok t f' -> matrix_ok t g -> matrix_ok t g' ->
  GetCommitmentMatrix f f' = Ok C1 -> GetCommitmentMatrix g g' = Ok C2 ->
  AVSSAddCommitment C1 C2 = GetCommitmentMatrix (add_matrix f g) (add_matrix f' g').
Proof.
  intros Hf Hf' Hg Hg'. rewrite !(GetCommitmentMatrix_spec t) by auto using add_matrix_ok.
  intros [= <-] [= <-]. unfold AVSSAddCommitment. rewrite !(length_commit_matrix t), Nat.eqb_refl by done.
  cbn [negb]. destruct Hf as (_ & Hl1 & Hf), Hf' as (_ & Hl2 & Hf'), Hg as (_ & Hl3 & Hg), Hg' as (_ & Hl4 & Hg').
  apply (AVSSAddCommitment_rows t); try lia;
    match goal with |- Forall _ ?m => match goal with H : Forall _ m |- _ =>
      eapply list.Forall_impl; [exact H|naive_solver] end end.
Qed.

End properties.

(** ** Witnesses *)

Definition toy_avss_tape : Tape := fun n => Z.of_nat (11 * n + 4) mod 31.
Definition toy_f : list (list Z) := [[9; 4]; [15; 26]].
Definition toy_f' : list (list Z) := [[6; 17]; [28; 8]].
Definition toy_C : list (list Point) :=
  match GetCommitmentMatrix toy_f toy_f' with Ok C => C | _ => [] end.

Lemma toy_avss_tape_ok : @tape_ok Toy.ops toy_avss_tape.
Proof. intros n. apply Z.mod_pos_bound. simpl. lia. Qed.

Lemma toy_f_ok : @matrix_ok Toy.ops 2 toy_f.
Proof. unfold matrix_ok, toy_f. simpl. split_and!; [lia|done|]. repeat constructor; lia. Qed.

Lemma toy_f'_ok : @matrix_ok Toy.ops 2 toy_f'.
Proof. unfold matrix_ok, toy_f'. simpl. split_and!; [lia|done|]. repeat constructor; lia. Qed.

Lemma dealing_verifies_witness :
  exists f tape1 f' tape2 C a a',
    GenerateRandomBivariatePolynomial 9 2 toy_avss_tape = Ok (f, tape1) /\
    GenerateRandomBivariatePolynomial 6 2 tape1 = Ok (f', tape2) /\
    GetCommitmentMatrix f f' = Ok C /\
    EvaluateBivarPolyAtX f 3 = Ok a /\ EvaluateBivarPolyAtX f' 3 = Ok a' /\
    AVSSVerifyPoly C 3 a a' (EvaluateBivarPolyAtY f 3) (EvaluateBivarPolyAtY f' 3) = Ok true.
Proof.
  destruct (dealing_verifies 9 6 2 toy_avss_tape) as (f & t1 & f' & t2 & C & E1 & E2 & EC & _ & H);
    [lia | simpl; lia | simpl; lia | apply toy_avss_tape_ok |].
  destruct (H 3) as (a & a' & Ea & Ea' & Hv). exists f, t1, f', t2, C, a, a'. auto 10.
Defined.

Lemma echo_point_sound_complete_witness :
  AVSSVerifyPoint toy_C 3 2 1 17 0 0 = Ok true /\ AVSSVerifyPoint toy_C 3 2 26 17 0 0 = Ok false.
Proof.
  destruct (echo_point_sound_complete 2 toy_f toy_f' toy_C 3 2)
    as (a & a' & v & v' & Ea & Ea' & Ev & Ev' & H);
    [apply toy_f_ok | apply toy_f'_ok | unfold in_int64; lia | reflexivity |].
  vm_compute in Ea, Ea'. injection Ea as <-. injection Ea' as <-.
  vm_compute in Ev, Ev'. injection Ev as <-. injection Ev' as <-.
  split; [rewrite (H 1 0 0) by lia | rewrite (H 26 0 0) by lia]; reflexivity.
Defined.

Lemma slices_cross_consistent_witness :
  exists a v w, EvaluateBivarPolyAtX toy_f 3 = Ok a /\ PolyEval a 2 = Ok v /\
    PolyEval (EvaluateBivarPolyAtY toy_f 2) 3 = Ok w /\ v ≡[GeneratorOrder] w.
Proof.
  apply (slices_cross_consistent 2 toy_f 3 2); [apply toy_f_ok | unfold in_int64; lia..].
Defined.

Lemma avss_reconstructs_witness :
  exists shares, mapM (fun i =>
      a ← EvaluateBivarPolyAtX toy_f i; s ← PolyEval a 0; Ok (mkPrimaryShare i s)) [5; 2; 3] = Ok shares /\
    LagrangeScalar shares 0 = 9.
Proof.
  destruct (avss_reconstructs 2 toy_f toy_f' toy_C [5; 2; 3]) as (sh & E & Hs & _);
    [apply toy_f_ok | apply toy_f'_ok | reflexivity | vm_compute; repeat constructor; set_solver | simpl; lia |].
  exists sh. split; [exact E|]. rewrite Hs. reflexivity.
Defined.

Lemma commitment_matrices_add_witness :
  AVSSAddCommitment toy_C toy_C = GetCommitmentMatrix (add_matrix toy_f toy_f) (add_matrix toy_f' toy_f').
Proof.
  apply (commitment_matrices_add 2); auto using toy_f_ok, toy_f'_ok.
Defined.
