(* ===== verification/Nizkpk.v ===== *)
(** Padding (src/pkcs7/pkcs7.go) and the non-interactive proof that a node knows
    the share behind its public commitments (src/pvss/nizkpk.go). *)
From Stdlib Require Import Zdivisibility ZArith.
From S2P Require Import Prelude BigInt Field Curve Pvss.

(** ** PKCS7 *)

Module Pkcs7.

Definition ErrInvalidBlockSize : string := "invalid blocksize".
Definition ErrInvalidPKCS7Data : string := "invalid PKCS7 data (empty or not padded)".
Definition ErrInvalidPKCS7Padding : string := "invalid padding on input".

(** The remainder binds tighter than the subtraction, so [1 % blocksize] is what
    is taken from the length.  Slicing the fresh buffer at the length of the
    input panics when the buffer is shorter. *)
Definition Pad (b : list Z) (blocksize : Z) : res (list Z) :=
  if blocksize <=? 0 then Err ErrInvalidBlockSize
  else if Nat.eqb (length b) 0 then Err ErrInvalidPKCS7Data
  else
    let n := blocksize - (Z.of_nat (length b) - Z.rem 1 blocksize) - 1 in
    if n <? 0 then Panic
    else Ok (b ++ replicate (Z.to_nat n) (n mod 256)).

(** The comparison loop reads the last [n] bytes. *)
Definition Unpad (b : list Z) (blocksize : Z) : res (list Z) :=
  if blocksize <=? 0 then Err ErrInvalidBlockSize
  else if Nat.eqb (length b) 0 then Err ErrInvalidPKCS7Data
  else if negb (Z.rem (Z.of_nat (length b)) blocksize =? 0) then Err ErrInvalidPKCS7Padding
  else
    c ← index b (length b - 1);
    if (c =? 0) || (Z.of_nat (length b) <? c) then Err ErrInvalidPKCS7Padding
    else
      ok ← allM (fun i => x ← index b (length b - Z.to_nat c + i); Ok (x =? c)) (seq 0 (Z.to_nat c));
      if (ok : bool) then Ok (take (length b - Z.to_nat c) b) else Err ErrInvalidPKCS7Padding.

Lemma rem_1 n : 1 < n -> Z.rem 1 n = 1.
Proof. intros. apply Z.rem_small. lia. Qed.

(** [Pad] on every input that passes its guards. *)
Lemma Pad_spec b n :
  1 < n -> b <> [] ->
  Pad b n = (if decide (Z.of_nat (length b) <= n)
             then Ok (b ++ replicate (Z.to_nat n - length b) ((n - Z.of_nat (length b)) mod 256))
             else Panic).
Proof.
  intros Hn Hb. unfold Pad. destruct (Z.leb_spec n 0); [lia|].
  destruct b as [|c b]; [done|]. change (Nat.eqb (length (c :: b)) 0) with false. cbn match.
  rewrite rem_1 by done. set (l := Z.of_nat (length (c :: b))).
  replace (n - (l - 1) - 1) with (n - l) by lia.
  destruct (Z.ltb_spec (n - l) 0); case_decide; try lia; [done|].
  do 3 f_equal. unfold l. lia.
Qed.

Lemma Pad_length b n r : 1 < n -> Pad b n = Ok r -> length r = Z.to_nat n.
Proof.
  intros Hn E. assert (b <> []) as Hb.
  { intros ->. unfold Pad in E. destruct (n <=? 0); done. }
  rewrite Pad_spec in E by done. case_decide as Hd; [|done]. injection E as <-.
  rewrite length_app, length_replicate. lia.
Qed.

End Pkcs7.

(** ** The proof of knowledge *)

Section nizkpk.
Context {SO : Secp256k1}.

Local Abbreviation q := GeneratorOrder.

(** An error leaves the bytes as they are. *)
Definition pad (b : list Z) : res (list Z) :=
  match Pkcs7.Pad b 64 with
  | Err _ => Ok b
  | r => r
  end.

(** What both sides hash, and the challenge. *)
Definition transcript (gs gshr t1 t2 : Point) : res (list Z) :=
  bytes ← mapM (fun P => pad (Bytes (PX P))) [secp_G; secp_H; gs; gshr; t1; t2];
  Ok (concat bytes).

Definition challenge (gs gshr t1 t2 : Point) : res Z :=
  bytesToBeHashed ← transcript gs gshr t1 t2;
  Ok (SetBytes (Keccak256 bytesToBeHashed)).

Definition GenerateNIZKPK (s r : Z) (tape : Tape) : res (Z * Z * Z * Tape) :=
  let '(v1, tape1) := RandomBigInt tape in
  let '(v2, tape2) := RandomBigInt tape1 in
  let t1 := ScalarBaseMult (Bytes v1) in
  let t2 := ScalarMult secp_H (Bytes v2) in
  let gs := ScalarBaseMult (Bytes s) in
  let hr := ScalarMult secp_H (Bytes r) in
  let gshr := CurveAdd gs hr in
  c ← challenge gs gshr t1 t2;
  let u1 := (v1 - (c * s) mod q) mod q in
  let u2 := (v2 - (c * r) mod q) mod q in
  Ok (c, u1, u2, tape2).

Definition GenerateNIZKPKWithCommitments (s r : Z) (tape : Tape)
    : res (Z * Z * Z * Point * Point * Tape) :=
  proof ← GenerateNIZKPK s r tape;
  let '(c, u1, u2, tape') := proof in
  let gs := ScalarBaseMult (Bytes s) in
  let hr := ScalarMult secp_H (Bytes r) in
  Ok (c, u1, u2, gs, CurveAdd gs hr, tape').

(** The two commitments the verifier recomputes. *)
Definition t1prime (c u1 : Z) (gs : Point) : Point :=
  CurveAdd (ScalarBaseMult (Bytes u1)) (ScalarMult gs (Bytes c)).

Definition t2prime (c u2 : Z) (gs gshr : Point) : Point :=
  let neggsY := (- PY gs) mod FieldOrder in
  let gshrsubgs := CurveAdd gshr (mkPoint (PX gs) neggsY) in
  CurveAdd (ScalarMult secp_H (Bytes u2)) (ScalarMult gshrsubgs (Bytes c)).

Definition VerifyNIZKPK (c u1 u2 : Z) (gs gshr : Point) : res bool :=
  cprime ← challenge gs gshr (t1prime c u1 gs) (t2prime c u2 gs gshr);
  Ok (cprime =? c).

(** The same curve with another hash function, and what two accepted proofs give away. *)
Definition withHash (hash : list Z -> list Z) : Secp256k1 := {|
  GeneratorOrder := GeneratorOrder; FieldOrder := FieldOrder; secp_G := secp_G; secp_H := secp_H;
  CurveAdd := CurveAdd; ScalarMult := ScalarMult; ScalarBaseMult := ScalarBaseMult; Keccak256 := hash;
|}.

Definition extract (c c' u u' : Z) : Z :=
  match ModInverse (c - c') q with
  | Some i => (i * (u' - u)) mod q
  | None => 0
  end.

End nizkpk.

Section nizkpk_proofs.
Context {SO : Secp256k1} {SL : Secp256k1Laws}.

Local Abbreviation q := GeneratorOrder.

(** Coordinates fit the block, so [pad] returns. *)
Lemma pad_Ok b : (length b <= 64)%nat -> exists r, pad b = Ok r.
Proof.
  intros Hl. unfold pad. destruct b as [|x b]; [by eexists|].
  rewrite Pkcs7.Pad_spec by done. rewrite decide_True by lia. eauto.
Qed.

Lemma challenge_Ok gs gshr t1 t2 :
  on_curve gs -> on_curve gshr -> on_curve t1 -> on_curve t2 ->
  exists c, challenge gs gshr t1 t2 = Ok c /\ 0 <= c.
Proof.
  intros H1 H2 H3 H4. unfold challenge, transcript.
  destruct (mapM_total (fun P => pad (Bytes (PX P))) [secp_G; secp_H; gs; gshr; t1; t2])
    as (bs & -> & _).
  - intros P HP. apply pad_Ok. apply Nat.le_trans with (m := 32%nat); [|lia].
    apply Bytes_length. change (256 ^ Z.of_nat 32) with (2 ^ 256). apply coordinate_bound.
    rewrite !elem_of_cons, elem_of_nil in HP.
    destruct HP as [->|[->|[->|[->|[->|[->|[]]]]]]]; auto with torus.
  - cbn [mbind res_bind]. eexists. split; [done|]. apply undigits_nonneg, Keccak256_bytes.
Qed.

(** [gshr] divided by [gs] opens to the blinding exponent alone. *)
Lemma ped_sub_G s r : ped s r ⊕ negP (s ⊙ secp_G) = r ⊙ secp_H.
Proof.
  unfold ped. rewrite (Add_comm (s ⊙ secp_G)), <-Add_assoc, Add_neg, Add_O_r; auto with torus.
Qed.

Lemma t1prime_honest c v s :
  0 <= c -> 0 <= s -> t1prime c ((v - (c * s) mod q) mod q) (s ⊙ secp_G) = v ⊙ secp_G.
Proof.
  intros Hc Hs. unfold t1prime. rewrite ScalarBaseMult_Bytes by apply mod_order_bound.
  rewrite ScalarMult_Bytes by auto with torus.
  rewrite <-smul_mul, <-smul_add by auto with torus.
  apply smul_eqm. rewrite !eqm_mod. by replace (v - c * s + c * s) with v by lia.
Qed.

Lemma t2prime_honest c v s r :
  0 <= c -> t2prime c ((v - (c * r) mod q) mod q) (s ⊙ secp_G) (ped s r) = v ⊙ secp_H.
Proof.
  intros Hc. unfold t2prime. fold (negP (s ⊙ secp_G)). rewrite ped_sub_G.
  rewrite !ScalarMult_Bytes by (auto with torus || apply mod_order_bound).
  rewrite <-smul_mul, <-smul_add by auto with torus.
  apply smul_eqm. rewrite !eqm_mod. by replace (v - c * r + c * r) with v by lia.
Qed.

Lemma GenerateNIZKPK_honest s r tape :
  0 <= s -> 0 <= r -> tape_ok tape ->
  exists c u1 u2 tape', GenerateNIZKPK s r tape = Ok (c, u1, u2, tape') /\ tape_ok tape' /\
    VerifyNIZKPK c u1 u2 (s ⊙ secp_G) (ped s r) = Ok true.
Proof.
  intros Hs Hr Ht. pose proof (Ht 0%nat) as H0. pose proof (Ht 1%nat) as H1.
  unfold GenerateNIZKPK. cbn [RandomBigInt].
  rewrite !ScalarBaseMult_Bytes, !ScalarMult_Bytes by (lia || auto with torus). fold (ped s r).
  destruct (challenge_Ok (s ⊙ secp_G) (ped s r) (tape 0%nat ⊙ secp_G) (tape 1%nat ⊙ secp_H))
    as (c & E & Hc); auto with torus.
  rewrite E. cbn [mbind res_bind]. eexists c, _, _, _. split; [done|]. split; [intros n; apply Ht|].
  unfold VerifyNIZKPK. rewrite t1prime_honest, t2prime_honest, E by done. cbn [mbind res_bind].
  by rewrite Z.eqb_refl.
Qed.

(** ** Properties *)

(** Completeness: the proof a node generates for its share and blinding
    value exists, and verifies against the commitments it is sent with. *)
Theorem nizkpk_complete s r tape :
  0 <= s -> 0 <= r -> tape_ok tape ->
  exists c u1 u2 gs gshr tape',
    GenerateNIZKPKWithCommitments s r tape = Ok (c, u1, u2, gs, gshr, tape') /\
    gs = s ⊙ secp_G /\ gshr = ped s r /\ VerifyNIZKPK c u1 u2 gs gshr = Ok true.
Proof.
  intros Hs Hr Ht. destruct (GenerateNIZKPK_honest s r tape Hs Hr Ht) as (c & u1 & u2 & t' & E & _ & Hv).
  unfold GenerateNIZKPKWithCommitments. rewrite E. cbn [mbind res_bind].
  rewrite ScalarBaseMult_Bytes, ScalarMult_Bytes by (done || auto with torus). fold (ped s r).
  eexists c, u1, u2, _, _, t'. auto.
Qed.

(** The algebra of extraction: from two answers to one commitment. *)
Lemma extract_log P R c c' u u' :
  on_curve P -> on_curve R -> ~ c ≡[q] c' ->
  u ⊙ R ⊕ c ⊙ P = u' ⊙ R ⊕ c' ⊙ P -> P = extract c c' u u' ⊙ R.
Proof.
  intros HP HR Hne E. pose proof order_prime as Hp. pose proof order_ge_2.
  assert (c ⊙ P ⊕ (- c') ⊙ P = u' ⊙ R ⊕ (- u) ⊙ R) as E'.
  { transitivity (((u ⊙ R ⊕ c ⊙ P) ⊕ (- c') ⊙ P) ⊕ (- u) ⊙ R).
    - rewrite (Add_comm (u ⊙ R)), <-!Add_assoc by auto with torus.
      rewrite (Add_comm ((- c') ⊙ P) ((- u) ⊙ R)), (Add_assoc (u ⊙ R)) by auto with torus.
      rewrite <-(smul_add u), Z.add_opp_diag_r, smul_0, Add_O_l; auto with torus.
    - rewrite E. f_equal. rewrite <-Add_assoc, <-(smul_add c'), Z.add_opp_diag_r, smul_0, Add_O_r;
        auto with torus. }
  rewrite <-!smul_add, !Z.add_opp_r in E' by done.
  destruct (decide ((c - c') mod q = 0)) as [Hz|Hz].
  { destruct Hne. apply eqm_sub_0, eqm_mod_iff; [lia|]. by rewrite Zmod_0_l. }
  destruct (ModInverse_prime _ _ Hp Hz) as (i & Ei & _ & Hi). unfold extract. rewrite Ei.
  rewrite (smul_eqm _ (i * (u' - u))) by apply eqm_mod.
  rewrite smul_mul, <-E', <-smul_mul by done. rewrite <-(smul_1 P) at 1 by done.
  apply smul_eqm, eqm_mod_iff; [lia|]. rewrite Hi. by rewrite Z.mod_small by lia.
Qed.

(** What the verifier accepts is the hash of the transcript that it recomputes. *)
Lemma VerifyNIZKPK_withHash hash c u1 u2 gs gshr m :
  transcript gs gshr (t1prime c u1 gs) (t2prime c u2 gs gshr) = Ok m ->
  VerifyNIZKPK (SO := withHash hash) c u1 u2 gs gshr = Ok true -> c = SetBytes (hash m).
Proof.
  intros Em Ev. unfold VerifyNIZKPK, challenge in Ev.
  change (transcript (SO := withHash hash)) with transcript in Ev.
  change (t1prime (SO := withHash hash)) with t1prime in Ev.
  change (t2prime (SO := withHash hash)) with t2prime in Ev.
  rewrite Em in Ev. simpl in Ev. injection Ev as Ev%Z.eqb_eq. done.
Qed.

(** C3: Special soundness: whoever makes the verifier accept two proofs with the same
    recomputed commitments, under two hash functions that answer differently (modulo the
    order of the curve) to what the verifier hashes, gives away, by the computation
    [extract] on the challenges and the answers of the two proofs, the share and the
    blinding value: the first opens [gs] and is the only exponent that does, and the two
    together open [gshr]. *)
Theorem nizkpk_special_sound hash hash' c c' u1 u1' u2 u2' gs gshr m :
  on_curve gs -> on_curve gshr -> 0 <= u1 -> 0 <= u1' -> 0 <= u2 -> 0 <= u2' ->
  (forall bs, Forall (fun b => 0 <= b < 256) (hash bs)) -> (forall bs, Forall (fun b => 0 <= b < 256) (hash' bs)) ->
  t1prime c u1 gs = t1prime c' u1' gs -> t2prime c u2 gs gshr = t2prime c' u2' gs gshr ->
  transcript gs gshr (t1prime c u1 gs) (t2prime c u2 gs gshr) = Ok m ->
  ~ SetBytes (hash m) ≡[q] SetBytes (hash' m) ->
  VerifyNIZKPK (SO := withHash hash) c u1 u2 gs gshr = Ok true ->
  VerifyNIZKPK (SO := withHash hash') c' u1' u2' gs gshr = Ok true ->
  gs = extract c c' u1 u1' ⊙ secp_G /\ gshr = ped (extract c c' u1 u1') (extract c c' u2 u2') /\
  forall s, gs = s ⊙ secp_G -> s ≡[q] extract c c' u1 u1'.
Proof.
  intros Hg Hgr H1 H1' H2 H2' Hh Hh' E1 E2 Em Hne V V'. pose proof Em as Em'. rewrite E1, E2 in Em'.
  apply (VerifyNIZKPK_withHash _ _ _ _ _ _ m Em) in V. apply (VerifyNIZKPK_withHash _ _ _ _ _ _ m Em') in V'.
  rewrite <-V, <-V' in Hne.
  assert (0 <= c) as Hc by (rewrite V; apply undigits_nonneg, Hh).
  assert (0 <= c') as Hc' by (rewrite V'; apply undigits_nonneg, Hh').
  clear V V' Em Em'. unfold t1prime, t2prime in *. fold (negP gs) in E2. set (d := gshr ⊕ negP gs) in *.
  assert (on_curve d) as Hd by (unfold d; auto with torus).
  rewrite !ScalarBaseMult_Bytes, !ScalarMult_Bytes in E1 by auto with torus.
  rewrite !ScalarMult_Bytes in E2 by auto with torus.
  apply extract_log in E1; auto with torus. apply extract_log in E2; auto with torus.
  split_and!; [done| |intros s Es; apply smul_G_inj; congruence].
  unfold ped. rewrite <-E1, <-E2. unfold d. rewrite (Add_comm gshr), Add_assoc, Add_neg, Add_O_l; auto with torus.
Qed.

End nizkpk_proofs.

(** [Unpad] inverts [Pad] on every message shorter than the block, when the
    padding length fits a byte. *)
Theorem pkcs7_roundtrip b blocksize :
  (0 < length b)%nat -> Z.of_nat (length b) < blocksize -> blocksize - Z.of_nat (length b) < 256 ->
  exists padded, Pkcs7.Pad b blocksize = Ok padded /\
    Z.of_nat (length padded) = blocksize /\ Pkcs7.Unpad padded blocksize = Ok b.
Proof.
  intros H0 H1 H2. assert (b <> []) as Hb by (intros ->; simpl in H0; lia).
  rewrite Pkcs7.Pad_spec, decide_True by (done || lia). eexists. split; [done|].
  set (k := (Z.to_nat blocksize - length b)%nat). set (n := blocksize - Z.of_nat (length b)).
  assert (n mod 256 = Z.of_nat k) as -> by (rewrite Z.mod_small; lia).
  assert (length (b ++ replicate k (Z.of_nat k)) = length b + k)%nat as Hl
    by (rewrite length_app, length_replicate; lia).
  split; [rewrite Hl; lia|]. unfold Pkcs7.Unpad. rewrite Hl.
  destruct (Z.leb_spec blocksize 0); [lia|].
  replace (Nat.eqb (length b + k) 0) with false by (symmetry; apply Nat.eqb_neq; lia).
  replace (Z.of_nat (length b + k)) with blocksize by lia. rewrite Z.rem_same by lia. cbn [negb Z.eqb].
  assert (forall i, (length b <= i < length b + k)%nat ->
    index (b ++ replicate k (Z.of_nat k)) i = Ok (Z.of_nat k)) as Hi.
  { intros i Hi. apply index_Some. rewrite lookup_app_r by lia. apply lookup_replicate_2. lia. }
  rewrite Hi by lia. cbn [mbind res_bind]. rewrite Nat2Z.id.
  replace (Z.of_nat k =? 0) with false by (symmetry; apply Z.eqb_neq; lia).
  destruct (Z.ltb_spec blocksize (Z.of_nat k)); [lia|]. cbn [orb].
  rewrite allM_true.
  - cbn [mbind res_bind]. f_equal. replace (length b + k - k)%nat with (length b) by lia.
    by rewrite take_app_length.
  - intros i [_ Hik]%elem_of_seq. rewrite Hi by lia. cbn [mbind res_bind]. by rewrite Z.eqb_refl.
Qed.

(** The length of a message alone decides [Pad]'s outcome, and for block
    sizes above one it is never a multiple of the block larger than one: shorter
    messages are filled to the block, a message of exactly the block size is
    returned with no padding at all, and a longer one panics. *)
Theorem pkcs7_pad_outcomes b blocksize :
  1 < blocksize ->
  (b = [] -> Pkcs7.Pad b blocksize = Err Pkcs7.ErrInvalidPKCS7Data) /\
  (Z.of_nat (length b) = blocksize -> Pkcs7.Pad b blocksize = Ok b) /\
  (blocksize < Z.of_nat (length b) -> Pkcs7.Pad b blocksize = Panic).
Proof.
  intros Hn. split_and!.
  - intros ->. unfold Pkcs7.Pad. destruct (Z.leb_spec blocksize 0); [lia|done].
  - intros Hl. rewrite Pkcs7.Pad_spec, decide_True by (lia || (intros ->; simpl in Hl; lia)).
    rewrite <-Hl, Nat2Z.id, Nat.sub_diag. simpl. by rewrite app_nil_r.
  - intros Hl. rewrite Pkcs7.Pad_spec by (done || (intros ->; simpl in Hl; lia)).
    by rewrite decide_False by lia.
Qed.

(** ** Witnesses *)

Definition toy_nizk_tape : Tape := fun n => Z.of_nat (9 * n + 5) mod 31.

Lemma nizkpk_complete_witness :
  exists c u1 u2 gs gshr tape',
    GenerateNIZKPKWithCommitments 12 23 toy_nizk_tape = Ok (c, u1, u2, gs, gshr, tape') /\
    VerifyNIZKPK c u1 u2 gs gshr = Ok true.
Proof.
  destruct (nizkpk_complete 12 23 toy_nizk_tape) as (c & u1 & u2 & gs & gshr & t & E & _ & _ & H);
    [lia | lia | intros n; apply Z.mod_pos_bound; simpl; lia |].
  exists c, u1, u2, gs, gshr, t. auto.
Defined.

Definition toy_hash (b : Z) (bs : list Z) : list Z := [b].

Lemma nizkpk_special_sound_witness :
  extract 2 7 20 0 = 4 /\ 4 ⊙ secp_G = extract 2 7 20 0 ⊙ secp_G /\
  19 ⊙ secp_G = ped (extract 2 7 20 0) (extract 2 7 30 15).
Proof.
  split; [reflexivity|].
  assert (exists m, transcript (4 ⊙ secp_G) (19 ⊙ secp_G) (t1prime 2 20 (4 ⊙ secp_G))
    (t2prime 2 30 (4 ⊙ secp_G) (19 ⊙ secp_G)) = Ok m) as [m E] by (eexists; vm_compute; reflexivity).
  destruct (nizkpk_special_sound (toy_hash 2) (toy_hash 7) 2 7 20 0 30 15 (4 ⊙ secp_G) (19 ⊙ secp_G) m) as (H1 & H2 & _);
    [auto with torus|auto with torus|lia|lia|lia|lia| | |reflexivity|reflexivity|exact E| |vm_compute; reflexivity..|by split].
  - intros bs. repeat constructor; lia.
  - intros bs. repeat constructor; lia.
  - intros Hq%eqm_mod_iff; [discriminate | simpl; lia].
Defined.

Lemma pkcs7_roundtrip_witness :
  exists padded, Pkcs7.Pad [7; 8; 9] 8 = Ok padded /\ Pkcs7.Unpad padded 8 = Ok [7; 8; 9].
Proof.
  destruct (pkcs7_roundtrip [7; 8; 9] 8) as (p & E & _ & U); [simpl; lia.. |]. exists p. auto.
Defined.

Lemma pkcs7_pad_outcomes_witness : Pkcs7.Pad [1; 2; 3] 2 = Panic.
Proof. apply (pkcs7_pad_outcomes [1; 2; 3] 2); simpl; lia. Defined.
