(* ===== verification/Signcrypt.v ===== *)
(** Signcryption of shares (src/pvss/pvss.go) on top of the block cipher in feedback
    mode (src/pvss/AES.go), and the shares that are prepared with it.

    The block cipher is the standard library's: FIPS 197, with the key schedule of
    the three key lengths.  A byte is a number below 256. *)
From Stdlib Require Import ZArith.
From S2P Require Import Prelude BigInt Field Curve Pvss Interpolate Nizkpk.

(** ** crypto/aes *)

Module Aes.

(** Multiplication by x in the field with 256 elements, and its product. *)
Definition xtime (b : Z) : Z := if b <? 128 then 2 * b else Z.lxor (2 * b - 256) 27.

Definition gmul (a b : Z) : Z :=
  fst (foldl (fun '(acc, x) i => (if Z.testbit b (Z.of_nat i) then Z.lxor acc x else acc, xtime x)) (0, a) (seq 0 8)).

(** The inverse, zero for zero: the power 254. *)
Definition ginv (b : Z) : Z := Nat.iter 253 (gmul b) b.

Definition rotl8 (b n : Z) : Z := (Z.shiftl b n + Z.shiftr b (8 - n)) mod 256.

Definition subByte (b : Z) : Z :=
  let i := ginv b in
  foldl Z.lxor 99 [i; rotl8 i 1; rotl8 i 2; rotl8 i 3; rotl8 i 4].

Definition sbox : list Z := Eval vm_compute in subByte ∘ Z.of_nat <$> seq 0 256.

Definition SubByte (b : Z) : Z := default 0 (sbox !! Z.to_nat b).

Definition xorWords (a b : list Z) : list Z := zip_with Z.lxor a b.

(** The words of the key schedule for a key of [nk] words, the latest first. *)
Definition nextWord (nk : nat) (ws : list (list Z)) (i : nat) : list (list Z) :=
  let prev := default [] (ws !! 0%nat) in
  let temp :=
    if Nat.eqb (i mod nk) 0 then
      xorWords (SubByte <$> (drop 1 prev ++ take 1 prev)) [Nat.iter (i / nk - 1) xtime 1; 0; 0; 0]
    else if Nat.ltb 6 nk && Nat.eqb (i mod nk) 4 then SubByte <$> prev
    else prev in
  xorWords (default [] (ws !! (nk - 1)%nat)) temp :: ws.

Definition chunk (n : nat) (l : list Z) (i : nat) : list Z := take n (drop (n * i) l).

Definition expandKey (key : list Z) : list (list Z) :=
  let nk := (length key / 4)%nat in
  reverse (foldl (nextWord nk) (reverse (chunk 4 key <$> seq 0 nk)) (seq nk (4 * (nk + 7) - nk))).

Definition roundKey (ws : list (list Z)) (r : nat) : list Z := concat (take 4 (drop (4 * r) ws)).

Definition shiftRows (s : list Z) : list Z :=
  (fun i => default 0 (s !! ((i mod 4) + 4 * ((i / 4 + i mod 4) mod 4))%nat)) <$> seq 0 16.

Definition mixColumn (c : list Z) : list Z :=
  (fun r => foldl Z.lxor 0 (zip_with gmul (drop (4 - r) [2; 3; 1; 1] ++ take (4 - r) [2; 3; 1; 1]) c)) <$> seq 0 4.

Definition mixColumns (s : list Z) : list Z := concat ((fun i => mixColumn (chunk 4 s i)) <$> seq 0 4).

(** A block of sixteen bytes, columns first. *)
Definition encryptBlock (ws : list (list Z)) (block : list Z) : list Z :=
  let nr := (length ws / 4 - 1)%nat in
  let s := foldl (fun s r => xorWords (mixColumns (shiftRows (SubByte <$> s))) (roundKey ws r))
                 (xorWords block (roundKey ws 0)) (seq 1 (nr - 1)) in
  xorWords (shiftRows (SubByte <$> s)) (roundKey ws nr).

Definition BlockSize : nat := 16.

(** A cipher is its key schedule. *)
Definition NewCipher (key : list Z) : res (list (list Z)) :=
  if bool_decide (length key ∈ [16; 24; 32]%nat) then Ok (expandKey key)
  else Err ("crypto/aes: invalid key size " +:+ Itoa (Z.of_nat (length key))).

(** The vectors of FIPS 197, appendix C. *)
Definition fips_key (n : nat) : list Z := Z.of_nat <$> seq 0 n.
Definition fips_block : list Z := (fun i => 17 * Z.of_nat i) <$> seq 0 16.

Example aes128 : encryptBlock (expandKey (fips_key 16)) fips_block =
  [105; 196; 224; 216; 106; 123; 4; 48; 216; 205; 183; 128; 112; 180; 197; 90].
Proof. vm_compute. reflexivity. Qed.

Example aes192 : encryptBlock (expandKey (fips_key 24)) fips_block =
  [221; 169; 124; 164; 134; 76; 223; 224; 110; 175; 112; 160; 236; 13; 113; 145].
Proof. vm_compute. reflexivity. Qed.

Example aes256 : encryptBlock (expandKey (fips_key 32)) fips_block =
  [142; 162; 183; 202; 81; 103; 69; 191; 234; 252; 73; 144; 75; 73; 96; 137].
Proof. vm_compute. reflexivity. Qed.

End Aes.

(** ** crypto/cipher: feedback mode *)

(** The keystream of a block is the encryption of the ciphertext block before it; the
    last block may be short.  [fuel] bounds the number of blocks. *)
Fixpoint cfbEncrypt (E : list Z -> list Z) (fuel : nat) (next src : list Z) : list Z :=
  match fuel, src with
  | S fuel, _ :: _ =>
      let c := zip_with Z.lxor (take Aes.BlockSize src) (E next) in
      c ++ cfbEncrypt E fuel c (drop Aes.BlockSize src)
  | _, _ => []
  end.

Fixpoint cfbDecrypt (E : list Z -> list Z) (fuel : nat) (next src : list Z) : list Z :=
  match fuel, src with
  | S fuel, _ :: _ =>
      zip_with Z.lxor (take Aes.BlockSize src) (E next) ++
      cfbDecrypt E fuel (take Aes.BlockSize src) (drop Aes.BlockSize src)
  | _, _ => []
  end.

(** ** AES.go *)

(** [iv] is what reading sixteen random bytes gives. *)
Definition AESencrypt (key plainText : list Z) (iv : res (list Z)) : res (list Z) :=
  key ← Pkcs7.Pad key 32;
  block ← Aes.NewCipher key;
  iv ← iv;
  Ok (iv ++ cfbEncrypt (Aes.encryptBlock block) (length plainText) iv plainText).

(** The message is written over the ciphertext: the second component is what the
    caller's slice holds afterwards. *)
Definition AESdecrypt (key cipherText : list Z) : res (list Z) * list Z :=
  match (key ← Pkcs7.Pad key 32; Aes.NewCipher key) with
  | Ok block =>
      if Nat.ltb (length cipherText) Aes.BlockSize then (Err "Ciphertext block size is too short!", cipherText)
      else
        let iv := take Aes.BlockSize cipherText in
        let message := cfbDecrypt (Aes.encryptBlock block) (length cipherText) iv (drop Aes.BlockSize cipherText) in
        (Ok message, iv ++ message)
  | Err e => (Err e, cipherText)
  | Panic => (Panic, cipherText)
  end.

(** ** Signcryption *)

Record Signcryption := mkSigncryption { Ciphertext : list Z; scR : Point; scSignature : Z }.
Record SigncryptedOutput := mkSigncryptedOutput {
  soNodePubKey : Point; soNodeIndex : Z; SigncryptedShare : Signcryption;
}.

(** The random numbers and the initialisation vectors that are drawn. *)
Definition SigTape : Type := Tape * (nat -> res (list Z)).
Definition nextIV (ivs : nat -> res (list Z)) : res (list Z) * (nat -> res (list Z)) := (ivs 0%nat, fun n => ivs (S n)).

Section signcrypt.
Context {SO : Secp256k1}.

Local Abbreviation q := GeneratorOrder.

Definition signcryptHash (data : list Z) (R : Point) : Z := SetBytes (Keccak256 (data ++ Bytes (PX R))) mod q.

Definition Signcrypt (recipientPubKey : Point) (data : list Z) (privKey : Z) (t : SigTape) : res Signcryption * SigTape :=
  let '(r, tape) := RandomBigInt (fst t) in
  let rG := ScalarBaseMult (Bytes r) in
  let rU := ScalarMult recipientPubKey (Bytes r) in
  let '(iv, ivs) := nextIV (snd t) in
  (ciphertext ← AESencrypt (Bytes (PX rU)) data iv;
   let h := signcryptHash data rG in
   let temp := (h * r) mod q in
   Ok (mkSigncryption ciphertext rG ((privKey - temp) mod q)), (tape, ivs)).

(** The two functions that open differ in the text of their error. *)
Definition unsigncrypt (refused : string) (signcryption : Signcryption) (privKey : Z) (senderPubKey : Point)
    : res (list Z) * Signcryption :=
  let xR := ScalarMult (scR signcryption) (Bytes privKey) in
  let '(M, buffer) := AESdecrypt (Bytes (PX xR)) (Ciphertext signcryption) in
  (M ← M;
   let h := signcryptHash M (scR signcryption) in
   let sG := ScalarBaseMult (Bytes (scSignature signcryption)) in
   let hR := ScalarMult (scR signcryption) (Bytes h) in
   let testsenderPubKey := CurveAdd sG hR in
   if negb (PX senderPubKey =? PX testsenderPubKey) then Err refused else Ok M,
   mkSigncryption buffer (scR signcryption) (scSignature signcryption)).

Definition UnSignCrypt : Signcryption -> Z -> Point -> res (list Z) * Signcryption :=
  unsigncrypt "sending node PK does not register with signcryption unsigncrypt".

Definition UnsigncryptShare : Signcryption -> Z -> Point -> res (list Z) * Signcryption :=
  unsigncrypt "sending node PK does not register with signcryption".

(** The steps of [Signcrypt] on the bytes of the share. *)
Definition signcryptShare (nodePubKey : Point) (share privKey : Z) (t : SigTape) : res Signcryption * SigTape :=
  Signcrypt nodePubKey (Bytes share) privKey t.

(** The first error ends the loop over the nodes; a share that is missing is an index
    out of range. *)
Fixpoint batchLoop (nodeList : list Node) (shares : list PrimaryShare) (privKey : Z) (t : SigTape)
    : res (list SigncryptedOutput) * SigTape :=
  match nodeList, shares with
  | [], _ => (Ok [], t)
  | _ :: _, [] => (Panic, t)
  | node :: nodeList, share :: shares =>
      let '(temp, t) := signcryptShare (PubKey node) (Value share) privKey t in
      match temp with
      | Ok sc =>
          let '(rest, t) := batchLoop nodeList shares privKey t in
          (rest ← rest; Ok (mkSigncryptedOutput (PubKey node) (Index share) sc :: rest), t)
      | Err e => (Err e, t)
      | Panic => (Panic, t)
      end
  end.

Definition batchSigncryptShare : list Node -> list PrimaryShare -> Z -> SigTape -> res (list SigncryptedOutput) * SigTape :=
  batchLoop.

Definition CreateAndPrepareShares (nodes : list Node) (secret threshold privKey : Z) (t : SigTape)
    : res (list SigncryptedOutput * list Point * PrimaryPolynomial) * SigTape :=
  match (pt ← generateRandomZeroPolynomial secret threshold (fst t);
         shares ← getShares (fst pt) nodes;
         pubPoly ← GetCommit (fst pt);
         Ok (fst pt, shares, pubPoly, snd pt)) with
  | Ok (polynomial, shares, pubPoly, tape) =>
      let '(out, t) := batchSigncryptShare nodes shares privKey (tape, snd t) in
      (out ← out; Ok (out, pubPoly, polynomial), t)
  | Err e => (Err e, t)
  | Panic => (Panic, t)
  end.

End signcrypt.

(** ** Feedback mode is its own inverse *)

Section modes.

(** Words of four bytes, whatever the rounds do with them. *)
Lemma word_nextWord nk ws i :
  (0 < nk <= length ws)%nat -> Forall (fun w => length w = 4%nat) ws ->
  length (Aes.nextWord nk ws i) = S (length ws) /\ Forall (fun w => length w = 4%nat) (Aes.nextWord nk ws i).
Proof.
  intros Hnk Hws. split; [done|]. constructor; [|done]. unfold Aes.xorWords.
  destruct (lookup_lt_is_Some_2 ws 0) as [prev Hp]; [lia|]. destruct (lookup_lt_is_Some_2 ws (nk - 1)) as [old Ho]; [lia|].
  rewrite Hp, Ho. simpl. rewrite list.Forall_forall in Hws.
  assert (length prev = 4%nat /\ length old = 4%nat) as [Hlp Hlo].
  { split; apply Hws; by eapply list_elem_of_lookup_2. }
  rewrite length_zip_with. destruct (Nat.eqb _ 0); [|destruct (_ && _)];
    rewrite ?length_zip_with, ?length_fmap, ?length_app, ?length_drop, ?length_take; simpl length; lia.
Qed.

Lemma words_expandKey key : length key ∈ [16; 24; 32]%nat ->
  length (Aes.expandKey key) = (4 * (length key / 4 + 7))%nat /\ Forall (fun w => length w = 4%nat) (Aes.expandKey key).
Proof.
  intros Hk. unfold Aes.expandKey. set (nk := (length key / 4)%nat).
  assert (4 <= nk <= 8 /\ length key = 4 * nk)%nat as [Hnk Hlen].
  { unfold nk. clear nk. rewrite !elem_of_cons, elem_of_nil in Hk. destruct Hk as [->|[->|[->|[]]]]; simpl; lia. }
  set (ws0 := reverse (Aes.chunk 4 key <$> seq 0 nk)).
  assert (length ws0 = nk /\ Forall (fun w => length w = 4%nat) ws0) as [Hl0 Hf0].
  { unfold ws0. rewrite length_reverse, length_fmap, length_seq, Forall_reverse, Forall_fmap. split; [done|].
    apply list.Forall_forall. intros i Hi%elem_of_seq. simpl. unfold Aes.chunk. rewrite length_take, length_drop. lia. }
  rewrite length_reverse, Forall_reverse.
  assert (forall is_ ws, (nk <= length ws)%nat -> Forall (fun w => length w = 4%nat) ws ->
    length (foldl (Aes.nextWord nk) ws is_) = (length ws + length is_)%nat /\
    Forall (fun w => length w = 4%nat) (foldl (Aes.nextWord nk) ws is_)) as H.
  { induction is_ as [|i is_ IH]; intros ws Hl Hf; simpl; [split; [lia|done]|].
    destruct (word_nextWord nk ws i) as [Hl' Hf']; [lia|done|]. destruct (IH (Aes.nextWord nk ws i)) as [Hl'' Hf'']; [lia|done|].
    split; [lia|done]. }
  destruct (H (seq nk (4 * (nk + 7) - nk)) ws0) as [Hl Hf]; [lia|done|]. rewrite Hl, length_seq. split; [lia|done].
Qed.

Lemma length_concat_words (l : list (list Z)) : Forall (fun w => length w = 4%nat) l -> length (concat l) = (4 * length l)%nat.
Proof. induction 1 as [|w l Hw _ IH]; [done|]. simpl. rewrite length_app, Hw, IH. lia. Qed.

(** A cipher that [NewCipher] makes turns any block into sixteen bytes. *)
Lemma length_encryptBlock key block b : Aes.NewCipher key = Ok block -> length (Aes.encryptBlock block b) = Aes.BlockSize.
Proof.
  unfold Aes.NewCipher. case_bool_decide as Hk; [|done]. intros [= <-].
  destruct (words_expandKey key Hk) as [Hl Hf]. unfold Aes.encryptBlock, Aes.xorWords, Aes.roundKey.
  rewrite length_zip_with, length_concat_words by (by apply Forall_take, Forall_drop).
  rewrite length_take, length_drop, Hl. unfold Aes.shiftRows. rewrite length_fmap, length_seq.
  set (nk := (length key / 4)%nat). replace (4 * (nk + 7) / 4 - 1)%nat with (nk + 6)%nat.
  - unfold Aes.BlockSize. lia.
  - rewrite (Nat.mul_comm 4), Nat.div_mul by done. lia.
Qed.

Lemma xor_twice s k : (length s <= length k)%nat -> zip_with Z.lxor (zip_with Z.lxor s k) k = s.
Proof.
  revert k. induction s as [|a s IH]; intros [|b k] H; simpl in *; [done|done|lia|].
  by rewrite Z.lxor_assoc, Z.lxor_nilpotent, Z.lxor_0_r, IH by lia.
Qed.

Lemma cfbEncrypt_S E fuel next src : src <> [] ->
  cfbEncrypt E (S fuel) next src =
  zip_with Z.lxor (take Aes.BlockSize src) (E next) ++
  cfbEncrypt E fuel (zip_with Z.lxor (take Aes.BlockSize src) (E next)) (drop Aes.BlockSize src).
Proof. by destruct src. Qed.

Lemma cfbDecrypt_S E fuel next src : src <> [] ->
  cfbDecrypt E (S fuel) next src =
  zip_with Z.lxor (take Aes.BlockSize src) (E next) ++
  cfbDecrypt E fuel (take Aes.BlockSize src) (drop Aes.BlockSize src).
Proof. by destruct src. Qed.

Lemma length_cfbEncrypt E : (forall b, length (E b) = Aes.BlockSize) ->
  forall fuel next src, (length src <= fuel)%nat -> length (cfbEncrypt E fuel next src) = length src.
Proof.
  intros HE fuel. induction fuel as [|fuel IH]; intros next src Hf; [by destruct src; [|simpl in Hf; lia]|].
  destruct (decide (src = [])) as [->|Hne]; [done|]. assert (0 < length src)%nat by (destruct src; [done|simpl; lia]).
  rewrite cfbEncrypt_S, length_app, IH, length_drop, length_zip_with, length_take, HE by (done || rewrite length_drop; unfold Aes.BlockSize; lia).
  unfold Aes.BlockSize. lia.
Qed.

Lemma cfb_roundtrip E : (forall b, length (E b) = Aes.BlockSize) ->
  forall fuel fuel' next src, (length src <= fuel)%nat -> (length src <= fuel')%nat ->
    cfbDecrypt E fuel' next (cfbEncrypt E fuel next src) = src.
Proof.
  intros HE fuel. induction fuel as [|fuel IH]; intros fuel' next src Hf Hf'.
  { destruct src; [by destruct fuel'|simpl in Hf; lia]. }
  destruct (decide (src = [])) as [->|Hne]; [by destruct fuel'|].
  assert (0 < length src)%nat as Hpos by (destruct src; [done|simpl; lia]). rewrite cfbEncrypt_S by done.
  set (c := zip_with Z.lxor (take Aes.BlockSize src) (E next)). assert (length c = length (take Aes.BlockSize src)) as Hc.
  { unfold c. rewrite length_zip_with, HE, length_take. lia. }
  set (rest := cfbEncrypt E fuel c (drop Aes.BlockSize src)).
  assert (take Aes.BlockSize (c ++ rest) = c /\ drop Aes.BlockSize (c ++ rest) = rest) as [Ht Hd].
  { destruct (decide (length src <= Aes.BlockSize)%nat) as [Hs|Hs].
    - assert (rest = []) as -> by (unfold rest; rewrite drop_ge by done; by destruct fuel).
      rewrite app_nil_r, take_ge, drop_ge; rewrite ?Hc, ?length_take; (done || lia).
    - assert (length c = Aes.BlockSize) as Hc' by (rewrite Hc, length_take; lia).
      rewrite <-Hc'. by rewrite take_app_length, drop_app_length. }
  destruct fuel' as [|fuel']; [lia|]. rewrite cfbDecrypt_S, Ht, Hd.
  - unfold c at 1. rewrite xor_twice by (rewrite length_take, HE; lia).
    unfold rest. rewrite IH; [apply take_drop|..]; rewrite length_drop; unfold Aes.BlockSize; lia.
  - intros E'. apply (f_equal length) in E'. rewrite length_app, Hc, length_take in E'. cbn [length] in E'. unfold Aes.BlockSize in E'. lia.
Qed.

Lemma pad_cipher key : key <> [] -> (length key <= 32)%nat ->
  exists padded, Pkcs7.Pad key 32 = Ok padded /\ Aes.NewCipher padded = Ok (Aes.expandKey padded).
Proof.
  intros Hk Hl. rewrite Pkcs7.Pad_spec by (lia || done). rewrite decide_True by lia. eexists. split; [done|].
  unfold Aes.NewCipher. rewrite bool_decide_true; [done|]. rewrite length_app, length_replicate. set_unfold. lia.
Qed.

(** What is encrypted is decrypted, and stands where the ciphertext was. *)
Lemma AES_roundtrip key m iv : key <> [] -> (length key <= 32)%nat -> length iv = Aes.BlockSize ->
  exists c, AESencrypt key m (Ok iv) = Ok c /\ AESdecrypt key c = (Ok m, iv ++ m).
Proof.
  intros Hk Hl Hiv. destruct (pad_cipher key Hk Hl) as (padded & Ep & Ec).
  unfold AESencrypt, AESdecrypt. rewrite Ep. cbn [mbind res_bind]. rewrite Ec. cbn [mbind res_bind].
  set (E := Aes.encryptBlock (Aes.expandKey padded)). eexists. split; [done|]. rewrite <-Hiv, length_app.
  destruct (Nat.ltb_spec (length iv + length (cfbEncrypt E (length m) iv m)) (length iv)); [lia|].
  rewrite take_app_length, drop_app_length, cfb_roundtrip; [done| |lia|].
  - intros b. by apply (length_encryptBlock padded).
  - enough (length (cfbEncrypt E (length m) iv m) = length m)%nat by lia.
    apply length_cfbEncrypt; [|lia]. intros b. by apply (length_encryptBlock padded).
Qed.

End modes.

(** ** What is signcrypted opens *)

Section roundtrip.
Context {SO : Secp256k1} {SL : Secp256k1Laws}.

Local Abbreviation q := GeneratorOrder.

(** The equation the signature is checked with. *)
Lemma signature_opens s r h : 0 <= r -> 0 <= h ->
  CurveAdd (ScalarBaseMult (Bytes ((s - (h * r) mod q) mod q))) (ScalarMult (r ⊙ secp_G) (Bytes h)) = s ⊙ secp_G.
Proof.
  intros Hr Hh. pose proof G_on_curve. rewrite ScalarBaseMult_Bytes, ScalarMult_Bytes by (apply mod_order_bound || done || by apply smul_on_curve).
  rewrite <-smul_mul, <-smul_add by done. apply smul_eqm. rewrite !eqm_mod. apply eq_subrelation; [apply _|lia].
Qed.

Lemma abscissa_key P : on_curve P -> PX P <> 0 -> Bytes (PX P) <> [] /\ (length (Bytes (PX P)) <= 32)%nat.
Proof.
  intros HP Hx. split; [by rewrite Bytes_nil|]. apply Bytes_length. by apply coordinate_bound.
Qed.

Lemma unsigncrypt_signcrypt refused u data s r iv tape ivs :
  0 <= u -> 0 <= r -> tape 0%nat = r -> ivs 0%nat = Ok iv -> length iv = Aes.BlockSize -> PX ((r * u) ⊙ secp_G) <> 0 ->
  exists sc, Signcrypt (u ⊙ secp_G) data s (tape, ivs) = (Ok sc, (fun n => tape (S n), fun n => ivs (S n))) /\
    unsigncrypt refused sc u (s ⊙ secp_G) = (Ok data, mkSigncryption (iv ++ data) (scR sc) (scSignature sc)).
Proof.
  intros Hu Hr Er Eiv Hiv Hx. pose proof G_on_curve as HG. unfold Signcrypt. cbn [RandomBigInt fst snd nextIV].
  rewrite Er, Eiv, ScalarBaseMult_Bytes, ScalarMult_Bytes, <-smul_mul by (done || by apply smul_on_curve).
  destruct (abscissa_key ((r * u) ⊙ secp_G)) as [Hk Hl]; [by apply smul_on_curve|done|].
  destruct (AES_roundtrip _ data iv Hk Hl Hiv) as (c & -> & Ed). cbn [mbind res_bind].
  eexists. split; [done|]. unfold unsigncrypt. simpl.
  rewrite (ScalarMult_Bytes u), <-smul_mul, (Z.mul_comm u) by (done || by apply smul_on_curve). rewrite Ed. cbn [mbind res_bind].
  rewrite signature_opens by (done || apply mod_order_bound). by rewrite Z.eqb_refl.
Qed.

(** What is signcrypted for a key is opened by its owner to the same bytes, under the
    sender's key, for messages of any length; the buffer of the ciphertext then holds the
    message in clear after the initialisation vector. *)
Theorem signcrypt_roundtrip u data s iv t :
  0 <= u -> tape_ok (fst t) -> snd t 0%nat = Ok iv -> length iv = 16%nat ->
  PX ((fst t 0%nat * u) ⊙ secp_G) <> 0 ->
  exists sc t', Signcrypt (u ⊙ secp_G) data s t = (Ok sc, t') /\
    UnSignCrypt sc u (s ⊙ secp_G) = (Ok data, mkSigncryption (iv ++ data) (scR sc) (scSignature sc)).
Proof.
  intros Hu Ht Eiv Hiv Hx. destruct t as [tape ivs]. simpl in *.
  destruct (unsigncrypt_signcrypt "sending node PK does not register with signcryption unsigncrypt" u data s (tape 0%nat) iv tape ivs)
    as (sc & E1 & E2); try done; [apply Ht|]. by exists sc, (fun n => tape (S n), fun n => ivs (S n)).
Qed.

(** A success means that the key had bytes and that the random numbers could be read. *)
Lemma AESencrypt_Ok key m iv c : AESencrypt key m iv = Ok c -> key <> [] /\ exists bytes, iv = Ok bytes.
Proof.
  unfold AESencrypt. intros (padded & Ep & (block & _ & (bytes & Eiv & _)%bind_Ok)%bind_Ok)%bind_Ok.
  split; [|by exists bytes]. intros ->. done.
Qed.

Definition ivs_ok (ivs : nat -> res (list Z)) : Prop := forall n iv, ivs n = Ok iv -> length iv = Aes.BlockSize.

Lemma Signcrypt_Ok_opens refused u data s t sc t' :
  0 <= u -> tape_ok (fst t) -> ivs_ok (snd t) -> Signcrypt (u ⊙ secp_G) data s t = (Ok sc, t') ->
  fst (unsigncrypt refused sc u (s ⊙ secp_G)) = Ok data /\ tape_ok (fst t') /\ ivs_ok (snd t').
Proof.
  intros Hu Ht Hi E. destruct t as [tape ivs]. simpl in *. pose proof G_on_curve as HG. assert (Hr := Ht 0%nat).
  pose proof E as E'. unfold Signcrypt in E'. cbn [RandomBigInt fst snd nextIV] in E'. injection E' as E1 <-.
  apply bind_Ok in E1 as (c & [Hk (iv & Eiv)]%AESencrypt_Ok & _).
  rewrite ScalarMult_Bytes, <-smul_mul in Hk by (done || lia || by apply smul_on_curve).
  destruct (unsigncrypt_signcrypt refused u data s (tape 0%nat) iv tape ivs) as (sc' & E2 & E3); try done; [lia|by eapply Hi| |].
  { intros H0. by rewrite H0 in Hk. }
  pose proof (eq_trans (eq_sym E) E2) as [= ->]. rewrite E3. split_and!; [done|intros n; apply Ht|intros n iv'; apply Hi].
Qed.

(** Every node opens the output that was prepared for it. *)
Lemma batch_opens keys s out nodes : forall shares t t',
  tape_ok (fst t) -> ivs_ok (snd t) -> Forall (fun nd => 0 <= keys nd /\ PubKey nd = keys nd ⊙ secp_G) nodes ->
  length shares = length nodes -> batchLoop nodes shares s t = (Ok out, t') ->
  Forall3 (fun nd sh o => soNodePubKey o = PubKey nd /\ soNodeIndex o = Index sh /\
    fst (UnsigncryptShare (SigncryptedShare o) (keys nd) (s ⊙ secp_G)) = Ok (Bytes (Value sh))) nodes shares out.
Proof.
  revert out. induction nodes as [|nd nodes IH]; intros out [|sh shares] t t' Ht Hi Hn Hl E; try discriminate Hl; cbn [batchLoop] in E.
  { injection E as <- <-. constructor. }
  apply Forall_cons_1 in Hn as [[Hk Ep] Hn]. destruct (signcryptShare (PubKey nd) (Value sh) s t) as [[sc|?|] t1] eqn:Es; [|discriminate E..].
  destruct (batchLoop nodes shares s t1) as [[rest|?|] t2] eqn:Er; cbn [mbind res_bind] in E; [|discriminate E..]. injection E as <- _.
  rewrite Ep in Es. destruct (Signcrypt_Ok_opens "sending node PK does not register with signcryption" _ _ _ _ _ _ Hk Ht Hi Es)
    as (Hopen & Ht1 & Hi1).
  constructor; [done|]. apply (IH rest shares t1 t2); try done. simpl in Hl. lia.
Qed.

(** C32: When shares have been created and signcrypted for the nodes, every node opens
    its output with its key to the bytes of its own share, which the published
    commitment confirms, and any threshold of the shares at distinct indices
    interpolates to the secret. *)
Theorem prepared_shares_open nodes keys secret threshold s t out pubPoly poly t' :
  0 < threshold -> 0 <= secret < q -> tape_ok (fst t) -> (forall n iv, snd t n = Ok iv -> length iv = 16%nat) ->
  Forall (fun nd => 0 <= keys nd /\ PubKey nd = keys nd ⊙ secp_G) nodes ->
  CreateAndPrepareShares nodes secret threshold s t = (Ok (out, pubPoly, poly), t') ->
  exists shares, Index <$> shares = NodeIndex <$> nodes /\
    Forall3 (fun nd sh o => soNodePubKey o = PubKey nd /\ soNodeIndex o = Index sh /\
      fst (UnsigncryptShare (SigncryptedShare o) (keys nd) (s ⊙ secp_G)) = Ok (Bytes (Value sh))) nodes shares out /\
    Forall (fun sh => VerifyShare sh pubPoly (Index sh) = true) shares /\
    forall sub, sub ⊆ shares -> distinct q (Index <$> sub) -> threshold <= Z.of_nat (length sub) ->
      LagrangeScalar sub 0 = secret.
Proof.
  intros Hth Hs Ht Hi Hn. unfold CreateAndPrepareShares.
  destruct (dealt_shares nodes secret threshold (fst t) Hth Hs Ht)
    as (poly1 & tape1 & shares & pubPoly1 & -> & Ht1 & E1 & E2 & Hidx & Hv & Hsub).
  cbn [mbind res_bind fst snd]. rewrite E1. cbn [mbind res_bind]. rewrite E2. cbn [mbind res_bind].
  destruct (batchSigncryptShare nodes shares s (tape1, snd t)) as [[o| |] t2] eqn:Eb; [|done..]. intros [= -> -> -> _].
  exists shares. split_and!; [done| |eapply list.Forall_impl; [exact Hv|by intros ? []]|done].
  apply (batch_opens keys s out nodes shares (tape1, snd t) t2); try done.
  by rewrite <-(length_fmap Index), Hidx, length_fmap.
Qed.

(** What is accepted was signed for the abscissa of the sender's key; the key and its
    opposite cannot be told apart. *)
Lemma unsigncrypt_opposite refused sc u P : unsigncrypt refused sc u (negP P) = unsigncrypt refused sc u P.
Proof. done. Qed.

End roundtrip.

(** ** The theorems at concrete inputs *)

Module SigncryptToy.
Import Curve.Toy.

Definition toy_keys (nd : Node) : Z := 10 + NodeIndex nd.
Definition toy_nodes : list Node := (fun i => mkNode i (ScalarBaseMult (Bytes (10 + i)))) <$> [1; 2; 3].
Definition toy_tape : SigTape :=
  (fun n => (4 + 3 * Z.of_nat n) mod 31, fun n => Ok ((fun i => Z.of_nat (i + n)) <$> seq 0 16)).

Lemma sig_tape_ok : tape_ok (fst toy_tape).
Proof. intros n. apply Z.mod_pos_bound. simpl. lia. Qed.

Definition toy_message : list Z := Z.of_nat <$> seq 100 20.

Lemma signcrypt_roundtrip_witness : exists sc t', Signcrypt (5 ⊙ secp_G) toy_message 7 toy_tape = (Ok sc, t') /\
  fst (UnSignCrypt sc 5 (7 ⊙ secp_G)) = Ok toy_message.
Proof.
  destruct (signcrypt_roundtrip 5 toy_message 7 ((fun i => Z.of_nat (i + 0)) <$> seq 0 16) toy_tape) as (sc & t' & E & E');
    [lia|apply sig_tape_ok|reflexivity|reflexivity|vm_compute; congruence|].
  exists sc, t'. split; [exact E|]. by rewrite E'.
Defined.

(** Opening a second time finds the message where the ciphertext was, and fails. *)
Example opened_twice :
  let sc := fst (Signcrypt (5 ⊙ secp_G) toy_message 7 toy_tape) in
  match sc with
  | Ok sc => let '(first, sc') := UnSignCrypt sc 5 (7 ⊙ secp_G) in
             first = Ok toy_message /\
             fst (UnSignCrypt sc' 5 (7 ⊙ secp_G)) = Err "sending node PK does not register with signcryption unsigncrypt"
  | _ => False
  end.
Proof. vm_compute. split; reflexivity. Qed.

Definition toy_prepared := CreateAndPrepareShares toy_nodes 19 2 7 toy_tape.

Lemma prepared_shares_open_witness : exists out pubPoly poly t' shares,
  toy_prepared = (Ok (out, pubPoly, poly), t') /\ Index <$> shares = [1; 2; 3] /\
  Forall3 (fun nd sh o => soNodePubKey o = PubKey nd /\ soNodeIndex o = Index sh /\
      fst (UnsigncryptShare (SigncryptedShare o) (toy_keys nd) (7 ⊙ secp_G)) = Ok (Bytes (Value sh))) toy_nodes shares out.
Proof.
  destruct toy_prepared as [[[[out pubPoly] poly]| |] t'] eqn:E; [|vm_compute in E; discriminate E..].
  destruct (prepared_shares_open toy_nodes toy_keys 19 2 7 toy_tape out pubPoly poly t') as (shares & Hi & Ho & _);
    [lia|simpl; lia|apply sig_tape_ok|intros n iv [= <-]; reflexivity|repeat constructor; vm_compute; congruence|exact E|].
  exists out, pubPoly, poly, t', shares. split; [reflexivity|split; [exact Hi|exact Ho]].
Defined.

End SigncryptToy.
