(* ===== verification/Verenc.v ===== *)
(** Verifiable encryption (src/pvss/verenc.go): proofs that two points have the same
    discrete logarithm, and the encryption of Camenisch and Shoup modulo the square
    of an RSA modulus, with the proof that a ciphertext holds the discrete logarithm
    of a given point.

    The functions of the emmy library (random numbers, its hash, exponentiation with
    negative exponents, primes and groups of quadratic residues) are parameters. *)
From Stdlib Require Import ZArith Zpow_facts.
From S2P Require Import Prelude BigInt Field Curve Pvss.

(** ** Equality of discrete logarithms *)

Record DLEQProof := mkDLEQProof { dqC : Z; dqR : Z; dqVG : Point; dqVH : Point }.

Section dleq.
Context {SO : Secp256k1}.

Local Abbreviation q := GeneratorOrder.

Definition dleqChallenge (xG xH vG vH : Point) : Z :=
  SetBytes (Keccak256 (concat ((fun element => Bytes (PX element) ++ Bytes (PY element)) <$> [xG; xH; vG; vH]))) mod q.

(** The first base point is always the generator; the argument is not used. *)
Definition GenerateDLEQProof (G H : Point) (x : Z) (tape : Tape) : DLEQProof * Point * Point * Tape :=
  let xG := ScalarBaseMult (Bytes x) in
  let xH := ScalarMult H (Bytes x) in
  let '(v, tape') := RandomBigInt tape in
  let vG := ScalarBaseMult (Bytes v) in
  let vH := ScalarMult H (Bytes v) in
  let c := dleqChallenge xG xH vG vH in
  (mkDLEQProof c ((v - x * c) mod q) vG vH, xG, xH, tape').

(** The challenge is taken from the proof and not computed again. *)
Definition VerifyDLEQProof (p : DLEQProof) (G H xG xH : Point) : bool :=
  let rG := ScalarMult G (Bytes (dqR p)) in
  let rH := ScalarMult H (Bytes (dqR p)) in
  let cxG := ScalarMult xG (Bytes (dqC p)) in
  let cxH := ScalarMult xH (Bytes (dqC p)) in
  let a := CurveAdd rG cxG in
  let b := CurveAdd rH cxH in
  (PX (dqVG p) =? PX a) && (PY (dqVG p) =? PY a) && (PX (dqVH p) =? PX b) && (PY (dqVH p) =? PY b).

End dleq.

(** ** The emmy library *)

(** Random numbers are drawn from a tape of the library's own. *)
Class Emmy := {
  emmyTape : Type;
  GetRandomInt : Z -> emmyTape -> Z * emmyTape;
  GetRandomIntFromRange : Z -> Z -> emmyTape -> res Z * emmyTape;
  GetGermainPrime : Z -> emmyTape -> Z * emmyTape;
  Hash : list Z -> Z;
  Exponentiate : Z -> Z -> Z -> Z;
  (** The modulus of a group of quadratic residues, and its random generators. *)
  NewRSASpecialFromParams : Z -> Z -> Z -> Z -> res Z;
  GetRandomGenerator : Z -> emmyTape -> res Z * emmyTape;
}.

Class EmmyLaws `{Emmy} := {
  GetRandomInt_range max t : 0 < max -> 0 <= fst (GetRandomInt max t) < max;
  GetRandomIntFromRange_range min max t : min < max ->
    exists r, fst (GetRandomIntFromRange min max t) = Ok r /\ min <= r < max;
  Hash_nonneg l : 0 <= Hash l;
  (** The power of a unit, for exponents of either sign. *)
  Exponentiate_spec x y m : 1 < m -> Z.gcd x m = 1 ->
    0 <= Exponentiate x y m < m /\ Exponentiate x y m * x ^ Z.max 0 (- y) ≡[m] x ^ Z.max 0 y;
  NewRSASpecialFromParams_modulus p q p1 q1 n : NewRSASpecialFromParams p q p1 q1 = Ok n -> n = p * q;
  GetRandomGenerator_unit n t g t' : GetRandomGenerator n t = (Ok g, t') -> Z.gcd g n = 1;
}.

(** [new(big.Int).Exp(x, y, m)] for a modulus that is not zero and a base that is
    not negative: a negative exponent takes the inverse, which may be nil. *)
Definition Exp (x y m : Z) : res Z :=
  if y <? 0 then i ← deref (ModInverse x m); Ok (Zpow_mod i (- y) m) else Ok (Zpow_mod x y m).

(** [new(big.Int).Exp(2, k, nil)]: an exponent that is not positive gives one. *)
Definition exp2 (k : Z) : Z := 2 ^ Z.max 0 k.

(** ** The scheme *)

Record CSPaillierECSecParams := mkSecParams { spL : Z; spRoLength : Z; spK : Z; spK1 : Z }.

Record CSPaillierECSecKey := mkSecKey {
  skN : Z; skG : Z; skX1 : Z; skX2 : Z; skX3 : Z;
  skVerifiableEncGroupN : Z; skVerifiableEncGroupG1 : Z; skVerifiableEncGroupH1 : Z;
  skK : Z; skK1 : Z;
}.

(** The fields of a public key that are nil in one made from a secret key. *)
Record PubKeyRest := mkPubKeyRest {
  pkG : Z; pkY1 : Z; pkY2 : Z; pkY3 : Z;
  pkVerifiableEncGroupN : Z; pkVerifiableEncGroupG1 : Z; pkVerifiableEncGroupH1 : Z;
  pkK : Z; pkK1 : Z;
}.
Record CSPaillierECPubKey := mkPubKey { pkN : Z; pkRest : option PubKeyRest }.

Record CSPaillierECProverRandomData := mkProverRandomData { prS : Z; prR1 : option Z; prS1 : option Z; prM1 : option Z }.
Record CSPaillierECProverEncData := mkProverEncData { peR : Z; peM : Z }.
Record CSPaillierECVerifierEncData := mkVerifierEncData { veU : Z; veE : Z; veV : Z; veLabel : Z; veDelta : Point }.

(** What the second message of the prover brings, with the challenge. *)
Record SecondMessage := mkSecondMessage { vrU1 : Z; vrE1 : Z; vrV1 : Z; vrDelta1 : Point; vrL1 : Z; vrC : Z }.
Record CSPaillierECVerifierRandomData := mkVerifierRandomData { vrL : Z; vrSecond : option SecondMessage }.

Record CSPaillierEC := mkCSPaillierEC {
  csPubKey : CSPaillierECPubKey;
  csSecKey : option CSPaillierECSecKey;
  csVerifierRandomData : option CSPaillierECVerifierRandomData;
  csProverRandomData : option CSPaillierECProverRandomData;
  csProverEncData : option CSPaillierECProverEncData;
  csVerifierEncData : option CSPaillierECVerifierEncData;
}.

Definition setProverEnc (csp : CSPaillierEC) (d : CSPaillierECProverEncData) : CSPaillierEC :=
  mkCSPaillierEC (csPubKey csp) (csSecKey csp) (csVerifierRandomData csp) (csProverRandomData csp) (Some d)
    (csVerifierEncData csp).
Definition setProverRandom (csp : CSPaillierEC) (d : CSPaillierECProverRandomData) : CSPaillierEC :=
  mkCSPaillierEC (csPubKey csp) (csSecKey csp) (csVerifierRandomData csp) (Some d) (csProverEncData csp)
    (csVerifierEncData csp).
Definition setVerifierRandom (csp : CSPaillierEC) (d : CSPaillierECVerifierRandomData) : CSPaillierEC :=
  mkCSPaillierEC (csPubKey csp) (csSecKey csp) (Some d) (csProverRandomData csp) (csProverEncData csp)
    (csVerifierEncData csp).

Definition NewCSPaillierECFromSecKey (secKey : CSPaillierECSecKey) : CSPaillierEC :=
  mkCSPaillierEC (mkPubKey (skN secKey) None) (Some secKey) None None None None.

Definition NewCSPaillierECFromPubKey (pubKey : CSPaillierECPubKey) : CSPaillierEC :=
  mkCSPaillierEC pubKey None None None None None.

(** A value beyond the square of the modulus is an error, with a nil result. *)
Definition Abs (csp : CSPaillierEC) (a : Z) : res Z :=
  let n2 := pkN (csPubKey csp) * pkN (csPubKey csp) in
  if n2 <=? a then Err "value is too big for abs function"
  else if a <=? n2 / 2 then Ok a
  else Ok (n2 - a).

Section scheme.
Context {SO : Secp256k1} {EM : Emmy}.

Definition Encrypt (csp : CSPaillierEC) (m label : Z) (t : emmyTape) : CSPaillierEC * res (Z * Z * Z) * emmyTape :=
  let N := pkN (csPubKey csp) in
  if N <=? m then (csp, Err "msg is too big", t)
  else
    let '(r, t) := GetRandomInt (N / 4) t in
    let n2 := N * N in
    match (pk ← deref (pkRest (csPubKey csp));
           u ← Exp (pkG pk) r n2;
           e1 ← Exp (pkY1 pk) r n2;
           e2 ← Exp (N + 1) m n2;
           let e := (e1 * e2) mod n2 in
           let hashNum := Hash [u; e; label] in
           y3h ← Exp (pkY3 pk) hashNum n2;
           w ← Exp (pkY2 pk * y3h) r n2;
           v ← Abs csp w;
           Ok (u, e, v)) with
    | Ok uev => (setProverEnc csp (mkProverEncData r m), Ok uev, t)
    | r => (csp, r, t)
    end.

(** The error of [Abs] is dropped and its nil result compared. *)
Definition Decrypt (csp : CSPaillierEC) (u e v label : Z) : res Z :=
  vAbs ← match Abs csp v with Ok a => Ok a | _ => Panic end;
  if negb (v =? vAbs) then Err "v != abs(v)"
  else
    let hashNum := Hash [u; e; label] in
    sk ← deref (csSecKey csp);
    let N := pkN (csPubKey csp) in
    let n2 := N * N in
    t ← Exp u ((skX2 sk + hashNum * skX3 sk) * 2) n2;
    if negb (t mod n2 =? (v * v) mod n2) then Err "CSPaillierEC decryption failed 1"
    else
      ux1 ← Exp u (skX1 sk) n2;
      ux1Inv ← deref (ModInverse ux1 n2);
      let m1 := (e * ux1Inv) mod n2 in
      if negb ((m1 - 1) mod N =? 0) then Err "CSPaillierEC decryption failed 2"
      else Ok ((m1 - 1) / N).

(** ** Keys *)

Definition NewVerifiableEncGroupEC (p q p1 q1 : Z) (t : emmyTape) : res (Z * Z * Z) * emmyTape :=
  match NewRSASpecialFromParams p q p1 q1 with
  | Ok n =>
      match GetRandomGenerator n t with
      | (Ok g1, t) =>
          match GetRandomGenerator n t with
          | (Ok h1, t) => (Ok (n, g1, h1), t)
          | (Err e, t) => (Err e, t)
          | (Panic, t) => (Panic, t)
          end
      | (Err e, t) => (Err e, t)
      | (Panic, t) => (Panic, t)
      end
  | Err e => (Err e, t)
  | Panic => (Panic, t)
  end.

(** The loop that looks for a unit; [None] when the fuel is not enough. *)
Fixpoint chooseG1 (fuel : nat) (n2 : Z) (t : emmyTape) : option Z * emmyTape :=
  match fuel with
  | O => (None, t)
  | S fuel =>
      let '(g1, t) := GetRandomInt n2 t in
      if Z.gcd g1 n2 =? 1 then (Some g1, t) else chooseG1 fuel n2 t
  end.

(** The two checks of the parameters; both end the process. *)
Definition paramsOk (secParams : CSPaillierECSecParams) (p1 q1 n : Z) : bool :=
  let check1 := exp2 (spK secParams) in
  negb ((p1 <=? check1) || (q1 <=? check1) || (GeneratorOrder <=? check1)) &&
  negb (n <=? exp2 (spK secParams + spK1 secParams + 3) * GeneratorOrder).

Definition generateKey (fuel : nat) (secParams : CSPaillierECSecParams) (t : emmyTape)
    : res (CSPaillierECPubKey * CSPaillierECSecKey) * emmyTape :=
  let '(p1, t) := GetGermainPrime (spL secParams) t in
  let '(q1, t) := GetGermainPrime (spL secParams) t in
  let p := p1 + p1 + 1 in
  let q := q1 + q1 + 1 in
  let n := p * q in
  let n2 := n * n in
  if negb (paramsOk secParams p1 q1 n) then (Panic, t)
  else
    match NewVerifiableEncGroupEC p q p1 q1 t with
    | (Ok (vN, vG1, vH1), t) =>
        let b := n2 / 4 in
        let '(x1, t) := GetRandomInt b t in
        let '(x2, t) := GetRandomInt b t in
        let '(x3, t) := GetRandomInt b t in
        let '(g1, t) := chooseG1 fuel n2 t in
        (g1 ← deref g1;
         g ← Exp g1 (2 * n) n2;
         y1 ← Exp g x1 n2;
         y2 ← Exp g x2 n2;
         y3 ← Exp g x3 n2;
         Ok (mkPubKey n (Some (mkPubKeyRest g y1 y2 y3 vN vG1 vH1 (spK secParams) (spK1 secParams))),
             mkSecKey n g x1 x2 x3 vN vG1 vH1 (spK secParams) (spK1 secParams)), t)
    | (_, t) => (Panic, t)
    end.

Definition NewCSPaillierEC (fuel : nat) (secParams : CSPaillierECSecParams) (t : emmyTape) : res CSPaillierEC * emmyTape :=
  let '(r, t) := generateKey fuel secParams t in
  (keys ← r; Ok (mkCSPaillierEC (fst keys) (Some (snd keys)) None None None None), t).

(** ** The proof *)

(** The opening l = g1^m * h1^s of the message, and its point. *)
Definition GetOpeningMsg (csp : CSPaillierEC) (m : Z) (t : emmyTape) : CSPaillierEC * res (Z * Point) * emmyTape :=
  match pkRest (csPubKey csp) with
  | None => (csp, Panic, t)
  | Some pk =>
      let vN := pkVerifiableEncGroupN pk in
      let '(s, t) := GetRandomInt (vN / 4) t in
      match (t1 ← Exp (pkVerifiableEncGroupG1 pk) m vN;
             t2 ← Exp (pkVerifiableEncGroupH1 pk) s vN;
             Ok ((t1 * t2) mod vN)) with
      | Ok l => (setProverRandom csp (mkProverRandomData s None None None), Ok (l, ScalarBaseMult (Bytes m)), t)
      | Err e => (csp, Err e, t)
      | Panic => (csp, Panic, t)
      end
  end.

(** The first message of the proof, computed from the three random numbers.  The
    bytes of a negative number are those of its absolute value. *)
Definition proofMessage (N : Z) (pk : PubKeyRest) (u e label r1 s1 m1 : Z) : res (Z * Z * Z * Point * Z) :=
  let n2 := N * N in
  let u1 := Exponentiate (pkG pk) (2 * r1) n2 in
  let e1 := (Exponentiate (pkY1 pk) (2 * r1) n2 * Exponentiate (N + 1) (2 * m1) n2) mod n2 in
  y3h ← Exp (pkY3 pk) (Hash [u; e; label]) n2;
  let v1 := Exponentiate ((y3h * pkY2 pk) mod n2) (2 * r1) n2 in
  let vN := pkVerifiableEncGroupN pk in
  let l1 := (Exponentiate (pkVerifiableEncGroupG1 pk) m1 vN * Exponentiate (pkVerifiableEncGroupH1 pk) s1 vN) mod vN in
  Ok (u1, e1, v1, ScalarBaseMult (Bytes m1), l1).

Definition GetProofRandomData (csp : CSPaillierEC) (u e label : Z) (t : emmyTape)
    : CSPaillierEC * res (Z * Z * Z * Point * Z) * emmyTape :=
  match pkRest (csPubKey csp) with
  | None => (csp, Panic, t)
  | Some pk =>
      let N := pkN (csPubKey csp) in
      let t1 := exp2 (pkK pk + pkK1 pk - 2) in
      match GetRandomIntFromRange (- (N * t1)) (N * t1) t with
      | (Ok r1, t) =>
          let b2 := pkVerifiableEncGroupN pk * t1 in
          match GetRandomIntFromRange (- b2) b2 t with
          | (Ok s1, t) =>
              let b3 := GeneratorOrder * exp2 (pkK pk + pkK1 pk) in
              match GetRandomIntFromRange (- b3) b3 t with
              | (Ok m1, t) =>
                  match proofMessage N pk u e label r1 s1 m1, csProverRandomData csp with
                  | Ok msg, Some d =>
                      (setProverRandom csp (mkProverRandomData (prS d) (Some r1) (Some s1) (Some m1)), Ok msg, t)
                  | _, _ => (csp, Panic, t)
                  end
              | (Err er, t) => (csp, Err er, t)
              | (Panic, t) => (csp, Panic, t)
              end
          | (Err er, t) => (csp, Err er, t)
          | (Panic, t) => (csp, Panic, t)
          end
      | (Err er, t) => (csp, Err er, t)
      | (Panic, t) => (csp, Panic, t)
      end
  end.

(** The answer to the challenge. *)
Definition GetProofData (csp : CSPaillierEC) (c : Z) : res (Z * Z * Z) :=
  enc ← deref (csProverEncData csp);
  rnd ← deref (csProverRandomData csp);
  r1 ← deref (prR1 rnd);
  s1 ← deref (prS1 rnd);
  m1 ← deref (prM1 rnd);
  Ok (r1 - c * peR enc, s1 - c * prS rnd, m1 - c * peM enc).

Definition SetVerifierEncData (csp : CSPaillierEC) (u e v : Z) (delta : Point) (label l : Z) : CSPaillierEC :=
  mkCSPaillierEC (csPubKey csp) (csSecKey csp) (Some (mkVerifierRandomData l None)) (csProverRandomData csp)
    (csProverEncData csp) (Some (mkVerifierEncData u e v label delta)).

Definition GetChallenge (csp : CSPaillierEC) (t : emmyTape) : res Z * emmyTape :=
  match pkRest (csPubKey csp) with
  | None => (Panic, t)
  | Some pk => let '(c, t) := GetRandomInt (exp2 (pkK pk)) t in (Ok c, t)
  end.

Definition SetProofRandomData (csp : CSPaillierEC) (u1 e1 v1 : Z) (delta1 : Point) (l1 c : Z) : res CSPaillierEC :=
  d ← deref (csVerifierRandomData csp);
  Ok (setVerifierRandom csp (mkVerifierRandomData (vrL d) (Some (mkSecondMessage u1 e1 v1 delta1 l1 c)))).

Definition Verify (csp : CSPaillierEC) (rTilde sTilde mTilde : Z) : res bool :=
  let N := pkN (csPubKey csp) in
  let n2 := N * N in
  rnd ← deref (csVerifierRandomData csp);
  snd ← deref (vrSecond rnd);
  enc ← deref (csVerifierEncData csp);
  pk ← deref (pkRest (csPubKey csp));
  let twoC := vrC snd * 2 in
  let twoRTilde := rTilde * 2 in
  if negb (vrU1 snd =? (Exponentiate (veU enc) twoC n2 * Exponentiate (pkG pk) twoRTilde n2) mod n2) then Ok false
  else if negb (vrE1 snd =? (Exponentiate (veE enc) twoC n2 * Exponentiate (pkY1 pk mod n2) twoRTilde n2
                             * Exponentiate (N + 1) (2 * mTilde) n2) mod n2) then Ok false
  else
    y3h ← Exp (pkY3 pk mod n2) (Hash [veU enc; veE enc; veLabel enc]) n2;
    if negb (vrV1 snd =? (Exponentiate (veV enc) twoC n2
                          * Exponentiate ((pkY2 pk mod n2) * y3h) twoRTilde n2) mod n2) then Ok false
    else
      let deltac := ScalarMult (veDelta enc) (Bytes (vrC snd)) in
      let gmtilde := ScalarBaseMult (Bytes (mTilde mod GeneratorOrder)) in
      if negb (PX (vrDelta1 snd) mod FieldOrder =? PX (CurveAdd deltac gmtilde)) then Ok false
      else
        let vN := pkVerifiableEncGroupN pk in
        t1 ← Exp (vrL rnd) (vrC snd) n2;
        if negb (vrL1 snd =? (t1 * Exponentiate (pkVerifiableEncGroupG1 pk) mTilde vN
                              * Exponentiate (pkVerifiableEncGroupH1 pk) sTilde vN) mod vN) then Ok false
        else Ok (negb (N / 4 <=? Z.abs mTilde)).

End scheme.
