(* ===== verification/VerencProps.v ===== *)
(** Verifiable encryption does what it is for: a ciphertext decrypts to its message,
    and an honest prover convinces the verifier; and what the check of a proof of
    equal logarithms leaves open. *)
From Stdlib Require Import ZArith Zpow_facts.
From S2P Require Import Prelude BigInt Field Curve Pvss Verenc.

(** ** Equality of discrete logarithms *)

Section dleq.
Context {SL : Secp256k1Laws}.

Lemma GenerateDLEQProof_eq G H x tape : on_curve H -> 0 <= x -> 0 <= tape 0%nat ->
  exists v c, 0 <= c /\ GenerateDLEQProof G H x tape =
    (mkDLEQProof c ((v - x * c) mod GeneratorOrder) (v ⊙ secp_G) (v ⊙ H), x ⊙ secp_G, x ⊙ H, snd (RandomBigInt tape)).
Proof.
  intros HH Hx Ht. unfold GenerateDLEQProof. cbn [RandomBigInt].
  rewrite !ScalarBaseMult_Bytes, !ScalarMult_Bytes by done.
  eexists (tape 0%nat), _. split; [|done]. apply mod_order_bound.
Qed.

(** The equation of one base point. *)
Lemma dleq_equation P x v c : on_curve P -> 0 <= c ->
  CurveAdd (ScalarMult P (Bytes ((v - x * c) mod GeneratorOrder))) (ScalarMult (x ⊙ P) (Bytes c)) = v ⊙ P.
Proof.
  intros HP Hc. rewrite !ScalarMult_Bytes by (apply mod_order_bound || by auto using smul_on_curve).
  rewrite (smul_eqm ((v - x * c) mod GeneratorOrder) (v - x * c)) by apply eqm_mod.
  rewrite <-smul_mul, <-smul_add by done. f_equal. lia.
Qed.

(** A proof made with a secret number is accepted for the two multiples it was
    made for, with the generator as the first base point. *)
Theorem dleq_complete G H x tape p xG xH tape' :
  on_curve H -> 0 <= x -> tape_ok tape -> GenerateDLEQProof G H x tape = (p, xG, xH, tape') ->
  xG = x ⊙ secp_G /\ xH = x ⊙ H /\ VerifyDLEQProof p secp_G H xG xH = true.
Proof.
  intros HH Hx Ht E. destruct (GenerateDLEQProof_eq G H x tape HH Hx) as (v & c & Hc & E'); [apply Ht|].
  rewrite E in E'. injection E' as -> -> -> _. split_and!; [done..|]. unfold VerifyDLEQProof. simpl.
  rewrite !dleq_equation by auto with torus. by rewrite !Z.eqb_refl.
Qed.

(** Nobody needs a secret: whatever the challenge, the answer and the points, there
    are commitments with which the proof is accepted. *)
Lemma dleq_forged c r G H xG xH : exists vG vH, VerifyDLEQProof (mkDLEQProof c r vG vH) G H xG xH = true.
Proof.
  eexists (CurveAdd (ScalarMult G (Bytes r)) (ScalarMult xG (Bytes c))),
    (CurveAdd (ScalarMult H (Bytes r)) (ScalarMult xH (Bytes c))).
  unfold VerifyDLEQProof. simpl. by rewrite !Z.eqb_refl.
Qed.

End dleq.

(** ** Units modulo a number *)

Definition unit_mod (m x : Z) : Prop := exists i, i * x ≡[m] 1.

Section units.
Context (m : Z) (Hm : 1 < m).

Lemma unit_mul x y : unit_mod m x -> unit_mod m y -> unit_mod m (x * y).
Proof. intros [i Hi] [j Hj]. exists (i * j). replace (i * j * (x * y)) with (i * x * (j * y)) by lia. by rewrite Hi, Hj. Qed.

Lemma unit_pow x k : 0 <= k -> unit_mod m x -> unit_mod m (x ^ k).
Proof.
  intros Hk Hx. revert k Hk. apply natlike_ind; [by exists 1|]. intros k Hk IH.
  rewrite Z.pow_succ_r by done. by apply unit_mul.
Qed.

Lemma unit_eqm x y : x ≡[m] y -> unit_mod m x -> unit_mod m y.
Proof. intros E [i Hi]. exists i. by rewrite <-E. Qed.

Lemma unit_gcd x : unit_mod m x <-> Z.gcd x m = 1.
Proof.
  split.
  - intros [i Hi]. apply eqm_mod_iff in Hi; [|lia].
    apply Z.bezout_1_gcd. exists i, (- (i * x / m)). pose proof (Z.div_mod (i * x) m ltac:(lia)) as Hd.
    rewrite Hi, (Z.mod_small 1) in Hd by lia. lia.
  - intros Hg. pose proof (ModInverse_spec x m Hm) as H. destruct (ModInverse x m) as [i|]; [|done].
    exists i. apply eqm_mod_iff; [lia|]. rewrite (Z.mod_small 1) by lia. by destruct H.
Qed.

Lemma unit_inverse x : unit_mod m x -> exists i, ModInverse x m = Some i /\ 0 <= i < m /\ i * x ≡[m] 1.
Proof.
  intros Hx%unit_gcd. pose proof (ModInverse_spec x m Hm) as H. destruct (ModInverse x m) as [i|]; [|done].
  exists i. destruct H as [H1 H2]. split_and!; [done|lia|lia|]. apply eqm_mod_iff; [lia|]. by rewrite (Z.mod_small 1) by lia.
Qed.

Lemma unit_cancel x a b : unit_mod m x -> a * x ≡[m] b * x -> a ≡[m] b.
Proof.
  intros [i Hi] E. rewrite <-(Z.mul_1_r a), <-(Z.mul_1_r b), <-Hi.
  replace (a * (i * x)) with (a * x * i) by lia. replace (b * (i * x)) with (b * x * i) by lia. by rewrite E.
Qed.

Lemma pow_eqm x y k : 0 <= k -> x ≡[m] y -> x ^ k ≡[m] y ^ k.
Proof.
  intros Hk E. revert k Hk. apply natlike_ind; [done|]. intros k Hk IH. by rewrite !Z.pow_succ_r, IH, E by done.
Qed.

Lemma Exp_Ok x y : 0 <= y -> exists z, Exp x y m = Ok z /\ 0 <= z < m /\ z ≡[m] x ^ y.
Proof.
  intros Hy. unfold Exp. destruct (Z.ltb_spec y 0); [lia|]. eexists. split; [done|].
  rewrite Zpow_mod_correct by lia. split; [apply Z.mod_pos_bound; lia|]. apply eqm_mod.
Qed.

(** *** Exponents of either sign *)

Context `{EL : EmmyLaws}.

Lemma Exponentiate_small x y : unit_mod m x -> 0 <= Exponentiate x y m < m.
Proof. intros Hx%unit_gcd. by destruct (Exponentiate_spec x y m Hm Hx). Qed.

Lemma Exponentiate_eqm x y : unit_mod m x -> Exponentiate x y m * x ^ Z.max 0 (- y) ≡[m] x ^ Z.max 0 y.
Proof. intros Hx%unit_gcd. by destruct (Exponentiate_spec x y m Hm Hx). Qed.

Lemma Exponentiate_unit x y : unit_mod m x -> unit_mod m (Exponentiate x y m).
Proof.
  intros Hx. pose proof (Exponentiate_eqm x y Hx) as E.
  destruct (unit_pow x (Z.max 0 y) ltac:(lia) Hx) as [i Hi]. exists (i * x ^ Z.max 0 (- y)).
  rewrite <-E in Hi. by replace (i * x ^ Z.max 0 (- y) * Exponentiate x y m) with (i * (Exponentiate x y m * x ^ Z.max 0 (- y))) by lia.
Qed.

(** The characterisation is unique. *)
Lemma Exponentiate_unique x y z a b : unit_mod m x -> 0 <= a -> 0 <= b -> a - b = y ->
  z * x ^ b ≡[m] x ^ a -> z ≡[m] Exponentiate x y m.
Proof.
  intros Hx Ha Hb Hy E. pose proof (Exponentiate_eqm x y Hx) as E'.
  assert (exists k, 0 <= k /\ a = Z.max 0 y + k /\ b = Z.max 0 (- y) + k) as (k & Hk & -> & ->)
    by (exists (Z.min a b); lia).
  apply (unit_cancel (x ^ Z.max 0 (- y) * x ^ k)).
  { apply unit_mul; by apply unit_pow; try lia. }
  rewrite !Z.pow_add_r in E by lia. rewrite E, Z.mul_assoc. by rewrite E'.
Qed.

Lemma Exponentiate_pow x y : unit_mod m x -> 0 <= y -> x ^ y ≡[m] Exponentiate x y m.
Proof. intros Hx Hy. apply (Exponentiate_unique x y _ y 0); try done; [lia|]. by rewrite Z.pow_0_r, Z.mul_1_r. Qed.

Lemma Exponentiate_add x a b : unit_mod m x -> Exponentiate x a m * Exponentiate x b m ≡[m] Exponentiate x (a + b) m.
Proof.
  intros Hx. pose proof (Exponentiate_eqm x a Hx) as Ea. pose proof (Exponentiate_eqm x b Hx) as Eb.
  apply (Exponentiate_unique x (a + b) _ (Z.max 0 a + Z.max 0 b) (Z.max 0 (- a) + Z.max 0 (- b))); try done; try lia.
  rewrite !Z.pow_add_r by lia. rewrite <-Ea, <-Eb. apply eq_subrelation; [apply _|]. lia.
Qed.

Lemma Exponentiate_base x y a : x ≡[m] y -> unit_mod m x -> Exponentiate x a m ≡[m] Exponentiate y a m.
Proof.
  intros E Hx. apply (Exponentiate_unique y a _ (Z.max 0 a) (Z.max 0 (- a))); [by eapply unit_eqm|lia|lia|lia|].
  rewrite <-!(pow_eqm x y) by (done || lia). by apply Exponentiate_eqm.
Qed.

Lemma Exponentiate_mul_base x y a : unit_mod m x -> unit_mod m y ->
  Exponentiate (x * y) a m ≡[m] Exponentiate x a m * Exponentiate y a m.
Proof.
  intros Hx Hy. symmetry. pose proof (Exponentiate_eqm x a Hx) as Ex. pose proof (Exponentiate_eqm y a Hy) as Ey.
  apply (Exponentiate_unique _ a _ (Z.max 0 a) (Z.max 0 (- a))); [by apply unit_mul|lia|lia|lia|].
  rewrite !Z.pow_mul_l, <-Ex, <-Ey. apply eq_subrelation; [apply _|]. lia.
Qed.

(** A power of a power. *)
Lemma Exponentiate_pow_base x u r c : unit_mod m x -> 0 <= r -> 0 <= c -> u ≡[m] x ^ r ->
  Exponentiate u c m ≡[m] Exponentiate x (r * c) m.
Proof.
  intros Hx Hr Hc Hu. assert (unit_mod m u) as Hu' by (eapply unit_eqm; [symmetry; exact Hu|by apply unit_pow]).
  rewrite <-(Exponentiate_pow u c), <-(Exponentiate_pow x (r * c)) by (done || lia).
  rewrite (pow_eqm u (x ^ r)) by done. by rewrite Z.pow_mul_r.
Qed.

End units.

(** ** Decryption *)

Section scheme.
Context {SO : Secp256k1} {EM : Emmy} {EL : EmmyLaws}.

(** A key pair: the public values are the powers of a unit that the secret
    exponents give. *)
Record keysOk (pub : CSPaillierECPubKey) (sk : CSPaillierECSecKey) (pk : PubKeyRest) : Prop := {
  ko_rest : pkRest pub = Some pk;
  ko_N : pkN pub = skN sk;
  ko_big : 4 <= skN sk;
  ko_X1 : 0 <= skX1 sk;
  ko_X2 : 0 <= skX2 sk;
  ko_X3 : 0 <= skX3 sk;
  ko_G : unit_mod (skN sk * skN sk) (pkG pk);
  ko_Y1 : pkY1 pk ≡[(skN sk * skN sk)] pkG pk ^ skX1 sk;
  ko_Y2 : pkY2 pk ≡[(skN sk * skN sk)] pkG pk ^ skX2 sk;
  ko_Y3 : pkY3 pk ≡[(skN sk * skN sk)] pkG pk ^ skX3 sk;
}.

(** The powers of 1 + n modulo the square of n. *)
Lemma binomial n m : 0 <= m -> (n + 1) ^ m ≡[(n * n)] 1 + m * n.
Proof.
  revert m. apply natlike_ind; [done|]. intros m Hm IH.
  rewrite Z.pow_succ_r, IH by done. exists m. lia.
Qed.

Lemma eqm_divide m n a b : (m | n) -> a ≡[n] b -> a ≡[m] b.
Proof. intros [k ->] [c E]. exists (c * k). rewrite E. lia. Qed.

(** What [Abs] keeps: the square. *)
Lemma Abs_spec csp a : let n2 := pkN (csPubKey csp) * pkN (csPubKey csp) in 0 <= a < n2 ->
  exists v, Abs csp a = Ok v /\ 0 <= v <= n2 / 2 /\ (v ≡[n2] a \/ v ≡[n2] - a).
Proof.
  intros n2 Ha. unfold Abs. fold n2. destruct (Z.leb_spec n2 a); [lia|].
  pose proof (Z.div_mod n2 2 ltac:(lia)) as Hd. pose proof (Z.mod_pos_bound n2 2 ltac:(lia)).
  destruct (Z.leb_spec a (n2 / 2)); eexists; (split; [done|]); (split; [lia|]); [by left|].
  right. exists 1. lia.
Qed.

Lemma Abs_idem csp v : let n2 := pkN (csPubKey csp) * pkN (csPubKey csp) in 0 <= v <= n2 / 2 -> 0 < n2 -> Abs csp v = Ok v.
Proof.
  intros n2 Hv Hn. unfold Abs. fold n2. pose proof (Z.div_lt n2 2 Hn ltac:(lia)).
  destruct (Z.leb_spec n2 v); [lia|]. destruct (Z.leb_spec v (n2 / 2)); [done|lia].
Qed.

(** A ciphertext that was made with the random number [r]. *)
Record ciphertext (pk : PubKeyRest) (N r m label u e v : Z) : Prop := {
  ct_u : u ≡[(N * N)] pkG pk ^ r;
  ct_e : e ≡[(N * N)] pkY1 pk ^ r * (1 + m * N);
  ct_v : exists w, (v ≡[(N * N)] w \/ v ≡[(N * N)] - w) /\ w ≡[(N * N)] (pkY2 pk * pkY3 pk ^ Hash [u; e; label]) ^ r;
  ct_abs : 0 <= v <= N * N / 2;
}.

Lemma Encrypt_spec csp m label t pk :
  pkRest (csPubKey csp) = Some pk -> 4 <= pkN (csPubKey csp) -> 0 <= m < pkN (csPubKey csp) ->
  exists csp' t' r u e v, Encrypt csp m label t = (csp', Ok (u, e, v), t') /\ 0 <= r /\
    ciphertext pk (pkN (csPubKey csp)) r m label u e v /\
    csp' = setProverEnc csp (mkProverEncData r m).
Proof.
  intros Hrest HN Hm. unfold Encrypt. set (N := pkN (csPubKey csp)) in *.
  destruct (Z.leb_spec N m); [lia|].
  assert (0 < N / 4) as Hq by (apply Z.div_str_pos; lia).
  pose proof (GetRandomInt_range (N / 4) t Hq) as Hr. destruct (GetRandomInt (N / 4) t) as [r t']. simpl in Hr.
  assert (1 < N * N) as Hn2 by nia. rewrite Hrest. cbn [deref mbind res_bind].
  destruct (Exp_Ok (N * N) Hn2 (pkG pk) r ltac:(lia)) as (u & -> & Hu & Eu). cbn [mbind res_bind].
  destruct (Exp_Ok (N * N) Hn2 (pkY1 pk) r ltac:(lia)) as (e1 & -> & _ & E1). cbn [mbind res_bind].
  destruct (Exp_Ok (N * N) Hn2 (N + 1) m ltac:(lia)) as (e2 & -> & _ & E2). cbn [mbind res_bind].
  set (e := (e1 * e2) mod (N * N)).
  destruct (Exp_Ok (N * N) Hn2 (pkY3 pk) (Hash [u; e; label]) (Hash_nonneg _)) as (y3h & -> & _ & E3). cbn [mbind res_bind].
  destruct (Exp_Ok (N * N) Hn2 (pkY2 pk * y3h) r ltac:(lia)) as (w & -> & Hw & E4). cbn [mbind res_bind].
  destruct (Abs_spec csp w Hw) as (v & -> & Hv & Ev). cbn [mbind res_bind].
  eexists _, _, r, u, e, v. split; [done|]. split; [lia|]. split; [|done]. split; [done| | |done].
  - unfold e. rewrite eqm_mod, E1, E2. by rewrite (binomial N m) by lia.
  - exists w. split; [done|]. rewrite E4. apply pow_eqm; [lia|]. by rewrite E3.
Qed.

Lemma Decrypt_spec pub sk pk r m label u e v :
  keysOk pub sk pk -> 0 <= r -> 0 <= m < skN sk -> ciphertext pk (skN sk) r m label u e v ->
  Decrypt (NewCSPaillierECFromSecKey sk) u e v label = Ok m.
Proof.
  intros Hk Hr Hm [Hu He (w & Hvw & Hw) Habs]. pose proof (ko_big _ _ _ Hk) as HN.
  assert (1 < skN sk * skN sk) as Hn2 by nia. set (n2 := skN sk * skN sk) in *.
  unfold Decrypt. rewrite Abs_idem by (simpl; fold n2; lia). cbn [mbind res_bind]. rewrite Z.eqb_refl. cbn [negb].
  simpl csSecKey. simpl csPubKey. cbn [deref mbind res_bind pkN]. fold n2.
  pose proof (ko_X1 _ _ _ Hk) as H1. pose proof (ko_X2 _ _ _ Hk) as H2. pose proof (ko_X3 _ _ _ Hk) as H3.
  pose proof (Hash_nonneg [u; e; label]) as Hh. set (h := Hash [u; e; label]) in *.
  destruct (Exp_Ok n2 Hn2 u ((skX2 sk + h * skX3 sk) * 2) ltac:(nia)) as (z & -> & _ & Ez). cbn [mbind res_bind].
  assert (z ≡[n2] v * v) as Ezv.
  { transitivity (w * w); [|destruct Hvw as [->| ->]; apply eq_subrelation; [apply _|lia|apply _|lia]].
    rewrite Ez, Hw, (pow_eqm n2 u (pkG pk ^ r)) by (done || nia). rewrite (ko_Y2 _ _ _ Hk : _ ≡[n2] _).
    rewrite (pow_eqm n2 (pkY3 pk) (pkG pk ^ skX3 sk)) by (done || apply (ko_Y3 _ _ _ Hk)).
    rewrite <-!Z.pow_mul_r, <-(Z.pow_add_r (pkG pk) (skX2 sk)), <-Z.pow_mul_r, <-Z.pow_add_r by nia.
    apply eq_subrelation; [apply _|]. f_equal. lia. }
  apply eqm_mod_iff in Ezv; [|lia]. rewrite Ezv, Z.eqb_refl. cbn [negb].
  destruct (Exp_Ok n2 Hn2 u (skX1 sk) H1) as (a & -> & _ & Ea). cbn [mbind res_bind].
  assert (a ≡[n2] pkY1 pk ^ r) as Ea'.
  { rewrite Ea, (pow_eqm n2 u (pkG pk ^ r)), (pow_eqm n2 (pkY1 pk) (pkG pk ^ skX1 sk)) by (done || apply (ko_Y1 _ _ _ Hk)).
    rewrite <-!Z.pow_mul_r by lia. by rewrite Z.mul_comm. }
  assert (unit_mod n2 a) as Ua.
  { eapply unit_eqm; [symmetry; exact Ea|]. apply unit_pow; [done|]. eapply unit_eqm; [symmetry; exact Hu|].
    apply unit_pow; [done|]. apply (ko_G _ _ _ Hk). }
  destruct (unit_inverse n2 Hn2 a Ua) as (i & -> & _ & Hi). cbn [deref mbind res_bind].
  assert ((e * i) mod n2 = 1 + m * skN sk) as ->.
  { rewrite <-(Z.mod_small (1 + m * skN sk) n2) by (unfold n2; nia). apply eqm_mod_iff; [lia|].
    rewrite He, <-Ea'. replace (a * (1 + m * skN sk) * i) with (i * a * (1 + m * skN sk)) by lia. by rewrite Hi, Z.mul_1_l. }
  replace (1 + m * skN sk - 1) with (m * skN sk) by lia.
  rewrite Z.mod_mul, Z.div_mul by lia. done.
Qed.

(** ** Keys that are generated *)

Context {SL : Secp256k1Laws}.

(** What the verifiable encryption needs besides: its group has the same modulus,
    two units, and the modulus is large for the order of the curve. *)
Record proofKeysOk (N : Z) (pk : PubKeyRest) : Prop := {
  po_N : pkVerifiableEncGroupN pk = N;
  po_G1 : unit_mod N (pkVerifiableEncGroupG1 pk);
  po_H1 : unit_mod N (pkVerifiableEncGroupH1 pk);
  po_big : exp2 (pkK pk + pkK1 pk + 3) * GeneratorOrder < N;
}.

Lemma exp2_pos k : 1 <= exp2 k.
Proof. unfold exp2. pose proof (Z.pow_pos_nonneg 2 (Z.max 0 k)). lia. Qed.

Lemma chooseG1_unit fuel n2 : 1 < n2 -> forall t g1 t', chooseG1 fuel n2 t = (Some g1, t') -> unit_mod n2 g1 /\ 0 <= g1.
Proof.
  intros Hn. induction fuel as [|fuel IH]; intros t g1 t'; [done|]. simpl.
  pose proof (GetRandomInt_range n2 t ltac:(lia)) as Hr. destruct (GetRandomInt n2 t) as [g t1]. simpl in Hr.
  destruct (Z.eqb_spec (Z.gcd g n2) 1) as [E|_]; [|apply IH].
  intros [= <- _]. split; [by apply unit_gcd|lia].
Qed.

(** The loop ends as soon as a unit is drawn: the fuel that is enough is one more than the
    number of the draws before it. *)
Lemma chooseG1_found n2 : forall i t, Z.gcd (fst (GetRandomInt n2 (Nat.iter i (fun t => snd (GetRandomInt n2 t)) t))) n2 = 1 ->
  forall fuel, (i < fuel)%nat -> exists g1 t', chooseG1 fuel n2 t = (Some g1, t').
Proof.
  induction i as [|i IH]; intros t E [|fuel] Hf; try lia; simpl.
  - simpl in E. destruct (GetRandomInt n2 t) as [g t1]. simpl in E. rewrite E, Z.eqb_refl. by eexists _, _.
  - rewrite Nat.iter_succ_r in E. destruct (GetRandomInt n2 t) as [g t1]. simpl in E.
    destruct (Z.gcd g n2 =? 1); [by eexists _, _|]. apply (IH t1); [done|lia].
Qed.

Lemma NewVerifiableEncGroupEC_spec p q p1 q1 t vN g1 h1 t' :
  1 < p * q -> NewVerifiableEncGroupEC p q p1 q1 t = (Ok (vN, g1, h1), t') ->
  vN = p * q /\ unit_mod (p * q) g1 /\ unit_mod (p * q) h1.
Proof.
  intros Hn. unfold NewVerifiableEncGroupEC. destruct (NewRSASpecialFromParams p q p1 q1) as [n| |] eqn:En; [|done..].
  apply NewRSASpecialFromParams_modulus in En as ->.
  destruct (GetRandomGenerator (p * q) t) as [[g| |] t1] eqn:Eg; [|done..].
  destruct (GetRandomGenerator (p * q) t1) as [[h| |] t2] eqn:Eh; [|done..]. intros [= <- <- <- _].
  apply GetRandomGenerator_unit in Eg, Eh. split_and!; [done|by apply unit_gcd|by apply unit_gcd].
Qed.

Lemma paramsOk_spec sp p1 q1 n : paramsOk sp p1 q1 n = true ->
  2 <= p1 /\ 2 <= q1 /\ exp2 (spK sp + spK1 sp + 3) * GeneratorOrder < n.
Proof.
  unfold paramsOk. rewrite andb_true_iff, !negb_true_iff, !orb_false_iff, !Z.leb_gt.
  pose proof (exp2_pos (spK sp)). lia.
Qed.

Lemma generateKey_ok fuel sp t pub sk t' : generateKey fuel sp t = (Ok (pub, sk), t') ->
  exists pk, keysOk pub sk pk /\ proofKeysOk (pkN pub) pk /\ pkK pk = spK sp /\ pkK1 pk = spK1 sp.
Proof.
  unfold generateKey. destruct (GetGermainPrime (spL sp) t) as [p1 t1]. destruct (GetGermainPrime (spL sp) t1) as [q1 t2].
  set (p := p1 + p1 + 1). set (q := q1 + q1 + 1). set (n := p * q).
  destruct (paramsOk sp p1 q1 n) eqn:Ep; [|done]. apply paramsOk_spec in Ep as (Hp & Hq & Hbig). cbn [negb].
  assert (4 <= n) as Hn by (unfold n, p, q; nia).
  destruct (NewVerifiableEncGroupEC p q p1 q1 t2) as [[[[vN vG1] vH1]| |] t3] eqn:Ev; [|done..].
  apply NewVerifiableEncGroupEC_spec in Ev as (-> & HG1 & HH1); [|unfold n in Hn; lia].
  assert (0 < n * n / 4) as Hb by (apply Z.div_str_pos; nia).
  pose proof (GetRandomInt_range (n * n / 4) t3 Hb) as H1. destruct (GetRandomInt _ t3) as [x1 t4].
  pose proof (GetRandomInt_range (n * n / 4) t4 Hb) as H2. destruct (GetRandomInt _ t4) as [x2 t5].
  pose proof (GetRandomInt_range (n * n / 4) t5 Hb) as H3. destruct (GetRandomInt _ t5) as [x3 t6]. simpl in H1, H2, H3.
  assert (1 < n * n) as Hn2 by nia.
  destruct (chooseG1 fuel (n * n) t6) as [[g1|] t7] eqn:Eg; [|done].
  apply chooseG1_unit in Eg as [Ug Hg]; [|done]. cbn [deref mbind res_bind].
  destruct (Exp_Ok (n * n) Hn2 g1 (2 * n) ltac:(lia)) as (g & -> & _ & EG). cbn [mbind res_bind].
  destruct (Exp_Ok (n * n) Hn2 g x1 ltac:(lia)) as (y1 & -> & _ & E1). cbn [mbind res_bind].
  destruct (Exp_Ok (n * n) Hn2 g x2 ltac:(lia)) as (y2 & -> & _ & E2). cbn [mbind res_bind].
  destruct (Exp_Ok (n * n) Hn2 g x3 ltac:(lia)) as (y3 & -> & _ & E3). cbn [mbind res_bind].
  intros [= <- <- _]. eexists. split_and!; [split|split|..]; simpl; try done; try lia.
  eapply unit_eqm; [symmetry; exact EG|]. apply unit_pow; [lia|done].
Qed.

(** What is encrypted under a generated public key is decrypted by its secret key
    to the same message, whatever the label and the random numbers. *)
Theorem cs_roundtrip fuel sp tk pub sk tk' m label t :
  generateKey fuel sp tk = (Ok (pub, sk), tk') -> 0 <= m < pkN pub ->
  exists csp u e v t', Encrypt (NewCSPaillierECFromPubKey pub) m label t = (csp, Ok (u, e, v), t') /\
    Decrypt (NewCSPaillierECFromSecKey sk) u e v label = Ok m.
Proof.
  intros (pk & Hk & _)%generateKey_ok Hm. rewrite (ko_N _ _ _ Hk) in Hm.
  destruct (Encrypt_spec (NewCSPaillierECFromPubKey pub) m label t pk) as (csp & t' & r & u & e & v & E & Hr & Hct & _).
  - apply (ko_rest _ _ _ Hk).
  - simpl. rewrite (ko_N _ _ _ Hk). apply (ko_big _ _ _ Hk).
  - simpl. by rewrite (ko_N _ _ _ Hk).
  - exists csp, u, e, v, t'. split; [done|]. simpl in Hct. rewrite (ko_N _ _ _ Hk) in Hct. by eapply Decrypt_spec.
Qed.

(** ** The honest prover *)

(** The whole exchange, as the owner of a public key and a verifier run it. *)
Definition exchange (pub : CSPaillierECPubKey) (m label : Z) (t tv : emmyTape) : res bool :=
  match Encrypt (NewCSPaillierECFromPubKey pub) m label t with
  | (prover, Ok (u, e, v), t) =>
      match GetOpeningMsg prover m t with
      | (prover, Ok (l, delta), t) =>
          match GetProofRandomData prover u e label t with
          | (prover, Ok (u1, e1, v1, delta1, l1), t) =>
              let verifier := SetVerifierEncData (NewCSPaillierECFromPubKey pub) u e v delta label l in
              c ← fst (GetChallenge verifier tv);
              verifier ← SetProofRandomData verifier u1 e1 v1 delta1 l1 c;
              answer ← GetProofData prover c;
              let '(rTilde, sTilde, mTilde) := answer in
              Verify verifier rTilde sTilde mTilde
          | _ => Panic
          end
      | _ => Panic
      end
  | _ => Panic
  end.

(** A check of the verifier: a power of the ciphertext's part times a power of the
    base is the prover's first power. *)
Lemma response_eqm n x u r c r1 :
  1 < n -> unit_mod n x -> 0 <= r -> 0 <= c -> u ≡[n] x ^ r ->
  Exponentiate u (c * 2) n * Exponentiate x ((r1 - c * r) * 2) n ≡[n] Exponentiate x (2 * r1) n.
Proof.
  intros Hn Hx Hr Hc Hu. rewrite (Exponentiate_pow_base n Hn x u r) by (done || lia).
  rewrite Exponentiate_add by done. by replace (r * (c * 2) + (r1 - c * r) * 2) with (2 * r1) by lia.
Qed.

Lemma eqb_mod_refl n a b : 0 < n -> 0 <= a < n -> a ≡[n] b -> (a =? b mod n) = true.
Proof. intros Hn Ha E. apply Z.eqb_eq. rewrite <-(Z.mod_small a n) by done. by apply eqm_mod_iff. Qed.

Lemma unit_1n n : 1 < n -> unit_mod (n * n) (n + 1).
Proof. intros Hn. exists (1 - n). exists (- 1). lia. Qed.

(** The opening. *)
Lemma response_opening n n2 g h l m s c m1 s1 z :
  1 < n -> (n | n2) -> unit_mod n g -> unit_mod n h -> 0 <= m -> 0 <= s -> 0 <= c ->
  l ≡[n] g ^ m * h ^ s -> z ≡[n2] l ^ c ->
  z * Exponentiate g (m1 - c * m) n * Exponentiate h (s1 - c * s) n ≡[n] Exponentiate g m1 n * Exponentiate h s1 n.
Proof.
  intros Hn Hd Hg Hh Hm Hs Hc Hl Hz. rewrite (eqm_divide n n2 z (l ^ c) Hd Hz).
  rewrite (pow_eqm n l (g ^ m * h ^ s)) by done. rewrite Z.pow_mul_l, <-!Z.pow_mul_r by lia.
  rewrite (Exponentiate_pow n Hn g (m * c)), (Exponentiate_pow n Hn h (s * c)) by (done || lia).
  transitivity (Exponentiate g (m * c) n * Exponentiate g (m1 - c * m) n *
                (Exponentiate h (s * c) n * Exponentiate h (s1 - c * s) n)); [apply eq_subrelation; [apply _|lia]|].
  rewrite !Exponentiate_add by done. by replace (m * c + (m1 - c * m)) with m1 by lia;
    replace (s * c + (s1 - c * s)) with s1 by lia.
Qed.

(** The point: the bytes of a negative number are those of its opposite, which has
    the same abscissa. *)
Lemma response_point m m1 c : 0 <= m -> 0 <= c ->
  PX (ScalarBaseMult (Bytes m1)) mod FieldOrder =
  PX (CurveAdd (ScalarMult (ScalarBaseMult (Bytes m)) (Bytes c))
        (ScalarBaseMult (Bytes ((m1 - c * m) mod GeneratorOrder)))).
Proof.
  intros Hm Hc. pose proof G_on_curve as HG. pose proof order_ge_2.
  assert (ScalarBaseMult (Bytes m1) = Z.abs m1 ⊙ secp_G) as ->.
  { rewrite <-ScalarBaseMult_Bytes by lia. unfold Bytes. by rewrite Z.abs_idemp. }
  rewrite abscissa_reduced by (by apply smul_on_curve). rewrite smul_abs_X by done.
  rewrite !ScalarBaseMult_Bytes by (lia || apply mod_order_bound).
  rewrite ScalarMult_Bytes by (try lia; by apply smul_on_curve).
  rewrite (smul_eqm ((m1 - c * m) mod GeneratorOrder) (m1 - c * m)) by apply eqm_mod.
  rewrite <-smul_mul, <-smul_add by done. by replace (c * m + (m1 - c * m)) with m1 by lia.
Qed.

Lemma eqb_mod_eqm n a b : 0 < n -> a ≡[n] b -> (a mod n =? b mod n) = true.
Proof. intros Hn E. apply Z.eqb_eq. by apply eqm_mod_iff. Qed.

(** The first message, opened and computed from three numbers that are in range. *)
Lemma GetOpeningMsg_spec csp m t pk :
  pkRest (csPubKey csp) = Some pk -> proofKeysOk (pkN (csPubKey csp)) pk -> 4 <= pkN (csPubKey csp) -> 0 <= m ->
  exists s l t', GetOpeningMsg csp m t =
      (setProverRandom csp (mkProverRandomData s None None None), Ok (l, ScalarBaseMult (Bytes m)), t') /\
    0 <= s /\ l ≡[pkN (csPubKey csp)] pkVerifiableEncGroupG1 pk ^ m * pkVerifiableEncGroupH1 pk ^ s.
Proof.
  intros Hrest Hpo HN Hm. unfold GetOpeningMsg. rewrite Hrest, (po_N _ _ Hpo). set (N := pkN _) in *.
  assert (0 < N / 4) as Hq by (apply Z.div_str_pos; lia).
  pose proof (GetRandomInt_range (N / 4) t Hq) as Hs. destruct (GetRandomInt (N / 4) t) as [s t']. simpl in Hs.
  destruct (Exp_Ok N ltac:(lia) (pkVerifiableEncGroupG1 pk) m Hm) as (a & -> & _ & Ea). cbn [mbind res_bind].
  destruct (Exp_Ok N ltac:(lia) (pkVerifiableEncGroupH1 pk) s ltac:(lia)) as (b & -> & _ & Eb). cbn [mbind res_bind].
  exists s, ((a * b) mod N), t'. split_and!; [done|lia|]. by rewrite eqm_mod, Ea, Eb.
Qed.

Lemma GetProofRandomData_spec csp u e label t pk s :
  pkRest (csPubKey csp) = Some pk -> proofKeysOk (pkN (csPubKey csp)) pk -> 4 <= pkN (csPubKey csp) ->
  csProverRandomData csp = Some (mkProverRandomData s None None None) ->
  exists r1 s1 m1 msg t', proofMessage (pkN (csPubKey csp)) pk u e label r1 s1 m1 = Ok msg /\
    GetProofRandomData csp u e label t =
      (setProverRandom csp (mkProverRandomData s (Some r1) (Some s1) (Some m1)), Ok msg, t') /\
    Z.abs m1 <= GeneratorOrder * exp2 (pkK pk + pkK1 pk).
Proof.
  intros Hrest Hpo HN Hs. unfold GetProofRandomData. rewrite Hrest, (po_N _ _ Hpo), Hs. set (N := pkN _) in *.
  pose proof (exp2_pos (pkK pk + pkK1 pk - 2)). pose proof (exp2_pos (pkK pk + pkK1 pk)). pose proof order_ge_2.
  set (b1 := N * exp2 _). assert (0 < b1) by (unfold b1; nia).
  destruct (GetRandomIntFromRange_range (- b1) b1 t ltac:(lia)) as (r1 & E1 & Hr1).
  destruct (GetRandomIntFromRange (- b1) b1 t) as [? t2]. simpl in E1. subst.
  destruct (GetRandomIntFromRange_range (- b1) b1 t2 ltac:(lia)) as (s1 & E2 & Hs1).
  destruct (GetRandomIntFromRange (- b1) b1 t2) as [? t3]. simpl in E2. subst.
  set (b3 := GeneratorOrder * _). assert (0 < b3) by (unfold b3; nia).
  destruct (GetRandomIntFromRange_range (- b3) b3 t3 ltac:(lia)) as (m1 & E3 & Hm1).
  destruct (GetRandomIntFromRange (- b3) b3 t3) as [? t4]. simpl in E3. subst.
  assert (exists msg, proofMessage N pk u e label r1 s1 m1 = Ok msg) as [msg Hmsg].
  { unfold proofMessage.
    destruct (Exp_Ok (N * N) ltac:(nia) (pkY3 pk) (Hash [u; e; label]) (Hash_nonneg _)) as (z & -> & _). by eexists. }
  exists r1, s1, m1, msg, t4. rewrite Hmsg. simpl. split_and!; [done..|lia].
Qed.

(** The second check: two bases. *)
Lemma response_message n x x' h e r c m r1 m1 :
  1 < n -> unit_mod n x -> x' ≡[n] x -> unit_mod n h -> 0 <= r -> 0 <= c -> 0 <= m -> e ≡[n] x ^ r * h ^ m ->
  Exponentiate e (c * 2) n * Exponentiate x' ((r1 - c * r) * 2) n * Exponentiate h (2 * (m1 - c * m)) n
    ≡[n] Exponentiate x (2 * r1) n * Exponentiate h (2 * m1) n.
Proof.
  intros Hn Hx Hx' Hh Hr Hc Hm He.
  assert (unit_mod n (x ^ r)) as Ux by (by apply unit_pow). assert (unit_mod n (h ^ m)) as Uh by (by apply unit_pow).
  rewrite (Exponentiate_base n Hn x' x) by (done || (by eapply unit_eqm; [symmetry; exact Hx'|])).
  rewrite (Exponentiate_base n Hn e (x ^ r * h ^ m)) by (done || (by eapply unit_eqm; [symmetry; exact He|apply unit_mul])).
  rewrite Exponentiate_mul_base by done.
  rewrite <-(response_eqm n x (x ^ r) r c r1), <-(response_eqm n h (h ^ m) m c m1) by done.
  replace (2 * (m1 - c * m)) with ((m1 - c * m) * 2) by lia. apply eq_subrelation; [apply _|lia].
Qed.

(** The third check: the sign that [Abs] chose disappears in the square. *)
Lemma response_square n x x' v w r c r1 :
  1 < n -> unit_mod n x -> x' ≡[n] x -> 0 <= r -> 0 <= c -> w ≡[n] x ^ r -> v ≡[n] w \/ v ≡[n] - w ->
  Exponentiate v (c * 2) n * Exponentiate x' ((r1 - c * r) * 2) n ≡[n] Exponentiate x (2 * r1) n.
Proof.
  intros Hn Hx Hx' Hr Hc Hw Hv.
  assert (unit_mod n w) as Uw by (eapply unit_eqm; [symmetry; exact Hw|by apply unit_pow]).
  assert (unit_mod n v) as Uv.
  { destruct Hv as [Hv|Hv]; (eapply unit_eqm; [symmetry; exact Hv|done || idtac]).
    destruct Uw as [i Hi]. exists (- i). by replace (- i * - w) with (i * w) by lia. }
  assert (v * v ≡[n] w * w) as E.
  { destruct Hv as [->| ->]; [done|apply eq_subrelation; [apply _|lia]]. }
  rewrite (Exponentiate_base n Hn x' x) by (done || (by eapply unit_eqm; [symmetry; exact Hx'|])).
  rewrite <-(response_eqm n x w r c r1) by done.
  assert (Exponentiate v (c * 2) n ≡[n] Exponentiate w (c * 2) n) as ->; [|done].
  rewrite <-!Exponentiate_pow by (done || lia). rewrite (Z.mul_comm c 2), !Z.pow_mul_r by lia.
  rewrite !Z.pow_2_r. by apply pow_eqm.
Qed.

(** The verifier accepts what is computed as the protocol says. *)
Lemma Verify_accepts pub sk pk u e v label l c r s m r1 s1 m1 u1 e1 v1 delta1 l1 :
  keysOk pub sk pk -> proofKeysOk (pkN pub) pk -> 0 <= r -> 0 <= m -> 0 <= s -> 0 <= c ->
  ciphertext pk (pkN pub) r m label u e v ->
  l ≡[pkN pub] pkVerifiableEncGroupG1 pk ^ m * pkVerifiableEncGroupH1 pk ^ s ->
  proofMessage (pkN pub) pk u e label r1 s1 m1 = Ok (u1, e1, v1, delta1, l1) ->
  Z.abs (m1 - c * m) < pkN pub / 4 ->
  Verify (mkCSPaillierEC pub None
            (Some (mkVerifierRandomData l (Some (mkSecondMessage u1 e1 v1 delta1 l1 c)))) None None
            (Some (mkVerifierEncData u e v label (ScalarBaseMult (Bytes m)))))
    (r1 - c * r) (s1 - c * s) (m1 - c * m) = Ok true.
Proof.
  intros Hk Hpo Hr Hm Hs Hc [Hu He (w & Hvw & Hw) _] Hl Hmsg Hsmall.
  pose proof (ko_big _ _ _ Hk) as HN. rewrite <-(ko_N _ _ _ Hk) in HN. destruct Hk as [Hrest HpN _ HX1 HX2 HX3 UG E1 E2 E3].
  rewrite <-HpN in *. set (N := pkN pub) in *. assert (1 < N * N) as Hn2 by (clear -HN; nia).
  assert (unit_mod (N * N) (pkY1 pk) /\ unit_mod (N * N) (pkY2 pk) /\ unit_mod (N * N) (pkY3 pk)) as (U1 & U2 & U3).
  { split_and!.
    - apply (unit_eqm _ _ _ (symmetry E1)). by apply unit_pow.
    - apply (unit_eqm _ _ _ (symmetry E2)). by apply unit_pow.
    - apply (unit_eqm _ _ _ (symmetry E3)). by apply unit_pow. }
  pose proof (Hash_nonneg [u; e; label]) as Hh. unfold proofMessage in Hmsg.
  destruct (Exp_Ok (N * N) Hn2 (pkY3 pk) _ Hh) as (y & Ey & _ & Hy). rewrite Ey in Hmsg. injection Hmsg as <- <- <- <- <-.
  unfold Verify. simpl. rewrite Hrest. cbn [deref mbind res_bind]. fold N.
  set (b := pkY2 pk * pkY3 pk ^ Hash [u; e; label]) in *.
  assert (unit_mod (N * N) b) as Ub by (apply unit_mul; [done|by apply unit_pow]).
  rewrite (eqb_mod_refl (N * N)); [|lia|by apply Exponentiate_small|symmetry; apply (response_eqm _ _ u r c r1 Hn2 UG Hr Hc Hu)]. cbn [negb].
  rewrite eqb_mod_eqm; [|lia|]. 2:{ symmetry. apply response_message; try done; [apply eqm_mod|apply unit_1n; lia|].
    rewrite He, binomial; try done. } cbn [negb].
  destruct (Exp_Ok (N * N) Hn2 (pkY3 pk mod (N * N)) _ Hh) as (y' & -> & _ & Hy'). cbn [mbind res_bind].
  assert ((y * pkY2 pk) mod (N * N) ≡[(N * N)] b) as Eb by (rewrite eqm_mod, Hy, (Z.mul_comm (pkY3 pk ^ _)); done).
  assert (unit_mod (N * N) ((y * pkY2 pk) mod (N * N))) as Ub' by (eapply unit_eqm; [symmetry; exact Eb|done]).
  rewrite eqb_mod_refl; [|lia|by apply Exponentiate_small|]. 2:{ symmetry. rewrite (Exponentiate_base _ Hn2 ((y * pkY2 pk) mod (N * N)) b) by done.
    apply (response_square _ b _ v w); try done. unfold b. rewrite Hy', eqm_mod. f_equiv. apply pow_eqm; [done|apply eqm_mod]. }
  cbn [negb]. rewrite (response_point m m1 c), Z.eqb_refl by done. cbn [negb].
  destruct (Exp_Ok (N * N) Hn2 l c Hc) as (z & -> & _ & Hz). cbn [mbind res_bind]. rewrite (po_N _ _ Hpo).
  destruct Hpo as [_ UG1 UH1 _]. rewrite eqb_mod_eqm; [|lia|]. 2:{ symmetry. apply (response_opening N (N * N) _ _ l); try done; [lia|by exists N]. }
  cbn [negb]. destruct (Z.leb_spec (N / 4) (Z.abs (m1 - c * m))); [lia|done].
Qed.

(** The answer to a challenge stays in the range that the verifier checks. *)
Lemma answer_small K K1 order N m m1 c :
  0 <= K -> 0 <= K1 -> 2 <= order -> exp2 (K + K1 + 3) * order < N -> 0 <= m < order -> 0 <= c < exp2 K ->
  Z.abs m1 <= order * exp2 (K + K1) -> Z.abs (m1 - c * m) < N / 4.
Proof.
  intros HK HK1 Ho HN Hm Hc Hm1. unfold exp2 in *. rewrite !Z.max_r in * by lia.
  rewrite !Z.pow_add_r in * by lia. change (2 ^ 3) with 8 in HN.
  pose proof (Z.pow_pos_nonneg 2 K1 ltac:(lia) HK1). set (A := 2 ^ K * 2 ^ K1) in *.
  assert (c * m <= (2 ^ K - 1) * (order - 1)) by nia.
  assert (c * m < A * order) by (unfold A; nia).
  apply Z.lt_le_trans with (2 * (A * order)); [nia|]. apply Z.div_le_lower_bound; nia.
Qed.

(** C31: An honest prover convinces the verifier: with generated keys, the exchange for
    a message below the order of the curve ends with acceptance, for all random
    numbers and challenges. *)
Theorem exchange_accepts fuel sp tk pub sk tk' m label t tv :
  generateKey fuel sp tk = (Ok (pub, sk), tk') -> 0 <= spK sp -> 0 <= spK1 sp -> 0 <= m < GeneratorOrder ->
  exchange pub m label t tv = Ok true.
Proof.
  intros (pk & Hk & Hpo & EK & EK1)%generateKey_ok HK HK1 Hm. pose proof order_ge_2 as Ho.
  pose proof (ko_big _ _ _ Hk) as HN4. rewrite <-(ko_N _ _ _ Hk) in HN4. pose proof (ko_rest _ _ _ Hk) as Hrest.
  pose proof (po_big _ _ Hpo) as Hbig. pose proof (exp2_pos (pkK pk + pkK1 pk + 3)).
  assert (m < pkN pub) as HmN by nia. unfold exchange.
  destruct (Encrypt_spec (NewCSPaillierECFromPubKey pub) m label t pk) as (csp & t1 & r & u & e & v & -> & Hr & Hct & ->);
    [done|done|simpl; lia|].
  destruct (GetOpeningMsg_spec (setProverEnc (NewCSPaillierECFromPubKey pub) (mkProverEncData r m)) m t1 pk)
    as (s & l & t2 & -> & Hs & Hl); [done..|lia|].
  destruct (GetProofRandomData_spec (setProverRandom (setProverEnc (NewCSPaillierECFromPubKey pub) (mkProverEncData r m))
    (mkProverRandomData s None None None)) u e label t2 pk s) as (r1 & s1 & m1 & msg & t3 & Hmsg & -> & Hm1); [done..|].
  destruct msg as [[[[u1 e1] v1] delta1] l1]. unfold GetChallenge. simpl csPubKey. rewrite Hrest.
  pose proof (exp2_pos (pkK pk)). pose proof (GetRandomInt_range (exp2 (pkK pk)) tv ltac:(lia)) as Hc.
  destruct (GetRandomInt (exp2 (pkK pk)) tv) as [c tv']. simpl in Hc. simpl.
  eapply Verify_accepts; try done; try lia. by apply (answer_small (pkK pk) (pkK1 pk) GeneratorOrder); try lia.
Qed.

End scheme.
