(* ===== verification/VerencToy.v ===== *)
(** A small instance of the emmy library's functions and the theorems of the
    verifiable encryption at concrete keys, messages and points. *)
From Stdlib Require Import ZArith Zpow_facts.
From S2P Require Import Prelude BigInt Field Curve Pvss Verenc VerencProps.
Import Curve.Toy.

Module EmmyToy.

(** A counter for the random numbers; the Germain primes 11 and 23. *)
Definition toyInt (max : Z) (n : Z) : Z * Z := ((7 * n + 5) mod max, n + 1).

Definition toyRange (min max : Z) (n : Z) : res Z * Z := (Ok (min + (7 * n + 5) mod (max - min)), n + 1).

Definition toyExponentiate (x y m : Z) : Z :=
  if y <? 0 then match ModInverse x m with Some i => Zpow_mod i (- y) m | None => 0 end else Zpow_mod x y m.

Definition toyGenerator (n t : Z) : res Z * Z :=
  let g := (t + 2) * (t + 2) in (if Z.gcd g n =? 1 then Ok g else Err "no generator", t + 1).

#[global] Instance emmy : Emmy := {|
  emmyTape := Z;
  GetRandomInt := toyInt;
  GetRandomIntFromRange := toyRange;
  GetGermainPrime l n := (if Z.even n then 11 else 23, n + 1);
  Hash l := Z.abs (foldl (fun a x => 31 * a + x) 7 l) mod 65521;
  Exponentiate := toyExponentiate;
  NewRSASpecialFromParams p q _ _ := Ok (p * q);
  GetRandomGenerator := toyGenerator;
|}.

Lemma toyExponentiate_spec x y m : 1 < m -> Z.gcd x m = 1 ->
  0 <= toyExponentiate x y m < m /\ toyExponentiate x y m * x ^ Z.max 0 (- y) ≡[m] x ^ Z.max 0 y.
Proof.
  intros Hm Hx. unfold toyExponentiate. destruct (Z.ltb_spec y 0).
  - destruct (unit_inverse m Hm x) as (i & -> & _ & Hi); [by apply unit_gcd|].
    rewrite Zpow_mod_correct by lia. split; [apply Z.mod_pos_bound; lia|].
    rewrite eqm_mod, !Z.max_r, Z.max_l, <-Z.pow_mul_l by lia. rewrite (pow_eqm m _ 1) by (done || lia).
    by rewrite Z.pow_1_l by lia.
  - rewrite Zpow_mod_correct by lia. split; [apply Z.mod_pos_bound; lia|].
    by rewrite eqm_mod, Z.max_l, Z.max_r, Z.pow_0_r, Z.mul_1_r by lia.
Qed.

#[global] Instance emmy_laws : EmmyLaws.
Proof.
  split.
  - intros max t Hm. by apply Z.mod_pos_bound.
  - intros min max t Hm. eexists. split; [done|]. pose proof (Z.mod_pos_bound (7 * t + 5) (max - min)). lia.
  - intros l. by apply Z.mod_pos_bound.
  - apply toyExponentiate_spec.
  - intros p q p1 q1 n. by intros [= <-].
  - intros n t g t'. simpl. unfold toyGenerator. by destruct (Z.eqb_spec (Z.gcd ((t + 2) * (t + 2)) n) 1); intros [= <- _].
Qed.

Definition etape (n : Z) : @emmyTape emmy := n.

(** Keys for the modulus 23 * 47, with one bit for the challenge. *)
Definition toy_params : CSPaillierECSecParams := mkSecParams 5 5 1 1.
Definition toy_keys : res (CSPaillierECPubKey * CSPaillierECSecKey) := fst (generateKey 5 toy_params (etape 0)).
Definition toy_pub : CSPaillierECPubKey := match toy_keys with Ok (pub, _) => pub | _ => mkPubKey 0 None end.
Definition toy_sec : CSPaillierECSecKey := match toy_keys with Ok (_, sk) => sk | _ => mkSecKey 0 0 0 0 0 0 0 0 0 0 end.

Lemma toy_generated : generateKey 5 toy_params (etape 0) = (Ok (toy_pub, toy_sec), snd (generateKey 5 toy_params (etape 0))).
Proof. vm_compute. reflexivity. Qed.

(** *** The theorems at concrete inputs *)

Definition toy_dleq_tape : Tape := fun n => (3 + 5 * Z.of_nat n) mod 31.

Lemma dleq_complete_witness :
  exists p xG xH tape', GenerateDLEQProof secp_G secp_H 7 toy_dleq_tape = (p, xG, xH, tape') /\
    VerifyDLEQProof p secp_G secp_H xG xH = true.
Proof.
  do 4 eexists. split; [reflexivity|].
  eapply (dleq_complete secp_G secp_H 7 toy_dleq_tape); [apply H_on_curve|lia|intros n; apply Z.mod_pos_bound; simpl; lia|reflexivity].
Defined.

Lemma cs_roundtrip_witness : exists csp u e v t',
  Encrypt (NewCSPaillierECFromPubKey toy_pub) 1000 77 (etape 3) = (csp, Ok (u, e, v), t') /\
  Decrypt (NewCSPaillierECFromSecKey toy_sec) u e v 77 = Ok 1000.
Proof.
  apply (cs_roundtrip 5 toy_params (etape 0) toy_pub toy_sec (snd (generateKey 5 toy_params (etape 0))) 1000 77 (etape 3)).
  - apply toy_generated.
  - split; vm_compute; congruence.
Defined.

Lemma exchange_accepts_witness : exchange toy_pub 30 77 (etape 3) (etape 11) = Ok true.
Proof.
  apply (exchange_accepts 5 toy_params (etape 0) toy_pub toy_sec (snd (generateKey 5 toy_params (etape 0))) 30 77 (etape 3) (etape 11)).
  - apply toy_generated.
  - vm_compute. congruence.
  - vm_compute. congruence.
  - split; vm_compute; congruence.
Defined.

(** Points whose logarithms are different are accepted too. *)
Example dleq_forged_points :
  VerifyDLEQProof (mkDLEQProof 5 4 (CurveAdd (ScalarMult secp_G (Bytes 4)) (ScalarMult (ScalarBaseMult (Bytes 2)) (Bytes 5)))
      (CurveAdd (ScalarMult secp_H (Bytes 4)) (ScalarMult (ScalarMult secp_H (Bytes 3)) (Bytes 5))))
    secp_G secp_H (ScalarBaseMult (Bytes 2)) (ScalarMult secp_H (Bytes 3)) = true.
Proof. vm_compute. reflexivity. Qed.

(** A value beyond the square of the modulus stops the process instead of being
    refused. *)
Example decrypt_large_value : Decrypt (NewCSPaillierECFromSecKey toy_sec) 1 1 (1081 * 1081) 77 = Panic.
Proof. vm_compute. reflexivity. Qed.

(** A ciphertext that was changed is refused. *)
Example decrypt_changed : match Encrypt (NewCSPaillierECFromPubKey toy_pub) 1000 77 (etape 3) with
  | (_, Ok (u, e, v), _) => Decrypt (NewCSPaillierECFromSecKey toy_sec) u (e + 1) v 77 = Err "CSPaillierEC decryption failed 1" /\
                            Decrypt (NewCSPaillierECFromSecKey toy_sec) u e v 78 = Err "CSPaillierEC decryption failed 1"
  | _ => False end.
Proof. vm_compute. split; reflexivity. Qed.

End EmmyToy.
