(* ===== verification/Ecdsa.v ===== *)
(** Signatures on protocol texts (the ECDSA functions of src/pvss/pvss.go).

    Verification goes through Go's [crypto/ecdsa], which is written out here;
    signing goes through go-ethereum's [crypto.Sign], which is a parameter: its
    law is the equation every ECDSA signature satisfies. *)
From Stdlib Require Import Zdivisibility ZArith.
From S2P Require Import Prelude BigInt Field Curve.

Section ecdsa.
Context {SO : Secp256k1}.

Local Abbreviation q := GeneratorOrder.

(** [crypto/ecdsa]: the leftmost bits of the hash, as many as the order has. *)
Definition hashToInt (hash : list Z) : Z :=
  let orderBits := Z.log2 q + 1 in
  let orderBytes := (orderBits + 7) / 8 in
  let h := take (Z.to_nat orderBytes) hash in
  let excess := Z.of_nat (length h) * 8 - orderBits in
  if 0 <? excess then Z.shiftr (SetBytes h) excess else SetBytes h.

(** [crypto/ecdsa.Verify]. *)
Definition ecdsa_Verify (pub : Point) (hash : list Z) (r s : Z) : res bool :=
  if (r <=? 0) || (s <=? 0) then Ok false
  else if (q <=? r) || (q <=? s) then Ok false
  else
    let e := hashToInt hash in
    w ← deref (ModInverse s q);
    let u1 := (e * w) mod q in
    let u2 := (r * w) mod q in
    let P := CurveAdd (ScalarBaseMult (Bytes u1)) (ScalarMult pub (Bytes u2)) in
    if (PX P =? 0) && (PY P =? 0) then Ok false
    else Ok (PX P mod q =? r).

(** The two halves are sliced before anything is checked. *)
Definition ECDSAVerify (str : list Z) (pubKey : Point) (signature : list Z) : res bool :=
  if Nat.ltb (length signature) 64 then Panic
  else
    let r := SetBytes (take 32 signature) in
    let s := SetBytes (take 32 (drop 32 signature)) in
    ecdsa_Verify pubKey (Keccak256 str) r s.

Definition ECDSAVerifyBytes (b : list Z) (pubKey : Point) (signature : list Z) : res bool :=
  ECDSAVerify b pubKey signature.

End ecdsa.

(** go-ethereum's [crypto.Sign]. *)
Class EthCrypto := { ethSign : list Z -> Z -> option (list Z) }.

Class EthCryptoLaws `{Secp256k1, EthCrypto} := {
  ethSign_spec hash d sig :
    ethSign hash d = Some sig ->
    (64 <= length sig)%nat /\
    exists k, 0 < k < GeneratorOrder /\
      let r := PX (k ⊙ secp_G) mod GeneratorOrder in
      let s := SetBytes (take 32 (drop 32 sig)) in
      SetBytes (take 32 sig) = r /\ 0 < r /\ 0 < s < GeneratorOrder /\
      s * k ≡[GeneratorOrder] hashToInt hash + r * d
}.

Section ecdsa_sign.
Context {SO : Secp256k1} {SL : Secp256k1Laws} {EC : EthCrypto}.

(** A signing error ends the process. *)
Definition ECDSASign (s : list Z) (privKey : Z) : res (list Z) :=
  deref (ethSign (Keccak256 s) privKey).

Definition ECDSASignBytes (b : list Z) (privKey : Z) : res (list Z) := ECDSASign b privKey.

Context {EL : EthCryptoLaws}.

Local Abbreviation q := GeneratorOrder.

Lemma smul_G_not_O k : 0 < k < q -> k ⊙ secp_G <> PointO.
Proof.
  intros Hk E. pose proof order_ge_2. rewrite <-(smul_0 secp_G) in E. apply smul_G_inj in E.
  apply eqm_mod_iff in E; [|lia]. rewrite Z.mod_small, Z.mod_small in E; lia.
Qed.

(** A signature made with a private key verifies under its public key. *)
Theorem ecdsa_complete b d sig :
  ECDSASignBytes b d = Ok sig -> ECDSAVerifyBytes b (d ⊙ secp_G) sig = Ok true.
Proof.
  unfold ECDSASignBytes, ECDSASign, ECDSAVerifyBytes, ECDSAVerify. intros E.
  destruct (ethSign _ _) as [sig'|] eqn:Es; [|done]. injection E as ->.
  apply ethSign_spec in Es as (Hl & k & Hk & Hr & Hr0 & Hs & Heq). cbv zeta in *.
  rewrite (proj2 (Nat.ltb_ge _ _)), Hr by lia.
  set (s := SetBytes (take 32 (drop 32 sig))) in *. set (r := PX (k ⊙ secp_G) mod q) in *.
  pose proof order_prime as Hp. pose proof order_ge_2.
  assert (r < q) as Hrq by apply mod_order_bound.
  unfold ecdsa_Verify. bool_tests; try lia. cbn [orb].
  assert (s mod q <> 0) as Hs0 by (rewrite Z.mod_small; lia).
  destruct (ModInverse_prime s q Hp Hs0) as (w & -> & _ & Hw). cbn [deref mbind res_bind].
  rewrite ScalarBaseMult_Bytes, ScalarMult_Bytes by (auto with torus || apply mod_order_bound).
  rewrite <-smul_mul, <-smul_add by auto with torus.
  assert (w * s ≡[q] 1) as Hw1 by (apply eqm_mod_iff; [lia|]; rewrite Hw; by rewrite Z.mod_small by lia).
  rewrite (smul_eqm _ k).
  - destruct ((PX (k ⊙ secp_G) =? 0) && (PY (k ⊙ secp_G) =? 0)) eqn:E0.
    + apply andb_true_iff in E0 as [E1%Z.eqb_eq E2%Z.eqb_eq]. destruct (smul_G_not_O k Hk).
      destruct (k ⊙ secp_G); simpl in *. by subst.
    + fold r. by rewrite Z.eqb_refl.
  - rewrite !eqm_mod. set (e := hashToInt (Keccak256 b)) in *.
    replace (e * w + r * w * d) with (w * (e + r * d)) by lia.
    rewrite <-Heq. replace (w * (s * k)) with (w * s * k) by lia. by rewrite Hw1, Z.mul_1_l.
Qed.

End ecdsa_sign.

(** ** A concrete signer *)

Module ToySign.

Definition bytes32 (x : Z) : list Z := replicate 31 0 ++ [x].

(** The first nonce that gives a usable signature. *)
Definition attempt (hash : list Z) (d : Z) (k : Z) : option (list Z) :=
  let r := PX (k ⊙ secp_G) mod 31 in
  match ModInverse k 31 with
  | Some ki =>
      let s := ((hashToInt hash + r * d) * ki) mod 31 in
      if (0 <? r) && (0 <? s) && (k * ki mod 31 =? 1) then Some (bytes32 r ++ bytes32 s) else None
  | None => None
  end.

Fixpoint first_attempt (hash : list Z) (d : Z) (ks : list Z) : option (list Z) :=
  match ks with
  | [] => None
  | k :: ks' =>
      match attempt hash d k with
      | Some sig => Some sig
      | None => first_attempt hash d ks'
      end
  end.

#[global] Instance crypto : EthCrypto := {| ethSign hash d := first_attempt hash d (seqZ 1 30) |}.

Lemma SetBytes_bytes32 x : SetBytes (bytes32 x) = x.
Proof.
  unfold SetBytes, bytes32, undigits. rewrite reverse_app. simpl. lia.
Qed.

Lemma attempt_spec hash d k sig :
  0 < k < 31 -> attempt hash d k = Some sig ->
  (64 <= length sig)%nat /\ exists k, 0 < k < 31 /\
    let r := PX (k ⊙ secp_G) mod 31 in
    let s := SetBytes (take 32 (drop 32 sig)) in
    SetBytes (take 32 sig) = r /\ 0 < r /\ 0 < s < 31 /\ s * k ≡[31] hashToInt hash + r * d.
Proof.
  intros Hk E. unfold attempt in E. destruct (ModInverse k 31) as [ki|]; [|done].
  set (r := PX (k ⊙ secp_G) mod 31) in *. set (s := ((hashToInt hash + r * d) * ki) mod 31) in *.
  destruct (Z.ltb_spec 0 r) as [Hr|]; [|done]. destruct (Z.ltb_spec 0 s) as [Hs|]; [|done].
  destruct (Z.eqb_spec (k * ki mod 31) 1) as [Hki|]; [|done].
  change (Some (bytes32 r ++ bytes32 s) = Some sig) in E.
  assert (sig = bytes32 r ++ bytes32 s) as -> by congruence.
  split; [done|]. exists k. split; [done|]. cbv zeta. fold r.
  assert (take 32 (bytes32 r ++ bytes32 s) = bytes32 r) as -> by reflexivity.
  assert (take 32 (drop 32 (bytes32 r ++ bytes32 s)) = bytes32 s) as -> by reflexivity.
  rewrite !SetBytes_bytes32. split_and!; [done|done|done|apply Z.mod_pos_bound; lia|].
  unfold s. rewrite eqm_mod, <-Z.mul_assoc, (Z.mul_comm ki).
  assert (k * ki ≡[31] 1) as -> by (apply eqm_mod_iff; [lia|by rewrite Hki]).
  by rewrite Z.mul_1_r.
Qed.

Lemma first_attempt_spec hash d ks sig :
  first_attempt hash d ks = Some sig -> exists k, k ∈ ks /\ attempt hash d k = Some sig.
Proof.
  induction ks as [|k ks IH]; [done|]. cbn [first_attempt].
  destruct (attempt hash d k) as [sig'|] eqn:E; intros H.
  - exists k. split; [by left|]. by rewrite E.
  - destruct (IH H) as (k' & ? & ?). exists k'. split; [by right|done].
Qed.

#[global] Instance crypto_laws : EthCryptoLaws.
Proof.
  constructor. intros hash d sig (k & Hk%elem_of_seqZ & E)%first_attempt_spec.
  apply (attempt_spec hash d k sig); [lia|done].
Qed.

End ToySign.

Lemma ecdsa_complete_witness :
  exists sig, ECDSASignBytes [114; 101; 97] 6 = Ok sig /\
    ECDSAVerifyBytes [114; 101; 97] (6 ⊙ secp_G) sig = Ok true.
Proof.
  eexists. split; [vm_compute; reflexivity|].
  apply (ecdsa_complete [114; 101; 97] 6). vm_compute. reflexivity.
Defined.
