(* ===== verification/Ids.v ===== *)
(** The composite string identifiers of the key generation protocol
    (src/keygennofsm/types.go): node ids, DKG ids, keygen ids and the id of a
    commitment matrix.  They key every store of the protocol, so their encodings
    have to be injective. *)
From Stdlib Require Import ZArith.
From S2P Require Import Prelude BigInt Field Curve Pvss.

Abbreviation NodeDetailsID := string (only parsing).
Abbreviation DKGID := string (only parsing).
Abbreviation KeygenID := string (only parsing).
Abbreviation CID := string (only parsing).

(** ** Node ids *)

Definition ToNodeDetailsID (n : Node) : NodeDetailsID :=
  Join [Itoa (NodeIndex n); Text16 (PX (PubKey n)); Text16 (PY (PubKey n))] Delimiter1.

(** [string(id)[0:8]], as the handlers write ids into their logs: it panics when the id is
    shorter. *)
Definition shortID (id : NodeDetailsID) : res string :=
  if (8 <=? String.length id)%nat then Ok (String.substring 0 8 id) else Panic.

(** The receiver keeps the fields that were parsed before a failure. *)
Definition FromNodeDetailsID (n : Node) (nodeDetailsID : NodeDetailsID) : Node :=
  match Split nodeDetailsID Delimiter1 with
  | [s0; s1; s2] =>
      match Atoi s0 with
      | None => n
      | Some idx =>
          match SetString16 s1 with
          | None => mkNode idx (PubKey n)
          | Some x =>
              match SetString16 s2 with
              | None => mkNode idx (mkPoint x (PY (PubKey n)))
              | Some y => mkNode idx (mkPoint x y)
              end
          end
      end
  | _ => n
  end.

(** The zero value [var nodeDetails NodeDetails]. *)
Definition NodeZero : Node := mkNode 0 PointO.

(** ** DKG ids *)

Definition GenerateDKGID (idx : Z) : DKGID := Join ["SHARING"; Text16 idx] Delimiter3.

Definition GetIndex (dkgID : DKGID) : res Z :=
  match Split dkgID Delimiter3 with
  | [_; s] =>
      match SetString16 s with
      | Some idx => Ok idx
      | None => Err "could not get back index from dkgid"
      end
  | _ => Err "could not parse dkgid"
  end.

(** ** Keygen ids *)

Record KeygenIDDetails := mkKeygenIDDetails { kidDKGID : DKGID; kidDealerIndex : Z }.

Definition NullKeygenID : KeygenID := EmptyString.
Definition KeygenIDDetailsZero : KeygenIDDetails := mkKeygenIDDetails EmptyString 0.

Definition ToKeygenID (d : KeygenIDDetails) : KeygenID :=
  Join [kidDKGID d; Itoa (kidDealerIndex d)] Delimiter4.

(** The fields as they are left, and the error if any: the DKG id is stored
    before the dealer index is parsed. *)
Definition FromKeygenID (d : KeygenIDDetails) (keygenID : KeygenID)
    : KeygenIDDetails * option string :=
  match Split keygenID Delimiter4 with
  | [s0; s1] =>
      match Atoi s1 with
      | Some idx => (mkKeygenIDDetails s0 idx, None)
      | None => (mkKeygenIDDetails s0 (kidDealerIndex d), Some "strconv.Atoi: parsing"%string)
      end
  | _ => (d, Some "Error parsing keygenIDDetails, did not find 2 fields exactly"%string)
  end.

(** ** Commitment ids *)

Section cid.
Context {SO : Secp256k1}.

Definition delim_byte (d : ascii) : Z := Z.of_N (N_of_ascii d).

Definition point_bytes (pt : Point) : list Z :=
  Bytes (PX pt) ++ [delim_byte Delimiter1] ++ Bytes (PY pt) ++ [delim_byte Delimiter1].

Definition GetCIDFromPointMatrix (pm : list (list Point)) : CID :=
  HexEncode (Keccak256 (concat ((fun arr => concat (point_bytes <$> arr)) <$> pm))).

End cid.

(** ** Proofs *)

Lemma ToNodeDetailsID_split n :
  Split (ToNodeDetailsID n) Delimiter1 =
    [Itoa (NodeIndex n); Text16 (PX (PubKey n)); Text16 (PY (PubKey n))].
Proof.
  apply Split_Join; [done|].
  assert (N_of_ascii Delimiter1 <= 31)%N by (by vm_compute).
  repeat constructor; auto with torus.
Qed.

Lemma FromNodeDetailsID_To n n0 :
  in_int64 (NodeIndex n) -> FromNodeDetailsID n0 (ToNodeDetailsID n) = n.
Proof.
  intros Hn. unfold FromNodeDetailsID. rewrite ToNodeDetailsID_split.
  rewrite Atoi_Itoa, !SetString16_Text16 by done. by destruct n as [i [x y]].
Qed.

Lemma ToNodeDetailsID_inj n n' :
  in_int64 (NodeIndex n) -> in_int64 (NodeIndex n') ->
  ToNodeDetailsID n = ToNodeDetailsID n' -> n = n'.
Proof.
  intros H H' E. rewrite <-(FromNodeDetailsID_To n NodeZero H), E. by apply FromNodeDetailsID_To.
Qed.

(** A node whose id is long enough to be logged. *)
Definition long_id (n : Node) : Prop := (8 <= String.length (ToNodeDetailsID n))%nat.

Lemma shortID_Ok n : long_id n -> exists s, shortID (ToNodeDetailsID n) = Ok s.
Proof. intros H. unfold shortID. rewrite (proj2 (Nat.leb_le _ _) H). by eexists. Qed.

Lemma GetIndex_GenerateDKGID idx : GetIndex (GenerateDKGID idx) = Ok idx.
Proof.
  unfold GetIndex, GenerateDKGID. rewrite Split_Join; [by rewrite SetString16_Text16|done|].
  repeat constructor; [vm_compute; set_solver|].
  apply Text16_no_sep. by vm_compute.
Qed.

Lemma GenerateDKGID_no_sep idx : Delimiter4 ∉ chars (GenerateDKGID idx).
Proof.
  unfold GenerateDKGID, Join. rewrite chars_unchars.
  change (join_chars _ _) with (chars "SHARING" ++ Delimiter3 :: chars (Text16 idx)).
  rewrite elem_of_app, elem_of_cons. intros [H|[H|H]].
  - revert H. vm_compute. set_solver.
  - discriminate H.
  - revert H. apply Text16_no_sep. by vm_compute.
Qed.

Lemma FromKeygenID_To d d0 :
  Delimiter4 ∉ chars (kidDKGID d) -> in_int64 (kidDealerIndex d) ->
  FromKeygenID d0 (ToKeygenID d) = (d, None).
Proof.
  intros Hd Hi. unfold FromKeygenID, ToKeygenID. rewrite Split_Join; [|done|].
  - rewrite Atoi_Itoa by done. by destruct d.
  - repeat constructor; [done|]. apply Itoa_no_sep. by vm_compute.
Qed.

(** ** Properties *)

(** The identifiers round-trip: for every node, key index and dealer the
    protocol forms ids for, parsing the printed id gives the data back. *)
Theorem ids_roundtrip n keyIndex dealer n0 d0 :
  in_int64 (NodeIndex n) -> in_int64 dealer ->
  FromNodeDetailsID n0 (ToNodeDetailsID n) = n /\
  GetIndex (GenerateDKGID keyIndex) = Ok keyIndex /\
  FromKeygenID d0 (ToKeygenID (mkKeygenIDDetails (GenerateDKGID keyIndex) dealer)) =
    (mkKeygenIDDetails (GenerateDKGID keyIndex) dealer, None).
Proof.
  intros Hn Hd. split; [by apply FromNodeDetailsID_To|]. split; [apply GetIndex_GenerateDKGID|].
  apply FromKeygenID_To; [apply GenerateDKGID_no_sep|done].
Qed.

Lemma ids_roundtrip_witness :
  FromKeygenID KeygenIDDetailsZero (ToKeygenID (mkKeygenIDDetails (GenerateDKGID 255) 3)) =
    (mkKeygenIDDetails (GenerateDKGID 255) 3, None).
Proof.
  apply (ids_roundtrip (mkNode 2 (mkPoint 5 6)) 255 3 NodeZero); unfold in_int64; simpl; lia.
Defined.

(** The id of a commitment matrix does not determine its shape: a matrix and
    the single row of all its points have the same id. *)
Theorem cid_ignores_shape `{Secp256k1} pm :
  GetCIDFromPointMatrix pm = GetCIDFromPointMatrix [concat pm].
Proof.
  unfold GetCIDFromPointMatrix. do 2 f_equal. csimpl. rewrite app_nil_r.
  induction pm as [|arr pm IH]; csimpl; [done|]. by rewrite IH, fmap_app, concat_app.
Qed.
