(* ===== verification/Effects.v ===== *)
(** What the protocols of the node share: serialisation, the iteration order of
    maps, and the shape of a handler, which maps the state it may change to the
    new state, the actions it leaves to goroutines and how it ended. *)
From stdpp Require Import gmap strings.
From S2P Require Import Prelude BigInt Curve.

(** ** Parameters *)

(** bijson, the serialisation of one message type. *)
Class Codec (A : Type) := {
  Marshal : A -> option (list Z);
  Unmarshal : list Z -> option A;
}.

Class CodecLaws (A : Type) `{Codec A} := {
  Unmarshal_Marshal (a : A) b : Marshal a = Some b -> Unmarshal b = Some a;
}.

(** The order in which a [range] over a map visits it.  Every loop of the source
    is a site of its own, so two loops may disagree on the same map. *)
Class MapRange := { mapRange : forall V : Type, nat -> gmap string V -> list (string * V) }.
Arguments mapRange {_} {V} _ _.

Class MapRangeLaws `{MapRange} := {
  mapRange_perm (V : Type) site (m : gmap string V) : mapRange site m ≡ₚ map_to_list m;
}.

(** Values of the node's configuration (src/config), which operators may change
    while it runs: a handler reads them when it needs them. *)
Class NodeConfig := {
  ValidateDealer : bool;
  IgnoreEpochForKeyAssign : bool;
  KeyBuffer : Z;
}.

(** torus-common's signature check on raw data, and the hexadecimal Ethereum
    address of a point. *)
Class TorusCrypto := {
  VerifyPtFromRaw : list Z -> Point -> list Z -> bool;
  PointToEthAddressHex : Point -> string;
}.

(** [[]byte(s)]. *)
Definition stringBytes (s : string) : list Z := (fun c => Z.of_N (N_of_ascii c)) <$> chars s.

(** [string(byt)]. *)
Definition bytesString (byt : list Z) : string :=
  unchars ((fun b => ascii_of_N (Z.to_N b)) <$> byt).

Lemma bytesString_stringBytes s : bytesString (stringBytes s) = s.
Proof.
  unfold bytesString, stringBytes. rewrite <-list_fmap_compose.
  rewrite <-(unchars_chars s) at 2. f_equal. rewrite <-(list_fmap_id (chars s)) at 2.
  apply list_fmap_ext. intros _ c _. unfold compose. by rewrite N2Z.id, ascii_N_embedding.
Qed.

#[global] Instance stringBytes_inj : Inj (=) (=) stringBytes.
Proof. intros s s' E. by rewrite <-(bytesString_stringBytes s), E, bytesString_stringBytes. Qed.

(** ** Handlers *)

(** How a handler ended: [Waiting] is a polling loop whose condition does not hold yet. *)
Inductive status := Returned | Errored (e : string) | Panicked | Waiting.

Definition errMarshal : string := "bijson".

Definition marshal {A} `{Codec A} (a : A) : res (list Z) :=
  match Marshal a with
  | Some b => Ok b
  | None => Err errMarshal
  end.

(** Run [m] and go on, or stop with the state reached so far. *)
Definition run {A S Act} (m : res A) (s : S) (k : A -> S * list Act * status)
    : S * list Act * status :=
  match m with
  | Ok a => k a
  | Err e => (s, [], Errored e)
  | Panic => (s, [], Panicked)
  end.

Lemma run_inv {A S Act} (m : res A) (s : S) (k : A -> S * list Act * status) s' acts st :
  run m s k = (s', acts, st) -> (s' = s /\ acts = []) \/ exists a, m = Ok a /\ k a = (s', acts, st).
Proof. destruct m as [a| |]; simpl; [by right; exists a|intros [= <- <- _]; by left..]. Qed.

(** Actions already handed over when the rest runs. *)
Definition emit {S Act} (acts : list Act) (r : S * list Act * status)
    : S * list Act * status :=
  let '(s, acts', st) := r in (s, acts ++ acts', st).
