(* ===== verification/EventBus.v ===== *)
(** The event bus (src/eventbus/event_bus.go) and the part of its network server that
    keeps the remote subscribers (src/eventbus/server.go).

    A callback and a middleware are known by the identity of their function value,
    which is what the code compares; what an identity runs is not the bus's concern,
    so publishing returns the deliveries in their order.  The lock of the bus makes an
    operation one step.  A transactional handler waits for the lock of the handler
    before its goroutine starts: the model publishes when that lock is free. *)
From stdpp Require Import gmap strings.
From S2P Require Import Prelude.

Section bus.
(** What is published. *)
Context {Event : Type}.

Record eventHandler := mkEventHandler { callBack : nat; flagOnce : bool; async : bool; transactional : bool }.

#[global] Instance eventHandler_eq_dec : EqDecision eventHandler.
Proof. solve_decision. Defined.

(** A middleware: its pointer and its function, where [None] is a nil value. *)
Record Middleware := mkMiddleware { mwPointer : nat; mwRun : string -> option Event -> option Event }.

Record EventBus := mkEventBus { middleware : list Middleware; handlers : gmap string (list eventHandler) }.

Definition NewBus : EventBus := mkEventBus [] ∅.

Definition setHandlers (bus : EventBus) (m : gmap string (list eventHandler)) : EventBus := mkEventBus (middleware bus) m.

(** The handlers of a topic; a topic that is not in the map has none. *)
Definition handlersOf (bus : EventBus) (topic : string) : list eventHandler := default [] (handlers bus !! topic).

Definition doSubscribe (bus : EventBus) (topic : string) (handler : eventHandler) : EventBus :=
  setHandlers bus (<[topic := handlersOf bus topic ++ [handler]]> (handlers bus)).

Definition Subscribe (bus : EventBus) (topic : string) (fn : nat) : EventBus :=
  doSubscribe bus topic (mkEventHandler fn false false false).
Definition SubscribeAsync (bus : EventBus) (topic : string) (fn : nat) (transactional : bool) : EventBus :=
  doSubscribe bus topic (mkEventHandler fn false true transactional).
Definition SubscribeOnce (bus : EventBus) (topic : string) (fn : nat) : EventBus :=
  doSubscribe bus topic (mkEventHandler fn true false false).
Definition SubscribeOnceAsync (bus : EventBus) (topic : string) (fn : nat) : EventBus :=
  doSubscribe bus topic (mkEventHandler fn true true false).

Definition AddMiddleware (bus : EventBus) (m : Middleware) : EventBus :=
  mkEventBus (middleware bus ++ [m]) (handlers bus).

(** The last one with the pointer is removed. *)
Definition RemoveMiddleware (bus : EventBus) (pointer : option nat) : EventBus :=
  match pointer with
  | None => bus
  | Some p =>
      match foldl (fun index im => if decide (mwPointer (snd im) = p) then Some (fst im) else index) None
              (imap pair (middleware bus)) with
      | Some i => mkEventBus (delete i (middleware bus)) (handlers bus)
      | None => bus
      end
  end.

Definition runMiddleware (ms : list Middleware) (topic : string) (input : option Event) : option Event :=
  foldl (fun output m => mwRun m topic output) input ms.

Definition HasCallback (bus : EventBus) (topic : string) : bool :=
  match handlers bus !! topic with
  | Some hs => Nat.ltb 0 (length hs)
  | None => false
  end.

(** An index that is out of range, such as minus one, changes nothing; the last handler
    takes the topic with it. *)
Definition removeHandler (bus : EventBus) (topic : string) (idx : option nat) : EventBus :=
  match handlers bus !! topic, idx with
  | Some hs, Some i =>
      if Nat.ltb i (length hs) then
        let hs' := delete i hs in
        setHandlers bus (if Nat.eqb (length hs') 0 then delete topic (handlers bus) else <[topic := hs']> (handlers bus))
      else bus
  | _, _ => bus
  end.

Definition findHandlerIdx (bus : EventBus) (topic : string) (fn : nat) : option nat :=
  fst <$> list_find (fun h => callBack h = fn) (handlersOf bus topic).

Definition noTopic (topic : string) : string := "topic " +:+ topic +:+ " doesn't exist".

(** A callback that is not found is no error. *)
Definition Unsubscribe (bus : EventBus) (topic : string) (fn : nat) : res EventBus :=
  if HasCallback bus topic then Ok (removeHandler bus topic (findHandlerIdx bus topic fn))
  else Err (noTopic topic).

(** The loop compares its index with the length of the list that it shortens. *)
Fixpoint unsubscribeLoop (fuel : nat) (bus : EventBus) (topic : string) (i : nat) : EventBus :=
  match fuel with
  | O => bus
  | S fuel =>
      if Nat.ltb i (length (handlersOf bus topic)) then unsubscribeLoop fuel (removeHandler bus topic (Some i)) topic (S i)
      else bus
  end.

Definition UnsubscribeAll (bus : EventBus) (topic : string) : res EventBus :=
  if HasCallback bus topic then Ok (unsubscribeLoop (length (handlersOf bus topic)) bus topic 0)
  else Err (noTopic topic).

(** The handlers are called in the order of the copy; the index of a handler that is
    taken out is its place in the copy. *)
Definition Publish (bus : EventBus) (topic : string) (data : option Event) : EventBus * list (eventHandler * option Event) :=
  let copyHandlers := handlersOf bus topic in
  (foldl (fun bus ih => if flagOnce (snd ih) then removeHandler bus topic (Some (fst ih)) else bus) bus
     (imap pair copyHandlers),
   (fun h => (h, data)) <$> copyHandlers).

(** A delivery runs the middleware of the moment; a nil result drops it. *)
Definition doPublish (bus : EventBus) (topic : string) (h : eventHandler) (data : option Event) : option (nat * Event) :=
  modData ← runMiddleware (middleware bus) topic data; Some (callBack h, modData).

End bus.
Arguments EventBus : clear implicits.
Arguments Middleware : clear implicits.

(** ** Remote subscribers *)

Section server.
Context {Event : Type}.

Inductive SubscribeType := TSubscribe | TSubscribeOnce | TOther.

Record SubscribeArg := mkSubscribeArg {
  saClientAddr : string; saClientPath : string; saServiceMethod : string; saSubscribeType : SubscribeType; saTopic : string;
}.

#[global] Instance SubscribeType_eq_dec : EqDecision SubscribeType.
Proof. solve_decision. Defined.
#[global] Instance SubscribeArg_eq_dec : EqDecision SubscribeArg.
Proof. solve_decision. Defined.

Record Server := mkServer { svEventBus : EventBus Event; svSubscribers : gmap string (list SubscribeArg); svStarted : bool }.

Definition NewServer (eventBus : EventBus Event) : Server := mkServer eventBus ∅ false.

Definition HasClientSubscribed (server : Server) (arg : SubscribeArg) : bool :=
  match svSubscribers server !! saTopic arg with
  | Some topicSubscribers => bool_decide (arg ∈ topicSubscribers)
  | None => false
  end.

(** [rpcCallback] is the function value that is made for the subscriber.  The list of a
    topic that has one is replaced, and that of a topic without one is nil. *)
Definition Register (server : Server) (arg : SubscribeArg) (rpcCallback : nat) : Server * bool :=
  if HasClientSubscribed server arg then (server, true)
  else
    let bus :=
      match saSubscribeType arg with
      | TSubscribe => Subscribe (svEventBus server) (saTopic arg) rpcCallback
      | TSubscribeOnce => SubscribeOnce (svEventBus server) (saTopic arg) rpcCallback
      | TOther => svEventBus server
      end in
    let topicSubscribers :=
      match svSubscribers server !! saTopic arg with
      | Some _ => [arg]
      | None => default [] (svSubscribers server !! saTopic arg) ++ [arg]
      end in
    (mkServer bus (<[saTopic arg := topicSubscribers]> (svSubscribers server)) (svStarted server), true).

End server.
Arguments Server : clear implicits.

(** ** What the bus does *)

Section props.
Context {Event : Type}.
Implicit Types bus : EventBus Event.

(** Every topic in the map has a handler. *)
Definition bus_ok (bus : EventBus Event) : Prop := map_Forall (fun _ hs => hs <> []) (handlers bus).

Lemma HasCallback_spec bus topic : HasCallback bus topic = true <-> handlersOf bus topic <> [].
Proof.
  unfold HasCallback, handlersOf. destruct (handlers bus !! topic) as [[|h hs]|]; simpl; naive_solver.
Qed.

Lemma handlersOf_doSubscribe bus topic h topic' :
  handlersOf (doSubscribe bus topic h) topic' = handlersOf bus topic' ++ (if decide (topic = topic') then [h] else []).
Proof.
  unfold handlersOf at 1. simpl. case_decide as E; [subst; by rewrite lookup_insert_eq|].
  rewrite lookup_insert_ne by done. by rewrite app_nil_r.
Qed.

Lemma delete_beyond {A} (l : list A) i : (length l <= i)%nat -> delete i l = l.
Proof. intros H. by rewrite delete_take_drop, take_ge, drop_ge, app_nil_r by lia. Qed.

Lemma handlersOf_removeHandler bus topic i topic' :
  handlersOf (removeHandler bus topic (Some i)) topic' =
  if decide (topic = topic') then delete i (handlersOf bus topic) else handlersOf bus topic'.
Proof.
  unfold removeHandler. destruct (handlers bus !! topic) as [hs|] eqn:E.
  2:{ case_decide; [|done]. subst. unfold handlersOf. by rewrite E. }
  assert (handlersOf bus topic = hs) as -> by (unfold handlersOf; by rewrite E).
  destruct (Nat.ltb_spec i (length hs)).
  2:{ case_decide; [|done]. subst. rewrite delete_beyond by done. unfold handlersOf. by rewrite E. }
  unfold handlersOf at 1. simpl. destruct (Nat.eqb_spec (length (delete i hs)) 0) as [H0|H0].
  - apply nil_length_inv in H0. case_decide; [subst; by rewrite lookup_delete_eq, H0|by rewrite lookup_delete_ne].
  - case_decide; [subst; by rewrite lookup_insert_eq|by rewrite lookup_insert_ne].
Qed.

Lemma removeHandler_ok bus topic i : bus_ok bus -> bus_ok (removeHandler bus topic i).
Proof.
  intros Hok. unfold removeHandler. destruct (handlers bus !! topic) as [hs|] eqn:E; [|done]. destruct i as [i|]; [|done].
  destruct (Nat.ltb i (length hs)); [|done]. simpl. destruct (Nat.eqb_spec (length (delete i hs)) 0) as [H0|H0].
  - by apply map_Forall_delete.
  - apply map_Forall_insert_2; [|done]. intros E0. by rewrite E0 in H0.
Qed.

Lemma removeHandler_middleware bus topic i : middleware (removeHandler bus topic i) = middleware bus.
Proof. unfold removeHandler. destruct (handlers bus !! topic), i as [i|]; try done. by destruct (Nat.ltb i _). Qed.

(** *** Publishing *)

(** Every handler of the topic is called once, in the order of subscription. *)
Lemma Publish_deliveries bus topic data : (Publish bus topic data).2 = (fun h => (h, data)) <$> handlersOf bus topic.
Proof. done. Qed.

Lemma foldl_publish (f : nat * eventHandler -> bool) topic l : forall bus,
  let bus' := foldl (fun bus ih => if f ih then removeHandler bus topic (Some (fst ih)) else bus) bus l in
  middleware bus' = middleware bus /\ (bus_ok bus -> bus_ok bus') /\
  forall topic', topic' <> topic -> handlersOf bus' topic' = handlersOf bus topic'.
Proof.
  induction l as [|ih l IH]; intros bus; simpl; [done|].
  destruct (f ih); [|by apply IH]. destruct (IH (removeHandler bus topic (Some ih.1))) as (H1 & H2 & H3).
  rewrite removeHandler_middleware in H1. split_and!; [done|intros; by apply H2, removeHandler_ok|].
  intros topic' Hne. by rewrite H3, handlersOf_removeHandler, decide_False.
Qed.

(** Only the topic changes. *)
Lemma Publish_frame bus topic data : let bus' := (Publish bus topic data).1 in
  middleware bus' = middleware bus /\ (bus_ok bus -> bus_ok bus') /\
  forall topic', topic' <> topic -> handlersOf bus' topic' = handlersOf bus topic'.
Proof. apply (foldl_publish (fun ih => flagOnce ih.2)). Qed.

Lemma Publish_persistent bus topic data : Forall (fun h => flagOnce h = false) (handlersOf bus topic) ->
  (Publish bus topic data).1 = bus.
Proof.
  intros Hall. unfold Publish. cbn [fst]. generalize (handlersOf bus topic) Hall. intros l Hl.
  assert (forall n : nat -> nat, foldl (fun b ih => if flagOnce ih.2 then removeHandler b topic (Some ih.1) else b) bus
    (imap (fun i h => (n i, h)) l) = bus) as H; [|apply (H id)].
  induction Hl as [|h l Hh _ IH]; intros n; [done|]. rewrite imap_cons. simpl. rewrite Hh. apply (IH (n ∘ S)).
Qed.

(** A handler that is alone on its topic is called once and taken out. *)
Lemma Publish_once bus topic data h : handlersOf bus topic = [h] -> flagOnce h = true ->
  handlersOf (Publish bus topic data).1 topic = [] /\ (Publish bus topic data).2 = [(h, data)].
Proof.
  intros E Hh. unfold Publish. rewrite E. simpl. rewrite Hh. split; [|done].
  by rewrite handlersOf_removeHandler, decide_True, E.
Qed.

(** *** Unsubscribing *)

(** The handlers at odd places. *)
Fixpoint odds (hs : list eventHandler) : list eventHandler :=
  match hs with
  | _ :: h :: hs => h :: odds hs
  | _ => []
  end.

Lemma unsubscribeLoop_spec topic : forall fuel bus pre hs,
  handlersOf bus topic = pre ++ hs -> (length hs <= fuel)%nat ->
  handlersOf (unsubscribeLoop fuel bus topic (length pre)) topic = pre ++ odds hs.
Proof.
  induction fuel as [|fuel IH]; intros bus pre hs E Hf.
  { destruct hs; [|simpl in Hf; lia]. done. }
  simpl. rewrite E, length_app. destruct hs as [|h hs]; simpl length.
  { destruct (Nat.ltb_spec (length pre) (length pre + 0)); [lia|]. done. }
  destruct (Nat.ltb_spec (length pre) (length pre + S (length hs))); [|lia].
  assert (handlersOf (removeHandler bus topic (Some (length pre))) topic = pre ++ hs) as E'.
  { by rewrite handlersOf_removeHandler, decide_True, E, delete_middle. }
  destruct hs as [|h' hs].
  - rewrite app_nil_r in *. destruct fuel as [|fuel]; simpl; [done|]. rewrite E'.
    destruct (Nat.ltb_spec (S (length pre)) (length pre)); [lia|done].
  - simpl in Hf. specialize (IH (removeHandler bus topic (Some (length pre))) (pre ++ [h']) hs).
    rewrite length_app, Nat.add_comm in IH. simpl in IH. rewrite IH; [|by rewrite E', <-app_assoc|lia].
    by rewrite <-app_assoc.
Qed.

(** Unsubscribing all leaves every other handler. *)
Lemma UnsubscribeAll_spec bus topic bus' : UnsubscribeAll bus topic = Ok bus' ->
  handlersOf bus' topic = odds (handlersOf bus topic).
Proof.
  unfold UnsubscribeAll. destruct (HasCallback bus topic); [|done]. intros [= <-].
  by apply (unsubscribeLoop_spec topic _ bus [] (handlersOf bus topic)).
Qed.

Lemma length_odds hs : length (odds hs) = (length hs / 2)%nat.
Proof.
  assert (forall n hs, (length hs <= n)%nat -> length (odds hs) = (length hs / 2)%nat) as H; [|by apply (H (length hs))].
  clear hs. induction n as [|n IH]; intros [|h [|h' hs]] Hn; simpl in Hn; try done; try lia.
  cbn [odds length]. rewrite IH by lia. replace (S (S (length hs))) with (length hs + 1 * 2)%nat by lia.
  rewrite Nat.div_add by done. lia.
Qed.

(** A subscription that is taken back leaves the topic as it was. *)
Lemma Unsubscribe_Subscribe bus topic fn h : callBack h = fn -> Forall (fun h' => callBack h' <> fn) (handlersOf bus topic) ->
  exists bus', Unsubscribe (doSubscribe bus topic h) topic fn = Ok bus' /\
    forall topic', handlersOf bus' topic' = handlersOf bus topic'.
Proof.
  intros Hh Hn. unfold Unsubscribe.
  assert (handlersOf (doSubscribe bus topic h) topic = handlersOf bus topic ++ [h]) as E.
  { by rewrite handlersOf_doSubscribe, decide_True. }
  assert (HasCallback (doSubscribe bus topic h) topic = true) as ->.
  { apply HasCallback_spec. rewrite E. by destruct (handlersOf bus topic). }
  eexists. split; [done|]. intros topic'.
  assert (findHandlerIdx (doSubscribe bus topic h) topic fn = Some (length (handlersOf bus topic))) as ->.
  { unfold findHandlerIdx. rewrite E, list_find_app_r by (by apply list_find_None). simpl. rewrite decide_True by done. by f_equal. }
  rewrite handlersOf_removeHandler, E, handlersOf_doSubscribe. case_decide; [subst|by rewrite app_nil_r].
  by rewrite delete_middle, app_nil_r.
Qed.

End props.

(** ** What the bus does not do *)

Section faults.

Definition once (fn : nat) : eventHandler := mkEventHandler fn true true false.
Definition lasting (fn : nat) : eventHandler := mkEventHandler fn false true false.

(** Two handlers for one message and one for all: the first message takes out the first
    and the last, and the second handler is called again. *)
Definition threeHandlers : EventBus nat :=
  SubscribeAsync (SubscribeOnceAsync (SubscribeOnceAsync NewBus "t" 1) "t" 2) "t" 3 false.

Example once_takes_out_others :
  handlersOf threeHandlers "t" = [once 1; once 2; lasting 3] /\
  handlersOf (Publish threeHandlers "t" (Some 0%nat)).1 "t" = [once 2].
Proof. split; vm_compute; reflexivity. Qed.

Example all_leaves_half : exists bus, UnsubscribeAll threeHandlers "t" = Ok bus /\ handlersOf bus "t" = [once 2].
Proof. eexists. split; vm_compute; reflexivity. Qed.

(** A client that registers again after another has is subscribed twice. *)
Definition client (path : string) : SubscribeArg := mkSubscribeArg "a" path "ClientService.PushEvent" TSubscribe "t".

Example registered_twice :
  let server := fst (Register (NewServer (NewBus (Event := nat))) (client "one") 1) in
  let server := fst (Register server (client "two") 2) in
  let server := fst (Register server (client "one") 3) in
  callBack <$> handlersOf (svEventBus server) "t" = [1; 2; 3]%nat.
Proof. vm_compute. reflexivity. Qed.

End faults.
