(* ===== verification/Services.v ===== *)
(** The services of a node (src/dkgnode/service.go, src/dkgnode/services.go): how a
    service is started and stopped, the registry that routes method requests over the
    event bus, the call that waits for its response, and the middleware that logs
    (src/dkgnode/middleware.go).

    The state of a node's routing is the bus, the flags of the services and the
    goroutines under way; a step runs one goroutine to its next wait.  What a service
    does with a call, and the state it keeps, are parameters: the services are modelled
    in files of their own. *)
From Stdlib Require Import ZArith.
From stdpp Require Import gmap strings.
From S2P Require Import Prelude BigInt EventBus.

(** ** Starting and stopping *)

(** The three flags are atomic words; [bsQuit] says that the channel is closed. *)
Record BaseService := mkBaseService { bsStart : bool; bsStarted : bool; bsStopped : bool; bsQuit : bool }.

Definition NewBaseService : BaseService := mkBaseService false false false false.

Definition setStart (bs : BaseService) (b : bool) : BaseService := mkBaseService b (bsStarted bs) (bsStopped bs) (bsQuit bs).
Definition setStarted (bs : BaseService) : BaseService := mkBaseService (bsStart bs) true (bsStopped bs) (bsQuit bs).
Definition setStopped (bs : BaseService) : BaseService := mkBaseService (bsStart bs) (bsStarted bs) true (bsQuit bs).
Definition closeQuit (bs : BaseService) : BaseService := mkBaseService (bsStart bs) (bsStarted bs) (bsStopped bs) true.

Definition IsRunning (bs : BaseService) : bool := bsStarted bs && negb (bsStopped bs).

(** Where a call of [Start] or [Stop] is: each atomic access and each call of the
    implementation is one step. *)
Inductive Pc :=
  | StartCas | StartLoad | StartOn | StartRevert (e : string) | StartStore | StartDone (ok : bool) (err : option string)
  | StopCas | StopOn | StopClose | StopDone (ok : bool).

Definition startStep (bs : BaseService) (pc : Pc) (on : option string) : BaseService * Pc :=
  match pc with
  | StartCas => if bsStart bs then (bs, StartDone false None) else (setStart bs true, StartLoad)
  | StartLoad => if bsStopped bs then (bs, StartDone false None) else (bs, StartOn)
  | StartOn => match on with Some e => (bs, StartRevert e) | None => (bs, StartStore) end
  | StartRevert e => (setStart bs false, StartDone false (Some e))
  | StartStore => (setStarted bs, StartDone true None)
  | StopCas => if bsStopped bs then (bs, StopDone false) else (setStopped bs, StopOn)
  | StopOn => (bs, StopClose)
  | StopClose => (closeQuit bs, StopDone true)
  | StartDone _ _ | StopDone _ => (bs, pc)
  end.

Fixpoint runPc (fuel : nat) (bs : BaseService) (pc : Pc) (on : option string) : BaseService * Pc :=
  match fuel with
  | O => (bs, pc)
  | S fuel => let '(bs, pc) := startStep bs pc on in runPc fuel bs pc on
  end.

(** The calls without interference: five steps at most. *)
Definition Start (bs : BaseService) (on : option string) : BaseService * (bool * option string) :=
  match runPc 5 bs StartCas on with
  | (bs, StartDone ok err) => (bs, (ok, err))
  | (bs, _) => (bs, (false, None))
  end.

Definition Stop (bs : BaseService) (on : option string) : BaseService * bool :=
  match runPc 5 bs StopCas on with
  | (bs, StopDone ok) => (bs, ok)
  | (bs, _) => (bs, false)
  end.

(** ** The registry *)

Record MethodRequest (Arg : Type) := mkMethodRequest {
  mqCaller : string; mqService : string; mqMethod : string; mqID : string; mqData : list Arg;
}.
Arguments mkMethodRequest {_}.
Arguments mqCaller {_}. Arguments mqService {_}. Arguments mqMethod {_}. Arguments mqID {_}. Arguments mqData {_}.

(** A response that reports an error of the routing has the zero request. *)
Record MethodResponse (Arg Val : Type) := mkMethodResponse {
  msRequest : option (MethodRequest Arg); msError : option string; msData : option Val;
}.
Arguments mkMethodResponse {_ _}.
Arguments msRequest {_ _}. Arguments msError {_ _}. Arguments msData {_ _}.

(** What the bus of a node carries. *)
Inductive BusEvent (Arg Val : Type) :=
  | ERequest (r : MethodRequest Arg)
  | EResponse (r : MethodResponse Arg Val)
  | EOther (v : Val).
Arguments ERequest {_ _}. Arguments EResponse {_ _}. Arguments EOther {_ _}.

(** How a call of a service comes back: with a value and an error, of which either or
    both may be nil, or with a panic and its text. *)
Inductive CallResult (Val : Type) :=
  | Returns (data : option Val) (err : option string)
  | Panics (text : string).
Arguments Returns {_}. Arguments Panics {_}.

(** The services as the registry sees them: what their calls do to the state of the
    node; and retry-go, which repeats a function a number of times and puts the errors
    together.  [Call r w = None] says that the call does not come back in this state of
    the node: it polls for something that is not there yet, or waits for a lock that is
    held.  It comes back later if the state changes so that it can. *)
Class ServiceCalls (Arg Val World : Type) := {
  Call : MethodRequest Arg -> World -> option (CallResult Val * World);
  DefaultAttempts : nat;
  retryError : list string -> string;
}.

Section routing.
Context {Arg Val World : Type} {SC : ServiceCalls Arg Val World}.

Local Abbreviation Request := (MethodRequest Arg).
Local Abbreviation Response := (MethodResponse Arg Val).
Local Abbreviation Ev := (BusEvent Arg Val).

(** *** Middleware of the registry *)

(** The map from the function a caller adds to the one the bus has. *)
Record ServiceRegistry := mkServiceRegistry {
  srEventBus : EventBus Ev; srMiddlewareMap : gmap nat nat; srServices : gmap string BaseService;
}.

(** [wrapper] is the pointer of the function value that is made. *)
Definition AddRequestMiddleware (s : ServiceRegistry) (p : nat) (m : Request -> Request) (wrapper : nat) : ServiceRegistry :=
  let run topic inter := match inter with Some (ERequest r) => Some (ERequest (m r)) | _ => inter end in
  mkServiceRegistry (AddMiddleware (srEventBus s) (mkMiddleware wrapper run)) (<[p := wrapper]> (srMiddlewareMap s)) (srServices s).

Definition AddResponseMiddleware (s : ServiceRegistry) (p : nat) (m : Response -> Response) (wrapper : nat) : ServiceRegistry :=
  let run topic inter := match inter with Some (EResponse r) => Some (EResponse (m r)) | _ => inter end in
  mkServiceRegistry (AddMiddleware (srEventBus s) (mkMiddleware wrapper run)) (<[p := wrapper]> (srMiddlewareMap s)) (srServices s).

Definition AddRegistryMiddleware (s : ServiceRegistry) (m : Middleware Ev) : ServiceRegistry :=
  mkServiceRegistry (AddMiddleware (srEventBus s) m) (<[mwPointer m := mwPointer m]> (srMiddlewareMap s)) (srServices s).

(** Requests, responses and others are removed alike. *)
Definition RemoveRegistryMiddleware (s : ServiceRegistry) (p : nat) : ServiceRegistry :=
  match srMiddlewareMap s !! p with
  | None => s
  | Some w => mkServiceRegistry (RemoveMiddleware (srEventBus s) (Some w)) (delete p (srMiddlewareMap s)) (srServices s)
  end.

(** The two that log give back what they get. *)
Definition setupRequestLoggingMiddleware (s : ServiceRegistry) (p wrapper : nat) : ServiceRegistry :=
  AddRequestMiddleware s p (fun methodRequest => methodRequest) wrapper.

Definition setupResponseLoggingMiddleware (s : ServiceRegistry) (p wrapper : nat) : ServiceRegistry :=
  AddResponseMiddleware s p (fun methodResponse => methodResponse) wrapper.

Definition RegisterService (s : ServiceRegistry) (name : string) (bs : BaseService) : ServiceRegistry :=
  mkServiceRegistry (srEventBus s) (srMiddlewareMap s) (<[name := bs]> (srServices s)).

Definition SetupMethodRouting (s : ServiceRegistry) (fn : nat) : ServiceRegistry :=
  mkServiceRegistry (SubscribeAsync (srEventBus s) "method" fn false) (srMiddlewareMap s) (srServices s).

Definition NewServiceRegistry (eventBus : EventBus Ev) (fn : nat) (baseServices : list (string * BaseService)) : ServiceRegistry :=
  foldl (fun s nb => RegisterService s nb.1 nb.2) (SetupMethodRouting (mkServiceRegistry eventBus ∅ ∅) fn) baseServices.

(** *** Goroutines *)

(** What a callback of the bus does: the routing of methods, or the channel of the call
    with this nonce. *)
Inductive Callback := RouteMethod | Channel (nonce : string).

Inductive Task :=
  | TPublish (r : Request)                                                  (* a caller that has subscribed to its answer *)
  | TWait (r : Request)                                                     (* a caller that waits on its channel *)
  | TDeliver (h : eventHandler) (topic : string) (data : option Ev)   (* a delivery of the bus *)
  | TRoute (r : Request) (errs : list string)                               (* the search for the service, with its errors *)
  | TCall (r : Request)                                                     (* the call of the service *)
  | TSend (nonce : string) (data : Ev).                                  (* a callback that sends on its channel *)

(** What has happened to a request: an attempt to find its service, with the services as
    they were, and the call of the service, with the state it was called in. *)
Inductive LogEntry :=
  | Attempted (nonce : string) (services : gmap string BaseService)
  | Served (nonce : string) (w : World).

Record Routing := mkRouting {
  roBus : EventBus Ev;
  roServices : gmap string BaseService;
  roWorld : World;
  roCallbacks : gmap nat Callback;
  roTasks : list Task;
  (** The calls that were made and those that have returned, by nonce. *)
  roCalls : gmap string Request;
  roAnswers : gmap string Response;
  (** What has happened to the requests, the oldest entry first. *)
  roLog : list LogEntry;
}.

Definition setTasks (s : Routing) (bus : EventBus Ev) (ts : list Task) : Routing :=
  mkRouting bus (roServices s) (roWorld s) (roCallbacks s) ts (roCalls s) (roAnswers s) (roLog s).

(** The call that a goroutine belongs to. *)
Definition taskNonce (t : Task) : string :=
  match t with
  | TPublish r | TWait r | TRoute r _ | TCall r => mqID r
  | TDeliver _ _ (Some (ERequest r)) => mqID r
  | TDeliver _ topic _ => topic
  | TSend nonce _ => nonce
  end.

Definition addLog (s : Routing) (w : World) (e : LogEntry) : Routing :=
  mkRouting (roBus s) (roServices s) w (roCallbacks s) (roTasks s) (roCalls s) (roAnswers s) (roLog s ++ [e]).

(** The goroutines that a publication starts, the handlers being asynchronous. *)
Definition publishTasks (bus : EventBus Ev) (topic : string) (data : Ev) : EventBus Ev * list Task :=
  let '(bus, ds) := Publish bus topic (Some data) in (bus, (fun hd => TDeliver hd.1 topic hd.2) <$> ds).

(** The callback of a delivery. *)
Definition deliver (s : Routing) (h : eventHandler) (topic : string) (data : option Ev) : list Task :=
  match doPublish (roBus s) topic h data with
  | None => []
  | Some (fn, ev) =>
      match roCallbacks s !! fn with
      | Some RouteMethod => match ev with ERequest r => [TRoute r []] | _ => [] end
      | Some (Channel nonce) => [TSend nonce ev]
      | None => []
      end
  end.

(** One attempt to find the service; when the attempts are used up the error is the
    answer. *)
Definition route (s : Routing) (r : Request) (errs : list string) : EventBus Ev * list Task :=
  match roServices s !! mqService r with
  | Some bs =>
      if IsRunning bs then (roBus s, [TCall r])
      else
        let errs := errs ++ ["Service " +:+ mqService r +:+ " is not running"] in
        if Nat.ltb (length errs) DefaultAttempts then (roBus s, [TRoute r errs])
        else publishTasks (roBus s) (mqID r) (EResponse (mkMethodResponse None (Some (retryError errs)) None))
  | None =>
      let errs := errs ++ ["Could not find service " +:+ mqService r] in
      if Nat.ltb (length errs) DefaultAttempts then (roBus s, [TRoute r errs])
      else publishTasks (roBus s) (mqID r) (EResponse (mkMethodResponse None (Some (retryError errs)) None))
  end.

(** The response to a call: the value and the error that it comes back with; a panic is
    recovered. *)
Definition respond (r : Request) (out : CallResult Val) : Response :=
  match out with
  | Returns data err => mkMethodResponse (Some r) err data
  | Panics text => mkMethodResponse None (Some text) None
  end.

(** What [ServiceMethod] returns for what comes out of its channel. *)
Definition asResponse (ev : Ev) : Response :=
  match ev with
  | EResponse resp => resp
  | _ => mkMethodResponse None (Some "Method response was not of MethodResponse type") None
  end.

(** [AwaitTopic] and the request of a call with this nonce. *)
Definition startCall (s : Routing) (fn : nat) (caller service method nonce : string) (data : list Arg) : Routing :=
  let r := mkMethodRequest caller service method nonce data in
  mkRouting (SubscribeOnceAsync (roBus s) nonce fn) (roServices s) (roWorld s)
    (<[fn := Channel nonce]> (roCallbacks s)) (TPublish r :: roTasks s) (<[nonce := r]> (roCalls s)) (roAnswers s) (roLog s).

Definition is_nonce (topic : string) : Prop := exists k, topic = Text16 k.

(** A step of the node, with the nonce of the call that it belongs to.  A random nonce is
    one that was not drawn before. *)
Inductive routingStep : option string -> Routing -> Routing -> Prop :=
  | step_call s fn caller service method k data :
      roCalls s !! Text16 k = None -> roCallbacks s !! fn = None ->
      routingStep None s (startCall s fn caller service method (Text16 k) data)
  | step_publish s r rest bus ts :
      roTasks s ≡ₚ TPublish r :: rest -> publishTasks (roBus s) "method" (ERequest r) = (bus, ts) ->
      routingStep (Some (mqID r)) s (setTasks s bus (TWait r :: ts ++ rest))
  | step_deliver s h topic data rest :
      roTasks s ≡ₚ TDeliver h topic data :: rest ->
      routingStep (Some (taskNonce (TDeliver h topic data))) s (setTasks s (roBus s) (deliver s h topic data ++ rest))
  | step_route s r errs rest bus ts :
      roTasks s ≡ₚ TRoute r errs :: rest -> route s r errs = (bus, ts) ->
      routingStep (Some (mqID r)) s
        (addLog (setTasks s bus (ts ++ rest)) (roWorld s) (Attempted (mqID r) (roServices s)))
  | step_answer s r rest out w bus ts :
      roTasks s ≡ₚ TCall r :: rest -> Call r (roWorld s) = Some (out, w) ->
      publishTasks (roBus s) (mqID r) (EResponse (respond r out)) = (bus, ts) ->
      routingStep (Some (mqID r)) s
        (addLog (setTasks s bus (ts ++ rest)) w (Served (mqID r) (roWorld s)))
  | step_receive s r ev rest :
      roTasks s ≡ₚ TSend (mqID r) ev :: TWait r :: rest ->
      routingStep (Some (mqID r)) s (mkRouting (roBus s) (roServices s) (roWorld s) (roCallbacks s) rest (roCalls s)
                       (<[mqID r := asResponse ev]> (roAnswers s)) (roLog s))
  (** What else happens in the node: services start and stop, their state changes, and
      the bus is used for other topics. *)
  | step_other s bus services w :
      middleware bus = middleware (roBus s) ->
      (forall topic, topic = "method" \/ is_nonce topic -> handlersOf bus topic = handlersOf (roBus s) topic) ->
      routingStep None s (mkRouting bus services w (roCallbacks s) (roTasks s) (roCalls s) (roAnswers s) (roLog s)).

(** The node after its services are registered: the middleware that logs and the routing. *)
Definition startRouting (fn : nat) (services : list (string * BaseService)) (w : World) : Routing :=
  let reg := setupResponseLoggingMiddleware
    (setupRequestLoggingMiddleware (NewServiceRegistry NewBus fn services) 0 1) 2 3 in
  mkRouting (srEventBus reg) (srServices reg) w {[fn := RouteMethod]} [] ∅ ∅ [].

Inductive routed (fn : nat) (services : list (string * BaseService)) (w : World) : Routing -> Prop :=
  | routed_start : routed fn services w (startRouting fn services w)
  | routed_step who s s' : routed fn services w s -> routingStep who s s' -> routed fn services w s'.

End routing.
Arguments Task : clear implicits.
Arguments Routing : clear implicits.
Arguments LogEntry : clear implicits.
