(* ===== verification/ServicesProps.v ===== *)
(** Calls between services: what comes back from a call over the event bus is the answer
    of the service that was asked, for the call's own request, or the refusal of one that
    is not running; a fair run that does not block a call answers it; a service starts
    and stops once. *)
From Stdlib Require Import ZArith.
From stdpp Require Import gmap strings relations.
From S2P Require Import Prelude BigInt EventBus Services.

(** ** The phases of a call *)

Section calls.
Context {Arg Val World : Type} {SC : ServiceCalls Arg Val World}.

Local Abbreviation Request := (MethodRequest Arg).
Local Abbreviation Response := (MethodResponse Arg Val).
Local Abbreviation State := (Routing Arg Val World).

Inductive Phase :=
  | Subscribed | Requested | Searching (errs : list string) | Calling
  | Responding (resp : Response) | Sending (resp : Response) | Answered (resp : Response).

Record ServiceCall := mkServiceCall { scRequest : Request; scFn : nat; scPhase : Phase }.

(** The goroutines of a call in each phase; [mfn] is the callback that routes. *)
Definition phaseTasks (mfn : nat) (n : string) (c : ServiceCall) : list (Task Arg Val) :=
  let r := scRequest c in
  match scPhase c with
  | Subscribed => [TPublish r]
  | Requested => [TDeliver (lasting mfn) "method" (Some (ERequest r)); TWait r]
  | Searching errs => [TRoute r errs; TWait r]
  | Calling => [TCall r; TWait r]
  | Responding resp => [TDeliver (once (scFn c)) n (Some (EResponse resp)); TWait r]
  | Sending resp => [TSend n (EResponse resp); TWait r]
  | Answered _ => []
  end.

Definition answer (c : ServiceCall) : option Response :=
  match scPhase c with Answered resp => Some resp | _ => None end.

(** The handler on the nonce's topic is there until the response is published. *)
Definition phaseHandlers (c : ServiceCall) : list eventHandler :=
  match scPhase c with
  | Subscribed | Requested | Searching _ | Calling => [once (scFn c)]
  | _ => []
  end.

(** *** What the log says of a call *)

Definition attempts (log : list (LogEntry World)) (n : string) : list (gmap string BaseService) :=
  omap (fun e => match e with Attempted n' services => if decide (n' = n) then Some services else None | Served _ _ => None end) log.

Definition servings (log : list (LogEntry World)) (n : string) : list World :=
  omap (fun e => match e with Served n' w => if decide (n' = n) then Some w else None | Attempted _ _ => None end) log.

(** The service that was asked for is running, or it is not and this is the error. *)
Definition runningIn (r : Request) (services : gmap string BaseService) : Prop :=
  exists bs, services !! mqService r = Some bs /\ bsStarted bs = true /\ bsStopped bs = false.

Definition refusedWith (r : Request) (services : gmap string BaseService) (e : string) : Prop :=
  (services !! mqService r = None /\ e = "Could not find service " +:+ mqService r) \/
  (exists bs, services !! mqService r = Some bs /\ (bsStarted bs = false \/ bsStopped bs = true) /\
     e = "Service " +:+ mqService r +:+ " is not running").

Definition maxAttempts : nat := Nat.max 1 DefaultAttempts.

(** The attempts so far have failed with these errors; or the last one has found the
    service running. *)
Definition searched (log : list (LogEntry World)) (r : Request) (errs : list string) : Prop :=
  Forall2 (refusedWith r) (attempts log (mqID r)) errs /\ servings log (mqID r) = [].

Definition found (log : list (LogEntry World)) (r : Request) : Prop :=
  exists refused errs last, attempts log (mqID r) = refused ++ [last] /\ Forall2 (refusedWith r) refused errs /\
    (length errs < maxAttempts)%nat /\ runningIn r last.

(** The response for what came out of the service: both the value and the error, or the
    text of the panic. *)
Definition reports (r : Request) (out : CallResult Val) (resp : Response) : Prop :=
  match out with
  | Returns data err => msRequest resp = Some r /\ msData resp = data /\ msError resp = err
  | Panics text => msRequest resp = None /\ msData resp = None /\ msError resp = Some text
  end.

(** What a call may be answered: what the service, found running, came back with when it
    was called with this request, once, in the state the node then had; or the errors of
    the attempts, at every one of which it was absent or not running. *)
Definition answerOf (log : list (LogEntry World)) (r : Request) (resp : Response) : Prop :=
  (exists w out w', found log r /\ servings log (mqID r) = [w] /\ Call r w = Some (out, w') /\ reports r out resp) \/
  (exists errs, searched log r errs /\ length errs = maxAttempts /\ resp = mkMethodResponse None (Some (retryError errs)) None).

Definition phaseOk (log : list (LogEntry World)) (c : ServiceCall) : Prop :=
  let r := scRequest c in
  match scPhase c with
  | Subscribed | Requested => searched log r []
  | Searching errs => searched log r errs /\ (length errs < maxAttempts)%nat
  | Calling => found log r /\ servings log (mqID r) = []
  | Responding resp | Sending resp | Answered resp => answerOf log r resp
  end.

(** Nothing is said of other calls. *)
Definition sameLog (n : string) (log log' : list (LogEntry World)) : Prop :=
  attempts log' n = attempts log n /\ servings log' n = servings log n.

Lemma phaseOk_same log log' c : sameLog (mqID (scRequest c)) log log' -> phaseOk log c -> phaseOk log' c.
Proof. intros [E1 E2]. unfold phaseOk, answerOf, found, searched. by rewrite E1, E2. Qed.

Lemma sameLog_attempted log n n' services : n' <> n -> sameLog n log (log ++ [Attempted n' services]).
Proof. intros H. split; unfold attempts, servings; rewrite omap_app; simpl; [rewrite decide_False by done|]; apply app_nil_r. Qed.

Lemma sameLog_served log n n' w : n' <> n -> sameLog n log (log ++ [Served n' w]).
Proof. intros H. split; unfold attempts, servings; rewrite omap_app; simpl; [|rewrite decide_False by done]; apply app_nil_r. Qed.

Lemma log_attempted log n services :
  attempts (log ++ [Attempted n services]) n = attempts log n ++ [services] /\
  servings (log ++ [Attempted n services]) n = servings log n.
Proof. unfold attempts, servings. rewrite !omap_app. simpl. rewrite decide_True by done. by rewrite app_nil_r. Qed.

Lemma log_served log n w :
  attempts (log ++ [Served n w]) n = attempts log n /\ servings (log ++ [Served n w]) n = servings log n ++ [w].
Proof. unfold attempts, servings. rewrite !omap_app. simpl. rewrite decide_True by done. by rewrite app_nil_r. Qed.

Lemma phaseOk_servings log c : phaseOk log c -> (length (servings log (mqID (scRequest c))) <= 1)%nat.
Proof.
  unfold phaseOk, answerOf, searched. intros H.
  assert (servings log (mqID (scRequest c)) = [] \/ exists w, servings log (mqID (scRequest c)) = [w]) as [->|[w ->]];
    [destruct (scPhase c); naive_solver|simpl; lia..].
Qed.

(** The steps that a call has left at most. *)
Definition rank (c : ServiceCall) : nat :=
  match scPhase c with
  | Subscribed => maxAttempts + 6
  | Requested => maxAttempts + 5
  | Searching errs => 4 + (maxAttempts - length errs)
  | Calling => 3
  | Responding _ => 2
  | Sending _ => 1
  | Answered _ => 0
  end.

Definition flat (mfn : nat) (m : gmap string ServiceCall) : list (Task Arg Val) :=
  map_to_list m ≫= (fun nc => phaseTasks mfn nc.1 nc.2).

(** The state of the node is that of its calls. *)
Record tracks (mfn : nat) (s : State) (m : gmap string ServiceCall) : Prop := {
  tr_middleware : Forall (fun mw => forall t e, mwRun mw t e = e) (middleware (roBus s));
  tr_method : handlersOf (roBus s) "method" = [lasting mfn];
  tr_route : roCallbacks s !! mfn = Some RouteMethod;
  tr_tasks : roTasks s ≡ₚ flat mfn m;
  tr_calls : roCalls s = scRequest <$> m;
  tr_answers n : roAnswers s !! n = m !! n ≫= answer;
  tr_call n c : m !! n = Some c -> mqID (scRequest c) = n /\ is_nonce n /\ roCallbacks s !! scFn c = Some (Channel n) /\
    handlersOf (roBus s) n = phaseHandlers c /\ phaseOk (roLog s) c;
  tr_fresh n : m !! n = None -> is_nonce n -> handlersOf (roBus s) n = [];
  tr_unlogged n : m !! n = None -> sameLog n [] (roLog s);
}.

Lemma nonce_not_method n : is_nonce n -> n <> "method".
Proof.
  intros [k ->] E. apply (f_equal SetString16) in E. rewrite SetString16_Text16 in E. vm_compute in E. discriminate E.
Qed.

Lemma runMiddleware_id (ms : list (Middleware (BusEvent Arg Val))) topic e :
  Forall (fun mw => forall t e, mwRun mw t e = e) ms -> runMiddleware ms topic e = e.
Proof. intros H. revert e. induction H as [|m ms Hm _ IH]; intros e; [done|]. unfold runMiddleware in *. simpl. by rewrite Hm. Qed.

Lemma flat_insert mfn m n c : flat mfn (<[n:=c]> m) ≡ₚ phaseTasks mfn n c ++ flat mfn (delete n m).
Proof.
  unfold flat. rewrite <-insert_delete_eq, map_to_list_insert by apply lookup_delete_eq. done.
Qed.

Lemma flat_lookup mfn m n c : m !! n = Some c -> flat mfn m ≡ₚ phaseTasks mfn n c ++ flat mfn (delete n m).
Proof. intros E. rewrite <-(flat_insert mfn m n c). by rewrite insert_id. Qed.

(** A goroutine belongs to a call. *)
Lemma tracked_task mfn s m t rest : tracks mfn s m -> roTasks s ≡ₚ t :: rest ->
  exists n c, m !! n = Some c /\ t ∈ phaseTasks mfn n c /\ t :: rest ≡ₚ phaseTasks mfn n c ++ flat mfn (delete n m).
Proof.
  intros Ht Et. assert (t ∈ flat mfn m) as Hin by (rewrite <-(tr_tasks _ _ _ Ht), Et; set_solver).
  unfold flat in Hin. apply list_elem_of_bind in Hin as ([n c] & Hin & Hm%elem_of_map_to_list).
  exists n, c. split_and!; [done..|]. rewrite <-Et, (tr_tasks _ _ _ Ht). by apply flat_lookup.
Qed.

(** One call goes on to another phase. *)
Lemma tracks_phase mfn s m n c c' bus w ts ans log :
  tracks mfn s m -> m !! n = Some c -> scRequest c' = scRequest c -> scFn c' = scFn c ->
  ts ≡ₚ phaseTasks mfn n c' ++ flat mfn (delete n m) ->
  middleware bus = middleware (roBus s) ->
  (forall topic, topic <> n -> handlersOf bus topic = handlersOf (roBus s) topic) ->
  handlersOf bus n = phaseHandlers c' -> phaseOk log c' ->
  ans = (match answer c' with Some a => <[n:=a]> (roAnswers s) | None => delete n (roAnswers s) end) ->
  (forall n', n' <> n -> sameLog n' (roLog s) log) ->
  tracks mfn (mkRouting bus (roServices s) w (roCallbacks s) ts (roCalls s) ans log) (<[n:=c']> m).
Proof.
  intros Ht Hm Er Ef Ets Emw Hframe Hn Hok Eans Hlog. destruct (tr_call _ _ _ Ht n c Hm) as (Hid & Hnonce & Hcb & _ & _).
  split; simpl.
  - rewrite Emw. apply (tr_middleware _ _ _ Ht).
  - rewrite Hframe by (intros E; by apply (nonce_not_method n)). apply (tr_method _ _ _ Ht).
  - apply (tr_route _ _ _ Ht).
  - by rewrite flat_insert.
  - rewrite fmap_insert, Er, (tr_calls _ _ _ Ht). symmetry. apply insert_id. by rewrite lookup_fmap, Hm.
  - intros n'. destruct (decide (n = n')) as [<-|Hne].
    + rewrite lookup_insert_eq. simpl. subst ans. destruct (answer c'); [by rewrite lookup_insert_eq|by rewrite lookup_delete_eq].
    + rewrite lookup_insert_ne by done. rewrite <-(tr_answers _ _ _ Ht n').
      subst ans. destruct (answer c'); [by rewrite lookup_insert_ne|by rewrite lookup_delete_ne].
  - intros n' c'' H''. destruct (decide (n = n')) as [<-|Hne].
    + rewrite lookup_insert_eq in H''. injection H'' as <-. rewrite Er, Ef. done.
    + rewrite lookup_insert_ne in H'' by done. rewrite Hframe by done. destruct (tr_call _ _ _ Ht n' c'' H'') as (Hid' & ? & ? & ? & Hok').
      split_and!; try done. eapply phaseOk_same; [|exact Hok']. rewrite Hid'. by apply Hlog.
  - intros n' H''. destruct (decide (n = n')) as [<-|Hne]; [by rewrite lookup_insert_eq in H''|].
    rewrite lookup_insert_ne in H'' by done. rewrite Hframe by done. by apply (tr_fresh _ _ _ Ht).
  - intros n' H''. destruct (decide (n = n')) as [<-|Hne]; [by rewrite lookup_insert_eq in H''|].
    rewrite lookup_insert_ne in H'' by done. destruct (tr_unlogged _ _ _ Ht n' H'') as [E1 E2].
    destruct (Hlog n' (not_eq_sym Hne)) as [E3 E4]. by split; congruence.
Qed.

Definition withPhase (c : ServiceCall) (p : Phase) : ServiceCall := mkServiceCall (scRequest c) (scFn c) p.

Lemma unanswered mfn s m n c : tracks mfn s m -> m !! n = Some c -> answer c = None -> delete n (roAnswers s) = roAnswers s.
Proof. intros Ht Hm Ha. apply delete_id. by rewrite (tr_answers _ _ _ Ht), Hm. Qed.

(** The other goroutines when one of a call is taken out. *)
Lemma others mfn s m n c t rest : tracks mfn s m -> m !! n = Some c -> roTasks s ≡ₚ t :: rest ->
  forall l, phaseTasks mfn n c = t :: l -> rest ≡ₚ l ++ flat mfn (delete n m).
Proof.
  intros Ht Hm Et l El. apply (Permutation_cons_inv (a := t)).
  by rewrite <-Et, (tr_tasks _ _ _ Ht), (flat_lookup mfn m n c Hm), El.
Qed.

(** *** Publications *)

Lemma publish_method mfn s m r : tracks mfn s m ->
  publishTasks (roBus s) "method" (ERequest r) = (roBus s, [TDeliver (lasting mfn) "method" (Some (ERequest r))]).
Proof.
  intros Ht. unfold publishTasks. rewrite (surjective_pairing (Publish _ _ _)).
  rewrite Publish_persistent, Publish_deliveries, (tr_method _ _ _ Ht); [done|].
  by rewrite (tr_method _ _ _ Ht); repeat constructor.
Qed.

Lemma publish_nonce (bus : EventBus (BusEvent Arg Val)) n fn ev bus' ts :
  handlersOf bus n = [once fn] -> publishTasks bus n ev = (bus', ts) ->
  ts = [TDeliver (once fn) n (Some ev)] /\ handlersOf bus' n = [] /\ middleware bus' = middleware bus /\
  forall topic, topic <> n -> handlersOf bus' topic = handlersOf bus topic.
Proof.
  intros E. unfold publishTasks. pose proof (Publish_once bus n (Some ev) (once fn) E eq_refl) as [H1 H2].
  pose proof (Publish_frame bus n (Some ev)) as (H3 & _ & H4).
  destruct (Publish bus n (Some ev)) as [b ds]. simpl in *. intros [= <- <-]. subst ds. done.
Qed.

(** *** The phases follow each other *)

Section phases.
Context (mfn : nat) (s : State) (m : gmap string ServiceCall) (n : string) (c : ServiceCall) (rest : list (Task Arg Val)).
Context (Ht : tracks mfn s m) (Hm : m !! n = Some c).

Lemma phase_publish : scPhase c = Subscribed -> roTasks s ≡ₚ TPublish (scRequest c) :: rest ->
  forall bus ts, publishTasks (roBus s) "method" (ERequest (scRequest c)) = (bus, ts) ->
  tracks mfn (setTasks s bus (TWait (scRequest c) :: ts ++ rest)) (<[n:=withPhase c Requested]> m).
Proof.
  intros Hp Et bus ts E. rewrite (publish_method mfn s m _ Ht) in E. injection E as <- <-.
  destruct (tr_call _ _ _ Ht n c Hm) as (_ & _ & _ & Hh & Hok).
  assert (rest ≡ₚ flat mfn (delete n m)) as Hrest.
  { apply (others mfn s m n c _ rest Ht Hm Et []). unfold phaseTasks. by rewrite Hp. }
  apply (tracks_phase mfn s m n c); try done.
  - rewrite Hrest. simpl. apply perm_swap.
  - rewrite Hh. unfold phaseHandlers. by rewrite Hp.
  - unfold phaseOk in *. by rewrite Hp in Hok.
  - symmetry. apply (unanswered mfn s m n c Ht Hm). unfold answer. by rewrite Hp.
Qed.

(** A delivery of the request. *)
Lemma phase_search : scPhase c = Requested ->
  roTasks s ≡ₚ TDeliver (lasting mfn) "method" (Some (ERequest (scRequest c))) :: rest ->
  tracks mfn (setTasks s (roBus s) (deliver s (lasting mfn) "method" (Some (ERequest (scRequest c))) ++ rest))
    (<[n:=withPhase c (Searching [])]> m).
Proof.
  intros Hp Et. destruct (tr_call _ _ _ Ht n c Hm) as (_ & _ & _ & Hh & Hok).
  assert (rest ≡ₚ TWait (scRequest c) :: flat mfn (delete n m)) as Hrest.
  { apply (others mfn s m n c _ rest Ht Hm Et [_]). unfold phaseTasks. by rewrite Hp. }
  apply (tracks_phase mfn s m n c); try done.
  - unfold deliver, doPublish. rewrite runMiddleware_id by apply (tr_middleware _ _ _ Ht). simpl.
    rewrite (tr_route _ _ _ Ht). by rewrite Hrest.
  - rewrite Hh. unfold phaseHandlers. by rewrite Hp.
  - unfold phaseOk in *. rewrite Hp in Hok. split; [done|]. unfold maxAttempts. simpl. lia.
  - symmetry. apply (unanswered mfn s m n c Ht Hm). unfold answer. by rewrite Hp.
Qed.

(** A response that is published. *)
Lemma phase_respond t resp w log : phaseHandlers c = [once (scFn c)] -> answer c = None ->
  roTasks s ≡ₚ t :: rest -> phaseTasks mfn n c = [t; TWait (scRequest c)] -> answerOf log (scRequest c) resp ->
  (forall n', n' <> n -> sameLog n' (roLog s) log) ->
  forall bus ts, publishTasks (roBus s) n (EResponse resp) = (bus, ts) ->
  tracks mfn (mkRouting bus (roServices s) w (roCallbacks s) (ts ++ rest) (roCalls s) (roAnswers s) log)
    (<[n:=withPhase c (Responding resp)]> m).
Proof.
  intros Hp Ha Et El Hok Hlog bus ts E. destruct (tr_call _ _ _ Ht n c Hm) as (_ & _ & _ & Hh & _).
  rewrite Hp in Hh. destruct (publish_nonce _ _ _ _ _ _ Hh E) as (-> & H0 & Hmw & Hf).
  assert (rest ≡ₚ TWait (scRequest c) :: flat mfn (delete n m)) as Hrest by by apply (others mfn s m n c t rest Ht Hm Et [_]).
  apply (tracks_phase mfn s m n c); try done.
  - by rewrite Hrest.
  - simpl. symmetry. by apply (unanswered mfn s m n c Ht Hm).
Qed.

(** The call of the service comes back. *)
Lemma phase_answer : scPhase c = Calling -> roTasks s ≡ₚ TCall (scRequest c) :: rest ->
  forall out w bus ts, Call (scRequest c) (roWorld s) = Some (out, w) ->
  publishTasks (roBus s) n (EResponse (respond (scRequest c) out)) = (bus, ts) ->
  tracks mfn (addLog (setTasks s bus (ts ++ rest)) w (Served n (roWorld s)))
    (<[n:=withPhase c (Responding (respond (scRequest c) out))]> m).
Proof.
  intros Hp Et out w bus ts Ec E. destruct (tr_call _ _ _ Ht n c Hm) as (Hid & _ & _ & _ & Hok).
  unfold phaseOk in Hok. rewrite Hp in Hok. destruct Hok as [Hf Hs].
  eapply phase_respond; [by unfold phaseHandlers; rewrite Hp|by unfold answer; rewrite Hp|exact Et|
    by unfold phaseTasks; rewrite Hp| | |exact E].
  - left. exists (roWorld s), out, w. simpl. unfold found in *. rewrite Hid in *.
    destruct (log_served (roLog s) n (roWorld s)) as [-> ->]. rewrite Hs. split_and!; [done..|]. by destruct out.
  - intros n' Hne. by apply sameLog_served.
Qed.

(** The search goes on, or it has found the service. *)
Lemma phase_goes errs p ts : scPhase c = Searching errs -> roTasks s ≡ₚ TRoute (scRequest c) errs :: rest ->
  let log := roLog s ++ [Attempted n (roServices s)] in
  ts ++ [TWait (scRequest c)] ≡ₚ phaseTasks mfn n (withPhase c p) ->
  phaseHandlers (withPhase c p) = [once (scFn c)] -> phaseOk log (withPhase c p) -> answer (withPhase c p) = None ->
  tracks mfn (addLog (setTasks s (roBus s) (ts ++ rest)) (roWorld s) (Attempted n (roServices s))) (<[n:=withPhase c p]> m).
Proof.
  intros Hp Et log Hts Hph Hok Ha. destruct (tr_call _ _ _ Ht n c Hm) as (_ & _ & _ & Hh & _).
  assert (phaseTasks mfn n c = [TRoute (scRequest c) errs; TWait (scRequest c)]) as El by (unfold phaseTasks; by rewrite Hp).
  assert (rest ≡ₚ TWait (scRequest c) :: flat mfn (delete n m)) as Hrest by by apply (others mfn s m n c _ rest Ht Hm Et [_]).
  apply (tracks_phase mfn s m n c); try done.
  - simpl. by rewrite Hrest, <-Hts, <-app_assoc.
  - simpl. rewrite Hph, Hh. unfold phaseHandlers. by rewrite Hp.
  - rewrite Ha. symmetry. apply (unanswered mfn s m n c Ht Hm). unfold answer. by rewrite Hp.
  - intros n' Hne. by apply sameLog_attempted.
Qed.

(** An attempt that fails. *)
Lemma phase_refused errs e : scPhase c = Searching errs -> roTasks s ≡ₚ TRoute (scRequest c) errs :: rest ->
  refusedWith (scRequest c) (roServices s) e ->
  forall bus ts, (if Nat.ltb (length (errs ++ [e])) DefaultAttempts then (roBus s, [TRoute (scRequest c) (errs ++ [e])])
      else publishTasks (roBus s) n (EResponse (mkMethodResponse None (Some (retryError (errs ++ [e]))) None))) = (bus, ts) ->
  exists p, tracks mfn (addLog (setTasks s bus (ts ++ rest)) (roWorld s) (Attempted n (roServices s))) (<[n:=withPhase c p]> m) /\
    (rank (withPhase c p) < rank c)%nat.
Proof.
  intros Hp Et He bus ts Er. destruct (tr_call _ _ _ Ht n c Hm) as (Hid & _ & _ & _ & Hok).
  unfold phaseOk in Hok. rewrite Hp in Hok. destruct Hok as [[Hs0 Hs1] Hl0].
  assert (searched (roLog s ++ [Attempted n (roServices s)]) (scRequest c) (errs ++ [e])) as Hs.
  { unfold searched. rewrite Hid in *. destruct (log_attempted (roLog s) n (roServices s)) as [-> ->].
    split; [|done]. apply Forall2_app; [done|]. by constructor. }
  destruct (Nat.ltb_spec (length (errs ++ [e])) DefaultAttempts) as [Hl|Hl].
  - injection Er as <- <-. exists (Searching (errs ++ [e])). split.
    + eapply phase_goes; try done. split; [done|]. unfold maxAttempts. lia.
    + unfold rank, withPhase. simpl. rewrite Hp. rewrite length_app in *. simpl in *. unfold maxAttempts in *. lia.
  - exists (Responding (mkMethodResponse None (Some (retryError (errs ++ [e]))) None)). split.
    + eapply phase_respond; [by unfold phaseHandlers; rewrite Hp|by unfold answer; rewrite Hp|exact Et|
        by unfold phaseTasks; rewrite Hp| | |exact Er].
      * right. exists (errs ++ [e]). split_and!; try done. rewrite length_app in *. simpl in *. unfold maxAttempts in *. lia.
      * intros n' Hne. by apply sameLog_attempted.
    + unfold rank, withPhase. simpl. rewrite Hp. lia.
Qed.

(** An attempt to find the service. *)
Lemma phase_route errs : scPhase c = Searching errs -> roTasks s ≡ₚ TRoute (scRequest c) errs :: rest ->
  forall bus ts, route s (scRequest c) errs = (bus, ts) ->
  exists p, tracks mfn (addLog (setTasks s bus (ts ++ rest)) (roWorld s) (Attempted n (roServices s))) (<[n:=withPhase c p]> m) /\
    (rank (withPhase c p) < rank c)%nat.
Proof.
  intros Hp Et bus ts E. destruct (tr_call _ _ _ Ht n c Hm) as (Hid & _ & _ & _ & Hok).
  unfold route in E. rewrite Hid in E. destruct (roServices s !! mqService (scRequest c)) as [bs|] eqn:Es.
  - destruct (IsRunning bs) eqn:Er.
    + injection E as <- <-. exists Calling. unfold IsRunning in Er. apply andb_true_iff in Er as [Er1 Er2%negb_true_iff].
      unfold phaseOk in Hok. rewrite Hp in Hok. destruct Hok as [[Hs0 Hs1] Hl0]. split.
      * eapply phase_goes; try done. unfold phaseOk, found. simpl. rewrite Hid in *.
        destruct (log_attempted (roLog s) n (roServices s)) as [-> ->]. split; [|done].
        exists (attempts (roLog s) n), errs, (roServices s). split_and!; try done. by exists bs.
      * unfold rank, withPhase. simpl. rewrite Hp. lia.
    + eapply phase_refused; [done..| |exact E]. right. exists bs. split; [done|]. split; [|done].
      unfold IsRunning in Er. apply andb_false_iff in Er as [?|?%negb_false_iff]; [by left|by right].
  - eapply phase_refused; [done..| |exact E]. by left.
Qed.

Lemma phase_send resp : scPhase c = Responding resp ->
  roTasks s ≡ₚ TDeliver (once (scFn c)) n (Some (EResponse resp)) :: rest ->
  tracks mfn (setTasks s (roBus s) (deliver s (once (scFn c)) n (Some (EResponse resp)) ++ rest))
    (<[n:=withPhase c (Sending resp)]> m).
Proof.
  intros Hp Et. destruct (tr_call _ _ _ Ht n c Hm) as (_ & _ & Hcb & Hh & Hok).
  assert (rest ≡ₚ TWait (scRequest c) :: flat mfn (delete n m)) as Hrest.
  { apply (others mfn s m n c _ rest Ht Hm Et [_]). unfold phaseTasks. by rewrite Hp. }
  apply (tracks_phase mfn s m n c); try done.
  - unfold deliver, doPublish. rewrite runMiddleware_id by apply (tr_middleware _ _ _ Ht). simpl.
    rewrite Hcb. by rewrite Hrest.
  - rewrite Hh. unfold phaseHandlers. by rewrite Hp.
  - unfold phaseOk in *. by rewrite Hp in Hok.
  - symmetry. apply (unanswered mfn s m n c Ht Hm). unfold answer. by rewrite Hp.
Qed.

Lemma phase_receive resp : scPhase c = Sending resp ->
  roTasks s ≡ₚ TSend n (EResponse resp) :: TWait (scRequest c) :: rest ->
  tracks mfn (mkRouting (roBus s) (roServices s) (roWorld s) (roCallbacks s) rest (roCalls s)
                (<[n := resp]> (roAnswers s)) (roLog s)) (<[n:=withPhase c (Answered resp)]> m).
Proof.
  intros Hp Et. destruct (tr_call _ _ _ Ht n c Hm) as (_ & _ & _ & Hh & Hok).
  assert (TWait (scRequest c) :: rest ≡ₚ TWait (scRequest c) :: flat mfn (delete n m)) as Hrest%Permutation_cons_inv.
  { apply (others mfn s m n c _ _ Ht Hm Et [_]). unfold phaseTasks. by rewrite Hp. }
  apply (tracks_phase mfn s m n c); try done.
  - rewrite Hh. unfold phaseHandlers. by rewrite Hp.
  - unfold phaseOk in *. by rewrite Hp in Hok.
Qed.

End phases.

(** *** Every step keeps track of the calls *)

(** The later calls: none is lost, none is farther from its answer, and the one that has
    taken the step is nearer. *)
Definition goes_on (who : option string) (m m' : gmap string ServiceCall) : Prop :=
  (forall n c, m !! n = Some c -> exists c', m' !! n = Some c' /\ scRequest c' = scRequest c /\ (rank c' <= rank c)%nat /\
     (who = Some n -> (rank c' < rank c)%nat)) /\
  (forall n, who = Some n -> exists c, m !! n = Some c).

Lemma goes_on_phase m n c p : m !! n = Some c -> (rank (withPhase c p) < rank c)%nat -> goes_on (Some n) m (<[n:=withPhase c p]> m).
Proof.
  intros Hm Hr. split; [|intros n' [= <-]; by exists c]. intros n' c' H'. destruct (decide (n = n')) as [<-|Hne].
  - rewrite lookup_insert_eq. eexists. rewrite H' in Hm. injection Hm as ->. split_and!; [done..|lia|done].
  - rewrite lookup_insert_ne by done. exists c'. split_and!; [done..|]. by intros [= ->].
Qed.

Lemma tracks_call mfn s m fn caller service method k data :
  tracks mfn s m -> roCalls s !! Text16 k = None -> roCallbacks s !! fn = None ->
  tracks mfn (startCall s fn caller service method (Text16 k) data)
    (<[Text16 k := mkServiceCall (mkMethodRequest caller service method (Text16 k) data) fn Subscribed]> m).
Proof.
  intros Ht Hn Hfn. set (n := Text16 k) in *. assert (is_nonce n) as Hk by by exists k.
  assert (m !! n = None) as Hm.
  { rewrite (tr_calls _ _ _ Ht), lookup_fmap in Hn. by destruct (m !! n). }
  set (c := mkServiceCall _ fn Subscribed). pose proof (nonce_not_method n Hk) as Hne.
  split; unfold startCall; simpl.
  - apply (tr_middleware _ _ _ Ht).
  - unfold SubscribeOnceAsync. rewrite handlersOf_doSubscribe, decide_False, app_nil_r by done. apply (tr_method _ _ _ Ht).
  - rewrite lookup_insert_ne; [apply (tr_route _ _ _ Ht)|]. intros ->. by rewrite (tr_route _ _ _ Ht) in Hfn.
  - by rewrite flat_insert, delete_id, (tr_tasks _ _ _ Ht).
  - by rewrite fmap_insert, (tr_calls _ _ _ Ht).
  - intros n'. rewrite (tr_answers _ _ _ Ht). destruct (decide (n = n')) as [<-|]; [by rewrite lookup_insert_eq, Hm|by rewrite lookup_insert_ne].
  - intros n' c' H'. unfold SubscribeOnceAsync. rewrite handlersOf_doSubscribe. destruct (decide (n = n')) as [<-|Hnn].
    + rewrite lookup_insert_eq in H'. injection H' as <-. rewrite lookup_insert_eq, (tr_fresh _ _ _ Ht n Hm Hk).
      split_and!; try done. destruct (tr_unlogged _ _ _ Ht n Hm) as [E1 E2]. unfold phaseOk, searched. simpl. by rewrite E1, E2.
    + rewrite lookup_insert_ne in H' by done. destruct (tr_call _ _ _ Ht n' c' H') as (H1 & H2 & H3 & H4 & H5).
      rewrite app_nil_r, lookup_insert_ne; [done|]. intros ->. by rewrite Hfn in H3.
  - intros n' H' Hk'. unfold SubscribeOnceAsync. rewrite handlersOf_doSubscribe.
    destruct (decide (n = n')) as [<-|]; [by rewrite lookup_insert_eq in H'|].
    rewrite lookup_insert_ne in H' by done. rewrite app_nil_r. by apply (tr_fresh _ _ _ Ht).
  - intros n' H'. destruct (decide (n = n')) as [<-|]; [by rewrite lookup_insert_eq in H'|].
    rewrite lookup_insert_ne in H' by done. by apply (tr_unlogged _ _ _ Ht).
Qed.

(** Which call a goroutine is of, by its form. *)
Lemma phase_of mfn n c t : t ∈ phaseTasks mfn n c ->
  match t with
  | TPublish r => scPhase c = Subscribed /\ r = scRequest c
  | TWait r => r = scRequest c
  | TDeliver h topic data =>
      (scPhase c = Requested /\ h = lasting mfn /\ topic = "method" /\ data = Some (ERequest (scRequest c))) \/
      (exists resp, scPhase c = Responding resp /\ h = once (scFn c) /\ topic = n /\ data = Some (EResponse resp))
  | TRoute r errs => scPhase c = Searching errs /\ r = scRequest c
  | TCall r => scPhase c = Calling /\ r = scRequest c
  | TSend nonce ev => exists resp, scPhase c = Sending resp /\ nonce = n /\ ev = EResponse resp
  end.
Proof. unfold phaseTasks. destruct (scPhase c), t; set_unfold; naive_solver. Qed.

Theorem step_tracked mfn who s s' m : tracks mfn s m -> routingStep who s s' -> exists m', tracks mfn s' m' /\ goes_on who m m'.
Proof.
  intros Ht Hstep. destruct Hstep as [s fn caller service method k data Hn Hfn|s r rest bus ts Et E|s h topic data rest Et
    |s r errs rest bus ts Et E|s r rest out w bus ts Et Ec E|s r ev rest Et|s bus services w Hmw Hh].
  - eexists. split; [by apply tracks_call|]. split; [|done]. intros n c Hm. exists c. rewrite lookup_insert_ne; [done|]. intros <-.
    rewrite (tr_calls _ _ _ Ht), lookup_fmap, Hm in Hn. done.
  - destruct (tracked_task _ _ _ _ _ Ht Et) as (n & c & Hm & [Hp ->]%phase_of & _).
    destruct (tr_call _ _ _ Ht n c Hm) as (-> & _).
    eexists. split; [by eapply phase_publish|]. apply goes_on_phase; [done|]. unfold rank. rewrite Hp. simpl. lia.
  - destruct (tracked_task _ _ _ _ _ Ht Et) as (n & c & Hm & Hin & _). destruct (tr_call _ _ _ Ht n c Hm) as (Hid & _).
    apply phase_of in Hin as [(Hp & -> & -> & ->)|(resp & Hp & -> & -> & ->)]; simpl; rewrite ?Hid.
    + eexists. split; [by eapply phase_search|]. apply goes_on_phase; [done|]. unfold rank. rewrite Hp. simpl. lia.
    + eexists. split; [by eapply phase_send|]. apply goes_on_phase; [done|]. unfold rank. rewrite Hp. simpl. lia.
  - destruct (tracked_task _ _ _ _ _ Ht Et) as (n & c & Hm & [Hp ->]%phase_of & _).
    destruct (tr_call _ _ _ Ht n c Hm) as (-> & _).
    destruct (phase_route mfn s m n c rest Ht Hm errs Hp Et bus ts E) as (p & Htr & Hr).
    eexists. split; [exact Htr|]. by apply goes_on_phase.
  - destruct (tracked_task _ _ _ _ _ Ht Et) as (n & c & Hm & [Hp ->]%phase_of & _).
    destruct (tr_call _ _ _ Ht n c Hm) as (Hid & _). rewrite Hid in *.
    eexists. split; [by eapply phase_answer|]. apply goes_on_phase; [done|]. unfold rank. rewrite Hp. simpl. lia.
  - destruct (tracked_task _ _ _ _ _ Ht Et) as (n & c & Hm & (resp & Hp & Hn & ->)%phase_of & _).
    assert (r = scRequest c) as ->.
    { assert (roTasks s ≡ₚ TWait r :: TSend (mqID r) (EResponse resp) :: rest) as Et' by (rewrite Et; apply perm_swap).
      destruct (tracked_task _ _ _ _ _ Ht Et') as (n' & c' & Hm' & ->%phase_of & _).
      destruct (tr_call _ _ _ Ht n' c' Hm') as (Hid & _). rewrite Hid in Hn. subst n'. rewrite Hm in Hm'. by injection Hm' as ->. }
    rewrite Hn in *. eexists. split; [by eapply phase_receive|]. apply goes_on_phase; [done|]. unfold rank. rewrite Hp. simpl. lia.
  - exists m. split; [|by split; [intros n c Hm; exists c|]]. destruct Ht as [H1 H2 H3 H4 H5 H6 H7 H8 H9]. split; simpl; try done.
    + by rewrite Hmw.
    + rewrite Hh by by left. done.
    + intros n c Hm. destruct (H7 n c Hm) as (? & ? & ? & ? & ?). rewrite Hh by by right. done.
    + intros n Hm Hk. rewrite Hh by by right. by apply H8.
Qed.

Lemma NewServiceRegistry_bus (bus : EventBus (BusEvent Arg Val)) fn l :
  srEventBus (NewServiceRegistry bus fn l) = SubscribeAsync bus "method" fn false.
Proof.
  unfold NewServiceRegistry. assert (forall s, srEventBus (foldl (fun s nb => RegisterService s nb.1 nb.2) s l) = srEventBus s) as ->; [|done].
  induction l as [|nb l IH]; intros s; [done|]. simpl. by rewrite IH.
Qed.

Lemma start_tracked fn services w : tracks fn (startRouting fn services w) ∅.
Proof.
  unfold startRouting. split; simpl; rewrite ?NewServiceRegistry_bus; try done.
  - repeat constructor; intros t [[| |]|]; done.
  - by simplify_map_eq.
  - intros n _ Hk. unfold handlersOf. simpl. rewrite lookup_insert_ne; [done|]. intros E. by apply (nonce_not_method n).
Qed.

Lemma routed_tracked fn services w s : routed fn services w s -> exists m, tracks fn s m.
Proof.
  induction 1 as [|who s s' _ [m Ht] Hstep]; [exists ∅; apply start_tracked|].
  destruct (step_tracked fn who s s' m Ht Hstep) as (m' & Ht' & _). by exists m'.
Qed.

Lemma taskNonce_phase mfn s m n c t : tracks mfn s m -> m !! n = Some c -> t ∈ phaseTasks mfn n c ->
  taskNonce t = n /\ answer c = None.
Proof.
  intros Ht Hm. destruct (tr_call _ _ _ Ht n c Hm) as (Hid & _). unfold phaseTasks, answer.
  destruct (scPhase c); rewrite ?elem_of_cons, elem_of_nil; intros Hin; (split; [|done || by apply Hin]); by destruct_or?; subst.
Qed.

(** C33: What a call over the event bus returns comes from its own request: either the
    service that was asked was found running, was called with this very request once, and
    the answer carries the value and the error (or the text of the panic) that the call
    came back with in the state in which it was made; or at every one of the attempts
    allowed the service was absent or not running, no service was called, and the answer
    puts the errors of these attempts together.  No service is called with a request
    twice, and when a call has returned nothing of it is left, neither a subscription nor
    a goroutine: for any number of calls at the same time, in any interleaving, while
    services start and stop. *)
Theorem answers_are_own fn services w s n resp : routed fn services w s -> roAnswers s !! n = Some resp ->
  exists r, roCalls s !! n = Some r /\ mqID r = n /\ answerOf (roLog s) r resp /\
    (forall n', (length (servings (roLog s) n') <= 1)%nat) /\
    handlersOf (roBus s) n = [] /\ forall t, t ∈ roTasks s -> taskNonce t <> n.
Proof.
  intros [m Ht]%routed_tracked Ha. rewrite (tr_answers _ _ _ Ht) in Ha. apply bind_Some in Ha as (c & Hm & Ha).
  destruct (tr_call _ _ _ Ht n c Hm) as (Hid & _ & _ & Hh & Hok). unfold answer in Ha.
  destruct (scPhase c) as [| | | | | |resp'] eqn:Hp; try done. injection Ha as ->.
  exists (scRequest c). unfold phaseOk, phaseHandlers in Hok, Hh. rewrite Hp in Hok, Hh. split_and!; try done.
  - by rewrite (tr_calls _ _ _ Ht), lookup_fmap, Hm.
  - intros n'. destruct (m !! n') as [c'|] eqn:Hm'.
    + destruct (tr_call _ _ _ Ht n' c' Hm') as (<- & _ & _ & _ & Hok'). by apply phaseOk_servings.
    + destruct (tr_unlogged _ _ _ Ht n' Hm') as [_ ->]. simpl. lia.
  - intros t Hin En. rewrite (tr_tasks _ _ _ Ht) in Hin. unfold flat in Hin.
    apply list_elem_of_bind in Hin as ([n' c'] & Hin & Hm'%elem_of_map_to_list). simpl in Hin.
    destruct (taskNonce_phase fn s m n' c' t Ht Hm' Hin) as [En' Ha'].
    assert (n' = n) as -> by congruence. rewrite Hm in Hm'. injection Hm' as <-. unfold answer in Ha'. by rewrite Hp in Ha'.
Qed.

(** *** Progress *)

(** A step of the call with this nonce can be taken; its service has been called and does
    not come back. *)
Definition enabled (n : string) (s : State) : Prop := exists s', routingStep (Some n) s s'.

Definition blocked (n : string) (s : State) : Prop :=
  exists r, TCall r ∈ roTasks s /\ mqID r = n /\ Call r (roWorld s) = None.

(** A call that is not answered can go on, unless its service does not come back. *)
Lemma call_advances mfn s m n c : tracks mfn s m -> m !! n = Some c -> answer c = None -> ~ blocked n s -> enabled n s.
Proof.
  intros Ht Hm Ha Hb. destruct (tr_call _ _ _ Ht n c Hm) as (Hid & _).
  assert (exists t l, phaseTasks mfn n c = t :: l) as (t & l & El).
  { unfold phaseTasks, answer in *. destruct (scPhase c); try done; by eexists _, _. }
  assert (roTasks s ≡ₚ t :: l ++ flat mfn (delete n m)) as Et.
  { by rewrite (tr_tasks _ _ _ Ht), (flat_lookup mfn m n c Hm), El. }
  unfold enabled. rewrite <-Hid. unfold answer in Ha. destruct (scPhase c) as [| |errs| |resp|resp|resp] eqn:Hp; [..|done];
    unfold phaseTasks in El; rewrite Hp in El; injection El as <- <-.
  - eexists. eapply step_publish; [exact Et|apply surjective_pairing].
  - eexists. by apply (step_deliver _ _ _ (Some (ERequest (scRequest c))) _ Et).
  - eexists. eapply step_route; [exact Et|apply surjective_pairing].
  - destruct (Call (scRequest c) (roWorld s)) as [[out w]|] eqn:Ec.
    + eexists. eapply step_answer; [exact Et|exact Ec|apply surjective_pairing].
    + exfalso. apply Hb. exists (scRequest c). split_and!; try done. rewrite Et. set_solver.
  - eexists. rewrite Hid. by apply (step_deliver _ _ _ (Some (EResponse resp)) _ Et).
  - eexists. eapply step_receive. rewrite Hid. exact Et.
Qed.

(** A run of the node without end, with the call that each step belongs to. *)
Section fair.
Context (run : nat -> State) (who : nat -> option string).
Hypothesis run_step : forall i, routingStep (who i) (run i) (run (S i)).

(** The scheduler does not pass over the goroutines of this call for ever. *)
Definition fairly (n : string) : Prop := forall i, exists j, (i <= j)%nat /\ (who j = Some n \/ ~ enabled n (run j)).

(** The steps of this call among the first [k] from step [i]. *)
Fixpoint ownSteps (n : string) (i k : nat) : nat :=
  match k with
  | O => 0
  | S k => (if decide (who i = Some n) then 1 else 0) + ownSteps n (S i) k
  end.

Lemma run_tracked mfn i m k : tracks mfn (run i) m -> forall n c, m !! n = Some c ->
  exists m' c', tracks mfn (run (i + k)) m' /\ m' !! n = Some c' /\ scRequest c' = scRequest c /\
    (rank c' + ownSteps n i k <= rank c)%nat.
Proof.
  revert i m. induction k as [|k IH]; intros i m Ht n c Hm.
  { exists m, c. rewrite Nat.add_0_r. split_and!; [done..|]. simpl. lia. }
  destruct (step_tracked mfn _ _ _ m Ht (run_step i)) as (m1 & Ht1 & Hgo & _).
  destruct (Hgo n c Hm) as (c1 & Hm1 & Er1 & Hr1 & Hown). destruct (IH (S i) m1 Ht1 n c1 Hm1) as (m' & c' & Ht' & Hm' & Er' & Hr').
  exists m', c'. replace (i + S k)%nat with (S i + k)%nat by lia. split_and!; [done..|congruence|].
  simpl. destruct (decide (who i = Some n)) as [E|E]; [specialize (Hown E)|]; lia.
Qed.

Lemma run_answers mfn n d : fairly n -> forall i m c, tracks mfn (run i) m -> m !! n = Some c -> (rank c <= d)%nat ->
  (forall j, (i <= j)%nat -> ~ blocked n (run j)) ->
  exists j m' c', (i <= j)%nat /\ tracks mfn (run j) m' /\ m' !! n = Some c' /\ scRequest c' = scRequest c /\ is_Some (answer c').
Proof.
  intros Hfair. induction d as [|d IH]; intros i m c Ht Hm Hd Hb.
  - exists i, m, c. split_and!; [lia|done..|]. unfold rank in Hd. unfold answer. destruct (scPhase c); try lia. by eexists.
  - destruct (Hfair i) as (j & Hij & Hj). replace j with (i + (j - i))%nat in Hj by lia.
    destruct (run_tracked mfn i m (j - i) Ht n c Hm) as (m1 & c1 & Ht1 & Hm1 & Er1 & Hr1).
    destruct (answer c1) as [resp|] eqn:Ha.
    { exists (i + (j - i))%nat, m1, c1. split_and!; [lia|done..|]. by rewrite Ha. }
    destruct Hj as [Hwho|Hen]; [|destruct Hen; eapply call_advances; [done..|apply Hb; lia]].
    destruct (step_tracked mfn _ _ _ m1 Ht1 (run_step (i + (j - i)))) as (m2 & Ht2 & Hgo & _).
    destruct (Hgo n c1 Hm1) as (c2 & Hm2 & Er2 & _ & Hlt). specialize (Hlt Hwho).
    destruct (IH _ m2 c2 Ht2 Hm2 ltac:(lia)) as (k & m' & c' & Hk & H1 & H2 & H3 & H4); [intros k Hk; apply Hb; lia|].
    exists k, m', c'. split_and!; [lia|done..|congruence|done].
Qed.

(** C34: No call waits for ever, as long as its service comes back: in every run of the
    node without end, whatever else is under way, in which the scheduler does not pass
    over the goroutines of a call for ever and the service that was called does not
    refuse to come back from some time on, the call is answered; and the goroutines of
    the call take at most six steps more than the attempts of its search in any case. *)
Theorem call_answered fn services w n r : routed fn services w (run 0) -> roCalls (run 0) !! n = Some r ->
  (forall k, (ownSteps n 0 k <= maxAttempts + 6)%nat) /\
  (fairly n -> (exists i, forall j, (i <= j)%nat -> ~ blocked n (run j)) ->
   exists i resp, roAnswers (run i) !! n = Some resp /\ answerOf (roLog (run i)) r resp).
Proof.
  intros [m Ht]%routed_tracked Hn. rewrite (tr_calls _ _ _ Ht), lookup_fmap in Hn.
  destruct (m !! n) as [c|] eqn:Hm; [|done]. injection Hn as <-. split.
  - intros k. destruct (run_tracked fn 0 m k Ht n c Hm) as (m' & c' & _ & _ & _ & Hr). unfold rank in Hr. destruct (scPhase c); lia.
  - intros Hfair [i Hb]. destruct (run_tracked fn 0 m i Ht n c Hm) as (m1 & c1 & Ht1 & Hm1 & Er1 & _).
    destruct (run_answers fn n _ Hfair i m1 c1 Ht1 Hm1 (le_n _) Hb) as (j & m' & c' & _ & Ht' & Hm' & Er' & [resp Ha]).
    exists j, resp. rewrite (tr_answers _ _ _ Ht'), Hm'. split; [done|].
    destruct (tr_call _ _ _ Ht' n c' Hm') as (_ & _ & _ & _ & Hok). rewrite <-Er1, <-Er'.
    unfold phaseOk, answer in *. destruct (scPhase c'); naive_solver.
Qed.

End fair.

End calls.

(** ** A service starts and stops once *)

Section base.

(** Any number of calls of [Start] and [Stop] at the same time, with the number of times
    that the implementation has been started and stopped. *)
Record StartStop := mkStartStop { ssService : BaseService; ssThreads : list Pc; ssStarts : nat; ssStops : nat }.

Inductive baseStep : StartStop -> StartStop -> Prop :=
  | base_new s pc : pc = StartCas \/ pc = StopCas ->
      baseStep s (mkStartStop (ssService s) (pc :: ssThreads s) (ssStarts s) (ssStops s))
  | base_run s i pc on bs pc' : ssThreads s !! i = Some pc -> startStep (ssService s) pc on = (bs, pc') ->
      baseStep s (mkStartStop bs (<[i := pc']> (ssThreads s))
        (match pc, on with StartOn, None => S (ssStarts s) | _, _ => ssStarts s end)
        (match pc with StopOn => S (ssStops s) | _ => ssStops s end)).

Inductive baseReached : StartStop -> Prop :=
  | base_start : baseReached (mkStartStop NewBaseService [] 0 0)
  | base_step s s' : baseReached s -> baseStep s s' -> baseReached s'.

Fixpoint tally (f : Pc -> bool) (l : list Pc) : nat :=
  match l with [] => 0 | pc :: l => (if f pc then 1 else 0) + tally f l end.

Lemma tally_update f l i pc pc' : l !! i = Some pc ->
  (tally f (<[i := pc']> l) + (if f pc then 1 else 0) = tally f l + (if f pc' then 1 else 0))%nat.
Proof.
  revert i. induction l as [|x l IH]; intros [|i] H; simpl in *; [done|done|injection H as ->; lia|].
  specialize (IH i H). lia.
Qed.

(** The calls past the first access of [Start], those in [OnStart] or about to call it,
    those that have started, and those in or past [OnStop]. *)
Definition isBusy (pc : Pc) : bool := match pc with StartLoad | StartOn | StartRevert _ | StartStore => true | _ => false end.
Definition isStored (pc : Pc) : bool := match pc with StartStore => true | _ => false end.
Definition isStarting (pc : Pc) : bool := match pc with StartOn => true | _ => false end.
Definition isStopping (pc : Pc) : bool := match pc with StopOn => true | _ => false end.
Definition isClosing (pc : Pc) : bool := match pc with StopClose => true | _ => false end.

Lemma starting_busy l : (tally isStarting l <= tally isBusy l)%nat.
Proof. induction l as [|[] l IH]; simpl; lia. Qed.

Record baseOk (s : StartStop) : Prop := {
  bo_idle : bsStart (ssService s) = false -> tally isBusy (ssThreads s) = 0%nat /\ ssStarts s = 0%nat;
  bo_busy : (tally isBusy (ssThreads s) <= 1)%nat;
  bo_once : (ssStarts s + tally isBusy (ssThreads s) <= 1 + tally isStored (ssThreads s))%nat;
  bo_stored : (tally isStored (ssThreads s) <= ssStarts s)%nat;
  bo_started : bsStarted (ssService s) = true -> ssStarts s = 1%nat;
  bo_open : bsStopped (ssService s) = false ->
    tally isStopping (ssThreads s) = 0%nat /\ tally isClosing (ssThreads s) = 0%nat /\ ssStops s = 0%nat /\ bsQuit (ssService s) = false;
  bo_stop : (ssStops s + tally isStopping (ssThreads s) <= 1)%nat;
  bo_close : (tally isClosing (ssThreads s) + (if bsQuit (ssService s) then 1 else 0) = ssStops s)%nat;
}.

Lemma stored_busy l : (tally isStored l <= tally isBusy l)%nat.
Proof. induction l as [|[] l IH]; simpl; lia. Qed.

Lemma baseStep_ok s s' : baseOk s -> baseStep s s' -> baseOk s'.
Proof.
  intros [H1 H2 H3 H4 H5 H6 H7 H8] Hstep. destruct Hstep as [s pc Hpc|s i pc on bs pc' Hi E].
  { split; simpl; destruct Hpc as [-> | ->]; simpl; auto. }
  pose proof (tally_update isBusy _ _ _ pc' Hi) as T1. pose proof (tally_update isStored _ _ _ pc' Hi) as T2.
  pose proof (tally_update isStopping _ _ _ pc' Hi) as T3. pose proof (tally_update isClosing _ _ _ pc' Hi) as T4.
  pose proof (stored_busy (<[i:=pc']> (ssThreads s))) as T5. pose proof (stored_busy (ssThreads s)) as T6.
  destruct (ssService s) as [st sd sp sq] eqn:Es. simpl in *.
  destruct pc; simpl in E.
  1: destruct st. 3: destruct sp. 5: destruct on. 10: destruct sp.
  all: injection E as <- <-; simpl in *; split; simpl; intros; subst; simpl in *; try discriminate;
    try specialize (H1 eq_refl); try specialize (H6 eq_refl); try specialize (H5 eq_refl); destruct_and?; subst; simpl in *;
    split_and?; try lia; try done; try (destruct sp; simpl in *; try specialize (H6 eq_refl); destruct_and?; lia || done).
Qed.

(** C35: In every interleaving of any number of calls of [Start] and [Stop], the
    implementation is being started by at most one of them at a time, is started
    successfully at most once and stopped at most once, the channel that waiters block on
    is closed once and after that, and the service counts as running only once it has been
    started and before it is stopped. *)
Theorem service_starts_once s : baseReached s ->
  (tally isStarting (ssThreads s) <= 1)%nat /\ (ssStarts s <= 1)%nat /\ (ssStops s <= 1)%nat /\
  (tally isClosing (ssThreads s) + (if bsQuit (ssService s) then 1 else 0) = ssStops s)%nat /\
  (IsRunning (ssService s) = true -> ssStarts s = 1%nat /\ ssStops s = 0%nat).
Proof.
  intros H. assert (baseOk s) as [H1 H2 H3 H4 H5 H6 H7 H8].
  { induction H as [|s s' _ IH Hstep]; [by split; simpl; auto|by eapply baseStep_ok]. }
  pose proof (starting_busy (ssThreads s)). pose proof (stored_busy (ssThreads s)).
  split_and!; try lia. unfold IsRunning. rewrite andb_true_iff, negb_true_iff. intros [Hs Ho].
  specialize (H5 Hs). specialize (H6 Ho). lia.
Qed.

End base.

(** ** The theorems at concrete calls *)

Module ServicesToy.

(** A service that counts: it adds its argument to its state, waits until its state has
    reached its argument, fails with a value, or panics. *)
#[global] Instance counter : ServiceCalls Z Z Z := {|
  Call r w :=
    if decide (mqMethod r = "add") then Some (Returns (Some (w + foldr Z.add 0 (mqData r))) None, w + foldr Z.add 0 (mqData r))
    else if decide (mqMethod r = "await") then
      if w <? foldr Z.add 0 (mqData r) then None else Some (Returns (Some w) None, w)
    else if decide (mqMethod r = "crash") then Some (Panics "runtime error", w)
    else Some (Returns (Some w) (Some "method not found"), w);
  DefaultAttempts := 10;
  retryError errs := "All attempts fail: " +:+ foldr String.append "" errs;
|}.

Definition toy_services : list (string * BaseService) := [("counter", mkBaseService true true false false); ("other", NewBaseService)].
Definition toy_start : Routing Z Z Z := startRouting 0 toy_services 10.
Definition toy_nonce : string := Text16 500.
Definition toy_request : MethodRequest Z := mkMethodRequest "caller" "counter" "await" toy_nonce [50].

(** A call that waits for the state to reach fifty, which another goroutine sees to. *)
Definition toy_called : Routing Z Z Z := startCall toy_start 1 "caller" "counter" "await" toy_nonce [50].
Definition toy_published : Routing Z Z Z :=
  let p := publishTasks (roBus toy_called) "method" (ERequest toy_request) in
  setTasks toy_called (fst p) (TWait toy_request :: snd p ++ []).
Definition toy_searching : Routing Z Z Z :=
  setTasks toy_published (roBus toy_published)
    (deliver toy_published (lasting 0) "method" (Some (ERequest toy_request)) ++ [TWait toy_request]).
Definition toy_calling : Routing Z Z Z :=
  let p := route toy_searching toy_request [] in
  addLog (setTasks toy_searching (fst p) (snd p ++ [TWait toy_request])) 10 (Attempted toy_nonce (roServices toy_searching)).
Definition toy_counted : Routing Z Z Z :=
  mkRouting (roBus toy_calling) (roServices toy_calling) 60 (roCallbacks toy_calling) (roTasks toy_calling) (roCalls toy_calling)
    (roAnswers toy_calling) (roLog toy_calling).
Definition toy_response : MethodResponse Z Z := mkMethodResponse (Some toy_request) None (Some 60).
Definition toy_responding : Routing Z Z Z :=
  let p := publishTasks (roBus toy_counted) toy_nonce (EResponse toy_response) in
  addLog (setTasks toy_counted (fst p) (snd p ++ [TWait toy_request])) 60 (Served toy_nonce 60).
Definition toy_sending : Routing Z Z Z :=
  setTasks toy_responding (roBus toy_responding)
    (deliver toy_responding (once 1) toy_nonce (Some (EResponse toy_response)) ++ [TWait toy_request]).
Definition toy_answered : Routing Z Z Z :=
  mkRouting (roBus toy_sending) (roServices toy_sending) 60 (roCallbacks toy_sending) [] (roCalls toy_sending)
    (<[toy_nonce := toy_response]> (roAnswers toy_sending)) (roLog toy_sending).

Definition toy_run (i : nat) : Routing Z Z Z :=
  match i with
  | 0 => toy_called | 1 => toy_published | 2 => toy_searching | 3 => toy_calling
  | 4 => toy_counted | 5 => toy_responding | 6 => toy_sending | _ => toy_answered
  end%nat.

Definition toy_who (i : nat) : option string := if decide (i ∈ [0; 1; 2; 4; 5; 6])%nat then Some toy_nonce else None.

Lemma toy_run_step i : routingStep (toy_who i) (toy_run i) (toy_run (S i)).
Proof.
  destruct i as [|[|[|[|[|[|[|i]]]]]]].
  - apply (step_publish toy_called toy_request []); [reflexivity|apply surjective_pairing].
  - apply (step_deliver toy_published (lasting 0) "method" (Some (ERequest toy_request)) [TWait toy_request]). apply perm_swap.
  - apply (step_route toy_searching toy_request [] [TWait toy_request]); [vm_compute; reflexivity|apply surjective_pairing].
  - by apply (step_other toy_calling).
  - eapply (step_answer toy_counted toy_request [TWait toy_request]); [vm_compute; reflexivity|reflexivity|apply surjective_pairing].
  - apply (step_deliver toy_responding (once 1) toy_nonce (Some (EResponse toy_response)) [TWait toy_request]). vm_compute. reflexivity.
  - eapply (step_receive toy_sending toy_request (EResponse toy_response) []). vm_compute. reflexivity.
  - by apply (step_other toy_answered).
Qed.

Lemma toy_routed i : routed 0 toy_services 10 (toy_run i).
Proof.
  induction i as [|i IH]; [|exact (routed_step _ _ _ _ _ _ IH (toy_run_step i))].
  eapply routed_step; [apply routed_start|]. by apply step_call.
Qed.

Lemma toy_fairly : fairly toy_run toy_who toy_nonce.
Proof.
  intros i. destruct (decide (i <= 6)%nat) as [Hi|Hi]; [exists 6%nat; by split; [|left]|].
  exists i. split; [done|]. right. do 7 (destruct i as [|i]; [lia|]). intros [s' H].
  assert (forall (t : Task Z Z) l, roTasks toy_answered ≡ₚ t :: l -> False) as Hno by (intros t l E; by apply Permutation_nil_cons in E).
  inversion H; subst; by eapply Hno.
Qed.

Lemma toy_unblocked j : (4 <= j)%nat -> ~ blocked toy_nonce (toy_run j).
Proof.
  intros Hj (r & Hin & _ & Hb). do 4 (destruct j as [|j]; [lia|]). destruct j as [|[|[|j]]].
  - change (roTasks (toy_run 4)) with [TCall (Val := Z) toy_request; TWait toy_request] in Hin.
    assert (r = toy_request) as -> by (set_unfold; naive_solver). discriminate Hb.
  - assert (roTasks (toy_run 5) = [TDeliver (once 1) toy_nonce (Some (EResponse toy_response)); TWait toy_request]) as E
      by (vm_compute; reflexivity). rewrite E in Hin. set_unfold; naive_solver.
  - assert (roTasks (toy_run 6) = [TSend toy_nonce (EResponse toy_response); TWait toy_request]) as E by (vm_compute; reflexivity).
    rewrite E in Hin. set_unfold; naive_solver.
  - by apply elem_of_nil in Hin.
Qed.

Lemma answers_are_own_witness : exists r, roAnswers (toy_run 7) !! toy_nonce = Some toy_response /\
  roCalls (toy_run 7) !! toy_nonce = Some r /\ answerOf (roLog (toy_run 7)) r toy_response /\ handlersOf (roBus (toy_run 7)) toy_nonce = [].
Proof.
  destruct (answers_are_own 0 toy_services 10 (toy_run 7) toy_nonce toy_response (toy_routed 7) eq_refl) as (r & Hr & _ & Hok & _ & Hh & _).
  by exists r.
Defined.

Lemma call_answered_witness : blocked toy_nonce (toy_run 3) /\
  exists i resp, roAnswers (toy_run i) !! toy_nonce = Some resp /\ answerOf (roLog (toy_run i)) toy_request resp.
Proof.
  split; [exists toy_request; split_and!; [vm_compute; left|done..]|].
  apply (call_answered toy_run toy_who toy_run_step 0 toy_services 10 toy_nonce toy_request (toy_routed 0) eq_refl); [apply toy_fairly|].
  exists 4%nat. apply toy_unblocked.
Defined.

(** A value is returned with an error, and both arrive; a service that is not running. *)
Example toy_value_with_error : respond (mkMethodRequest "caller" "counter" "other" "" ([] : list Z)) (Returns (Some 10) (Some "method not found")) =
  mkMethodResponse (Some (mkMethodRequest "caller" "counter" "other" "" [])) (Some "method not found") (Some 10).
Proof. reflexivity. Qed.

Example toy_not_running : snd (route toy_searching (mkMethodRequest "caller" "other" "add" toy_nonce []) []) =
  [TRoute (mkMethodRequest "caller" "other" "add" toy_nonce []) ["Service other is not running"]].
Proof. reflexivity. Qed.

(** Two calls of [Start] at once: the second one gives up. *)
Lemma toy_starting : exists s, baseReached s /\ tally isStarting (ssThreads s) = 1%nat /\ ssThreads s = [StartDone false None; StartOn].
Proof.
  eexists. split.
  - eapply base_step; [eapply base_step; [eapply base_step; [eapply base_step; [eapply base_step; [apply base_start|]|]|]|]|].
    + apply (base_new _ StartCas). by left.
    + apply (base_run _ 0 StartCas None); reflexivity.
    + apply (base_new _ StartCas). by left.
    + apply (base_run _ 0 StartCas None); reflexivity.
    + apply (base_run _ 1 StartLoad None); reflexivity.
  - vm_compute. done.
Qed.

Lemma service_starts_once_witness : exists s, baseReached s /\ ssThreads s = [StartDone false None; StartOn] /\
  (tally isStarting (ssThreads s) <= 1)%nat.
Proof.
  destruct toy_starting as (s & Hs & _ & E). exists s. split; [exact Hs|]. split; [exact E|].
  apply (service_starts_once s Hs).
Defined.

(** A service that was never started is stopped, and starting one again or stopping it
    again is no more than a value. *)
Example stop_before_start : Stop NewBaseService None = (mkBaseService false false true true, true).
Proof. reflexivity. Qed.

Example start_again : snd (Start (fst (Start NewBaseService None)) None) = (false, None).
Proof. reflexivity. Qed.

Example start_after_failure : snd (Start (fst (Start NewBaseService (Some "port in use"))) None) = (true, None).
Proof. reflexivity. Qed.

End ServicesToy.
