(* ===== verification/Keygen.v ===== *)
(** The key generation protocol (src/keygennofsm): the data it keeps
    (types.go), the handlers of direct messages (p2p_messages.go) and the two
    routers (keygen_nofsm.go).

    A handler is one atomic step, as the lock of its keygen makes it: it maps the
    state it may change to the new state, the list of the actions it hands to
    goroutines (sends, broadcasts, outputs) and how it ended.  State changed
    before an error stays changed, as in the source.  [Waiting] is the body of a
    polling loop whose condition does not hold yet: nothing has changed and the
    step is tried again.  A store maps an id to [None] once it is completed (the
    source stores nil).

    The serialisation library, the transport's signing key and Go's random map
    iteration order are parameters. *)
From Stdlib Require Import Zdivisibility ZArith.
From stdpp Require Import gmap strings.
From S2P Require Import Prelude BigInt Field Curve Pvss Avss Nizkpk Ecdsa Ids Effects.

(** ** Parameters *)

(** [KeygenTransport.Sign]. *)
Class Transport := { Sign : list Z -> option (list Z) }.

(** ** Data (types.go) *)

Definition SignedText := list Z.

Record SignedTextDetails := mkSignedTextDetails { stText : string; stC00 : Point }.
Record ProposeProof := mkProposeProof { ppSignedTextDetails : list Z; ppC00 : Point }.

Record NodeNetwork := mkNodeNetwork {
  Nodes : gmap NodeDetailsID Node;
  netN : Z;
  netT : Z;
  netK : Z;
}.

(** The type [C]: what has been collected for one commitment matrix. *)
Record CRecord := mkC {
  cCID : CID;
  cC : list (list Point);
  cEC : Z;
  cRC : Z;
  cAC : gmap NodeDetailsID Point;
  cACprime : gmap NodeDetailsID Point;
  cBC : gmap NodeDetailsID Point;
  cBCprime : gmap NodeDetailsID Point;
  cAbar : list Z;
  cAbarprime : list Z;
  cBbar : list Z;
  cBbarprime : list Z;
  cSignedTextStore : gmap NodeDetailsID SignedText;
}.

Inductive phaseState := Initial | Started | Proposing | Ended.

#[global] Instance phaseState_eq_dec : EqDecision phaseState.
Proof. solve_decision. Defined.

Record KeygenState := mkKeygenState {
  Phase : phaseState;
  ReceivedSend : bool;
  ReceivedEcho : gmap NodeDetailsID bool;
  ReceivedReady : gmap NodeDetailsID bool;
}.

Record Keygen := mkKeygen {
  kgKeygenID : KeygenID;
  kgSi : Z;
  kgSiprime : Z;
  kgF : list (list Z);
  kgFprime : list (list Z);
  kgCbar : list (list Point);
  kgC : list (list Point);
  kgCStore : gmap CID CRecord;
  kgState : KeygenState;
}.

Record Sharing := mkSharing { shDKGID : DKGID; shI : Z; shS : Z; shSprime : Z }.

Record NIZKP := mkNIZKP {
  nzNodeIndex : Z;
  nzC : Z;
  nzU1 : Z;
  nzU2 : Z;
  nzGSi : Point;
  nzGSiHSiprime : Point;
}.

Record DKG := mkDKG {
  dkgDKGID : DKGID;
  dkgGS : Point;
  dkgNIZKPStore : gmap NodeDetailsID NIZKP;
  dkgDMap : gmap KeygenID (list Point);
  dkgSi : Z;
  dkgSiprime : Z;
  dkgDbar : list Point;
}.

Record KeygenNode := mkKeygenNode {
  knNodeDetails : Node;
  knCurrNodes : NodeNetwork;
  knNodeIndex : Z;
  knShareStore : gmap DKGID (option Sharing);
  knDKGStore : gmap DKGID (option DKG);
  knKeygenStore : gmap KeygenID (option Keygen);
  knStaggerDelay : Z;
}.

(** ** Messages (types.go) *)

Record KeygenMessage := mkKeygenMessage {
  kmVersion : string;
  kmKeygenID : KeygenID;
  kmMethod : string;
  kmData : list Z;
}.

Record KeygenMsgShare := mkKeygenMsgShare { msDKGID : DKGID }.

Record KeygenMsgSend := mkKeygenMsgSend {
  snKeygenID : KeygenID;
  snC : list (list Point);
  snA : list Z;
  snAprime : list Z;
  snB : list Z;
  snBprime : list Z;
}.

Record KeygenMsgEcho := mkKeygenMsgEcho {
  ecKeygenID : KeygenID;
  ecC : list (list Point);
  ecAlpha : Z;
  ecAlphaprime : Z;
  ecBeta : Z;
  ecBetaprime : Z;
}.

Record KeygenMsgReady := mkKeygenMsgReady {
  rdKeygenID : KeygenID;
  rdC : list (list Point);
  rdAlpha : Z;
  rdAlphaprime : Z;
  rdBeta : Z;
  rdBetaprime : Z;
  rdSignedText : SignedText;
}.

Record KeygenMsgComplete := mkKeygenMsgComplete {
  cmKeygenID : KeygenID;
  cmCommitmentArr : list Point;
}.

Record KeygenMsgPropose := mkKeygenMsgPropose {
  prNodeDetailsID : NodeDetailsID;
  prDKGID : DKGID;
  prKeygens : list KeygenID;
  prProposeProofs : list (gmap NodeDetailsID ProposeProof);
}.

Record KeygenMsgPubKey := mkKeygenMsgPubKey {
  pkNodeDetailsID : NodeDetailsID;
  pkDKGID : DKGID;
  pkPubKeyProofs : list NIZKP;
}.

Record KeygenMsgDecide := mkKeygenMsgDecide { dcDKGID : DKGID; dcKeygens : list KeygenID }.
Record KeygenMsgNIZKP := mkKeygenMsgNIZKP { nzDKGID : DKGID; nzNIZKP : NIZKP }.

Record KeyStorage := mkKeyStorage {
  ksKeyIndex : Z;
  ksSi : Z;
  ksSiprime : Z;
  ksCommitmentPoly : list Point;
}.

(** Serialisation of every message type. *)
Class KeygenCodecs := {
  codec_share :: Codec KeygenMsgShare;
  codec_send :: Codec KeygenMsgSend;
  codec_echo :: Codec KeygenMsgEcho;
  codec_ready :: Codec KeygenMsgReady;
  codec_complete :: Codec KeygenMsgComplete;
  codec_propose :: Codec KeygenMsgPropose;
  codec_pubkey :: Codec KeygenMsgPubKey;
  codec_decide :: Codec KeygenMsgDecide;
  codec_nizkp :: Codec KeygenMsgNIZKP;
  codec_signedtext :: Codec SignedTextDetails;
}.

(** ** Effects *)

(** What a handler leaves to goroutines and the transport.  [GoPropose] and
    [GoPubKey] are the staggered broadcasts, which look at the state again when
    they wake up. *)
Inductive Action :=
  | Send (dst : Node) (msg : KeygenMessage)
  | SendBroadcast (msg : KeygenMessage)
  | OutputText (text : string)
  | OutputKey (key : KeyStorage)
  | GoPropose (msg : KeygenMessage) (kI : Z) (dkgID : DKGID)
  | GoPubKey (msg : KeygenMessage) (keyIndex : Z).

(** A loop that builds one message per node and sends it. *)
Fixpoint sendAll (mk : Node -> res KeygenMessage) (nodes : list Node) : list Action * status :=
  match nodes with
  | [] => ([], Returned)
  | n :: nodes' =>
      match mk n with
      | Ok msg => let '(acts, st) := sendAll mk nodes' in (Send n msg :: acts, st)
      | Err e => ([], Errored e)
      | Panic => ([], Panicked)
      end
  end.

(** ** Stores (types.go) *)

(** [GetOrSetIfNotComplete], and [GetOrSet] followed by a use of the pointer:
    [None] when the id is completed. *)
Definition GetOrSetIfNotComplete {A} (store : gmap string (option A)) (id : string) (input : A)
    : gmap string (option A) * option A :=
  match store !! id with
  | None => (<[id := Some input]> store, Some input)
  | Some (Some a) => (store, Some a)
  | Some None => (store, None)
  end.

(** [KeygenStoreSyncMap.Complete]. *)
Definition KeygenStoreComplete (net : NodeNetwork) (store : gmap KeygenID (option Keygen))
    (dkgID : DKGID) : gmap KeygenID (option Keygen) :=
  map_fold (fun _ v acc => <[ToKeygenID (mkKeygenIDDetails dkgID (NodeIndex v)) := None]> acc)
    store (Nodes net).

Definition mapFromNodeList (nodeList : list Node) : gmap NodeDetailsID Node :=
  foldl (fun m n => <[ToNodeDetailsID n := n]> m) ∅ nodeList.

Definition NewKeygenNode (nodeDetails : Node) (currNodeList : list Node)
    (currNodesT currNodesK nodeIndex staggerDelay : Z) : KeygenNode :=
  mkKeygenNode nodeDetails
    (mkNodeNetwork (mapFromNodeList currNodeList) (Z.of_nat (length currNodeList)) currNodesT currNodesK)
    nodeIndex ∅ ∅ ∅ staggerDelay.

(** The literal of [ProcessMessage]. *)
Definition newKeygen (id : KeygenID) : Keygen :=
  mkKeygen id 0 0 [] [] [] [] ∅ (mkKeygenState Initial false ∅ ∅).

(** The literals of the echo and ready handlers. *)
Definition newC (cid : CID) (C : list (list Point)) : CRecord :=
  mkC cid C 0 0 ∅ ∅ ∅ ∅ [] [] [] [] ∅.

Definition newDKG (dkgID : DKGID) : DKG := mkDKG dkgID PointO ∅ ∅ 0 0 [].

(** Field updates. *)
Definition setPhase (kg : Keygen) (p : phaseState) : Keygen :=
  let s := kgState kg in
  mkKeygen (kgKeygenID kg) (kgSi kg) (kgSiprime kg) (kgF kg) (kgFprime kg) (kgCbar kg) (kgC kg)
    (kgCStore kg) (mkKeygenState p (ReceivedSend s) (ReceivedEcho s) (ReceivedReady s)).

Definition setReceivedSend (kg : Keygen) : Keygen :=
  let s := kgState kg in
  mkKeygen (kgKeygenID kg) (kgSi kg) (kgSiprime kg) (kgF kg) (kgFprime kg) (kgCbar kg) (kgC kg)
    (kgCStore kg) (mkKeygenState (Phase s) true (ReceivedEcho s) (ReceivedReady s)).

Definition setReceivedEcho (kg : Keygen) (id : NodeDetailsID) : Keygen :=
  let s := kgState kg in
  mkKeygen (kgKeygenID kg) (kgSi kg) (kgSiprime kg) (kgF kg) (kgFprime kg) (kgCbar kg) (kgC kg)
    (kgCStore kg)
    (mkKeygenState (Phase s) (ReceivedSend s) (<[id := true]> (ReceivedEcho s)) (ReceivedReady s)).

Definition setReceivedReady (kg : Keygen) (id : NodeDetailsID) : Keygen :=
  let s := kgState kg in
  mkKeygen (kgKeygenID kg) (kgSi kg) (kgSiprime kg) (kgF kg) (kgFprime kg) (kgCbar kg) (kgC kg)
    (kgCStore kg)
    (mkKeygenState (Phase s) (ReceivedSend s) (ReceivedEcho s) (<[id := true]> (ReceivedReady s))).

Definition setC (kg : Keygen) (cid : CID) (c : CRecord) : Keygen :=
  mkKeygen (kgKeygenID kg) (kgSi kg) (kgSiprime kg) (kgF kg) (kgFprime kg) (kgCbar kg) (kgC kg)
    (<[cid := c]> (kgCStore kg)) (kgState kg).

Definition setDealing (kg : Keygen) (F Fprime : list (list Z)) (C : list (list Point)) : Keygen :=
  mkKeygen (kgKeygenID kg) (kgSi kg) (kgSiprime kg) F Fprime (kgCbar kg) C (kgCStore kg) (kgState kg).

Definition setResult (kg : Keygen) (Cbar : list (list Point)) (Si Siprime : Z) : Keygen :=
  mkKeygen (kgKeygenID kg) Si Siprime (kgF kg) (kgFprime kg) Cbar (kgC kg) (kgCStore kg) (kgState kg).

Definition setKeygenStore (kn : KeygenNode) (s : gmap KeygenID (option Keygen)) : KeygenNode :=
  mkKeygenNode (knNodeDetails kn) (knCurrNodes kn) (knNodeIndex kn) (knShareStore kn) (knDKGStore kn)
    s (knStaggerDelay kn).

Definition setShareStore (kn : KeygenNode) (s : gmap DKGID (option Sharing)) : KeygenNode :=
  mkKeygenNode (knNodeDetails kn) (knCurrNodes kn) (knNodeIndex kn) s (knDKGStore kn)
    (knKeygenStore kn) (knStaggerDelay kn).

Definition setDKGStore (kn : KeygenNode) (s : gmap DKGID (option DKG)) : KeygenNode :=
  mkKeygenNode (knNodeDetails kn) (knCurrNodes kn) (knNodeIndex kn) (knShareStore kn) s
    (knKeygenStore kn) (knStaggerDelay kn).

(** ** Thresholds *)

(** max(roundUp((n+t+1)/2), k).  The source divides in floating point, which is
    exact for counts below 2^52. *)
Definition ecThreshold (n k t : Z) : Z :=
  let nkt1half := (n + t + 1 + 1) / 2 in
  if k <=? nkt1half then nkt1half else k.

Definition netEcThreshold (net : NodeNetwork) : Z := ecThreshold (netN net) (netK net) (netT net).

(** The pause before a staggered broadcast, in milliseconds. *)
Definition stagger (kn : KeygenNode) (seed : Z) : res Z :=
  if netN (knCurrNodes kn) =? 0 then Panic
  else Ok (int64 (Z.rem (int64 (seed + NodeIndex (knNodeDetails kn))) (netN (knCurrNodes kn))
                  * knStaggerDelay kn)).

Section handlers.
Context {SO : Secp256k1} {KC : KeygenCodecs} {TR : Transport} {MR : MapRange}.

Definition NodeVersion : string := "0.0.11".

Definition CreateKeygenMessage (id : KeygenID) (method : string) (data : list Z) : KeygenMessage :=
  mkKeygenMessage NodeVersion id method data.

(** The nodes in the order a loop visits them. *)
Definition rangeNodes (site : nat) (kn : KeygenNode) : list Node :=
  snd <$> mapRange site (Nodes (knCurrNodes kn)).

(** A marshalling error is logged and leaves no bytes. *)
Definition ToBytes (s : SignedTextDetails) : list Z :=
  match Marshal s with
  | Some b => b
  | None => []
  end.

(** ** The share message *)

(** What the dealer sends to one node. *)
Definition sendMessage (sharing : Sharing) (F Fprime : list (list Z)) (C : list (list Point))
    (newNode : Node) : res KeygenMessage :=
  let keygenID := ToKeygenID (mkKeygenIDDetails (shDKGID sharing) (shI sharing)) in
  a ← EvaluateBivarPolyAtX F (NodeIndex newNode);
  aprime ← EvaluateBivarPolyAtX Fprime (NodeIndex newNode);
  let b := EvaluateBivarPolyAtY F (NodeIndex newNode) in
  let bprime := EvaluateBivarPolyAtY Fprime (NodeIndex newNode) in
  data ← marshal (mkKeygenMsgSend keygenID C (Coeff a) (Coeff aprime) (Coeff b) (Coeff bprime));
  Ok (CreateKeygenMessage keygenID "send" data).

(** The store of sharings, the keygen and the random tape may change. *)
Definition processShareMessage (kn : KeygenNode) (msg : KeygenMsgShare) (kg : Keygen) (tape : Tape)
    : (gmap DKGID (option Sharing) * Keygen * Tape) * list Action * status :=
  let store := knShareStore kn in
  if decide (Phase (kgState kg) = Ended) then ((store, kg, tape), [], Returned)
  else
    let '(s, tape1) := RandomBigInt tape in
    let '(sprime, tape2) := RandomBigInt tape1 in
    let '(store', sharing) :=
      GetOrSetIfNotComplete store (msDKGID msg) (mkSharing (msDKGID msg) (knNodeIndex kn) s sprime) in
    match sharing with
    | None => ((store', kg, tape2), [], Panicked)
    | Some sharing =>
        if (shS sharing =? 0) || (shSprime sharing =? 0)
        then ((store', kg, tape2), [], Errored "DKGID was not initialized with Si and Siprime")
        else
          run (GenerateRandomBivariatePolynomial (shS sharing) (netK (knCurrNodes kn)) tape2)
            (store', kg, tape2) (fun Ft =>
          run (GenerateRandomBivariatePolynomial (shSprime sharing) (netK (knCurrNodes kn)) (snd Ft))
            (store', kg, snd Ft) (fun Fpt =>
          run (GetCommitmentMatrix (fst Ft) (fst Fpt)) (store', kg, snd Fpt) (fun C =>
          let kg' := setDealing kg (fst Ft) (fst Fpt) C in
          match sendAll (sendMessage sharing (fst Ft) (fst Fpt) C) (rangeNodes 0 kn) with
          | (acts, Returned) => ((store', setPhase kg' Started, snd Fpt), acts, Returned)
          | (acts, st) => ((store', kg', snd Fpt), acts, st)
          end)))
    end.

(** The two ids that a handler logs. *)
Definition logIDs (kn : KeygenNode) (sender : Node) : res unit :=
  _ ← shortID (ToNodeDetailsID (knNodeDetails kn));
  _ ← shortID (ToNodeDetailsID sender);
  Ok tt.

(** ** The send message *)

Definition echoMessage (kn : KeygenNode) (kg : Keygen) (msg : KeygenMsgSend) (newNode : Node)
    : res KeygenMessage :=
  let poly coeff := mkPrimaryPolynomial coeff (netK (knCurrNodes kn)) in
  alpha ← PolyEval (poly (snA msg)) (NodeIndex newNode);
  alphaprime ← PolyEval (poly (snAprime msg)) (NodeIndex newNode);
  beta ← PolyEval (poly (snB msg)) (NodeIndex newNode);
  betaprime ← PolyEval (poly (snBprime msg)) (NodeIndex newNode);
  data ← marshal (mkKeygenMsgEcho (snKeygenID msg) (snC msg) alpha alphaprime beta betaprime);
  Ok (CreateKeygenMessage (kgKeygenID kg) "echo" data).

Definition processSendMessage (kn : KeygenNode) (msg : KeygenMsgSend) (kg : Keygen)
    (details : KeygenIDDetails) (sender : Node) : Keygen * list Action * status :=
  if decide (Phase (kgState kg) = Ended) then (kg, [], Returned)
  else
    let senderID := NodeIndex (default NodeZero (Nodes (knCurrNodes kn) !! ToNodeDetailsID sender)) in
    if negb (senderID =? kidDealerIndex details)
    then (kg, [], Errored "'Send' message was not sent by the dealer")
    else
      let kg' := setReceivedSend kg in
      let poly coeff := mkPrimaryPolynomial coeff (netK (knCurrNodes kn)) in
      run (AVSSVerifyPoly (snC msg) (NodeIndex (knNodeDetails kn))
             (poly (snA msg)) (poly (snAprime msg)) (poly (snB msg)) (poly (snBprime msg)))
        kg' (fun verified =>
      if negb verified then (kg', [], Errored "Could not verify polys against commitment")
      else
        run (logIDs kn sender) kg' (fun _ =>
        let '(acts, st) := sendAll (echoMessage kn kg msg) (rangeNodes 1 kn) in
        (kg', acts, st))).

(** ** Echo and ready: what they share *)

(** The four insertions of both handlers. *)
Definition storePoints (c : CRecord) (sender : Node) (alpha alphaprime beta betaprime : Z) : CRecord :=
  let id := ToNodeDetailsID sender in
  let x := NodeIndex sender in
  mkC (cCID c) (cC c) (cEC c) (cRC c)
    (<[id := mkPoint x alpha]> (cAC c)) (<[id := mkPoint x alphaprime]> (cACprime c))
    (<[id := mkPoint x beta]> (cBC c)) (<[id := mkPoint x betaprime]> (cBCprime c))
    (cAbar c) (cAbarprime c) (cBbar c) (cBbarprime c) (cSignedTextStore c).

Definition countEcho (c : CRecord) : CRecord :=
  mkC (cCID c) (cC c) (cEC c + 1) (cRC c) (cAC c) (cACprime c) (cBC c) (cBCprime c)
    (cAbar c) (cAbarprime c) (cBbar c) (cBbarprime c) (cSignedTextStore c).

Definition countReady (c : CRecord) (id : NodeDetailsID) (text : SignedText) : CRecord :=
  mkC (cCID c) (cC c) (cEC c) (cRC c + 1) (cAC c) (cACprime c) (cBC c) (cBCprime c)
    (cAbar c) (cAbarprime c) (cBbar c) (cBbarprime c) (<[id := text]> (cSignedTextStore c)).

Definition GetPointArrayFromMap (site : nat) (m : gmap NodeDetailsID Point) : list Point :=
  snd <$> mapRange site m.

(** The interpolations that precede a ready message.  Abar comes from the betas
    and Bbar from the alphas. *)
Definition interpolateBars (site : nat) (c : CRecord) : res CRecord :=
  Abar ← LagrangeInterpolatePolynomial (GetPointArrayFromMap site (cBC c));
  Abarprime ← LagrangeInterpolatePolynomial (GetPointArrayFromMap (site + 1) (cBCprime c));
  Bbar ← LagrangeInterpolatePolynomial (GetPointArrayFromMap (site + 2) (cAC c));
  Bbarprime ← LagrangeInterpolatePolynomial (GetPointArrayFromMap (site + 3) (cACprime c));
  Ok (mkC (cCID c) (cC c) (cEC c) (cRC c) (cAC c) (cACprime c) (cBC c) (cBCprime c)
    Abar Abarprime Bbar Bbarprime (cSignedTextStore c)).

Definition readyText (kg : Keygen) : string := Join [kgKeygenID kg; "ready"] Delimiter1.

Definition readyMessage (kn : KeygenNode) (kg : Keygen) (c : CRecord) (newNode : Node)
    : res KeygenMessage :=
  let poly coeff := mkPrimaryPolynomial coeff (netK (knCurrNodes kn)) in
  C00 ← entry (cC c) 0 0;
  sigBytes ← match Sign (ToBytes (mkSignedTextDetails (readyText kg) C00)) with
             | Some s => Ok s
             | None => Err "could not sign"
             end;
  alpha ← PolyEval (poly (cAbar c)) (NodeIndex newNode);
  alphaprime ← PolyEval (poly (cAbarprime c)) (NodeIndex newNode);
  beta ← PolyEval (poly (cBbar c)) (NodeIndex newNode);
  betaprime ← PolyEval (poly (cBbarprime c)) (NodeIndex newNode);
  data ← marshal (mkKeygenMsgReady (kgKeygenID kg) (cC c) alpha alphaprime beta betaprime sigBytes);
  Ok (CreateKeygenMessage (kgKeygenID kg) "ready" data).

(** Interpolate and send ready to every node. *)
Definition sendReady (site : nat) (kn : KeygenNode) (kg : Keygen) (cID : CID) (c : CRecord)
    : Keygen * list Action * status :=
  run (interpolateBars site c) (setC kg cID c) (fun c' =>
    let '(acts, st) := sendAll (readyMessage kn kg c') (rangeNodes (site + 4) kn) in
    (setC kg cID c', acts, st)).

(** ** The echo message *)

Definition processEchoMessage (kn : KeygenNode) (msg : KeygenMsgEcho) (kg : Keygen) (sender : Node)
    : Keygen * list Action * status :=
  let net := knCurrNodes kn in
  if decide (Phase (kgState kg) = Ended) then (kg, [], Returned)
  else if decide (ReceivedEcho (kgState kg) !! ToNodeDetailsID sender = Some true)
  then run (shortID (ToNodeDetailsID sender)) kg (fun _ => (kg, [], Errored "Already received a echo message"))
  else
    run (AVSSVerifyPoint (ecC msg) (NodeIndex sender) (NodeIndex (knNodeDetails kn))
           (ecAlpha msg) (ecAlphaprime msg) (ecBeta msg) (ecBetaprime msg)) kg (fun verified =>
    if negb verified
    then (kg, [], Errored "could not verify point against commitments for echo message")
    else
      run (logIDs kn sender) kg (fun _ =>
      let cID := GetCIDFromPointMatrix (ecC msg) in
      let c0 := default (newC cID (ecC msg)) (kgCStore kg !! cID) in
      let c := countEcho
        (storePoints c0 sender (ecAlpha msg) (ecAlphaprime msg) (ecBeta msg) (ecBetaprime msg)) in
      if (cEC c =? netEcThreshold net) && (cRC c <? netK net)
      then sendReady 10 kn kg cID c
      else (setC kg cID c, [], Returned))).

(** ** The ready message *)

(** The K+T-th ready: the sharing is complete. *)
Definition finishKeygen (kn : KeygenNode) (kg : Keygen) (cID : CID) (c : CRecord)
    : Keygen * list Action * status :=
  let kg1 := setC kg cID c in
  run (index (cAbar c) 0) kg1 (fun Si =>
  run (index (cAbarprime c) 0) kg1 (fun Siprime =>
    let kg2 := setResult kg1 (cC c) Si Siprime in
    emit [OutputText (kgKeygenID kg ++ " shared.")]
      (run (row ← index (cC c) 0; marshal (mkKeygenMsgComplete (kgKeygenID kg) row)) kg2 (fun data =>
        (setPhase kg2 Ended,
         [Send (knNodeDetails kn) (CreateKeygenMessage NullKeygenID "complete" data)],
         Returned))))).

Definition processReadyMessage (kn : KeygenNode) (msg : KeygenMsgReady) (kg : Keygen) (sender : Node)
    : Keygen * list Action * status :=
  let net := knCurrNodes kn in
  if decide (Phase (kgState kg) = Ended) then (kg, [], Returned)
  else if decide (ReceivedReady (kgState kg) !! ToNodeDetailsID sender = Some true)
  then (kg, [], Errored "Already received a ready message")
  else
    run (AVSSVerifyPoint (rdC msg) (NodeIndex sender) (NodeIndex (knNodeDetails kn))
           (rdAlpha msg) (rdAlphaprime msg) (rdBeta msg) (rdBetaprime msg)) kg (fun verified =>
    if negb verified
    then (kg, [], Errored "could not verify point against commitments for ready message")
    else
      run (C00 ← entry (rdC msg) 0 0;
           ECDSAVerifyBytes (ToBytes (mkSignedTextDetails (readyText kg) C00))
             (PubKey sender) (rdSignedText msg)) kg (fun sigValid =>
      if negb sigValid then (kg, [], Errored "could not verify signature on ready message")
      else
        run (logIDs kn sender) kg (fun _ =>
        let cID := GetCIDFromPointMatrix (rdC msg) in
        let c0 := default (newC cID (rdC msg)) (kgCStore kg !! cID) in
        let c := countReady
          (storePoints c0 sender (rdAlpha msg) (rdAlphaprime msg) (rdBeta msg) (rdBetaprime msg))
          (ToNodeDetailsID sender) (rdSignedText msg) in
        if (cRC c =? netK net) && (cEC c <? netEcThreshold net)
        then sendReady 20 kn kg cID c
        else if cRC c =? netK net + netT net
        then finishKeygen kn kg cID c
        else (setC kg cID c, [], Returned)))).

(** ** The complete message *)

Definition SignedTextToProposeProof (c00 : Point) (st : gmap NodeDetailsID SignedText)
    : gmap NodeDetailsID ProposeProof :=
  (fun text => mkProposeProof text c00) <$> st.

(** [sort.Slice] by [strings.Compare]; the keys of a map are distinct. *)
Fixpoint insertKey (k : string) (l : list string) : list string :=
  match l with
  | [] => [k]
  | x :: l' => if string_ltb x k then x :: insertKey k l' else k :: l
  end.

Definition sortKeys (keys : list string) : list string := foldr insertKey [] keys.

(** The proofs for one decided keygen. *)
Definition proposeProof (kn : KeygenNode) (keygenid : KeygenID) : res (gmap NodeDetailsID ProposeProof) :=
  match knKeygenStore kn !! keygenid with
  | None => Err "Could not get completed keygen"
  | Some None => Err "Already cleaned up"
  | Some (Some kg) =>
      match kgCbar kg with
      | [] => Err "Could not get completed cbar"
      | cbar =>
          match kgCStore kg !! GetCIDFromPointMatrix cbar with
          | None => Err "Could not get completed c"
          | Some c =>
              C00 ← entry (cC c) 0 0;
              Ok (SignedTextToProposeProof C00 (cSignedTextStore c))
          end
      end
  end.

Definition setDMap (d : DKG) (m : gmap KeygenID (list Point)) : DKG :=
  mkDKG (dkgDKGID d) (dkgGS d) (dkgNIZKPStore d) m (dkgSi d) (dkgSiprime d) (dkgDbar d).

Definition processCompleteMessage (kn : KeygenNode) (msg : KeygenMsgComplete)
    (details : KeygenIDDetails) (sender : Node)
    : gmap DKGID (option DKG) * list Action * status :=
  let net := knCurrNodes kn in
  if negb (String.eqb (ToNodeDetailsID sender) (ToNodeDetailsID (knNodeDetails kn)))
  then (knDKGStore kn, [], Errored "This message can only be accepted if its sent to ourselves")
  else
    let dkgID := kidDKGID details in
    match GetOrSetIfNotComplete (knDKGStore kn) dkgID (newDKG dkgID) with
    | (store, None) => (store, [], Returned)
    | (store, Some dkg) =>
        let dkg' := setDMap dkg (<[cmKeygenID msg := cmCommitmentArr msg]> (dkgDMap dkg)) in
        let store' := <[dkgID := Some dkg']> store in
        if negb (Z.of_nat (size (dkgDMap dkg')) =? netK net + netT net)
        then (store', [], Returned)
        else
          run (shortID (ToNodeDetailsID (knNodeDetails kn))) store' (fun _ =>
          let keygens := sortKeys (fst <$> mapRange 30 (dkgDMap dkg')) in
          run (proofs ← mapM (proposeProof kn) keygens;
               marshal (mkKeygenMsgPropose (ToNodeDetailsID (knNodeDetails kn)) dkgID keygens proofs))
            store' (fun data =>
          run (GetIndex dkgID) store' (fun keyIndex =>
          (store', [GoPropose (CreateKeygenMessage NullKeygenID "propose" data) keyIndex dkgID],
           Returned))))
    end.

(** The goroutine of the propose message once it has woken up: the broadcast is
    dropped when the decision has already been processed. *)
Definition proposeGoroutine (dkg : DKG) (msg : KeygenMessage) : list Action :=
  if dkgSi dkg =? 0 then [SendBroadcast msg] else [].

(** The goroutine of the pubkey message; [processed] is the transport's answer. *)
Definition pubKeyGoroutine (processed : bool) (msg : KeygenMessage) : list Action :=
  if processed then [] else [SendBroadcast msg].

(** ** Clean up *)

Definition dkgCleanUp (kn : KeygenNode) (dkgID : DKGID) : KeygenNode :=
  mkKeygenNode (knNodeDetails kn) (knCurrNodes kn) (knNodeIndex kn)
    (<[dkgID := None]> (knShareStore kn)) (<[dkgID := None]> (knDKGStore kn))
    (KeygenStoreComplete (knCurrNodes kn) (knKeygenStore kn) dkgID) (knStaggerDelay kn).

(** ** The NIZKP message *)

(** [getDKGIfDbarExists]: the dkg when its Dbar is in, or why it is not. *)
Inductive dbarState := DbarIn (dkg : DKG) | DbarCleanedUp | DbarNotIn.

Definition getDKGIfDbarExists (kn : KeygenNode) (dkgID : DKGID) : dbarState :=
  match knDKGStore kn !! dkgID with
  | None => DbarNotIn
  | Some None => DbarCleanedUp
  | Some (Some dkg) =>
      match dkgDbar dkg with
      | [] => DbarNotIn
      | _ => DbarIn dkg
      end
  end.

Definition setNIZKP (d : DKG) (id : NodeDetailsID) (p : NIZKP) : DKG :=
  mkDKG (dkgDKGID d) (dkgGS d) (<[id := p]> (dkgNIZKPStore d)) (dkgDMap d) (dkgSi d) (dkgSiprime d)
    (dkgDbar d).

Definition setGS (d : DKG) (GS : Point) : DKG :=
  mkDKG (dkgDKGID d) GS (dkgNIZKPStore d) (dkgDMap d) (dkgSi d) (dkgSiprime d) (dkgDbar d).

Definition setDKG (kn : KeygenNode) (dkgID : DKGID) (d : DKG) : KeygenNode :=
  setDKGStore kn (<[dkgID := Some d]> (knDKGStore kn)).

Definition processNIZKPMessage (kn : KeygenNode) (msg : KeygenMsgNIZKP) (sender : Node)
    : KeygenNode * list Action * status :=
  let p := nzNIZKP msg in
  match getDKGIfDbarExists kn (nzDKGID msg) with
  | DbarCleanedUp => (kn, [], Returned)
  | DbarNotIn => (kn, [], Waiting)
  | DbarIn dkg =>
      if negb (VerifyShareCommitment (nzGSiHSiprime p) (dkgDbar dkg) (nzNodeIndex p))
      then (kn, [], Errored "could not verify share commitment against existing Dbar")
      else
        run (VerifyNIZKPK (nzC p) (nzU1 p) (nzU2 p) (nzGSi p) (nzGSiHSiprime p)) kn (fun verified =>
        if negb verified then (kn, [], Errored "could not verify NIZKP")
        else
          let dkg1 := setNIZKP dkg (ToNodeDetailsID sender) p in
          let kn1 := setDKG kn (nzDKGID msg) dkg1 in
          if negb (Z.of_nat (size (dkgNIZKPStore dkg1)) =? netK (knCurrNodes kn))
          then (kn1, [], Returned)
          else
            let proofs := mapRange 40 (dkgNIZKPStore dkg1) in
            let indexes := (fun ip => NodeIndex (FromNodeDetailsID NodeZero (fst ip))) <$> proofs in
            let points := (fun ip => nzGSi (snd ip)) <$> proofs in
            run (LagrangeCurvePts indexes points) kn1 (fun GS =>
            let dkg2 := setGS dkg1 GS in
            let kn2 := setDKG kn (nzDKGID msg) dkg2 in
            match GetIndex (dkgDKGID dkg2) with
            | Ok keyIndex =>
                emit [OutputText (dkgDKGID dkg2 ++ " nizkp completed");
                      OutputKey (mkKeyStorage keyIndex (dkgSi dkg2) (dkgSiprime dkg2) (dkgDbar dkg2))]
                  (run (marshal (mkKeygenMsgPubKey (ToNodeDetailsID (knNodeDetails kn))
                                   (dkgDKGID dkg2) (snd <$> proofs))) kn2 (fun data =>
                   (dkgCleanUp kn2 (dkgDKGID dkg2),
                    [GoPubKey (CreateKeygenMessage NullKeygenID "pubkey" data) keyIndex],
                    Returned)))
            | _ => (kn2, [], Errored "could not get dkgID Index")
            end))
  end.

(** ** Direct messages *)

Definition keygenResult (kn : KeygenNode) (tape : Tape) (id : KeygenID)
    (r : Keygen * list Action * status) : (KeygenNode * Tape) * list Action * status :=
  let '(kg, acts, st) := r in
  ((setKeygenStore kn (<[id := Some kg]> (knKeygenStore kn)), tape), acts, st).

(** The deferred update of a handler runs on every way out of it. *)
Definition deferred (f : Keygen -> Keygen) (r : Keygen * list Action * status)
    : Keygen * list Action * status :=
  let '(kg, acts, st) := r in (f kg, acts, st).

Definition errUnmarshal : string := "could not unmarshal data".

Definition routeMessage (kn : KeygenNode) (tape : Tape) (sender : Node) (msg : KeygenMessage)
    : (KeygenNode * Tape) * list Action * status :=
  let id := kmKeygenID msg in
  match GetOrSetIfNotComplete (knKeygenStore kn) id (newKeygen id) with
  | (store, None) => ((kn, tape), [], Returned)
  | (store, Some kg) =>
      let kn1 := setKeygenStore kn store in
      if String.eqb (kmMethod msg) "share" then
        match Unmarshal (A := KeygenMsgShare) (kmData msg) with
        | None => ((kn1, tape), [], Errored errUnmarshal)
        | Some m =>
            let '((shares, kg', tape'), acts, st) := processShareMessage kn1 m kg tape in
            ((setShareStore (setKeygenStore kn1 (<[id := Some kg']> store)) shares, tape'), acts, st)
        end
      else if String.eqb (kmMethod msg) "send" then
        match Unmarshal (A := KeygenMsgSend) (kmData msg) with
        | None => ((kn1, tape), [], Errored errUnmarshal)
        | Some m =>
            match FromKeygenID KeygenIDDetailsZero id with
            | (_, Some e) => ((kn1, tape), [], Errored e)
            | (details, None) =>
                keygenResult kn1 tape id (processSendMessage kn1 m kg details sender)
            end
        end
      else if String.eqb (kmMethod msg) "echo" then
        keygenResult kn1 tape id (deferred (fun kg => setReceivedEcho kg (ToNodeDetailsID sender))
          match Unmarshal (A := KeygenMsgEcho) (kmData msg) with
          | None => (kg, [], Errored errUnmarshal)
          | Some m =>
              match FromKeygenID KeygenIDDetailsZero (ecKeygenID m) with
              | (_, Some e) => (kg, [], Errored e)
              | (_, None) => processEchoMessage kn1 m kg sender
              end
          end)
      else if String.eqb (kmMethod msg) "ready" then
        keygenResult kn1 tape id (deferred (fun kg => setReceivedReady kg (ToNodeDetailsID sender))
          match Unmarshal (A := KeygenMsgReady) (kmData msg) with
          | None => (kg, [], Errored errUnmarshal)
          | Some m =>
              match FromKeygenID KeygenIDDetailsZero (rdKeygenID m) with
              | (_, Some e) => (kg, [], Errored e)
              | (_, None) => processReadyMessage kn1 m kg sender
              end
          end)
      else if String.eqb (kmMethod msg) "complete" then
        match Unmarshal (A := KeygenMsgComplete) (kmData msg) with
        | None => ((kn1, tape), [], Errored errUnmarshal)
        | Some m =>
            (* a parse error is logged and the fields are used as they are *)
            let '(details, _) := FromKeygenID KeygenIDDetailsZero (cmKeygenID m) in
            let '(dkgs, acts, st) := processCompleteMessage kn1 m details sender in
            ((setDKGStore kn1 dkgs, tape), acts, st)
        end
      else if String.eqb (kmMethod msg) "nizkp" then
        match Unmarshal (A := KeygenMsgNIZKP) (kmData msg) with
        | None => ((kn1, tape), [], Errored errUnmarshal)
        | Some m =>
            let '(kn2, acts, st) := processNIZKPMessage kn1 m sender in
            ((kn2, tape), acts, st)
        end
      else ((kn1, tape), [], Errored "KeygenMessage method not found")
  end.

(** The ids are logged before anything else is done. *)
Definition ProcessMessage (kn : KeygenNode) (tape : Tape) (sender : Node) (msg : KeygenMessage)
    : (KeygenNode * Tape) * list Action * status :=
  run (logIDs kn sender) (kn, tape) (fun _ => routeMessage kn tape sender msg).

(** ** Broadcast messages *)

(** [getDKGAndKeygensIfKeygensEnded]: (keygens, alreadyCleanUp, keygensEnded). *)
Definition collectKeygens (kn : KeygenNode) (keygenIDs : list KeygenID) : list Keygen * bool * bool :=
  foldl (fun '(keygens, cleaned, ended) keygenID =>
    match knKeygenStore kn !! keygenID with
    | Some None => (keygens, true, ended)
    | None => (keygens, cleaned, false)
    | Some (Some kg) =>
        (keygens ++ [kg], cleaned, if decide (Phase (kgState kg) = Ended) then ended else false)
    end) ([], false, true) keygenIDs.

Definition getDKGAndKeygensIfKeygensEnded (kn : KeygenNode) (dkgID : DKGID) (keygenIDs : list KeygenID)
    : option DKG * list Keygen * bool * bool :=
  match knDKGStore kn !! dkgID with
  | Some None => (None, [], true, true)
  | None => (None, [], false, false)
  | Some (Some dkg) =>
      let '(keygens, cleaned, ended) := collectKeygens kn keygenIDs in
      (Some dkg, keygens, cleaned, ended)
  end.

Definition setDecided (d : DKG) (Dbar : list Point) (Si Siprime : Z) : DKG :=
  mkDKG (dkgDKGID d) (dkgGS d) (dkgNIZKPStore d) (dkgDMap d) Si Siprime Dbar.

(** The columns of the decided commitments. *)
Definition dbarInputs (keygens : list Keygen) : res (list (list Point)) :=
  mapM (fun kg =>
    col ← GetColumnPoint (kgCbar kg) 0;
    match col with
    | [] => Err "Cbar is empty"
    | _ => Ok col
    end) keygens.

(** The body of the decide case once every decided sharing has ended. *)
Definition processDecide (kn : KeygenNode) (tape : Tape) (msg : KeygenMsgDecide) (dkg : DKG)
    (keygens : list Keygen) : (KeygenNode * Tape) * list Action * status :=
  let abar := SumScalars (kgSi <$> keygens) in
  let abarprime := SumScalars (kgSiprime <$> keygens) in
  let s0 := (kn, tape) in
  run (dbarInputs keygens) s0 (fun dbarInputPts =>
  run (AddCommitments dbarInputPts) s0 (fun dkgDbar =>
  let gsi := ScalarBaseMult (Bytes abar) in
  let hsiprime := ScalarMult secp_H (Bytes abarprime) in
  let gsihsiprime := CurveAdd gsi hsiprime in
  if negb (VerifyShareCommitment gsihsiprime dkgDbar (NodeIndex (knNodeDetails kn)))
  then (s0, [], Errored "Could not verify shares against interpolated commitments")
  else
    emit [OutputText (dcDKGID msg ++ " generated")]
    (run (GenerateNIZKPK abar abarprime tape) s0 (fun proof =>
    let '(c, u1, u2, tape') := proof in
    let s1 := (kn, tape') in
    run (marshal (mkKeygenMsgNIZKP (dcDKGID msg)
           (mkNIZKP (NodeIndex (knNodeDetails kn)) c u1 u2 gsi gsihsiprime))) s1 (fun data =>
    let m := CreateKeygenMessage NullKeygenID "nizkp" data in
    ((setDKG kn (dcDKGID msg) (setDecided dkg dkgDbar abar abarprime), tape'),
     (fun n => Send n m) <$> rangeNodes 50 kn, Returned)))))).

(** The node's own id is logged first; [processDecide] logs the same one again. *)
Definition ProcessBroadcastMessage (kn : KeygenNode) (tape : Tape) (msg : KeygenMessage)
    : (KeygenNode * Tape) * list Action * status :=
  run (shortID (ToNodeDetailsID (knNodeDetails kn))) (kn, tape) (fun _ =>
  if String.eqb (kmMethod msg) "decide" then
    match Unmarshal (A := KeygenMsgDecide) (kmData msg) with
    | None => ((kn, tape), [], Errored errUnmarshal)
    | Some m =>
        match getDKGAndKeygensIfKeygensEnded kn (dcDKGID m) (dcKeygens m) with
        | (_, _, true, _) => ((kn, tape), [], Returned)
        | (Some dkg, keygens, false, true) => processDecide kn tape m dkg keygens
        | _ => ((kn, tape), [], Waiting)
        end
    end
  else ((kn, tape), [], Errored "PssMessage method not found")).

End handlers.
