(* ===== verification/KeygenInv.v ===== *)
(** Invariants of the key generation handlers: what the echo and ready counters
    mean, when the interpolated polynomials exist, and that a finished sharing
    rests on a quorum. *)
From Stdlib Require Import Zdivisibility ZArith.
From stdpp Require Import gmap strings.
From S2P Require Import Prelude BigInt Field Curve Pvss Interpolate Avss Nizkpk Ecdsa Ids Effects Keygen.

(** ** The echo threshold *)

Lemma ecThreshold_bounds n k t :
  k <= ecThreshold n k t /\ n + t + 1 <= 2 * ecThreshold n k t.
Proof.
  unfold ecThreshold. pose proof (Z.div_mod (n + t + 1 + 1) 2). pose proof (Z.mod_pos_bound (n + t + 1 + 1) 2).
  destruct (Z.leb_spec k ((n + t + 1 + 1) / 2)); lia.
Qed.

Section inv.
Context {SO : Secp256k1} {SL : Secp256k1Laws} {KC : KeygenCodecs} {TR : Transport}
  {MR : MapRange} {ML : MapRangeLaws}.

Local Abbreviation q := GeneratorOrder.

(** ** A well-formed network *)

Record net_ok (net : NodeNetwork) : Prop := {
  no_key id n : Nodes net !! id = Some n -> ToNodeDetailsID n = id;
  no_int n id : Nodes net !! id = Some n -> in_int64 (NodeIndex n);
  no_distinct id id' n n' :
    Nodes net !! id = Some n -> Nodes net !! id' = Some n' ->
    NodeIndex n ≡[q] NodeIndex n' -> id = id';
  no_K : 1 <= netK net;
  no_T : 0 <= netT net;
  no_N : netN net = Z.of_nat (size (Nodes net));
}.

Definition in_net (net : NodeNetwork) (sender : Node) : Prop :=
  Nodes net !! ToNodeDetailsID sender = Some sender.

(** ** The invariant of one commitment's record *)

Definition c_maps (c : CRecord) : list (gmap NodeDetailsID Point) :=
  [cAC c; cACprime c; cBC c; cBCprime c].

(** [E] is the set of senders whose echo was counted; [re] and [rr] are the maps
    of senders already heard. *)
Record c_core (net : NodeNetwork) (re rr : gmap NodeDetailsID bool) (cid : CID) (c : CRecord)
    (E : gset NodeDetailsID) : Prop := {
  ci_cid : GetCIDFromPointMatrix (cC c) = cid;
  ci_EC : cEC c = Z.of_nat (size E);
  ci_RC : cRC c = Z.of_nat (size (cSignedTextStore c));
  ci_dom m : m ∈ c_maps c -> dom m = E ∪ dom (cSignedTextStore c);
  ci_pts m id p : m ∈ c_maps c -> m !! id = Some p ->
    exists n, Nodes net !! id = Some n /\ PX p = NodeIndex n;
  ci_echo id : id ∈ E -> re !! id = Some true;
  ci_ready id : id ∈ dom (cSignedTextStore c) -> rr !! id = Some true;
}.

(** The interpolated polynomials exist exactly from the moment one of the two
    thresholds is reached. *)
Definition reached (net : NodeNetwork) (c : CRecord) : Prop :=
  netEcThreshold net <= cEC c \/ netK net <= cRC c.

Definition bar_ok (net : NodeNetwork) (c : CRecord) : Prop :=
  (reached net c -> netK net <= Z.of_nat (length (cAbar c)) /\
     netK net <= Z.of_nat (length (cAbarprime c))) /\
  (~ reached net c -> cAbar c = [] /\ cAbarprime c = []).

Record kg_inv (net : NodeNetwork) (kg : Keygen) (Es : CID -> gset NodeDetailsID) : Prop := {
  ki_c cid c : kgCStore kg !! cid = Some c ->
    c_core net (ReceivedEcho (kgState kg)) (ReceivedReady (kgState kg)) cid c (Es cid) /\ bar_ok net c;
  ki_none cid : kgCStore kg !! cid = None -> Es cid = ∅;
  ki_echo_disj cid cid' : cid <> cid' -> Es cid ## Es cid';
  ki_ready_disj cid cid' c c' : cid <> cid' ->
    kgCStore kg !! cid = Some c -> kgCStore kg !! cid' = Some c' ->
    dom (cSignedTextStore c) ## dom (cSignedTextStore c');
}.

Definition kg_ok (net : NodeNetwork) (kg : Keygen) : Prop := exists Es, kg_inv net kg Es.

(** ** Initial and monotone *)

Lemma kg_ok_new net id : kg_ok net (newKeygen id).
Proof. exists (fun _ => ∅). constructor; simpl; try done; set_solver. Qed.

Lemma c_core_mono net re rr re' rr' cid c E :
  (forall id, re !! id = Some true -> re' !! id = Some true) ->
  (forall id, rr !! id = Some true -> rr' !! id = Some true) ->
  c_core net re rr cid c E -> c_core net re' rr' cid c E.
Proof. intros He Hr []. constructor; auto. Qed.

(** Only the stored records and the sets of senders heard matter. *)
Lemma kg_inv_mono net kg kg' Es :
  kgCStore kg' = kgCStore kg ->
  (forall id, ReceivedEcho (kgState kg) !! id = Some true ->
    ReceivedEcho (kgState kg') !! id = Some true) ->
  (forall id, ReceivedReady (kgState kg) !! id = Some true ->
    ReceivedReady (kgState kg') !! id = Some true) ->
  kg_inv net kg Es -> kg_inv net kg' Es.
Proof.
  intros Ec He Hr []. constructor; rewrite ?Ec; auto.
  intros cid c Hc. destruct (ki_c0 cid c Hc). split; [|done]. eapply c_core_mono; eauto.
Qed.

Lemma kg_ok_mono net kg kg' :
  kgCStore kg' = kgCStore kg ->
  (forall id, ReceivedEcho (kgState kg) !! id = Some true ->
    ReceivedEcho (kgState kg') !! id = Some true) ->
  (forall id, ReceivedReady (kgState kg) !! id = Some true ->
    ReceivedReady (kgState kg') !! id = Some true) ->
  kg_ok net kg -> kg_ok net kg'.
Proof. intros Ec He Hr [Es H]. exists Es. by eapply kg_inv_mono. Qed.

Lemma insert_true_mono (m : gmap string bool) i id :
  m !! id = Some true -> <[i := true]> m !! id = Some true.
Proof. destruct (decide (i = id)) as [->|]; simplify_map_eq; done. Qed.

Lemma kg_ok_setReceivedEcho net kg id : kg_ok net kg -> kg_ok net (setReceivedEcho kg id).
Proof. apply kg_ok_mono; simpl; auto using insert_true_mono. Qed.

Lemma kg_ok_setReceivedReady net kg id : kg_ok net kg -> kg_ok net (setReceivedReady kg id).
Proof. apply kg_ok_mono; simpl; auto using insert_true_mono. Qed.

(** ** Adding a sender *)

Lemma storePoints_maps c sender a a' b b' m :
  m ∈ c_maps (storePoints c sender a a' b b') ->
  exists m0 y, m0 ∈ c_maps c /\ m = <[ToNodeDetailsID sender := mkPoint (NodeIndex sender) y]> m0.
Proof.
  unfold c_maps. simpl. rewrite !elem_of_cons, elem_of_nil.
  intros [->|[->|[->|[->|[]]]]]; eexists _, _; (split; [|reflexivity]);
    rewrite !elem_of_cons; tauto.
Qed.

Lemma c_maps_new cid C m : m ∈ c_maps (newC cid C) -> m = ∅.
Proof. unfold c_maps. simpl. rewrite !elem_of_cons, elem_of_nil. tauto. Qed.

(** The record the handlers start from: the stored one or a fresh one. *)
Lemma c_core_start net re rr kg Es C :
  kg_inv net kg Es -> re = ReceivedEcho (kgState kg) -> rr = ReceivedReady (kgState kg) ->
  let cid := GetCIDFromPointMatrix C in
  let c0 := default (newC cid C) (kgCStore kg !! cid) in
  c_core net re rr cid c0 (Es cid).
Proof.
  intros Hinv -> ->. simpl. destruct (kgCStore kg !! GetCIDFromPointMatrix C) as [c|] eqn:E; simpl.
  - by apply (ki_c _ _ _ Hinv).
  - rewrite (ki_none _ _ _ Hinv _ E). constructor; simpl; try done.
    + intros m ->%c_maps_new. set_solver.
    + intros m id p ->%c_maps_new. by rewrite lookup_empty.
Qed.

Lemma bar_ok_start net kg Es C :
  net_ok net -> kg_inv net kg Es ->
  let cid := GetCIDFromPointMatrix C in
  bar_ok net (default (newC cid C) (kgCStore kg !! cid)).
Proof.
  intros Hnet Hinv. simpl. destruct (kgCStore kg !! GetCIDFromPointMatrix C) as [c|] eqn:E; simpl.
  - by apply (ki_c _ _ _ Hinv _ _ E).
  - unfold bar_ok, reached. simpl. split; [|intros _; by split].
    pose proof (ecThreshold_bounds (netN net) (netK net) (netT net)). unfold netEcThreshold.
    pose proof (no_K _ Hnet). lia.
Qed.

Lemma c_core_echo net re rr cid c E sender a a' b b' :
  in_net net sender -> c_core net re rr cid c E -> ToNodeDetailsID sender ∉ E ->
  c_core net (<[ToNodeDetailsID sender := true]> re) rr cid
    (countEcho (storePoints c sender a a' b b')) ({[ToNodeDetailsID sender]} ∪ E).
Proof.
  intros Hs [] Hn. constructor; simpl; try done.
  - rewrite size_union, size_singleton by set_solver. lia.
  - intros m (m0 & y & Hm & ->)%storePoints_maps. rewrite dom_insert_L, (ci_dom0 m0 Hm). set_solver.
  - intros m id p (m0 & y & Hm & ->)%storePoints_maps Hp.
    destruct (decide (ToNodeDetailsID sender = id)) as [<-|Hne]; simplify_map_eq; [by exists sender|].
    apply (ci_pts0 m0); done.
  - intros id [->%elem_of_singleton|Hid]%elem_of_union; simplify_map_eq; [done|].
    auto using insert_true_mono.
Qed.

Lemma c_core_ready net re rr cid c E sender a a' b b' text :
  in_net net sender -> c_core net re rr cid c E ->
  cSignedTextStore c !! ToNodeDetailsID sender = None ->
  c_core net re (<[ToNodeDetailsID sender := true]> rr) cid
    (countReady (storePoints c sender a a' b b') (ToNodeDetailsID sender) text) E.
Proof.
  intros Hs [] Hn. constructor; simpl; try done.
  - rewrite map_size_insert_None by done. lia.
  - intros m (m0 & y & Hm & ->)%storePoints_maps. rewrite !dom_insert_L, (ci_dom0 m0 Hm). set_solver.
  - intros m id p (m0 & y & Hm & ->)%storePoints_maps Hp.
    destruct (decide (ToNodeDetailsID sender = id)) as [<-|Hne]; simplify_map_eq; [by exists sender|].
    apply (ci_pts0 m0); done.
  - intros id. rewrite dom_insert_L. intros [->%elem_of_singleton|Hid]%elem_of_union; simplify_map_eq; [done|].
    auto using insert_true_mono.
Qed.

(** ** Interpolation *)

Lemma c_core_dom_size net re rr cid c E m :
  c_core net re rr cid c E -> m ∈ c_maps c ->
  cEC c <= Z.of_nat (size m) /\ cRC c <= Z.of_nat (size m).
Proof.
  intros [] Hm. rewrite <-size_dom, (ci_dom0 m Hm), ci_EC0, ci_RC0, <-size_dom.
  split; apply inj_le, subseteq_size; set_solver.
Qed.

Lemma GetPointArrayFromMap_perm site (m : gmap NodeDetailsID Point) :
  GetPointArrayFromMap site m ≡ₚ snd <$> map_to_list m.
Proof. unfold GetPointArrayFromMap. by rewrite mapRange_perm. Qed.

Lemma GetPointArrayFromMap_length site m : length (GetPointArrayFromMap site m) = size m.
Proof. by rewrite GetPointArrayFromMap_perm, length_fmap, length_map_to_list. Qed.

(** The abscissae collected are indices of distinct nodes. *)
Lemma collected_distinct net site m :
  net_ok net ->
  (forall id p, m !! id = Some p -> exists n, Nodes net !! id = Some n /\ PX p = NodeIndex n) ->
  distinct q (PX <$> GetPointArrayFromMap site m).
Proof.
  intros Hnet Hm. apply (distinct_perm (PX <$> (snd <$> map_to_list m))).
  { by rewrite GetPointArrayFromMap_perm. }
  assert (forall l : list (string * Point), NoDup l.*1 ->
    (forall id p, (id, p) ∈ l -> m !! id = Some p) -> distinct q (PX <$> l.*2)) as Hgen.
  { induction l as [|[id p] l IH]; intros Hnd Hl; [constructor|]. csimpl in *.
    apply list.NoDup_cons in Hnd as [Hni Hnd]. unfold distinct. csimpl. apply list.NoDup_cons.
    split; [|apply IH; [done|intros; apply Hl; by right]].
    intros (x & Hx & Hin)%list_elem_of_fmap.
    apply list_elem_of_fmap in Hin as (p' & -> & ([id' p''] & -> & Hin)%list_elem_of_fmap).
    destruct (Hm id p) as (n & Hn & Ep); [apply Hl; by left|].
    destruct (Hm id' p'') as (n' & Hn' & Ep'); [apply Hl; by right|].
    simpl in Hx. rewrite Ep, Ep' in Hx.
    assert (id = id') as <-.
    { apply (no_distinct _ Hnet _ _ _ _ Hn Hn'). apply eqm_mod_iff; [|done].
      pose proof order_ge_2. lia. }
    apply Hni, list_elem_of_fmap. by exists (id, p''). }
  apply Hgen; [apply NoDup_fst_map_to_list|]. intros id p. apply elem_of_map_to_list.
Qed.

Lemma interpolate_collected net re rr cid c E m site :
  net_ok net -> c_core net re rr cid c E -> m ∈ c_maps c ->
  exists r, LagrangeInterpolatePolynomial (GetPointArrayFromMap site m) = Ok r /\ length r = size m.
Proof.
  intros Hnet Hc Hm.
  destruct (LagrangeInterpolatePolynomial_spec (GetPointArrayFromMap site m)) as (r & E1 & Hl & _).
  - apply (collected_distinct net); [done|]. intros id p. by apply (ci_pts _ _ _ _ _ _ Hc).
  - exists r. by rewrite Hl, GetPointArrayFromMap_length.
Qed.

(** The interpolations before a ready message return, and change nothing else. *)
Lemma interpolateBars_spec net re rr cid c E site :
  net_ok net -> c_core net re rr cid c E ->
  exists c', interpolateBars site c = Ok c' /\ c_core net re rr cid c' E /\
    cC c' = cC c /\ cEC c' = cEC c /\ cRC c' = cRC c /\ cSignedTextStore c' = cSignedTextStore c /\
    c_maps c' = c_maps c /\
    length (cAbar c') = size (cBC c) /\ length (cAbarprime c') = size (cBCprime c) /\
    length (cBbar c') = size (cAC c) /\ length (cBbarprime c') = size (cACprime c).
Proof.
  intros Hnet Hc. unfold interpolateBars.
  destruct (interpolate_collected net re rr cid c E (cBC c) site Hnet Hc) as (r1 & -> & H1);
    [unfold c_maps; set_solver|].
  destruct (interpolate_collected net re rr cid c E (cBCprime c) (site + 1) Hnet Hc) as (r2 & E2 & H2);
    [unfold c_maps; set_solver|].
  destruct (interpolate_collected net re rr cid c E (cAC c) (site + 2) Hnet Hc) as (r3 & E3 & H3);
    [unfold c_maps; set_solver|].
  destruct (interpolate_collected net re rr cid c E (cACprime c) (site + 3) Hnet Hc) as (r4 & E4 & H4);
    [unfold c_maps; set_solver|].
  cbn [mbind res_bind]. rewrite E2. cbn [mbind res_bind]. rewrite E3. cbn [mbind res_bind].
  rewrite E4. cbn [mbind res_bind]. eexists. split; [done|]. split; [|done].
  destruct Hc. by constructor.
Qed.

(** ** Preservation *)

Lemma kg_inv_echo net kg Es cid c id :
  kg_inv net kg Es -> ReceivedEcho (kgState kg) !! id <> Some true ->
  c_core net (<[id := true]> (ReceivedEcho (kgState kg))) (ReceivedReady (kgState kg)) cid c
    ({[id]} ∪ Es cid) -> bar_ok net c ->
  (forall c0, kgCStore kg !! cid = Some c0 -> cSignedTextStore c = cSignedTextStore c0) ->
  (kgCStore kg !! cid = None -> cSignedTextStore c = ∅) ->
  kg_ok net (setReceivedEcho (setC kg cid c) id).
Proof.
  intros Hinv Hid Hc Hbar Hst Hst0.
  assert (forall x, id ∉ Es x) as Hfresh.
  { intros x Hx. destruct (kgCStore kg !! x) as [cx|] eqn:Ex.
    - apply (ki_c _ _ _ Hinv) in Ex as [Hcx _]. by apply Hid, (ci_echo _ _ _ _ _ _ Hcx).
    - rewrite (ki_none _ _ _ Hinv _ Ex) in Hx. set_solver. }
  assert (forall x cx, x <> cid -> kgCStore kg !! x = Some cx ->
    dom (cSignedTextStore cx) ## dom (cSignedTextStore c)) as Hdisj.
  { intros x cx Hne Hx. destruct (kgCStore kg !! cid) as [c0|] eqn:E0.
    - rewrite (Hst c0) by done. by apply (ki_ready_disj _ _ _ Hinv x cid).
    - rewrite Hst0, dom_empty_L by done. set_solver. }
  exists (fun x => if decide (x = cid) then {[id]} ∪ Es cid else Es x). constructor; simpl.
  - intros x cx. case_decide as Hx; [subst x; rewrite lookup_insert_eq; by intros [= <-]|].
    rewrite lookup_insert_ne by done. intros [Hcx Hb]%(ki_c _ _ _ Hinv). split; [|done].
    eapply c_core_mono; [| |exact Hcx]; auto using insert_true_mono.
  - intros x. case_decide as Hx; [subst x; by rewrite lookup_insert_eq|].
    rewrite lookup_insert_ne by done. apply (ki_none _ _ _ Hinv).
  - intros x y Hne. pose proof (ki_echo_disj _ _ _ Hinv) as Hd.
    repeat case_decide; subst; try done; [|symmetry|by apply Hd];
      apply disjoint_union_l; (split; [apply disjoint_singleton_l, Hfresh|by apply Hd]).
  - intros x y cx cy Hne. destruct (decide (x = cid)) as [->|Hx], (decide (y = cid)) as [->|Hy];
      rewrite ?lookup_insert_eq, ?lookup_insert_ne by done; try done.
    + intros [= <-] Hy'. symmetry. eauto.
    + intros Hx' [= <-]. eauto.
    + by apply (ki_ready_disj _ _ _ Hinv).
Qed.

Lemma kg_inv_ready net kg Es cid c id :
  kg_inv net kg Es -> ReceivedReady (kgState kg) !! id <> Some true ->
  c_core net (ReceivedEcho (kgState kg)) (<[id := true]> (ReceivedReady (kgState kg))) cid c
    (Es cid) -> bar_ok net c ->
  (forall c0, kgCStore kg !! cid = Some c0 ->
    dom (cSignedTextStore c) = {[id]} ∪ dom (cSignedTextStore c0)) ->
  (kgCStore kg !! cid = None -> dom (cSignedTextStore c) = {[id]}) ->
  kg_ok net (setReceivedReady (setC kg cid c) id).
Proof.
  intros Hinv Hid Hc Hbar Hst Hst0.
  assert (forall x cx, kgCStore kg !! x = Some cx -> id ∉ dom (cSignedTextStore cx)) as Hfresh.
  { intros x cx [Hcx _]%(ki_c _ _ _ Hinv) Hx. by apply Hid, (ci_ready _ _ _ _ _ _ Hcx). }
  assert (forall x cx, x <> cid -> kgCStore kg !! x = Some cx ->
    dom (cSignedTextStore cx) ## dom (cSignedTextStore c)) as Hdisj.
  { intros x cx Hne Hx. pose proof (Hfresh x cx Hx). destruct (kgCStore kg !! cid) as [c0|] eqn:E0.
    - rewrite (Hst c0) by done. pose proof (ki_ready_disj _ _ _ Hinv x cid cx c0 Hne Hx E0). set_solver.
    - rewrite Hst0 by done. set_solver. }
  exists Es. constructor; simpl.
  - intros x cx. destruct (decide (x = cid)) as [->|Hx]; [rewrite lookup_insert_eq; by intros [= <-]|].
    rewrite lookup_insert_ne by done. intros [Hcx Hb]%(ki_c _ _ _ Hinv). split; [|done].
    eapply c_core_mono; [| |exact Hcx]; auto using insert_true_mono.
  - intros x. destruct (decide (x = cid)) as [->|Hx]; [by rewrite lookup_insert_eq|].
    rewrite lookup_insert_ne by done. apply (ki_none _ _ _ Hinv).
  - apply (ki_echo_disj _ _ _ Hinv).
  - intros x y cx cy Hne. destruct (decide (x = cid)) as [->|Hx], (decide (y = cid)) as [->|Hy];
      rewrite ?lookup_insert_eq, ?lookup_insert_ne by done; try done.
    + intros [= <-] Hy'. symmetry. eauto.
    + intros Hx' [= <-]. eauto.
    + by apply (ki_ready_disj _ _ _ Hinv).
Qed.

(** ** The shapes of the handlers' results *)

(** The record after an echo, or a ready, has been stored and counted. *)
Definition echoed (kg : Keygen) (msg : KeygenMsgEcho) (sender : Node) : CRecord :=
  let cID := GetCIDFromPointMatrix (ecC msg) in
  countEcho (storePoints (default (newC cID (ecC msg)) (kgCStore kg !! cID)) sender
    (ecAlpha msg) (ecAlphaprime msg) (ecBeta msg) (ecBetaprime msg)).

Definition readied (kg : Keygen) (msg : KeygenMsgReady) (sender : Node) : CRecord :=
  let cID := GetCIDFromPointMatrix (rdC msg) in
  countReady (storePoints (default (newC cID (rdC msg)) (kgCStore kg !! cID)) sender
    (rdAlpha msg) (rdAlphaprime msg) (rdBeta msg) (rdBetaprime msg))
    (ToNodeDetailsID sender) (rdSignedText msg).

Lemma interpolateBars_no_Err site c e : interpolateBars site c <> Err e.
Proof.
  unfold interpolateBars. intros E.
  repeat match type of E with
  | mbind _ (LagrangeInterpolatePolynomial ?l) = _ =>
      pose proof (LagrangeInterpolatePolynomial_no_Err l);
      destruct (LagrangeInterpolatePolynomial l); cbn [mbind res_bind] in E
  end; naive_solver.
Qed.

Lemma sendReady_cases site kn kg cID c kg' acts st :
  sendReady site kn kg cID c = (kg', acts, st) ->
  (kg' = setC kg cID c /\ acts = [] /\ interpolateBars site c = Panic /\ st = Panicked) \/
  exists c', interpolateBars site c = Ok c' /\ kg' = setC kg cID c' /\
    sendAll (readyMessage kn kg c') (rangeNodes (site + 4) kn) = (acts, st).
Proof.
  unfold sendReady, run. destruct (interpolateBars site c) as [c'|e|] eqn:E.
  - destruct (sendAll _ _) as [acts' st'] eqn:Es. intros [= <- <- <-]. right. eauto.
  - by apply interpolateBars_no_Err in E.
  - intros [= <- <- <-]. by left.
Qed.

Lemma processEcho_cases kn msg kg sender kg' acts st :
  processEchoMessage kn msg kg sender = (kg', acts, st) ->
  (kg' = kg /\ acts = []) \/
  (Phase (kgState kg) <> Ended /\ ReceivedEcho (kgState kg) !! ToNodeDetailsID sender <> Some true /\
   AVSSVerifyPoint (ecC msg) (NodeIndex sender) (NodeIndex (knNodeDetails kn))
     (ecAlpha msg) (ecAlphaprime msg) (ecBeta msg) (ecBetaprime msg) = Ok true /\
   let cID := GetCIDFromPointMatrix (ecC msg) in
   let c := echoed kg msg sender in
   (~ (cEC c = netEcThreshold (knCurrNodes kn) /\ cRC c < netK (knCurrNodes kn)) /\
      kg' = setC kg cID c /\ acts = [] /\ st = Returned) \/
   (cEC c = netEcThreshold (knCurrNodes kn) /\ cRC c < netK (knCurrNodes kn) /\
      sendReady 10 kn kg cID c = (kg', acts, st))).
Proof.
  unfold processEchoMessage. case_decide as Hp; [intros [= <- <- <-]; by left|].
  case_decide as Hr; [intros [[-> ->]|(? & _ & [= <- <- <-])]%run_inv; by left|]. unfold run at 1.
  destruct (AVSSVerifyPoint _ _ _ _ _ _ _) as [[]|e|] eqn:Ev; simpl negb; cbv iota;
    [|intros [= <- <- <-]; by left..].
  fold (echoed kg msg sender). intros [[-> ->]|(? & _ & H)]%run_inv; [by left|]. right. do 3 (split; [done|]).
  destruct ((cEC (echoed kg msg sender) =? netEcThreshold (knCurrNodes kn)) &&
    (cRC (echoed kg msg sender) <? netK (knCurrNodes kn))) eqn:Eb.
  - apply andb_true_iff in Eb as [E1%Z.eqb_eq E2%Z.ltb_lt]. right. auto.
  - left. injection H as <- <- <-. split; [|done]. intros [E1 E2].
    apply Z.eqb_eq in E1. apply Z.ltb_lt in E2. by rewrite E1, E2 in Eb.
Qed.

(** Finishing only adds the record and the results. *)
Lemma finishKeygen_frame kn kg cID c kg' acts st :
  finishKeygen kn kg cID c = (kg', acts, st) ->
  kgCStore kg' = <[cID := c]> (kgCStore kg) /\ kgKeygenID kg' = kgKeygenID kg /\
  ReceivedEcho (kgState kg') = ReceivedEcho (kgState kg) /\
  ReceivedReady (kgState kg') = ReceivedReady (kgState kg) /\
  (Phase (kgState kg') = Phase (kgState kg) \/
   Phase (kgState kg') = Ended /\ kgCbar kg' = cC c /\
   head (cAbar c) = Some (kgSi kg') /\ head (cAbarprime c) = Some (kgSiprime kg')).
Proof.
  unfold finishKeygen, run.
  destruct (index (cAbar c) 0) as [Si|e|] eqn:E1; [|intros [= <- _ _]; simpl; auto 6..].
  destruct (index (cAbarprime c) 0) as [Si'|e|] eqn:E2; [|intros [= <- _ _]; simpl; auto 6..].
  unfold emit. destruct (_ ≫= _) as [data|e|]; intros [= <- _ _]; simpl; auto 6.
  apply index_Ok in E1, E2. split_and!; try done. right. split_and!; try done.
  - by destruct (cAbar c).
  - by destruct (cAbarprime c).
Qed.

Lemma processReady_cases kn msg kg sender kg' acts st :
  processReadyMessage kn msg kg sender = (kg', acts, st) ->
  (kg' = kg /\ acts = []) \/
  (Phase (kgState kg) <> Ended /\ ReceivedReady (kgState kg) !! ToNodeDetailsID sender <> Some true /\
   AVSSVerifyPoint (rdC msg) (NodeIndex sender) (NodeIndex (knNodeDetails kn))
     (rdAlpha msg) (rdAlphaprime msg) (rdBeta msg) (rdBetaprime msg) = Ok true /\
   (exists C00, entry (rdC msg) 0 0 = Ok C00 /\
     ECDSAVerifyBytes (ToBytes (mkSignedTextDetails (readyText kg) C00)) (PubKey sender)
       (rdSignedText msg) = Ok true) /\
   let cID := GetCIDFromPointMatrix (rdC msg) in
   let c := readied kg msg sender in
   let ready := cRC c = netK (knCurrNodes kn) /\ cEC c < netEcThreshold (knCurrNodes kn) in
   let finish := cRC c = netK (knCurrNodes kn) + netT (knCurrNodes kn) in
   (~ ready /\ ~ finish /\ kg' = setC kg cID c /\ acts = [] /\ st = Returned) \/
   (~ ready /\ finish /\ finishKeygen kn kg cID c = (kg', acts, st)) \/
   (ready /\ sendReady 20 kn kg cID c = (kg', acts, st))).
Proof.
  unfold processReadyMessage. case_decide as Hp; [intros [= <- <- <-]; by left|].
  case_decide as Hr; [intros [= <- <- <-]; by left|]. unfold run at 1 2.
  destruct (AVSSVerifyPoint _ _ _ _ _ _ _) as [[]|e|] eqn:Ev; simpl negb; cbv iota;
    [|intros [= <- <- <-]; by left..].
  destruct (entry (rdC msg) 0 0) as [C00|e|] eqn:EC; cbn [mbind res_bind];
    [|intros [= <- <- <-]; by left..].
  destruct (ECDSAVerifyBytes _ _ _) as [[]|e|] eqn:Es; simpl negb; cbv iota;
    [|intros [= <- <- <-]; by left..].
  fold (readied kg msg sender). intros [[-> ->]|(? & _ & H)]%run_inv; [by left|]. right. do 3 (split; [done|]). split; [by eexists|].
  cbv zeta. set (c := readied kg msg sender) in *.
  destruct (Z.eqb_spec (cRC c) (netK (knCurrNodes kn))) as [E1|E1],
    (Z.ltb_spec (cEC c) (netEcThreshold (knCurrNodes kn))) as [E2|E2]; cbn [andb] in H;
    [by right; right| |..];
    (destruct (Z.eqb_spec (cRC c) (netK (knCurrNodes kn) + netT (knCurrNodes kn))) as [E3|E3];
     [right; left; split; [lia|done] | left; injection H as <- <- <-; split_and!; auto; lia]).
Qed.

(** What a handler leaves of the counted record [c]: itself, or, at the threshold,
    the record with the interpolated polynomials. *)
Definition stored_bars (reach : Prop) (c c' : CRecord) : Prop :=
  (~ reach /\ c' = c) \/
  (reach /\ exists site, interpolateBars site c = Panic /\ c' = c \/ interpolateBars site c = Ok c').

(** The keygen after an echo, and after a ready, that has been counted. *)
Definition echo_stored (net : NodeNetwork) (kg : Keygen) (msg : KeygenMsgEcho) (sender : Node)
    (kg' : Keygen) : Prop :=
  let c := echoed kg msg sender in
  exists c', kg' = setC kg (GetCIDFromPointMatrix (ecC msg)) c' /\
    stored_bars (cEC c = netEcThreshold net /\ cRC c < netK net) c c'.

Definition ready_stored (net : NodeNetwork) (kg : Keygen) (msg : KeygenMsgReady) (sender : Node)
    (kg' : Keygen) : Prop :=
  let c := readied kg msg sender in
  exists c', kgCStore kg' = <[GetCIDFromPointMatrix (rdC msg) := c']> (kgCStore kg) /\
    kgKeygenID kg' = kgKeygenID kg /\
    ReceivedEcho (kgState kg') = ReceivedEcho (kgState kg) /\
    ReceivedReady (kgState kg') = ReceivedReady (kgState kg) /\
    stored_bars (cRC c = netK net /\ cEC c < netEcThreshold net) c c' /\
    (Phase (kgState kg') = Phase (kgState kg) \/
     Phase (kgState kg') = Ended /\ cRC c' = netK net + netT net /\ kgCbar kg' = cC c' /\
     head (cAbar c') = Some (kgSi kg') /\ head (cAbarprime c') = Some (kgSiprime kg')).

Lemma processEcho_stored kn msg kg sender kg' acts st :
  processEchoMessage kn msg kg sender = (kg', acts, st) ->
  kg' = kg \/ (Phase (kgState kg) <> Ended /\ ReceivedEcho (kgState kg) !! ToNodeDetailsID sender <> Some true /\
    echo_stored (knCurrNodes kn) kg msg sender kg').
Proof.
  intros [[-> _]|(Hp & Hid & _ & H)]%processEcho_cases; [by left|]. right. do 2 (split; [done|]).
  destruct H as [(Hno & -> & _)|(E1 & E2 & H)]; [eexists; split; [done|by left]|].
  apply sendReady_cases in H as [(-> & _ & Hp' & _)|(c' & E & -> & _)]; eexists; (split; [done|]);
    right; (split; [done|]); exists 10%nat; auto.
Qed.

Lemma processReady_stored kn msg kg sender kg' acts st :
  processReadyMessage kn msg kg sender = (kg', acts, st) ->
  kg' = kg \/ (Phase (kgState kg) <> Ended /\ ReceivedReady (kgState kg) !! ToNodeDetailsID sender <> Some true /\
    ready_stored (knCurrNodes kn) kg msg sender kg').
Proof.
  intros [[-> _]|(Hp & Hid & _ & _ & H)]%processReady_cases; [by left|]. right. do 2 (split; [done|]).
  destruct H as [(Hno & _ & -> & _)|[(Hno & Hf & H)|(Hre & H)]].
  - eexists. split_and!; try done; [by left|by left].
  - apply finishKeygen_frame in H as (Hc & Hi & He & Hr & Hph). eexists. split_and!; [done..|by left|].
    destruct Hph as [->|(-> & -> & Hh & Hh')]; [by left|by right].
  - apply sendReady_cases in H as [(-> & _ & Hp' & _)|(c' & E & -> & _)]; eexists;
      (split_and!; [done..| |by left]); right; (split; [done|]); exists 20%nat; auto.
Qed.

(** ** The echo and ready handlers preserve the invariant *)

Lemma bar_ok_reached net re rr cid c E c' :
  c_core net re rr cid c E -> reached net c -> c_maps c' = c_maps c ->
  cEC c' = cEC c -> cRC c' = cRC c ->
  length (cAbar c') = size (cBC c) -> length (cAbarprime c') = size (cBCprime c) -> bar_ok net c'.
Proof.
  intros Hc Hre Hm HE HR H1 H2.
  pose proof (ecThreshold_bounds (netN net) (netK net) (netT net)) as [Hk _].
  destruct (c_core_dom_size _ _ _ _ _ _ (cBC c) Hc) as [? ?]; [unfold c_maps; set_solver|].
  destruct (c_core_dom_size _ _ _ _ _ _ (cBCprime c) Hc) as [? ?]; [unfold c_maps; set_solver|].
  unfold bar_ok, reached, netEcThreshold in *. rewrite HE, HR, H1, H2. split; [lia|tauto].
Qed.

(** Counting without reaching a threshold keeps the polynomials as they are. *)
Lemma bar_ok_count net c0 c :
  bar_ok net c0 -> cAbar c = cAbar c0 -> cAbarprime c = cAbarprime c0 ->
  (reached net c <-> reached net c0) -> bar_ok net c.
Proof. unfold bar_ok. intros [H1 H2] -> -> Hiff. rewrite Hiff. done. Qed.

(** The record after the new sender has been counted. *)
Lemma echoed_core net kg Es msg sender :
  kg_inv net kg Es -> in_net net sender ->
  ReceivedEcho (kgState kg) !! ToNodeDetailsID sender <> Some true ->
  c_core net (<[ToNodeDetailsID sender := true]> (ReceivedEcho (kgState kg)))
    (ReceivedReady (kgState kg)) (GetCIDFromPointMatrix (ecC msg)) (echoed kg msg sender)
    ({[ToNodeDetailsID sender]} ∪ Es (GetCIDFromPointMatrix (ecC msg))).
Proof.
  intros Hinv Hs Hid. apply c_core_echo; [done|by apply c_core_start|]. intros Hin.
  destruct (kgCStore kg !! GetCIDFromPointMatrix (ecC msg)) as [cx|] eqn:Ex.
  - apply (ki_c _ _ _ Hinv) in Ex as [Hcx _]. by apply Hid, (ci_echo _ _ _ _ _ _ Hcx).
  - rewrite (ki_none _ _ _ Hinv _ Ex) in Hin. set_solver.
Qed.

Lemma readied_core net kg Es msg sender :
  kg_inv net kg Es -> in_net net sender ->
  ReceivedReady (kgState kg) !! ToNodeDetailsID sender <> Some true ->
  c_core net (ReceivedEcho (kgState kg))
    (<[ToNodeDetailsID sender := true]> (ReceivedReady (kgState kg)))
    (GetCIDFromPointMatrix (rdC msg)) (readied kg msg sender) (Es (GetCIDFromPointMatrix (rdC msg))).
Proof.
  intros Hinv Hs Hid.
  pose proof (c_core_start net _ _ kg Es (rdC msg) Hinv eq_refl eq_refl) as Hc0. cbv zeta in Hc0.
  apply c_core_ready; [done..|]. apply not_elem_of_dom. intros Hin.
  by apply Hid, (ci_ready _ _ _ _ _ _ Hc0).
Qed.

Lemma stored_bars_ok net re rr cid c c' E (reach : Prop) :
  net_ok net -> c_core net re rr cid c E -> (reach -> reached net c) ->
  (~ reach -> bar_ok net c) -> stored_bars reach c c' ->
  c_core net re rr cid c' E /\ bar_ok net c' /\ cSignedTextStore c' = cSignedTextStore c.
Proof.
  intros Hnet Hc Hre Hno [[Hn ->]|[Hr (site & Hs)]]; [auto|].
  destruct (interpolateBars_spec net _ _ _ _ _ site Hnet Hc)
    as (c1 & Ec1 & Hc1 & HC & HE & HR & HS & HM & HA & HA' & _).
  destruct Hs as [[Hp _]|E1]; [by rewrite Ec1 in Hp|]. rewrite Ec1 in E1. injection E1 as <-.
  split_and!; [done| |done]. apply (bar_ok_reached net _ _ _ _ _ c1 Hc); auto.
Qed.

Lemma echo_stored_ok net kg msg sender kg' :
  net_ok net -> in_net net sender -> kg_ok net kg ->
  ReceivedEcho (kgState kg) !! ToNodeDetailsID sender <> Some true ->
  echo_stored net kg msg sender kg' -> kg_ok net (setReceivedEcho kg' (ToNodeDetailsID sender)).
Proof.
  intros Hnet Hs [Es Hinv] Hid (c' & -> & Hb). set (cID := GetCIDFromPointMatrix (ecC msg)) in *.
  set (c0 := default (newC cID (ecC msg)) (kgCStore kg !! cID)).
  pose proof (echoed_core net kg Es msg sender Hinv Hs Hid) as Hc. fold cID in Hc.
  pose proof (bar_ok_start net kg Es (ecC msg) Hnet Hinv) as Hb0. cbv zeta in Hb0.
  assert (cEC (echoed kg msg sender) = cEC c0 + 1) as HEC by done.
  assert (cRC (echoed kg msg sender) = cRC c0) as HRC by done.
  edestruct (stored_bars_ok net) as (Hc' & Hbar & HS); [exact Hnet|exact Hc| | |exact Hb|].
  { unfold reached. lia. }
  { intros Hno. apply (bar_ok_count net c0); [done..|]. unfold reached. lia. }
  change (cSignedTextStore (echoed kg msg sender)) with (cSignedTextStore c0) in HS. unfold c0 in HS.
  apply (kg_inv_echo net kg Es); try done; rewrite HS; [by intros c1 ->|by intros ->].
Qed.

Lemma ready_stored_ok net kg msg sender kg' :
  net_ok net -> in_net net sender -> kg_ok net kg ->
  ReceivedReady (kgState kg) !! ToNodeDetailsID sender <> Some true ->
  ready_stored net kg msg sender kg' -> kg_ok net (setReceivedReady kg' (ToNodeDetailsID sender)).
Proof.
  intros Hnet Hs [Es Hinv] Hid (c' & Hcs & _ & He & Hr & Hb & _).
  set (cID := GetCIDFromPointMatrix (rdC msg)) in *.
  set (c0 := default (newC cID (rdC msg)) (kgCStore kg !! cID)).
  pose proof (readied_core net kg Es msg sender Hinv Hs Hid) as Hc. fold cID in Hc.
  pose proof (bar_ok_start net kg Es (rdC msg) Hnet Hinv) as Hb0. cbv zeta in Hb0.
  assert (cEC (readied kg msg sender) = cEC c0) as HEC by done.
  assert (cRC (readied kg msg sender) = cRC c0 + 1) as HRC by done.
  edestruct (stored_bars_ok net) as (Hc' & Hbar & HS); [exact Hnet|exact Hc| | |exact Hb|].
  { unfold reached. lia. }
  { intros Hno. apply (bar_ok_count net c0); [done..|]. unfold reached. lia. }
  apply (kg_ok_mono net (setReceivedReady (setC kg cID c') (ToNodeDetailsID sender)));
    simpl; rewrite ?He, ?Hr; try done.
  apply (kg_inv_ready net kg Es); try done; rewrite HS; simpl; rewrite dom_insert_L; fold cID;
    [by intros c1 ->|intros ->; simpl; set_solver].
Qed.

Lemma echo_preserves net kn msg kg sender kg' acts st :
  net_ok net -> knCurrNodes kn = net -> in_net net sender -> kg_ok net kg ->
  processEchoMessage kn msg kg sender = (kg', acts, st) ->
  kg_ok net (setReceivedEcho kg' (ToNodeDetailsID sender)).
Proof.
  intros Hnet <- Hs Hok [->|(_ & Hid & H)]%processEcho_stored; [by apply kg_ok_setReceivedEcho|].
  by eapply echo_stored_ok.
Qed.

Lemma ready_preserves net kn msg kg sender kg' acts st :
  net_ok net -> knCurrNodes kn = net -> in_net net sender -> kg_ok net kg ->
  processReadyMessage kn msg kg sender = (kg', acts, st) ->
  kg_ok net (setReceivedReady kg' (ToNodeDetailsID sender)).
Proof.
  intros Hnet <- Hs Hok [->|(_ & Hid & H)]%processReady_stored; [by apply kg_ok_setReceivedReady|].
  by eapply ready_stored_ok.
Qed.

End inv.
