(* ===== verification/KeygenReach.v ===== *)
(** The node's state over any sequence of messages: reachability, the invariant of
    every keygen it stores, and the safety properties that follow from it. *)
From Stdlib Require Import Zdivisibility ZArith.
From stdpp Require Import gmap strings.
From S2P Require Import Prelude BigInt Field Curve Pvss Interpolate Avss Nizkpk Ecdsa Ids Effects Keygen KeygenInv.

Section node.
Context {SO : Secp256k1} {SL : Secp256k1Laws} {KC : KeygenCodecs} {TR : Transport}.

(** ** Invariants beside the counters *)

(** Every stored signature is by the node it is stored under, on the ready text of
    this keygen and the first entry of a matrix with this id. *)
Definition sig_ok (net : NodeNetwork) (kg : Keygen) : Prop :=
  forall cid c id text, kgCStore kg !! cid = Some c -> cSignedTextStore c !! id = Some text ->
  exists n C C00, Nodes net !! id = Some n /\ GetCIDFromPointMatrix C = cid /\
    entry C 0 0 = Ok C00 /\
    ECDSAVerifyBytes (ToBytes (mkSignedTextDetails (readyText kg) C00)) (PubKey n) text = Ok true.

(** What a finished keygen rests on. *)
Definition ended_ok (net : NodeNetwork) (kg : Keygen) : Prop :=
  Phase (kgState kg) = Ended ->
  exists c, kgCStore kg !! GetCIDFromPointMatrix (kgCbar kg) = Some c /\ cC c = kgCbar kg /\
    netK net + netT net <= cRC c /\
    head (cAbar c) = Some (kgSi kg) /\ head (cAbarprime c) = Some (kgSiprime kg).

Record kg_good (net : NodeNetwork) (id : KeygenID) (kg : Keygen) : Prop := {
  kgg_ok : kg_ok net kg;
  kgg_sig : sig_ok net kg;
  kgg_ended : ended_ok net kg;
  kgg_id : kgKeygenID kg = id;
}.

Definition store_good (net : NodeNetwork) (store : gmap KeygenID (option Keygen)) : Prop :=
  forall id kg, store !! id = Some (Some kg) -> kg_good net id kg.

Record node_ok (net : NodeNetwork) (kn : KeygenNode) : Prop := {
  node_net : knCurrNodes kn = net;
  node_store : store_good net (knKeygenStore kn);
}.

Lemma kg_good_new net id : kg_good net id (newKeygen id).
Proof.
  constructor; [apply kg_ok_new| | |done].
  - intros cid c i text H. simpl in H. by rewrite lookup_empty in H.
  - by intros H.
Qed.

(** Cleaning up only completes entries. *)
Lemma KeygenStoreComplete_lookup net store dkgID id kg :
  KeygenStoreComplete net store dkgID !! id = Some (Some kg) -> store !! id = Some (Some kg).
Proof.
  unfold KeygenStoreComplete. revert id kg.
  refine (map_fold_weak_ind (fun (acc : gmap string (option Keygen)) _ => forall id kg,
    acc !! id = Some (Some kg) -> store !! id = Some (Some kg)) _ _ _ _ (Nodes net)); [done|].
  intros i n m acc _ IH id kg H.
  destruct (decide (ToKeygenID (mkKeygenIDDetails dkgID (NodeIndex n)) = id)) as [E|Hne].
  - by rewrite E, lookup_insert_eq in H.
  - rewrite lookup_insert_ne in H by done. by apply IH.
Qed.

(** A step that leaves the records as they are and forgets no sender. *)
Definition kg_frame (kg kg' : Keygen) : Prop :=
  kgCStore kg' = kgCStore kg /\ kgKeygenID kg' = kgKeygenID kg /\
  (forall id, ReceivedEcho (kgState kg) !! id = Some true ->
    ReceivedEcho (kgState kg') !! id = Some true) /\
  (forall id, ReceivedReady (kgState kg) !! id = Some true ->
    ReceivedReady (kgState kg') !! id = Some true) /\
  (Phase (kgState kg') = Ended -> Phase (kgState kg) = Ended /\ kgCbar kg' = kgCbar kg /\
    kgSi kg' = kgSi kg /\ kgSiprime kg' = kgSiprime kg) /\
  kgCbar kg' = kgCbar kg.

Lemma kg_frame_echo kg id : kg_frame kg (setReceivedEcho kg id).
Proof. split_and!; simpl; auto using insert_true_mono. Qed.

Lemma kg_frame_ready kg id : kg_frame kg (setReceivedReady kg id).
Proof. split_and!; simpl; auto using insert_true_mono. Qed.

Lemma kg_good_frame net id kg kg' : kg_frame kg kg' -> kg_good net id kg -> kg_good net id kg'.
Proof.
  intros (Hc & Hi & He & Hr & Hend) [H1 H2 H3 H4]. constructor.
  - by apply (kg_ok_mono net kg).
  - unfold sig_ok, readyText. rewrite Hc, Hi. apply H2.
  - intros (Hp & -> & -> & ->)%Hend. rewrite Hc. by apply H3.
  - by rewrite Hi.
Qed.

Context {MR : MapRange} {ML : MapRangeLaws}.

Lemma processShare_frame kn msg kg tape store' kg' tape' acts st :
  processShareMessage kn msg kg tape = ((store', kg', tape'), acts, st) -> kg_frame kg kg'.
Proof.
  assert (kg_frame kg kg) as Hrefl by (by split_and!).
  unfold processShareMessage. case_decide as Hp; [by intros [= <- <- <- <- <-]|].
  cbn [RandomBigInt]. destruct (GetOrSetIfNotComplete _ _ _) as [store1 [sh|]];
    [|by intros [= <- <- <- <- <-]].
  destruct ((shS sh =? 0) || (shSprime sh =? 0)); [by intros [= <- <- <- <- <-]|]. unfold run.
  destruct (GenerateRandomBivariatePolynomial _ _ _) as [[F t1]|e|]; [|by intros [= <- <- <- <- <-]..].
  destruct (GenerateRandomBivariatePolynomial _ _ _) as [[F' t2]|e|]; [|by intros [= <- <- <- <- <-]..].
  destruct (GetCommitmentMatrix _ _) as [C|e|]; [|by intros [= <- <- <- <- <-]..].
  destruct (sendAll _ _) as [acts1 []]; intros [= <- <- <- <- <-]; split_and!; simpl; try done;
    intros He; by destruct Hp.
Qed.

Lemma processSend_frame kn msg kg details sender kg' acts st :
  processSendMessage kn msg kg details sender = (kg', acts, st) -> kg_frame kg kg'.
Proof.
  assert (kg_frame kg kg) as Hrefl by (by split_and!).
  unfold processSendMessage. case_decide; [by intros [= <- _ _]|].
  destruct (negb _); [by intros [= <- _ _]|]. unfold run at 1.
  destruct (AVSSVerifyPoly _ _ _ _ _ _) as [b|e|]; [|by intros [= <- _ _]..].
  destruct (negb b); [by intros [= <- _ _]|]. intros [[-> _]|(? & _ & Hs)]%run_inv; [by split_and!|].
  revert Hs. destruct (sendAll _ _). by intros [= <- _ _].
Qed.

(** ** Preservation of the signature and completion invariants *)

Lemma sig_ok_set net kg kg' cid c :
  sig_ok net kg -> kgKeygenID kg' = kgKeygenID kg -> kgCStore kg' = <[cid := c]> (kgCStore kg) ->
  (forall id text, cSignedTextStore c !! id = Some text ->
    (exists c0, kgCStore kg !! cid = Some c0 /\ cSignedTextStore c0 !! id = Some text) \/
    exists n C C00, Nodes net !! id = Some n /\ GetCIDFromPointMatrix C = cid /\ entry C 0 0 = Ok C00 /\
      ECDSAVerifyBytes (ToBytes (mkSignedTextDetails (readyText kg) C00)) (PubKey n) text = Ok true) ->
  sig_ok net kg'.
Proof.
  intros Hs Hi Hc Hnew. unfold sig_ok, readyText. rewrite Hc, Hi. intros x cx id text.
  destruct (decide (x = cid)) as [->|Hne].
  - rewrite lookup_insert_eq. intros [= <-] Ht.
    destruct (Hnew id text Ht) as [(c0 & Hc0 & Ht0)|H]; [|done]. by apply (Hs cid c0).
  - rewrite lookup_insert_ne by done. apply Hs.
Qed.

Lemma default_signed (store : gmap CID CRecord) cid C id text :
  cSignedTextStore (default (newC cid C) (store !! cid)) !! id = Some text ->
  exists c0, store !! cid = Some c0 /\ cSignedTextStore c0 !! id = Some text.
Proof.
  destruct (store !! cid) as [c0|]; simpl; [eauto|]. by rewrite lookup_empty.
Qed.

Lemma interpolateBars_signed site c c' :
  interpolateBars site c = Ok c' -> cSignedTextStore c' = cSignedTextStore c /\ cC c' = cC c.
Proof. unfold interpolateBars. intros H. res_inv. done. Qed.

Lemma stored_bars_signed reach c c' :
  stored_bars reach c c' -> cSignedTextStore c' = cSignedTextStore c /\ cC c' = cC c.
Proof.
  intros [[_ ->]|[_ (site & [[_ ->]|E])]]; [done..|]. by apply interpolateBars_signed in E.
Qed.

(** A keygen that ends rests on its quorum. *)
Lemma ready_stored_ended net kg msg sender kg' :
  kg_ok net kg -> Phase (kgState kg) <> Ended -> ready_stored net kg msg sender kg' -> ended_ok net kg'.
Proof.
  intros [Es Hinv] Hp (c & Hc & _ & _ & _ & Hb & Hend) He.
  destruct Hend as [Hsame|(_ & HR & HC & Hh & Hh')]; [by rewrite Hsame in He|].
  pose proof (c_core_start net _ _ kg Es (rdC msg) Hinv eq_refl eq_refl) as Hc0.
  apply ci_cid in Hc0. apply stored_bars_signed in Hb as [_ Hb].
  assert (GetCIDFromPointMatrix (kgCbar kg') = GetCIDFromPointMatrix (rdC msg)) as ->
    by (by rewrite HC, Hb).
  exists c. rewrite Hc, lookup_insert_eq. split_and!; [done..|lia|done|done].
Qed.

Lemma echo_good net kn msg id kg sender kg' acts st :
  net_ok net -> knCurrNodes kn = net -> in_net net sender -> kg_good net id kg ->
  processEchoMessage kn msg kg sender = (kg', acts, st) ->
  kg_good net id (setReceivedEcho kg' (ToNodeDetailsID sender)).
Proof.
  intros Hnet <- Hs [H1 H2 H3 H4] H.
  pose proof (echo_preserves _ kn msg kg sender kg' acts st Hnet eq_refl Hs H1 H) as Hok.
  apply processEcho_stored in H as [->|(Hp & _ & c & -> & Hb)]; [by constructor|].
  constructor; [done| |by intros He|done].
  apply (sig_ok_set _ kg _ (GetCIDFromPointMatrix (ecC msg)) c); [done..|]. intros i text.
  apply stored_bars_signed in Hb as [-> _]. simpl. intros Ht%default_signed. by left.
Qed.

Lemma ready_good net kn msg id kg sender kg' acts st :
  net_ok net -> knCurrNodes kn = net -> in_net net sender -> kg_good net id kg ->
  processReadyMessage kn msg kg sender = (kg', acts, st) ->
  kg_good net id (setReceivedReady kg' (ToNodeDetailsID sender)).
Proof.
  intros Hnet <- Hs [H1 H2 H3 H4] H. set (net := knCurrNodes kn) in *.
  pose proof (ready_preserves net kn msg kg sender kg' acts st Hnet eq_refl Hs H1 H) as Hok.
  assert (kg' = kg \/ exists C00, entry (rdC msg) 0 0 = Ok C00 /\
    ECDSAVerifyBytes (ToBytes (mkSignedTextDetails (readyText kg) C00)) (PubKey sender)
      (rdSignedText msg) = Ok true) as Hsig.
  { apply processReady_cases in H as [[-> _]|(_ & _ & _ & Hsig & _)]; auto. }
  apply processReady_stored in H as [->|(Hp & _ & Hst)]; [by constructor|].
  destruct Hsig as [->|(C00 & HC00 & Hsig)]; [by constructor|].
  pose proof (ready_stored_ended net kg msg sender kg' H1 Hp Hst) as Hend.
  destruct Hst as (c & Hc & Hi & _ & _ & Hb & _). constructor; [done| |exact Hend|simpl; by rewrite Hi].
  apply (sig_ok_set net kg _ (GetCIDFromPointMatrix (rdC msg)) c); [done..|]. intros i text.
  apply stored_bars_signed in Hb as [-> _]. simpl.
  destruct (decide (i = ToNodeDetailsID sender)) as [->|Hne].
  - rewrite lookup_insert_eq. intros [= <-]. right. by exists sender, (rdC msg), C00.
  - rewrite lookup_insert_ne by done. intros Ht%default_signed. by left.
Qed.

(** ** One message *)

Definition store_all (P : KeygenID -> Keygen -> Prop) (store : gmap KeygenID (option Keygen)) : Prop :=
  forall id kg, store !! id = Some (Some kg) -> P id kg.

Lemma store_all_set P store id kg :
  store_all P store -> P id kg -> store_all P (<[id := Some kg]> store).
Proof.
  intros Hs Hk i kg'. destruct (decide (i = id)) as [->|Hne].
  - rewrite lookup_insert_eq. by intros [= <-].
  - rewrite lookup_insert_ne by done. apply Hs.
Qed.

Lemma GetOrSet_all P store id store' r :
  P id (newKeygen id) -> store_all P store ->
  GetOrSetIfNotComplete store id (newKeygen id) = (store', r) ->
  store_all P store' /\ (forall kg, r = Some kg -> P id kg).
Proof.
  intros Hnew Hs. unfold GetOrSetIfNotComplete.
  destruct (store !! id) as [[kg|]|] eqn:E; intros [= <- <-].
  - split; [done|]. intros ? [= <-]. by apply Hs.
  - by split.
  - split; [by apply store_all_set|by intros ? [= <-]].
Qed.

(** What a property of stored keygens has to survive to hold after a message: the
    routing of [ProcessMessage], once. *)
Lemma ProcessMessage_all (P : KeygenID -> Keygen -> Prop) kn tape sender msg kn' tape' acts st :
  let id := kmKeygenID msg in
  let nid := ToNodeDetailsID sender in
  P id (newKeygen id) ->
  (forall kg kg', P id kg -> kg_frame kg kg' -> P id kg') ->
  (forall kn1 m kg kg' a s, knCurrNodes kn1 = knCurrNodes kn -> knNodeDetails kn1 = knNodeDetails kn ->
    P id kg -> kmMethod msg = "echo"%string -> Unmarshal (kmData msg) = Some m ->
    processEchoMessage kn1 m kg sender = (kg', a, s) -> P id (setReceivedEcho kg' nid)) ->
  (forall kn1 m kg kg' a s, knCurrNodes kn1 = knCurrNodes kn -> knNodeDetails kn1 = knNodeDetails kn ->
    P id kg -> kmMethod msg = "ready"%string -> Unmarshal (kmData msg) = Some m ->
    processReadyMessage kn1 m kg sender = (kg', a, s) -> P id (setReceivedReady kg' nid)) ->
  store_all P (knKeygenStore kn) ->
  ProcessMessage kn tape sender msg = ((kn', tape'), acts, st) ->
  knCurrNodes kn' = knCurrNodes kn /\ knNodeDetails kn' = knNodeDetails kn /\
  store_all P (knKeygenStore kn').
Proof.
  cbv zeta. intros Hnew Hframe Hecho Hready Hstore [[[= -> ->] _]|(? & _ & Hrun)]%run_inv; [done|]. revert Hrun. unfold routeMessage.
  destruct (GetOrSetIfNotComplete _ _ _) as [store r] eqn:E.
  destruct (GetOrSet_all P _ _ _ _ Hnew Hstore E) as [Hst Hkg]. destruct r as [kg|]; [|by intros [= <- _ _ _]].
  specialize (Hkg kg eq_refl). cbv zeta. set (kn1 := setKeygenStore kn store).
  assert (forall r, P (kmKeygenID msg) (fst (fst r)) ->
    keygenResult kn1 tape (kmKeygenID msg) r = ((kn', tape'), acts, st) ->
    knCurrNodes kn' = knCurrNodes kn /\ knNodeDetails kn' = knNodeDetails kn /\
    store_all P (knKeygenStore kn')) as Hres.
  { intros [[kg' a'] s'] Hg [= <- _ _ _]. split_and!; [done..|]. by apply store_all_set. }
  destruct (String.eqb_spec (kmMethod msg) "share").
  { destruct (Unmarshal (A := KeygenMsgShare) (kmData msg)) as [m|]; [|by intros [= <- _ _ _]].
    destruct (processShareMessage kn1 m kg tape) as [[[[shares kg'] t'] a'] s'] eqn:Es.
    intros [= <- _ _ _]. split_and!; [done..|]. simpl. apply store_all_set; [done|].
    apply (Hframe kg); [done|]. by eapply processShare_frame. }
  destruct (String.eqb_spec (kmMethod msg) "send").
  { destruct (Unmarshal (A := KeygenMsgSend) (kmData msg)) as [m|]; [|by intros [= <- _ _ _]].
    destruct (FromKeygenID _ _) as [details [e'|]]; [by intros [= <- _ _ _]|].
    destruct (processSendMessage kn1 m kg details sender) as [[kg' a'] s'] eqn:Es.
    apply Hres. apply (Hframe kg); [done|]. by eapply processSend_frame. }
  destruct (String.eqb_spec (kmMethod msg) "echo").
  { destruct (Unmarshal (A := KeygenMsgEcho) (kmData msg)) as [m|] eqn:Em; [|apply Hres, (Hframe kg), kg_frame_echo; done].
    destruct (FromKeygenID _ _) as [details [e'|]]; [apply Hres, (Hframe kg), kg_frame_echo; done|].
    destruct (processEchoMessage kn1 m kg sender) as [[kg' a'] s'] eqn:Es. apply Hres.
    by apply (Hecho kn1 m kg kg' a' s'). }
  destruct (String.eqb_spec (kmMethod msg) "ready").
  { destruct (Unmarshal (A := KeygenMsgReady) (kmData msg)) as [m|] eqn:Em; [|apply Hres, (Hframe kg), kg_frame_ready; done].
    destruct (FromKeygenID _ _) as [details [e'|]]; [apply Hres, (Hframe kg), kg_frame_ready; done|].
    destruct (processReadyMessage kn1 m kg sender) as [[kg' a'] s'] eqn:Es. apply Hres.
    by apply (Hready kn1 m kg kg' a' s'). }
  destruct (String.eqb (kmMethod msg) "complete").
  { destruct (Unmarshal (A := KeygenMsgComplete) (kmData msg)) as [m|]; [|by intros [= <- _ _ _]].
    destruct (FromKeygenID _ _) as [details oe].
    destruct (processCompleteMessage kn1 m details sender) as [[dkgs a'] s']. by intros [= <- _ _ _]. }
  destruct (String.eqb (kmMethod msg) "nizkp"); [|by intros [= <- _ _ _]].
  destruct (Unmarshal (A := KeygenMsgNIZKP) (kmData msg)) as [m|]; [|by intros [= <- _ _ _]].
  destruct (processNIZKPMessage kn1 m sender) as [[kn2 a'] s'] eqn:Es. intros [= <- _ _ _].
  revert Es. clear -Hst. unfold processNIZKPMessage, run, emit.
  repeat (case_match; try (by intros [= <- _ _]); simplify_eq);
    intros [= <- _ _]; (split_and!; [done..|]); try done.
  intros i kg' Hl%KeygenStoreComplete_lookup. by apply Hst.
Qed.

Lemma ProcessMessage_ok net kn tape sender msg kn' tape' acts st :
  net_ok net -> node_ok net kn -> in_net net sender ->
  ProcessMessage kn tape sender msg = ((kn', tape'), acts, st) -> node_ok net kn'.
Proof.
  intros Hnet [Hkn Hstore] Hs H.
  destruct (ProcessMessage_all (kg_good net) kn tape sender msg kn' tape' acts st) as (Hn & _ & Hst);
    try done.
  - apply kg_good_new.
  - intros kg kg' Hg Hf. by apply (kg_good_frame net _ kg).
  - intros kn1 m kg kg' a s Hk _ Hg _ _. apply echo_good; congruence.
  - intros kn1 m kg kg' a s Hk _ Hg _ _. apply ready_good; congruence.
  - constructor; [congruence|done].
Qed.

(** Broadcast messages do not touch the keygens. *)
Lemma ProcessBroadcastMessage_all P kn tape msg kn' tape' acts st :
  store_all P (knKeygenStore kn) ->
  ProcessBroadcastMessage kn tape msg = ((kn', tape'), acts, st) ->
  knCurrNodes kn' = knCurrNodes kn /\ store_all P (knKeygenStore kn').
Proof.
  intros Hst [[[= -> ->] _]|(? & _ & Hrun)]%run_inv; [done|]. revert Hrun. unfold processDecide, run, emit.
  repeat (case_match; try (by intros [= <- _ _ _]); simplify_eq); by intros [= <- _ _ _].
Qed.

Lemma ProcessBroadcastMessage_ok net kn tape msg kn' tape' acts st :
  node_ok net kn ->
  ProcessBroadcastMessage kn tape msg = ((kn', tape'), acts, st) -> node_ok net kn'.
Proof.
  intros [Hn Hs] H. apply (ProcessBroadcastMessage_all (kg_good net)) in H as [Hn' Hs']; [|done].
  constructor; [congruence|done].
Qed.

End node.

(** ** Reachable states *)

Section reach.
Context {SO : Secp256k1} {SL : Secp256k1Laws} {KC : KeygenCodecs} {TR : Transport}.

(** Any sequence of direct and broadcast messages; senders are what the transport
    has authenticated, messages are arbitrary bytes, and every step may see its
    maps in another order.  [ok] restricts the direct messages. *)
Inductive reachable_with (ok : Node -> KeygenMessage -> Prop) (kn0 : KeygenNode) : KeygenNode -> Prop :=
  | reach_start : reachable_with ok kn0 kn0
  | reach_direct (MR : MapRange) (ML : MapRangeLaws) kn tape sender msg kn' tape' acts st :
      reachable_with ok kn0 kn -> in_net (knCurrNodes kn0) sender -> ok sender msg ->
      ProcessMessage kn tape sender msg = ((kn', tape'), acts, st) -> reachable_with ok kn0 kn'
  | reach_broadcast (MR : MapRange) (ML : MapRangeLaws) kn tape msg kn' tape' acts st :
      reachable_with ok kn0 kn ->
      ProcessBroadcastMessage kn tape msg = ((kn', tape'), acts, st) -> reachable_with ok kn0 kn'.

(** No restriction on the direct messages. *)
Definition reachable : KeygenNode -> KeygenNode -> Prop := reachable_with (fun _ _ => True).

Lemma reachable_weaken ok kn0 kn : reachable_with ok kn0 kn -> reachable kn0 kn.
Proof.
  induction 1; [apply reach_start|by eapply reach_direct|by eapply reach_broadcast].
Qed.

Lemma reachable_ok kn0 kn :
  net_ok (knCurrNodes kn0) -> store_good (knCurrNodes kn0) (knKeygenStore kn0) ->
  reachable kn0 kn -> node_ok (knCurrNodes kn0) kn.
Proof.
  intros Hnet Hs. induction 1; [done|by eapply ProcessMessage_ok|by eapply ProcessBroadcastMessage_ok].
Qed.

(** A node list with distinct indices makes a well-formed network. *)
Lemma mapFromNodeList_spec nodes (m0 : gmap string Node) id :
  NoDup (ToNodeDetailsID <$> nodes) ->
  (forall n, n ∈ nodes -> m0 !! ToNodeDetailsID n = None) ->
  foldl (fun m n => <[ToNodeDetailsID n := n]> m) m0 nodes !! id =
    match list_find (fun n => ToNodeDetailsID n = id) nodes with
    | Some (_, n) => Some n
    | None => m0 !! id
    end.
Proof.
  revert m0. induction nodes as [|n nodes IH]; intros m0 Hnd Hm; [done|]. csimpl in *.
  apply list.NoDup_cons in Hnd as [Hni Hnd]. rewrite IH; [|done|].
  - destruct (decide (ToNodeDetailsID n = id)) as [<-|Hne].
    + rewrite lookup_insert_eq. destruct (list_find _ nodes) as [[i n']|] eqn:E; [|done].
      apply list_find_Some in E as (Hl & Hid & _). exfalso. apply Hni. rewrite <-Hid.
      apply list_elem_of_fmap_2. by eapply list_elem_of_lookup_2.
    + rewrite lookup_insert_ne by done. by destruct (list_find _ nodes) as [[]|].
  - intros n' Hn'. rewrite lookup_insert_ne; [apply Hm; by right|]. intros E. apply Hni. rewrite E.
    by apply list_elem_of_fmap_2.
Qed.

Lemma size_mapFromNodeList nodes (m0 : gmap string Node) :
  NoDup (ToNodeDetailsID <$> nodes) ->
  (forall n, n ∈ nodes -> m0 !! ToNodeDetailsID n = None) ->
  size (foldl (fun m n => <[ToNodeDetailsID n := n]> m) m0 nodes) = (size m0 + length nodes)%nat.
Proof.
  revert m0. induction nodes as [|n nodes IH]; intros m0 Hnd Hm; csimpl in *; [lia|].
  apply list.NoDup_cons in Hnd as [Hni Hnd]. rewrite IH; [|done|].
  - rewrite map_size_insert_None by (apply Hm; by left). lia.
  - intros n' Hn'. rewrite lookup_insert_ne; [apply Hm; by right|]. intros E. apply Hni. rewrite E.
    by apply list_elem_of_fmap_2.
Qed.

Definition nodes_ok (nodes : list Node) : Prop :=
  Forall (fun n => in_int64 (NodeIndex n)) nodes /\ distinct GeneratorOrder (NodeIndex <$> nodes).

Lemma nodes_ok_ids nodes : nodes_ok nodes -> NoDup (ToNodeDetailsID <$> nodes).
Proof.
  intros [Hi Hd]. induction nodes as [|n nodes IH]; csimpl in *; [constructor|].
  inv Hi. apply list.NoDup_cons in Hd as [Hni Hd]. apply list.NoDup_cons. split; [|by apply IH].
  intros (n' & E & Hn')%list_elem_of_fmap. apply Hni. rewrite list.Forall_forall in H2.
  apply ToNodeDetailsID_inj in E as <-; [|done|by apply H2].
  apply (list_elem_of_fmap_2 (fun x => x mod GeneratorOrder)), list_elem_of_fmap_2, Hn'.
Qed.

Lemma net_ok_list nodes t k :
  nodes_ok nodes -> 1 <= k -> 0 <= t ->
  net_ok (mkNodeNetwork (mapFromNodeList nodes) (Z.of_nat (length nodes)) t k).
Proof.
  intros Hn Hk Ht. pose proof (nodes_ok_ids nodes Hn) as Hnd.
  assert (forall id n, mapFromNodeList nodes !! id = Some n ->
    exists i, nodes !! i = Some n /\ ToNodeDetailsID n = id) as Hl.
  { intros id n. unfold mapFromNodeList. rewrite mapFromNodeList_spec by done.
    destruct (list_find _ nodes) as [[i n']|] eqn:E; [|by rewrite lookup_empty].
    apply list_find_Some in E as (Hi & Hid & _). intros [= <-]. eauto. }
  destruct Hn as [Hint Hd]. constructor; simpl; try done.
  - intros id n (i & _ & ?)%Hl. done.
  - intros n id (i & Hi & _)%Hl. rewrite Forall_lookup in Hint. by apply (Hint i).
  - intros id id' n n' (i & Hi & <-)%Hl (i' & Hi' & <-)%Hl E.
    assert (i = i') as <-; [|by simplify_eq].
    eapply (NoDup_lookup _ i i' (NodeIndex n mod GeneratorOrder)); [exact Hd| |];
      rewrite !list_lookup_fmap; [by rewrite Hi|]. rewrite Hi'. simpl. f_equal. symmetry.
    apply eqm_mod_iff; [|done]. pose proof order_ge_2. lia.
  - unfold mapFromNodeList. rewrite size_mapFromNodeList by done. rewrite map_size_empty. lia.
Qed.

(** A node as [NewKeygenNode] makes it, with a sensible configuration. *)
Lemma reachable_new self nodes t k idx delay kn :
  nodes_ok nodes -> 1 <= k -> 0 <= t ->
  reachable (NewKeygenNode self nodes t k idx delay) kn ->
  net_ok (knCurrNodes kn) /\
  knCurrNodes kn = mkNodeNetwork (mapFromNodeList nodes) (Z.of_nat (length nodes)) t k /\
  store_good (knCurrNodes kn) (knKeygenStore kn).
Proof.
  intros Hn Hk Ht Hr. assert (net_ok (knCurrNodes (NewKeygenNode self nodes t k idx delay))) as Hnet
    by (by apply net_ok_list).
  destruct (reachable_ok _ kn Hnet) as [Hkn Hs]; [by intros id kg; simpl; rewrite lookup_empty|done|].
  by rewrite Hkn.
Qed.

Lemma in_net_list nodes sender n t k :
  nodes_ok nodes -> sender ∈ nodes -> in_net (mkNodeNetwork (mapFromNodeList nodes) n t k) sender.
Proof.
  intros Hn Hs. unfold in_net. simpl. unfold mapFromNodeList.
  rewrite mapFromNodeList_spec; [|by apply nodes_ok_ids|by intros; rewrite lookup_empty].
  destruct (list_find _ nodes) as [[i n']|] eqn:E.
  - apply list_find_Some in E as (Hi & Hid & _). f_equal.
    apply list_elem_of_lookup_2 in Hi. destruct Hn as [Hint _]. rewrite list.Forall_forall in Hint.
    apply ToNodeDetailsID_inj; auto.
  - rewrite list_find_None, list.Forall_forall in E. by destruct (E sender Hs).
Qed.

(** The senders counted for one commitment are nodes of the network. *)
Lemma echo_senders_in_net net re rr cid c E :
  c_core net re rr cid c E ->
  E ⊆ dom (Nodes net) /\ dom (cSignedTextStore c) ⊆ dom (Nodes net).
Proof.
  intros Hc. assert (dom (cAC c) ⊆ dom (Nodes net)) as Hd.
  { intros id [p Hp]%elem_of_dom. destruct (ci_pts _ _ _ _ _ _ Hc (cAC c) id p) as (n & Hn & _);
      [unfold c_maps; set_solver|done|]. by apply elem_of_dom. }
  rewrite (ci_dom _ _ _ _ _ _ Hc) in Hd by (unfold c_maps; set_solver). set_solver.
Qed.

Lemma quorum_overlap (U A B : gset NodeDetailsID) :
  A ⊆ U -> B ⊆ U -> (size A + size B <= size U + size (A ∩ B))%nat.
Proof.
  intros HA HB. pose proof (size_union_alt A B) as H1.
  assert (size (A ∪ B) <= size U)%nat by (apply subseteq_size; set_solver).
  assert (size B = size (B ∖ A) + size (A ∩ B))%nat; [|lia].
  rewrite <-size_union by set_solver. f_equal. apply set_eq. intros x.
  destruct (decide (x ∈ A)); set_solver.
Qed.

(** ** Properties *)

(** The echo threshold is a quorum: any two sets of nodes that reach it
    share more than [t] members, so at least one that is not faulty. *)
Theorem echo_quorums_intersect (U A B : gset NodeDetailsID) k t :
  A ⊆ U -> B ⊆ U ->
  ecThreshold (Z.of_nat (size U)) k t <= Z.of_nat (size A) ->
  ecThreshold (Z.of_nat (size U)) k t <= Z.of_nat (size B) ->
  t + 1 <= Z.of_nat (size (A ∩ B)).
Proof.
  intros HA HB H1 H2. pose proof (quorum_overlap U A B HA HB).
  pose proof (ecThreshold_bounds (Z.of_nat (size U)) k t). lia.
Qed.

(** C4: a dealer cannot make one node echo-accept two dealings: in every state
    reachable by any messages from authenticated nodes, at most one commitment
    matrix id of a keygen has reached the echo threshold. *)
Theorem echo_threshold_unique self nodes t k idx delay kn id kg cid1 cid2 c1 c2 :
  nodes_ok nodes -> 1 <= k -> 0 <= t ->
  reachable (NewKeygenNode self nodes t k idx delay) kn ->
  knKeygenStore kn !! id = Some (Some kg) ->
  kgCStore kg !! cid1 = Some c1 -> kgCStore kg !! cid2 = Some c2 ->
  ecThreshold (Z.of_nat (length nodes)) k t <= cEC c1 ->
  ecThreshold (Z.of_nat (length nodes)) k t <= cEC c2 -> cid1 = cid2.
Proof.
  intros Hn Hk Ht Hr Hkg Hc1 Hc2 H1 H2.
  destruct (reachable_new _ _ _ _ _ _ _ Hn Hk Ht Hr) as (Hnet & Ekn & Hst).
  destruct (Hst id kg Hkg) as [[Es Hinv] _ _ _].
  destruct (ki_c _ _ _ Hinv _ _ Hc1) as [Hcc1 _], (ki_c _ _ _ Hinv _ _ Hc2) as [Hcc2 _].
  destruct (decide (cid1 = cid2)) as [|Hne]; [done|]. exfalso.
  pose proof (ki_echo_disj _ _ _ Hinv _ _ Hne) as Hd.
  pose proof (quorum_overlap (dom (Nodes (knCurrNodes kn))) (Es cid1) (Es cid2)
    (proj1 (echo_senders_in_net _ _ _ _ _ _ Hcc1)) (proj1 (echo_senders_in_net _ _ _ _ _ _ Hcc2))) as Hq.
  assert (size (Es cid1 ∩ Es cid2) = 0%nat) as Hz by (apply size_empty_iff; set_solver).
  rewrite (ci_EC _ _ _ _ _ _ Hcc1) in H1. rewrite (ci_EC _ _ _ _ _ _ Hcc2) in H2.
  pose proof (no_N _ Hnet) as HN. rewrite Ekn in HN, Hq. simpl in HN, Hq. rewrite size_dom in Hq.
  pose proof (ecThreshold_bounds (Z.of_nat (length nodes)) k t). lia.
Qed.

(** C5: a finished sharing rests on K+T nodes: whenever a reachable keygen has
    ended, the record of its commitment holds at least K+T signatures, by
    distinct nodes of the network, each valid on the ready text of that keygen,
    and its share is the constant term of the interpolated polynomial. *)
Theorem finished_sharing_quorum self nodes t k idx delay kn id kg :
  nodes_ok nodes -> 1 <= k -> 0 <= t ->
  reachable (NewKeygenNode self nodes t k idx delay) kn ->
  knKeygenStore kn !! id = Some (Some kg) -> Phase (kgState kg) = Ended ->
  exists c, kgCStore kg !! GetCIDFromPointMatrix (kgCbar kg) = Some c /\ cC c = kgCbar kg /\
    k + t <= Z.of_nat (size (cSignedTextStore c)) /\
    head (cAbar c) = Some (kgSi kg) /\ head (cAbarprime c) = Some (kgSiprime kg) /\
    forall nid text, cSignedTextStore c !! nid = Some text ->
      exists n C C00, mapFromNodeList nodes !! nid = Some n /\
        GetCIDFromPointMatrix C = GetCIDFromPointMatrix (kgCbar kg) /\ entry C 0 0 = Ok C00 /\
        ECDSAVerifyBytes (ToBytes (mkSignedTextDetails (Join [id; "ready"] Delimiter1) C00))
          (PubKey n) text = Ok true.
Proof.
  intros Hn Hk Ht Hr Hkg He.
  destruct (reachable_new _ _ _ _ _ _ _ Hn Hk Ht Hr) as (Hnet & Ekn & Hst).
  destruct (Hst id kg Hkg) as [[Es Hinv] Hsig Hend Hid].
  destruct (Hend He) as (c & Hc & HC & HR & H1 & H2). exists c. rewrite Ekn in HR. simpl in HR.
  destruct (ki_c _ _ _ Hinv _ _ Hc) as [Hcc _]. rewrite (ci_RC _ _ _ _ _ _ Hcc) in HR.
  split_and!; [done..|]. intros nid text Ht'. destruct (Hsig _ _ _ _ Hc Ht') as (n & C & C00 & H).
  exists n, C, C00. unfold readyText in H. rewrite Hid, Ekn in H. done.
Qed.

(** ** Finished keygens are final *)

(** The results of a finished keygen, and everything they were computed from. *)
Definition same_results (kg kg' : Keygen) : Prop :=
  Phase (kgState kg') = Ended /\ kgSi kg' = kgSi kg /\ kgSiprime kg' = kgSiprime kg /\
  kgCbar kg' = kgCbar kg /\ kgCStore kg' = kgCStore kg.

Lemma same_results_trans kg1 kg2 kg3 :
  same_results kg1 kg2 -> same_results kg2 kg3 -> same_results kg1 kg3.
Proof. intros (?&?&?&?&?) (?&?&?&?&?). split_and!; congruence. Qed.

Definition final_in (store : gmap KeygenID (option Keygen)) (id : KeygenID) (kg : Keygen) : Prop :=
  store !! id = Some None \/ exists kg', store !! id = Some (Some kg') /\ same_results kg kg'.

Lemma final_in_set store id kg i kg' :
  final_in store id kg ->
  (i = id -> same_results kg kg') -> final_in (<[i := Some kg']> store) id kg.
Proof.
  intros H Hs. unfold final_in. destruct (decide (i = id)) as [->|Hne].
  - right. exists kg'. rewrite lookup_insert_eq. auto.
  - by rewrite lookup_insert_ne by done.
Qed.

Lemma final_in_complete net store dkgID id kg :
  final_in store id kg -> final_in (KeygenStoreComplete net store dkgID) id kg.
Proof.
  intros Hf. unfold KeygenStoreComplete.
  refine (map_fold_weak_ind (fun (acc : gmap string (option Keygen)) _ => final_in acc id kg)
    _ _ _ _ (Nodes net)); [done|].
  intros i n m acc _ IH. unfold final_in.
  destruct (decide (ToKeygenID (mkKeygenIDDetails dkgID (NodeIndex n)) = id)) as [->|Hne].
  - left. by rewrite lookup_insert_eq.
  - by rewrite lookup_insert_ne by done.
Qed.

Lemma final_in_extend (s s' : gmap KeygenID (option Keygen)) id kg :
  (forall i x, s !! i = Some x -> s' !! i = Some x) -> final_in s id kg -> final_in s' id kg.
Proof. intros Hx [H|(kg' & H & Hs)]; [left; auto|right; eauto]. Qed.

Lemma GetOrSet_cases {A} (s : gmap string (option A)) id a s' r :
  GetOrSetIfNotComplete s id a = (s', r) ->
  (forall i x, s !! i = Some x -> s' !! i = Some x) /\ s' !! id = Some r /\
  (forall i, i <> id -> s' !! i = s !! i).
Proof.
  unfold GetOrSetIfNotComplete. destruct (s !! id) as [[b|]|] eqn:E; intros [= <- <-]; [done..|].
  rewrite lookup_insert_eq. split_and!; [|done|intros i Hi; by rewrite lookup_insert_ne by done].
  intros i x Hi. rewrite lookup_insert_ne; [done|congruence].
Qed.

Context {MR : MapRange}.

(** A finished keygen ignores every message of the sharing. *)
Lemma processShare_ended kn msg kg tape :
  Phase (kgState kg) = Ended ->
  processShareMessage kn msg kg tape = ((knShareStore kn, kg, tape), [], Returned).
Proof. intros He. unfold processShareMessage. by rewrite decide_True. Qed.

Lemma processSend_ended kn msg kg details sender :
  Phase (kgState kg) = Ended -> processSendMessage kn msg kg details sender = (kg, [], Returned).
Proof. intros He. unfold processSendMessage. by rewrite decide_True. Qed.

Lemma processEcho_ended kn msg kg sender :
  Phase (kgState kg) = Ended -> processEchoMessage kn msg kg sender = (kg, [], Returned).
Proof. intros He. unfold processEchoMessage. by rewrite decide_True. Qed.

Lemma processReady_ended kn msg kg sender :
  Phase (kgState kg) = Ended -> processReadyMessage kn msg kg sender = (kg, [], Returned).
Proof. intros He. unfold processReadyMessage. by rewrite decide_True. Qed.

(** The keygen a direct message leaves behind, when it was finished. *)
Lemma ProcessMessage_final kn tape sender msg kn' tape' acts st id kg0 :
  final_in (knKeygenStore kn) id kg0 ->
  ProcessMessage kn tape sender msg = ((kn', tape'), acts, st) ->
  final_in (knKeygenStore kn') id kg0.
Proof.
  intros Hf0 [[[= -> ->] _]|(? & _ & Hrun)]%run_inv; [done|]. revert Hrun. unfold routeMessage. set (mid := kmKeygenID msg).
  destruct (GetOrSetIfNotComplete _ _ _) as [store [kg|]] eqn:E; [|by intros [= <- _ _ _]].
  apply GetOrSet_cases in E as (Hext & Hmid & _). cbv zeta.
  set (kn1 := setKeygenStore kn store). pose proof (final_in_extend _ _ _ _ Hext Hf0) as Hf.
  assert (forall kg', (Phase (kgState kg) = Ended -> same_results kg kg') ->
    final_in (<[mid := Some kg']> store) id kg0) as Hset.
  { intros kg' Hk. apply final_in_set; [done|]. intros Hid.
    destruct Hf as [Hf|(kg2 & Hf & Hs)]; [congruence|]. assert (kg2 = kg) as -> by congruence.
    apply (same_results_trans _ kg); [done|]. apply Hk, Hs. }
  assert (forall r, (Phase (kgState kg) = Ended -> same_results kg (fst (fst r))) ->
    keygenResult kn1 tape mid r = ((kn', tape'), acts, st) -> final_in (knKeygenStore kn') id kg0) as Hres.
  { intros [[kg' a] s] Hk [= <- _ _ _]. simpl. by apply Hset. }
  destruct (String.eqb (kmMethod msg) "share").
  { destruct (Unmarshal (kmData msg)) as [m|]; [|by intros [= <- _ _ _]].
    destruct (processShareMessage kn1 m kg tape) as [[[[sh kg'] t'] a'] s'] eqn:Es.
    intros [= <- _ _ _]. simpl. apply Hset. intros He. rewrite processShare_ended in Es by done.
    by injection Es as _ <- _ _ _. }
  destruct (String.eqb (kmMethod msg) "send").
  { destruct (Unmarshal (kmData msg)) as [m|]; [|by intros [= <- _ _ _]].
    destruct (FromKeygenID _ _) as [details [e|]]; [by intros [= <- _ _ _]|].
    apply Hres. intros He. by rewrite processSend_ended. }
  destruct (String.eqb (kmMethod msg) "echo").
  { apply Hres. intros He. destruct (Unmarshal (kmData msg)) as [m|]; [|done].
    destruct (FromKeygenID _ _) as [details [e|]]; [done|]. by rewrite processEcho_ended. }
  destruct (String.eqb (kmMethod msg) "ready").
  { apply Hres. intros He. destruct (Unmarshal (kmData msg)) as [m|]; [|done].
    destruct (FromKeygenID _ _) as [details [e|]]; [done|]. by rewrite processReady_ended. }
  destruct (String.eqb (kmMethod msg) "complete").
  { destruct (Unmarshal (kmData msg)) as [m|]; [|by intros [= <- _ _ _]].
    destruct (FromKeygenID _ _) as [details oe].
    destruct (processCompleteMessage kn1 m details sender) as [[dkgs a'] s']. by intros [= <- _ _ _]. }
  destruct (String.eqb (kmMethod msg) "nizkp"); [|by intros [= <- _ _ _]].
  destruct (Unmarshal (kmData msg)) as [m|]; [|by intros [= <- _ _ _]].
  destruct (processNIZKPMessage kn1 m sender) as [[kn2 a'] s'] eqn:En. intros [= <- _ _ _].
  revert En. clear -Hf. unfold processNIZKPMessage, run, emit.
  repeat (case_match; try (by intros [= <- _ _]); simplify_eq); intros [= <- _ _]; try done.
  by apply final_in_complete.
Qed.

Lemma ProcessBroadcastMessage_final kn tape msg kn' tape' acts st id kg0 :
  final_in (knKeygenStore kn) id kg0 ->
  ProcessBroadcastMessage kn tape msg = ((kn', tape'), acts, st) ->
  final_in (knKeygenStore kn') id kg0.
Proof.
  intros Hf [[[= -> ->] _]|(? & _ & Hrun)]%run_inv; [done|]. revert Hrun. unfold processDecide, run, emit.
  repeat (case_match; try (by intros [= <- _ _ _]); simplify_eq); by intros [= <- _ _ _].
Qed.

End reach.

Section reach_final.
Context {SO : Secp256k1} {SL : Secp256k1Laws} {KC : KeygenCodecs} {TR : Transport}.

(** A finished sharing is final: after any further messages the keygen is
    either still stored with the same phase, share, blinding share, commitment
    and records, or has been cleaned up. *)
Theorem finished_sharing_final kn kn' id kg :
  knKeygenStore kn !! id = Some (Some kg) -> Phase (kgState kg) = Ended ->
  reachable kn kn' ->
  knKeygenStore kn' !! id = Some None \/
  exists kg', knKeygenStore kn' !! id = Some (Some kg') /\ Phase (kgState kg') = Ended /\
    kgSi kg' = kgSi kg /\ kgSiprime kg' = kgSiprime kg /\ kgCbar kg' = kgCbar kg /\
    kgCStore kg' = kgCStore kg.
Proof.
  intros Hkg He Hr. change (final_in (knKeygenStore kn') id kg).
  induction Hr; [right; by exists kg|by eapply ProcessMessage_final|by eapply ProcessBroadcastMessage_final].
Qed.

End reach_final.
