(* ===== verification/KeygenSend.v ===== *)
(** What the echo and ready handlers emit: messages whose matrices are well shaped,
    with signatures of full length, between nodes whose ids have the eight bytes
    that are logged, do not make them panic, and ready messages go out once per
    commitment. *)
From Stdlib Require Import Zdivisibility ZArith.
From stdpp Require Import gmap strings.
From S2P Require Import Prelude BigInt Field Curve Pvss Interpolate Avss Nizkpk Ecdsa Ids Effects Keygen KeygenInv KeygenReach.

Section send.
Context {SO : Secp256k1} {SL : Secp256k1Laws} {KC : KeygenCodecs} {TR : Transport}
  {MR : MapRange} {ML : MapRangeLaws}.

Local Abbreviation q := GeneratorOrder.

(** A rectangular matrix with at least one entry. *)
Definition well_shaped (C : list (list Point)) : Prop :=
  C <> [] /\ exists w, (0 < w)%nat /\ Forall (fun row => length row = w) C.

Lemma well_shaped_entry C j l w :
  Forall (fun row => length row = w) C -> (j < length C)%nat -> (l < w)%nat ->
  exists P, entry C j l = Ok P.
Proof.
  intros Hw Hj Hl. unfold entry. destruct (index_lt C j Hj) as (row & Hrow & ->). cbn [mbind res_bind].
  rewrite Forall_lookup in Hw. apply Hw in Hrow. destruct (index_lt row l) as (P & _ & ->); [lia|eauto].
Qed.

Lemma well_shaped_first C : well_shaped C -> exists P, entry C 0 0 = Ok P.
Proof.
  intros [Hne (w & Hw & Hf)]. apply (well_shaped_entry C 0 0 w); [done| |done].
  destruct C; [done|simpl; lia].
Qed.

Lemma AVSSVerifyPoint_returns C m i a a' b b' :
  well_shaped C -> exists v, AVSSVerifyPoint C m i a a' b b' = Ok v.
Proof.
  intros [Hne (w & Hw & Hf)]. unfold AVSSVerifyPoint. destruct C as [|C0 C']; [done|].
  assert (length C0 = w) as -> by (by inv Hf).
  match goal with |- context [@mapM _ _ _ _ _ ?f (seq 0 (length ?L))] =>
    destruct (mapM_total f (seq 0 (length L))) as (bs & -> & _) end.
  - intros j [_ Hj]%elem_of_seq.
    match goal with |- context [@mapM _ _ _ _ _ ?f (seq 0 w)] =>
      destruct (mapM_total f (seq 0 w)) as (cs & E & _) end; [|eauto].
    intros l [_ Hl]%elem_of_seq. destruct (well_shaped_entry (C0 :: C') j l w) as (P & ->); eauto.
  - cbn [mbind res_bind]. eauto.
Qed.

Lemma ECDSAVerifyBytes_returns b P sig :
  (64 <= length sig)%nat -> exists v, ECDSAVerifyBytes b P sig = Ok v.
Proof.
  intros Hl. unfold ECDSAVerifyBytes, ECDSAVerify, ecdsa_Verify.
  rewrite (proj2 (Nat.ltb_ge _ _)) by lia.
  set (r := SetBytes (take 32 sig)). set (s := SetBytes (take 32 (drop 32 sig))).
  destruct (Z.leb_spec r 0), (Z.leb_spec s 0), (Z.leb_spec q r), (Z.leb_spec q s);
    cbn [orb]; try (by eexists).
  destruct (ModInverse_prime s q order_prime) as (w & -> & _ & _).
  - rewrite Z.mod_small; lia.
  - cbn [deref mbind res_bind]. destruct (_ && _); eauto.
Qed.

(** Evaluation returns when there are at least as many coefficients as the
    threshold. *)
Lemma PolyEval_returns coeff k x :
  1 <= k -> k <= Z.of_nat (length coeff) -> exists v, PolyEval (mkPrimaryPolynomial coeff k) x = Ok v.
Proof.
  intros H1 Hk. unfold PolyEval.
  destruct (polyEval_spec (mkPrimaryPolynomial coeff k) (int64 x) (Z.to_nat k - 1)) as (v & E & _);
    simpl; try lia. eauto.
Qed.

Lemma sendAll_no_panic mk nodes :
  (forall n, mk n <> Panic) -> snd (sendAll mk nodes) <> Panicked.
Proof.
  intros H. induction nodes as [|n nodes IH]; [done|]. simpl.
  destruct (mk n) eqn:E; [|done|by apply H in E]. by destruct (sendAll mk nodes).
Qed.

Lemma readyMessage_no_panic kn kg c n :
  1 <= netK (knCurrNodes kn) -> (exists P, entry (cC c) 0 0 = Ok P) ->
  netK (knCurrNodes kn) <= Z.of_nat (length (cAbar c)) ->
  netK (knCurrNodes kn) <= Z.of_nat (length (cAbarprime c)) ->
  netK (knCurrNodes kn) <= Z.of_nat (length (cBbar c)) ->
  netK (knCurrNodes kn) <= Z.of_nat (length (cBbarprime c)) ->
  readyMessage kn kg c n <> Panic.
Proof.
  intros HK [P HP] H1 H2 H3 H4. unfold readyMessage. rewrite HP. cbn [mbind res_bind].
  destruct (Sign _) as [s|]; [|done]. cbn [mbind res_bind].
  destruct (PolyEval_returns (cAbar c) (netK (knCurrNodes kn)) (NodeIndex n)) as (v1 & ->); [done..|].
  destruct (PolyEval_returns (cAbarprime c) (netK (knCurrNodes kn)) (NodeIndex n)) as (v2 & E2); [done..|].
  destruct (PolyEval_returns (cBbar c) (netK (knCurrNodes kn)) (NodeIndex n)) as (v3 & E3); [done..|].
  destruct (PolyEval_returns (cBbarprime c) (netK (knCurrNodes kn)) (NodeIndex n)) as (v4 & E4); [done..|].
  cbn [mbind res_bind]. rewrite E2. cbn [mbind res_bind]. rewrite E3. cbn [mbind res_bind].
  rewrite E4. cbn [mbind res_bind]. unfold marshal. by destruct (Marshal _).
Qed.

Lemma sendReady_no_panic site kn kg re rr cid c E :
  net_ok (knCurrNodes kn) -> c_core (knCurrNodes kn) re rr cid c E -> reached (knCurrNodes kn) c ->
  (exists P, entry (cC c) 0 0 = Ok P) -> snd (sendReady site kn kg cid c) <> Panicked.
Proof.
  intros Hnet Hc Hr HP. set (net := knCurrNodes kn) in *.
  destruct (interpolateBars_spec net re rr cid c E site Hnet Hc)
    as (c' & Ec & _ & HC & _ & _ & _ & _ & L1 & L2 & L3 & L4).
  unfold sendReady, run. rewrite Ec.
  pose proof (ecThreshold_bounds (netN net) (netK net) (netT net)) as [Hk _].
  assert (forall m, m ∈ c_maps c -> netK net <= Z.of_nat (size m)) as Hsz.
  { intros m Hm. destruct (c_core_dom_size _ _ _ _ _ _ m Hc Hm).
    unfold reached, netEcThreshold in Hr. lia. }
  destruct (sendAll _ _) as [acts st] eqn:Es. simpl.
  change st with (snd (acts, st)). rewrite <-Es. apply sendAll_no_panic. intros n.
  apply readyMessage_no_panic; fold net.
  - apply (no_K _ Hnet).
  - by rewrite HC.
  - rewrite L1. apply Hsz. unfold c_maps. set_solver.
  - rewrite L2. apply Hsz. unfold c_maps. set_solver.
  - rewrite L3. apply Hsz. unfold c_maps. set_solver.
  - rewrite L4. apply Hsz. unfold c_maps. set_solver.
Qed.

(** The matrix of the record a handler works on. *)
Lemma default_entry kg C :
  (forall cid c, kgCStore kg !! cid = Some c -> well_shaped (cC c)) -> well_shaped C ->
  let cid := GetCIDFromPointMatrix C in
  exists P, entry (cC (default (newC cid C) (kgCStore kg !! cid))) 0 0 = Ok P.
Proof.
  intros Hs HC. simpl. destruct (kgCStore kg !! _) as [c|] eqn:E; simpl.
  - by apply well_shaped_first, (Hs _ _ E).
  - by apply well_shaped_first.
Qed.

Lemma finishKeygen_no_panic kn kg cID c :
  (0 < length (cAbar c))%nat -> (0 < length (cAbarprime c))%nat ->
  (exists P, entry (cC c) 0 0 = Ok P) -> snd (finishKeygen kn kg cID c) <> Panicked.
Proof.
  intros H1 H2 [P HP]. unfold finishKeygen, run, emit.
  destruct (index_lt (cAbar c) 0 H1) as (x & _ & ->). destruct (index_lt (cAbarprime c) 0 H2) as (y & _ & ->).
  unfold entry in HP. destruct (index (cC c) 0) as [row|e|]; [|done..]. cbn [mbind res_bind].
  unfold marshal. by destruct (Marshal _).
Qed.

Lemma logIDs_Ok kn sender : long_id (knNodeDetails kn) -> long_id sender -> logIDs kn sender = Ok tt.
Proof. intros (s & E)%shortID_Ok (s' & E')%shortID_Ok. unfold logIDs. by rewrite E; simpl; rewrite E'. Qed.

Lemma echo_no_panic kn msg kg sender :
  net_ok (knCurrNodes kn) -> kg_ok (knCurrNodes kn) kg -> in_net (knCurrNodes kn) sender ->
  (forall cid c, kgCStore kg !! cid = Some c -> well_shaped (cC c)) -> well_shaped (ecC msg) ->
  long_id (knNodeDetails kn) -> long_id sender ->
  snd (processEchoMessage kn msg kg sender) <> Panicked.
Proof.
  intros Hnet [Es Hinv] Hs Hsh HC Hself Hsender. unfold processEchoMessage.
  case_decide; [done|]. case_decide as Hid; [destruct (shortID_Ok sender Hsender) as (? & ->); done|].
  destruct (AVSSVerifyPoint_returns (ecC msg) (NodeIndex sender) (NodeIndex (knNodeDetails kn))
    (ecAlpha msg) (ecAlphaprime msg) (ecBeta msg) (ecBetaprime msg) HC) as ([] & ->); [|done].
  cbn [run negb]. rewrite logIDs_Ok by done. cbn [run]. cbv zeta. fold (echoed kg msg sender).
  pose proof (echoed_core _ kg Es msg sender Hinv Hs Hid) as Hc.
  destruct (Z.eqb_spec (cEC (echoed kg msg sender)) (netEcThreshold (knCurrNodes kn))) as [E1|]; [|done].
  destruct (Z.ltb_spec (cRC (echoed kg msg sender)) (netK (knCurrNodes kn))) as [E2|]; [|done].
  apply (sendReady_no_panic 10 kn kg _ _ _ _ _ Hnet Hc); [left; lia|].
  apply (default_entry kg (ecC msg) Hsh HC).
Qed.

Lemma ready_no_panic kn msg kg sender :
  net_ok (knCurrNodes kn) -> kg_ok (knCurrNodes kn) kg -> in_net (knCurrNodes kn) sender ->
  (forall cid c, kgCStore kg !! cid = Some c -> well_shaped (cC c)) -> well_shaped (rdC msg) ->
  (64 <= length (rdSignedText msg))%nat -> long_id (knNodeDetails kn) -> long_id sender ->
  snd (processReadyMessage kn msg kg sender) <> Panicked.
Proof.
  intros Hnet [Es Hinv] Hs Hsh HC Hsig Hself Hsender. unfold processReadyMessage.
  case_decide; [done|]. case_decide as Hid; [done|].
  destruct (AVSSVerifyPoint_returns (rdC msg) (NodeIndex sender) (NodeIndex (knNodeDetails kn))
    (rdAlpha msg) (rdAlphaprime msg) (rdBeta msg) (rdBetaprime msg) HC) as ([] & ->); [|done].
  cbn [run negb].
  destruct (well_shaped_first _ HC) as (C00 & ->). cbn [mbind res_bind].
  destruct (ECDSAVerifyBytes_returns (ToBytes (mkSignedTextDetails (readyText kg) C00)) (PubKey sender)
    (rdSignedText msg) Hsig) as ([] & ->); [|done].
  cbn [run negb]. rewrite logIDs_Ok by done. cbn [run]. cbv zeta. fold (readied kg msg sender).
  pose proof (readied_core _ kg Es msg sender Hinv Hs Hid) as Hc.
  pose proof (default_entry kg (rdC msg) Hsh HC) as HP.
  pose proof (bar_ok_start _ kg Es (rdC msg) Hnet Hinv) as Hb0. cbv zeta in HP, Hb0.
  set (net := knCurrNodes kn) in *. pose proof (no_K _ Hnet). pose proof (no_T _ Hnet).
  assert (cRC (readied kg msg sender) = cRC (default (newC (GetCIDFromPointMatrix (rdC msg)) (rdC msg))
    (kgCStore kg !! GetCIDFromPointMatrix (rdC msg))) + 1) as HRC by done.
  destruct (Z.eqb_spec (cRC (readied kg msg sender)) (netK net)) as [E1|E1],
    (Z.ltb_spec (cEC (readied kg msg sender)) (netEcThreshold net)) as [E2|E2]; cbn [andb];
    [apply (sendReady_no_panic 20 kn kg _ _ _ _ _ Hnet Hc); [right; fold net; lia|done]| |..];
    (destruct (Z.eqb_spec (cRC (readied kg msg sender)) (netK net + netT net)) as [E3|]; [|done]);
    (destruct Hb0 as [Hb0 _]; destruct Hb0 as [Hb1 Hb2];
      [unfold reached; change (cEC (readied kg msg sender)) with (cEC (default (newC
        (GetCIDFromPointMatrix (rdC msg)) (rdC msg)) (kgCStore kg !! GetCIDFromPointMatrix (rdC msg)))) in *;
       lia|];
     apply finishKeygen_no_panic; [simpl; lia|simpl; lia|done]).
Qed.

(** ** Ready messages *)

(** The interpolated polynomial a keygen holds for a commitment. *)
Definition bars (kg : Keygen) (cid : CID) : list Z :=
  match kgCStore kg !! cid with
  | Some c => cAbar c
  | None => []
  end.

(** One message computes at most one polynomial, never changes one, and sends
    ready only when it computes one. *)
Definition ready_once (kg : Keygen) (r : Keygen * list Action * status) : Prop :=
  let '(kg', acts, _) := r in
  (forall cid, bars kg cid <> [] -> bars kg' cid = bars kg cid) /\
  ((exists dst m, Send dst m ∈ acts /\ kmMethod m = "ready"%string) ->
   exists cid, bars kg cid = [] /\ bars kg' cid <> []).

Lemma bars_set kg kg' cid c :
  kgCStore kg' = <[cid := c]> (kgCStore kg) ->
  (forall x, bars kg' x = if decide (x = cid) then cAbar c else bars kg x).
Proof.
  intros E x. unfold bars. rewrite E. case_decide as Hx; [by rewrite Hx, lookup_insert_eq|].
  by rewrite lookup_insert_ne by done.
Qed.

Lemma bars_default kg cid C : cAbar (default (newC cid C) (kgCStore kg !! cid)) = bars kg cid.
Proof. unfold bars. by destruct (kgCStore kg !! cid). Qed.

Lemma ready_once_none kg kg' acts st :
  (forall cid, bars kg cid <> [] -> bars kg' cid = bars kg cid) ->
  (forall dst m, Send dst m ∈ acts -> kmMethod m <> "ready"%string) -> ready_once kg (kg', acts, st).
Proof. intros H1 H2. split; [done|]. intros (dst & m & Hin & Hm). by destruct (H2 dst m Hin). Qed.

Lemma ready_once_set kg kg' cid c acts st :
  kgCStore kg' = <[cid := c]> (kgCStore kg) -> cAbar c = bars kg cid ->
  (forall dst m, Send dst m ∈ acts -> kmMethod m <> "ready"%string) -> ready_once kg (kg', acts, st).
Proof.
  intros E Hb. apply ready_once_none. intros x _. rewrite (bars_set _ _ _ _ E). case_decide; congruence.
Qed.

Lemma sendReady_once site kn kg re rr cid c E r :
  net_ok (knCurrNodes kn) -> c_core (knCurrNodes kn) re rr cid c E -> bars kg cid = [] ->
  0 < cEC c \/ 0 < cRC c ->
  sendReady site kn kg cid c = r -> ready_once kg r.
Proof.
  intros Hnet Hc Hb Hpos <-. destruct (interpolateBars_spec _ _ _ _ _ _ site Hnet Hc)
    as (c' & Ec & _ & _ & _ & _ & _ & _ & L1 & _).
  unfold sendReady, run. rewrite Ec. destruct (sendAll _ _) as [acts st].
  destruct (c_core_dom_size _ _ _ _ _ _ (cBC c) Hc) as [? ?]; [unfold c_maps; set_solver|].
  assert (cAbar c' <> []) as Hne by (intros Hn; rewrite Hn in L1; simpl in L1; lia).
  split.
  - intros x Hx. rewrite (bars_set kg (setC kg cid c') cid c' eq_refl). case_decide; congruence.
  - intros _. exists cid. split; [done|].
    rewrite (bars_set kg (setC kg cid c') cid c' eq_refl). by rewrite decide_True.
Qed.

Lemma echo_once kn msg kg sender :
  net_ok (knCurrNodes kn) -> kg_ok (knCurrNodes kn) kg -> in_net (knCurrNodes kn) sender ->
  ready_once kg (processEchoMessage kn msg kg sender).
Proof.
  intros Hnet [Es Hinv] Hs. destruct (processEchoMessage kn msg kg sender) as [[kg' acts] st] eqn:E.
  apply processEcho_cases in E as [[-> ->]|(_ & Hid & _ & H)]; [by apply ready_once_none; [|set_solver]|].
  pose proof (bar_ok_start _ kg Es (ecC msg) Hnet Hinv) as [_ Hb0].
  pose proof (echoed_core _ kg Es msg sender Hinv Hs Hid) as Hc.
  rewrite bars_default in Hb0. cbv zeta in *. set (cID := GetCIDFromPointMatrix (ecC msg)) in *.
  destruct H as [(_ & -> & -> & _)|(E1 & E2 & H)].
  - apply (ready_once_set kg _ cID (echoed kg msg sender)); [done| |set_solver]. apply bars_default.
  - apply (sendReady_once 10 kn kg _ _ cID _ _ _ Hnet Hc); [| |done].
    + apply Hb0. unfold reached. simpl in E1, E2. fold cID in E1, E2. lia.
    + left. rewrite (ci_EC _ _ _ _ _ _ Hc). rewrite size_union_alt, size_singleton. lia.
Qed.

Lemma ready_once_ready kn msg kg sender :
  net_ok (knCurrNodes kn) -> kg_ok (knCurrNodes kn) kg -> in_net (knCurrNodes kn) sender ->
  ready_once kg (processReadyMessage kn msg kg sender).
Proof.
  intros Hnet [Es Hinv] Hs. destruct (processReadyMessage kn msg kg sender) as [[kg' acts] st] eqn:E.
  apply processReady_cases in E as [[-> ->]|(_ & Hid & _ & _ & H)]; [by apply ready_once_none; [|set_solver]|].
  pose proof (bar_ok_start _ kg Es (rdC msg) Hnet Hinv) as [_ Hb0].
  pose proof (readied_core _ kg Es msg sender Hinv Hs Hid) as Hc.
  rewrite bars_default in Hb0. cbv zeta in *. set (cID := GetCIDFromPointMatrix (rdC msg)) in *.
  pose proof (no_K _ Hnet).
  destruct H as [(_ & _ & -> & -> & _)|[(_ & _ & H)|([E1 E2] & H)]].
  - apply (ready_once_set kg _ cID (readied kg msg sender)); [done| |set_solver]. apply bars_default.
  - assert (Hf := H). apply finishKeygen_frame in Hf as (Hcs & _).
    apply (ready_once_set kg _ cID (readied kg msg sender)); [done|apply bars_default|].
    revert H. unfold finishKeygen, run, emit. intros H dst m Hin.
    destruct (index _ 0); [|injection H as _ <- _; by apply not_elem_of_nil in Hin..].
    destruct (index _ 0); [|injection H as _ <- _; by apply not_elem_of_nil in Hin..].
    destruct (_ ≫= _) as [data|e|]; injection H as _ <- _; rewrite !elem_of_cons, ?elem_of_nil in Hin;
      [|naive_solver..]. destruct Hin as [?|[[= _ ->]|?]]; done.
  - apply (sendReady_once 20 kn kg _ _ cID _ _ _ Hnet Hc); [| |done].
    + apply Hb0. unfold reached. simpl in E1, E2. fold cID in E1, E2. lia.
    + right. lia.
Qed.

End send.

Section send_properties.
Context {SO : Secp256k1} {SL : Secp256k1Laws} {KC : KeygenCodecs} {TR : Transport}.

(** The matrices that the echo and ready messages carry are rectangular. *)
Definition shaped (sender : Node) (msg : KeygenMessage) : Prop :=
  (forall m, kmMethod msg = "echo"%string -> Unmarshal (kmData msg) = Some m -> well_shaped (ecC m)) /\
  (forall m, kmMethod msg = "ready"%string -> Unmarshal (kmData msg) = Some m -> well_shaped (rdC m)).

Definition shaped_store (kg : Keygen) : Prop := forall cid c, kgCStore kg !! cid = Some c -> well_shaped (cC c).

Lemma interpolateBars_C `{MapRange} site c c' : interpolateBars site c = Ok c' -> cC c' = cC c.
Proof. unfold interpolateBars. intros (? & _ & (? & _ & (? & _ & (? & _ & [= <-])%bind_Ok)%bind_Ok)%bind_Ok)%bind_Ok. done. Qed.

Lemma shaped_store_set `{MapRange} kg kg' C c c' reach :
  shaped_store kg -> well_shaped C -> cC c = cC (default (newC (GetCIDFromPointMatrix C) C) (kgCStore kg !! GetCIDFromPointMatrix C)) ->
  stored_bars reach c c' -> kgCStore kg' = <[GetCIDFromPointMatrix C := c']> (kgCStore kg) -> shaped_store kg'.
Proof.
  intros Hs HC Ec Hb E cid0 c0. rewrite E. destruct (decide (GetCIDFromPointMatrix C = cid0)) as [<-|Hne].
  - rewrite lookup_insert_eq. intros [= <-].
    assert (cC c' = cC c) as -> by (destruct Hb as [[_ ->]|[_ (site & [[_ ->]|Hi])]]; [done..|by eapply interpolateBars_C]).
    rewrite Ec. destruct (kgCStore kg !! _) as [c1|] eqn:E1; [by apply (Hs _ _ E1)|done].
  - rewrite lookup_insert_ne by done. apply Hs.
Qed.

(** Along a run of such messages the stored matrices are rectangular too. *)
Lemma shaped_reachable kn0 kn : knKeygenStore kn0 = ∅ -> reachable_with shaped kn0 kn ->
  knNodeDetails kn = knNodeDetails kn0 /\ store_all (fun _ => shaped_store) (knKeygenStore kn).
Proof.
  intros He. induction 1 as [|MR ML kn tape sender msg kn' tape' acts st Hr [IHn IH] Hs [Hok1 Hok2] H1
    |MR ML kn tape msg kn' tape' acts st Hr [IHn IH] H1].
  - split; [done|]. intros id kg. by rewrite He, lookup_empty.
  - destruct (ProcessMessage_all (fun _ => shaped_store) kn tape sender msg kn' tape' acts st) as (_ & Hn & Hst); try done.
    + intros kg kg' Hg [E _] cid c. rewrite E. apply Hg.
    + intros kn1 m kg kg' a s _ _ Hg Hme Hu [->|(_ & _ & c & -> & Hb)]%processEcho_stored; [done|].
      by eapply (shaped_store_set kg _ (ecC m)); [|by apply Hok1| |exact Hb|].
    + intros kn1 m kg kg' a s _ _ Hg Hme Hu [->|(_ & _ & c & Hc & _ & _ & _ & Hb & _)]%processReady_stored; [done|].
      by eapply (shaped_store_set kg _ (rdC m)); [|by apply Hok2| |exact Hb|].
    + split; [congruence|done].
  - destruct (ProcessBroadcastMessage_all _ kn tape msg kn' tape' acts st IH H1) as [_ Hst]. split; [|done].
    rewrite <-IHn. revert H1. clear. intros [[[= -> ->] _]|(? & _ & Hrun)]%run_inv; [done|]. revert Hrun.
    unfold processDecide, run, emit. repeat (case_match; try (by intros [= <- _ _ _]); simplify_eq); by intros [= <- _ _ _].
Qed.

(** C6: a node of a network whose ids have at least eight bytes (the handlers slice them
    for their logs), which has so far received echo and ready messages with rectangular
    matrices (and any other messages), does not panic on an echo or ready message of a
    member whose matrix is rectangular and, for a ready message, whose signature has full
    length: whatever else the bytes hold, from their decoding to the messages that the
    node sends. *)
Theorem echo_ready_never_panic {MR : MapRange} {ML : MapRangeLaws} self nodes t k idx delay kn tape sender msg :
  nodes_ok nodes -> 1 <= k -> 0 <= t -> Forall long_id (self :: nodes) ->
  reachable_with shaped (NewKeygenNode self nodes t k idx delay) kn -> sender ∈ nodes ->
  kmMethod msg = "echo"%string \/ kmMethod msg = "ready"%string -> shaped sender msg ->
  (forall m, kmMethod msg = "ready"%string -> Unmarshal (kmData msg) = Some m -> (64 <= length (rdSignedText m))%nat) ->
  snd (ProcessMessage kn tape sender msg) <> Panicked.
Proof.
  intros Hn Hk Ht [Hself Hids]%list.Forall_cons Hr Hs Hme [Hecho Hready] Hsig.
  destruct (shaped_reachable (NewKeygenNode self nodes t k idx delay) kn eq_refl Hr) as [Ekn0 Hshape].
  destruct (reachable_new _ _ _ _ _ _ _ Hn Hk Ht (reachable_weaken _ _ _ Hr)) as (Hnet & Ekn & Hst).
  assert (in_net (knCurrNodes kn) sender) as Hin by (rewrite Ekn; by apply in_net_list).
  assert (long_id sender) as Hsender by (by apply (proj1 (list.Forall_forall _ _) Hids)).
  assert (long_id (knNodeDetails kn)) as Hown by (by rewrite Ekn0).
  unfold ProcessMessage. rewrite logIDs_Ok by done. cbn [run]. unfold routeMessage. set (id := kmKeygenID msg).
  destruct (GetOrSetIfNotComplete _ _ _) as [store r] eqn:E.
  destruct (GetOrSet_all (fun id kg => kg_good (knCurrNodes kn) id kg /\ shaped_store kg) (knKeygenStore kn) id store r)
    as [_ Hkg]; [by split; [apply kg_good_new|]|intros i kg Hi; split; [by apply Hst|by apply (Hshape i)]|done|].
  destruct r as [kg|]; [|done]. destruct (Hkg kg eq_refl) as [[Hok _ _ _] Hsh]. clear Hkg.
  set (kn1 := setKeygenStore kn store).
  assert (forall f r, snd r <> Panicked -> snd (keygenResult kn1 tape id (deferred f r)) <> Panicked) as Hres
    by (by intros f [[? ?] ?] ?).
  destruct Hme as [Hme|Hme]; rewrite Hme; cbn [String.eqb Ascii.eqb Bool.eqb]; apply Hres.
  - destruct (Unmarshal (A := KeygenMsgEcho) (kmData msg)) as [m|] eqn:Em; [|done].
    destruct (FromKeygenID _ _) as [? [?|]]; [done|]. apply echo_no_panic; try done. by apply Hecho.
  - destruct (Unmarshal (A := KeygenMsgReady) (kmData msg)) as [m|] eqn:Em; [|done].
    destruct (FromKeygenID _ _) as [? [?|]]; [done|]. apply ready_no_panic; try done; [by apply Hready|by apply Hsig].
Qed.

(** Ready messages are sent once per commitment: in any reachable state an
    echo or ready message that makes the node send ready computes the polynomial
    of a commitment that had none, and no message ever changes a polynomial that
    has been computed. *)
Theorem ready_sent_once {MR : MapRange} {ML : MapRangeLaws}
    self nodes t k idx delay kn id kg sender :
  nodes_ok nodes -> 1 <= k -> 0 <= t ->
  reachable (NewKeygenNode self nodes t k idx delay) kn ->
  knKeygenStore kn !! id = Some (Some kg) -> sender ∈ nodes ->
  (forall msg, ready_once kg (processEchoMessage kn msg kg sender)) /\
  (forall msg, ready_once kg (processReadyMessage kn msg kg sender)).
Proof.
  intros Hn Hk Ht Hr Hkg Hs.
  destruct (reachable_new _ _ _ _ _ _ _ Hn Hk Ht Hr) as (Hnet & Ekn & Hst).
  destruct (Hst id kg Hkg) as [Hok _ _ _].
  assert (in_net (knCurrNodes kn) sender) as Hin by (rewrite Ekn; by apply in_net_list).
  split; intros msg; [by apply echo_once|by apply ready_once_ready].
Qed.

End send_properties.
