(* ===== verification/KeygenCorrect.v ===== *)
(** Correctness of the shares: with a dealing whose evaluations reach the node
    unaltered, a finished keygen holds the node's point of the dealer's bivariate
    polynomial, so the shares of the nodes reconstruct the dealt secret. *)
From Stdlib Require Import Zdivisibility ZArith.
From stdpp Require Import gmap strings.
From S2P Require Import Prelude BigInt Field Curve Pvss Interpolate Avss Nizkpk Ecdsa Ids Effects Keygen KeygenInv KeygenReach.

Section correct.
Context {SO : Secp256k1} {SL : Secp256k1Laws} {KC : KeygenCodecs} {TR : Transport}.

Local Abbreviation q := GeneratorOrder.

(** ** Interpolating the points of a row *)

(** The coefficients of F(i, y). *)
Definition row_poly (k : nat) (f : list (list Z)) (i : Z) : list Z :=
  (fun l => peval (column l f) i) <$> seq 0 k.

Lemma row_poly_eval k f i y : matrix_ok k f -> peval (row_poly k f i) y = beval f i y.
Proof. intros Hf. symmetry. by apply beval_columns. Qed.

Definition right_points (f : list (list Z)) (i : Z) (m : gmap NodeDetailsID Point) : Prop :=
  forall id p, m !! id = Some p -> PY p ≡[q] beval f i (PX p).

Definition right_bar (f : list (list Z)) (i : Z) (bar : list Z) : Prop :=
  bar <> [] -> head bar = Some (beval f i 0 mod q).

Lemma interpolate_right `{MapRange, !MapRangeLaws} net re rr cid c E m site k f i r :
  net_ok net -> c_core net re rr cid c E -> m ∈ c_maps c -> matrix_ok k f ->
  (k <= size m)%nat -> right_points f i m ->
  LagrangeInterpolatePolynomial (GetPointArrayFromMap site m) = Ok r -> right_bar f i r.
Proof.
  intros Hnet Hc Hm Hf Hk Hr E1. pose proof Hf as (Hk0 & _).
  rewrite (LagrangeInterpolatePolynomial_poly _ (row_poly k f i)) in E1.
  - injection E1 as <-. intros _. destruct k as [|k]; [lia|]. unfold row_poly. cbn [seq]. csimpl.
    f_equal. by rewrite (beval_0_r (S k)).
  - apply (collected_distinct net); [done|]. intros id p. by apply (ci_pts _ _ _ _ _ _ Hc).
  - unfold row_poly. rewrite length_fmap, length_seq, GetPointArrayFromMap_length. done.
  - intros p Hp. rewrite GetPointArrayFromMap_perm in Hp.
    apply list_elem_of_fmap in Hp as ([id p'] & -> & Hp%elem_of_map_to_list).
    rewrite row_poly_eval by done. by apply (Hr id).
Qed.

(** ** The invariant of one keygen *)

Definition right_c (f f' : list (list Z)) (i : Z) (c : CRecord) : Prop :=
  right_points f i (cBC c) /\ right_points f' i (cBCprime c) /\
  right_bar f i (cAbar c) /\ right_bar f' i (cAbarprime c).

Definition right_kg (f f' : list (list Z)) (i : Z) (cid : CID) (kg : Keygen) : Prop :=
  forall c, kgCStore kg !! cid = Some c -> right_c f f' i c.

(** What the senders' messages have to say about this commitment: the betas are
    the dealer's. *)
Definition right_betas (f f' : list (list Z)) (i : Z) (cid : CID) (id : KeygenID)
    (sender : Node) (msg : KeygenMessage) : Prop :=
  kmKeygenID msg = id ->
  (forall m, kmMethod msg = "echo"%string -> Unmarshal (kmData msg) = Some m ->
     GetCIDFromPointMatrix (ecC m) = cid ->
     ecBeta m ≡[q] beval f i (NodeIndex sender) /\ ecBetaprime m ≡[q] beval f' i (NodeIndex sender)) /\
  (forall m, kmMethod msg = "ready"%string -> Unmarshal (kmData msg) = Some m ->
     GetCIDFromPointMatrix (rdC m) = cid ->
     rdBeta m ≡[q] beval f i (NodeIndex sender) /\ rdBetaprime m ≡[q] beval f' i (NodeIndex sender)).

Lemma right_points_insert f i m id x y :
  right_points f i m -> y ≡[q] beval f i x -> right_points f i (<[id := mkPoint x y]> m).
Proof.
  intros Hm Hy id' p. destruct (decide (id = id')) as [->|Hne].
  - rewrite lookup_insert_eq. by intros [= <-].
  - rewrite lookup_insert_ne by done. apply Hm.
Qed.

Lemma right_c_default f f' i cid C kg :
  right_kg f f' i cid kg -> right_c f f' i (default (newC cid C) (kgCStore kg !! cid)).
Proof.
  intros H. destruct (kgCStore kg !! cid) as [c|] eqn:E; simpl; [by apply H|].
  split_and!; try (by intros Hn; destruct Hn); intros id p; simpl; by rewrite lookup_empty.
Qed.

Lemma right_kg_set f f' i cid kg kg' cid' c :
  right_kg f f' i cid kg -> kgCStore kg' = <[cid' := c]> (kgCStore kg) ->
  (cid' = cid -> right_c f f' i c) -> right_kg f f' i cid kg'.
Proof.
  intros H E Hc c0. rewrite E. destruct (decide (cid' = cid)) as [->|Hne].
  - rewrite lookup_insert_eq. intros [= <-]. by apply Hc.
  - rewrite lookup_insert_ne by done. apply H.
Qed.

Lemma interpolateBars_right `{MapRange, !MapRangeLaws} net re rr cid c E site k f f' i c' :
  net_ok net -> netK net = Z.of_nat k -> c_core net re rr cid c E -> reached net c ->
  matrix_ok k f -> matrix_ok k f' -> right_c f f' i c ->
  interpolateBars site c = Ok c' -> right_c f f' i c'.
Proof.
  intros Hnet Hk Hc Hr Hf Hf' (R1 & R2 & _ & _) E1.
  pose proof (ecThreshold_bounds (netN net) (netK net) (netT net)) as [Hb _].
  assert (forall m, m ∈ c_maps c -> (k <= size m)%nat) as Hsz.
  { intros m Hm. destruct (c_core_dom_size _ _ _ _ _ _ m Hc Hm). unfold reached, netEcThreshold in Hr. lia. }
  assert (cBC c ∈ c_maps c) as M1 by (unfold c_maps; set_solver).
  assert (cBCprime c ∈ c_maps c) as M2 by (unfold c_maps; set_solver).
  unfold interpolateBars in E1. apply bind_Ok in E1 as (r1 & I1 & (r2 & I2 & E1)%bind_Ok).
  apply bind_Ok in E1 as (r3 & _ & (r4 & _ & [= <-])%bind_Ok).
  split_and!; simpl; [done|done| |].
  - by eapply (interpolate_right net); [..|exact I1]; eauto.
  - by eapply (interpolate_right net); [..|exact I2]; eauto.
Qed.

Lemma stored_bars_right `{MapRange, !MapRangeLaws} net re rr cid c E k f f' i c' (reach : Prop) :
  net_ok net -> netK net = Z.of_nat k -> c_core net re rr cid c E -> (reach -> reached net c) ->
  matrix_ok k f -> matrix_ok k f' -> right_c f f' i c ->
  stored_bars reach c c' -> right_c f f' i c'.
Proof.
  intros Hnet Hk Hc Hre Hf Hf' Hr [[_ ->]|[Hrc (site & [[_ ->]|E1])]]; [done..|].
  eapply interpolateBars_right; eauto.
Qed.

Context (net : NodeNetwork) (k : nat) (f f' : list (list Z)) (i : Z) (cid : CID) (id : KeygenID).
Context (Hnet : net_ok net) (Hk : netK net = Z.of_nat k) (Hf : matrix_ok k f) (Hf' : matrix_ok k f').

Lemma echo_stored_right `{MapRange, !MapRangeLaws} msg kg sender kg' :
  in_net net sender -> kg_ok net kg -> right_kg f f' i cid kg ->
  ReceivedEcho (kgState kg) !! ToNodeDetailsID sender <> Some true ->
  (GetCIDFromPointMatrix (ecC msg) = cid ->
     ecBeta msg ≡[q] beval f i (NodeIndex sender) /\ ecBetaprime msg ≡[q] beval f' i (NodeIndex sender)) ->
  echo_stored net kg msg sender kg' -> right_kg f f' i cid kg'.
Proof.
  intros Hs [Es Hinv] Hr Hid Hm (c & -> & Hb). eapply right_kg_set; [done..|]. intros Ec.
  eapply stored_bars_right; [done|done|by apply (echoed_core _ kg Es)| |done|done| |exact Hb].
  - unfold reached. lia.
  - destruct (Hm Ec) as [B1 B2]. unfold echoed. rewrite Ec.
    destruct (right_c_default f f' i cid (ecC msg) kg Hr) as (R1 & R2 & R3 & R4).
    split_and!; simpl; auto using right_points_insert.
Qed.

Lemma ready_stored_right `{MapRange, !MapRangeLaws} msg kg sender kg' :
  in_net net sender -> kg_ok net kg -> right_kg f f' i cid kg ->
  ReceivedReady (kgState kg) !! ToNodeDetailsID sender <> Some true ->
  (GetCIDFromPointMatrix (rdC msg) = cid ->
     rdBeta msg ≡[q] beval f i (NodeIndex sender) /\ rdBetaprime msg ≡[q] beval f' i (NodeIndex sender)) ->
  ready_stored net kg msg sender kg' -> right_kg f f' i cid kg'.
Proof.
  intros Hs [Es Hinv] Hr Hid Hm (c & Hcs & _ & _ & _ & Hb & _). eapply right_kg_set; [done..|]. intros Ec.
  eapply stored_bars_right; [done|done|by apply (readied_core _ kg Es)| |done|done| |exact Hb].
  - unfold reached. lia.
  - destruct (Hm Ec) as [B1 B2]. unfold readied. rewrite Ec.
    destruct (right_c_default f f' i cid (rdC msg) kg Hr) as (R1 & R2 & R3 & R4).
    split_and!; simpl; auto using right_points_insert.
Qed.

Lemma echo_right `{MapRange, !MapRangeLaws} kn msg kg sender kg' acts st :
  knCurrNodes kn = net -> in_net net sender -> kg_ok net kg -> right_kg f f' i cid kg ->
  (GetCIDFromPointMatrix (ecC msg) = cid ->
     ecBeta msg ≡[q] beval f i (NodeIndex sender) /\ ecBetaprime msg ≡[q] beval f' i (NodeIndex sender)) ->
  processEchoMessage kn msg kg sender = (kg', acts, st) -> right_kg f f' i cid kg'.
Proof.
  intros Hkn Hs Hok Hr Hm [->|(_ & Hid & H1)]%processEcho_stored; [done|]. rewrite Hkn in H1.
  by eapply echo_stored_right.
Qed.

Lemma ready_right `{MapRange, !MapRangeLaws} kn msg kg sender kg' acts st :
  knCurrNodes kn = net -> in_net net sender -> kg_ok net kg -> right_kg f f' i cid kg ->
  (GetCIDFromPointMatrix (rdC msg) = cid ->
     rdBeta msg ≡[q] beval f i (NodeIndex sender) /\ rdBetaprime msg ≡[q] beval f' i (NodeIndex sender)) ->
  processReadyMessage kn msg kg sender = (kg', acts, st) -> right_kg f f' i cid kg'.
Proof.
  intros Hkn Hs Hok Hr Hm [->|(_ & Hid & H1)]%processReady_stored; [done|]. rewrite Hkn in H1.
  by eapply ready_stored_right.
Qed.

(** The invariant along a run. *)
Lemma right_reachable kn0 kn :
  knCurrNodes kn0 = net -> knKeygenStore kn0 = ∅ ->
  reachable_with (right_betas f f' i cid id) kn0 kn ->
  knCurrNodes kn = net /\
  store_all (fun id' kg => kg_good net id' kg /\ (id' = id -> right_kg f f' i cid kg)) (knKeygenStore kn).
Proof.
  intros Hkn0 He. induction 1 as [|MR ML kn tape sender msg kn' tape' acts st Hr [IHn IH] Hs Hok H1
    |MR ML kn tape msg kn' tape' acts st Hr [IHn IH] H1].
  - split; [done|]. intros id' kg. by rewrite He, lookup_empty.
  - rewrite Hkn0 in Hs.
    destruct (ProcessMessage_all (fun id' kg => kg_good net id' kg /\ (id' = id -> right_kg f f' i cid kg))
      kn tape sender msg kn' tape' acts st) as (Hn & _ & Hst); try done.
    + split; [apply kg_good_new|]. intros _ c. simpl. by rewrite lookup_empty.
    + intros kg kg' [Hg Hrk] Hfr. split; [by apply (kg_good_frame net _ kg)|].
      intros E c. destruct Hfr as [-> _]. by apply Hrk.
    + intros kn1 m kg kg' a s Hk1 _ [Hg Hrk] Hme Hu Hp. split;
      [apply (echo_good net kn1 m _ kg sender kg' a s Hnet); [congruence|done..]|].
      intros E. destruct (Hok E) as [Hb _].
      apply (echo_right kn1 m kg sender kg' a s); eauto; [congruence|apply Hg].
    + intros kn1 m kg kg' a s Hk1 _ [Hg Hrk] Hme Hu Hp. split;
      [apply (ready_good net kn1 m _ kg sender kg' a s Hnet); [congruence|done..]|].
      intros E. destruct (Hok E) as [_ Hb].
      apply (ready_right kn1 m kg sender kg' a s); eauto; [congruence|apply Hg].
    + split; [congruence|done].
  - destruct (ProcessBroadcastMessage_all _ kn tape msg kn' tape' acts st IH H1) as [Hn Hst].
    split; [congruence|done].
Qed.

End correct.

(** ** Properties *)

Section correct_properties.
Context {SO : Secp256k1} {SL : Secp256k1Laws} {KC : KeygenCodecs} {TR : Transport}.

Local Abbreviation q := GeneratorOrder.

Lemma finished_point nodes t k f f' cid id self idx delay kn kg :
  nodes_ok nodes -> 0 <= t -> matrix_ok k f -> matrix_ok k f' ->
  reachable_with (right_betas f f' (NodeIndex self) cid id)
    (NewKeygenNode self nodes t (Z.of_nat k) idx delay) kn ->
  knKeygenStore kn !! id = Some (Some kg) -> Phase (kgState kg) = Ended ->
  GetCIDFromPointMatrix (kgCbar kg) = cid ->
  kgSi kg = beval f (NodeIndex self) 0 mod q /\ kgSiprime kg = beval f' (NodeIndex self) 0 mod q.
Proof.
  intros Hn Ht Hf Hf' Hr Hkg He Hcid. pose proof Hf as (Hk & _).
  set (net := mkNodeNetwork (mapFromNodeList nodes) (Z.of_nat (length nodes)) t (Z.of_nat k)).
  assert (net_ok net) as Hnet by (apply net_ok_list; [done|lia|done]).
  destruct (right_reachable net k f f' (NodeIndex self) cid id Hnet eq_refl Hf Hf'
    (NewKeygenNode self nodes t (Z.of_nat k) idx delay) kn eq_refl eq_refl Hr)
    as [_ Hst].
  destruct (Hst id kg Hkg) as [[_ _ Hend _] Hrk].
  destruct (Hend He) as (c & Hc & _ & _ & H1 & H2). rewrite Hcid in Hc.
  destruct (Hrk eq_refl c Hc) as (_ & _ & B1 & B2).
  rewrite B1 in H1 by (by intros E; rewrite E in H1). rewrite B2 in H2 by (by intros E; rewrite E in H2).
  split; congruence.
Qed.

(** C7: the share is the dealer's: in every run of a node in which the betas
    sent for a commitment are the dealer's, a keygen that ends on that commitment
    holds F(i, 0) and F'(i, 0), and passes [AVSSVerifyShare] against the
    dealer's commitment matrix. *)
Theorem finished_share_is_dealt nodes t k f f' id self idx delay kn kg C :
  nodes_ok nodes -> 0 <= t -> matrix_ok k f -> matrix_ok k f' -> GetCommitmentMatrix f f' = Ok C ->
  reachable_with (right_betas f f' (NodeIndex self) (GetCIDFromPointMatrix C) id)
    (NewKeygenNode self nodes t (Z.of_nat k) idx delay) kn ->
  knKeygenStore kn !! id = Some (Some kg) -> Phase (kgState kg) = Ended -> kgCbar kg = C ->
  kgSi kg = beval f (NodeIndex self) 0 mod q /\ kgSiprime kg = beval f' (NodeIndex self) 0 mod q /\
  AVSSVerifyShare C (NodeIndex self) (kgSi kg) (kgSiprime kg) = Ok true.
Proof.
  intros Hn Ht Hf Hf' HC Hr Hkg He HCb.
  destruct (finished_point nodes t k f f' _ id self idx delay kn kg Hn Ht Hf Hf' Hr Hkg He) as [-> ->];
    [by rewrite HCb|]. split_and!; [done..|].
  rewrite (GetCommitmentMatrix_spec k) in HC by done. injection HC as <-.
  unfold AVSSVerifyShare. rewrite (AVSSVerifyShareCommitment_spec k) by done. f_equal.
  apply pointEqb_true. rewrite pedersen_ped by apply mod_order_bound. by rewrite !eqm_mod.
Qed.

(** The share of one node of the network that has finished the sharing [id]. *)
Definition finished_share (nodes : list Node) (t : Z) (k : nat) (f f' : list (list Z)) (cid : CID)
    (id : KeygenID) (s : PrimaryShare) : Prop :=
  exists self idx delay kn kg,
    reachable_with (right_betas f f' (NodeIndex self) cid id)
      (NewKeygenNode self nodes t (Z.of_nat k) idx delay) kn /\
    knKeygenStore kn !! id = Some (Some kg) /\ Phase (kgState kg) = Ended /\
    GetCIDFromPointMatrix (kgCbar kg) = cid /\ s = mkPrimaryShare (NodeIndex self) (kgSi kg).

(** C8: the network holds the secret: the shares of any [k] or more nodes, each at the end
    of a run of its own, interpolate to the secret of the dealer, provided that in every
    one of these runs the echo and ready messages for the dealer's commitment carry the
    dealer's points for the node ([right_betas]), and that it is on this commitment that
    the node has ended.  The code checks the alphas of a message against its commitment but never
    the betas, so a sender that deviates is outside of this theorem. *)
Theorem network_reconstructs_secret nodes t k f f' cid id shares :
  nodes_ok nodes -> 0 <= t -> matrix_ok k f -> matrix_ok k f' ->
  Forall (finished_share nodes t k f f' cid id) shares ->
  distinct q (Index <$> shares) -> (k <= length shares)%nat ->
  LagrangeScalar shares 0 = beval f 0 0 mod q.
Proof.
  intros Hn Ht Hf Hf' Hs Hd Hl. pose proof Hf as (_ & Hlen & _).
  rewrite (LagrangeScalar_spec (column 0 f)); [by rewrite (beval_0_r k)|done| |].
  - rewrite length_column. lia.
  - eapply list.Forall_impl; [exact Hs|]. intros s (self & idx & delay & kn & kg & Hr & Hkg & He & Hc & ->).
    destruct (finished_point nodes t k f f' cid id self idx delay kn kg Hn Ht Hf Hf' Hr Hkg He Hc) as [E _].
    simpl. rewrite E, <-(beval_0_r k) by done. apply eqm_mod.
Qed.

(** Honest nodes relay honestly: a node that receives its slices of a
    dealing echoes to every node the betas of the dealer's polynomials, so its
    echoes meet the condition of the two properties above. *)
Theorem honest_echo_right {CL1 : CodecLaws KeygenMsgSend} {CL2 : CodecLaws KeygenMsgEcho}
    k f f' C sharing kn kg sendMsg m dst echoMsg id :
  matrix_ok k f -> matrix_ok k f' -> netK (knCurrNodes kn) = Z.of_nat k -> in_int64 (NodeIndex dst) ->
  sendMessage sharing f f' C (knNodeDetails kn) = Ok sendMsg ->
  Unmarshal (kmData sendMsg) = Some m ->
  echoMessage kn kg m dst = Ok echoMsg ->
  right_betas f f' (NodeIndex dst) (GetCIDFromPointMatrix C) id (knNodeDetails kn) echoMsg.
Proof.
  intros Hf Hf' HK Hd Hsend Hm Hecho. unfold sendMessage in Hsend.
  apply bind_Ok in Hsend as (a & Ea & (a' & Ea' & (data & Edata & [= <-])%bind_Ok)%bind_Ok).
  unfold marshal in Edata. destruct (Marshal _) as [d|] eqn:Em; [|done]. injection Edata as ->.
  apply Unmarshal_Marshal in Em. simpl in Hm. rewrite Em in Hm. injection Hm as <-.
  unfold echoMessage in Hecho. simpl in Hecho. rewrite HK in Hecho.
  apply bind_Ok in Hecho as (v1 & _ & (v2 & _ & (v3 & E3 & (v4 & E4 & Hecho)%bind_Ok)%bind_Ok)%bind_Ok).
  apply bind_Ok in Hecho as (d' & Ed' & [= <-]).
  unfold marshal in Ed'. destruct (Marshal _) as [d''|] eqn:Em' in Ed'; [|done]. injection Ed' as ->.
  apply Unmarshal_Marshal in Em'. intros _. split; [|done]. intros m _ Hm _. simpl in Hm.
  rewrite Em' in Hm. injection Hm as <-. simpl.
  destruct (sliceY_PolyEval k f (NodeIndex (knNodeDetails kn)) (NodeIndex dst) Hf Hd) as (w & Ew & _ & Hw).
  destruct (sliceY_PolyEval k f' (NodeIndex (knNodeDetails kn)) (NodeIndex dst) Hf' Hd) as (w' & Ew' & _ & Hw').
  pose proof Hf as (_ & Hl & _). pose proof Hf' as (_ & Hl' & _).
  unfold EvaluateBivarPolyAtY in Ew, Ew'. rewrite Hl in Ew. rewrite Hl' in Ew'.
  rewrite Ew in E3. rewrite Ew' in E4. injection E3 as ->. injection E4 as ->. done.
Qed.

End correct_properties.
