(* ===== verification/KeygenDecide.v ===== *)
(** The end of a key generation: the proposal a node makes, the key it derives
    once a set of sharings is decided, and the exchange of NIZKPs that completes
    and cleans up the key. *)
From Stdlib Require Import Zdivisibility ZArith Sorted.
From stdpp Require Import gmap strings.
From S2P Require Import Prelude BigInt Field Curve Pvss Interpolate Avss Nizkpk Ecdsa Ids Effects Keygen KeygenInv KeygenReach.

(** ** Sorting the proposed ids *)

Lemma chars_ltb_total a b : chars_ltb a b = false -> chars_ltb b a = false -> a = b.
Proof.
  revert b. induction a as [|c a IH]; intros [|d b]; simpl; try done.
  destruct (N.ltb_spec (N_of_ascii c) (N_of_ascii d)), (N.ltb_spec (N_of_ascii d) (N_of_ascii c));
    try done; try lia. intros H1 H2. f_equal; [|by apply IH].
  rewrite <-(ascii_N_embedding c), <-(ascii_N_embedding d). f_equal. lia.
Qed.

Lemma string_ltb_total a b : string_ltb a b = false -> a <> b -> string_ltb b a = true.
Proof.
  unfold string_ltb. intros H Hne. destruct (chars_ltb (chars b) (chars a)) eqn:E; [done|].
  destruct Hne. rewrite <-(unchars_chars a), <-(unchars_chars b). f_equal. by apply chars_ltb_total.
Qed.

Lemma insertKey_perm k l : insertKey k l ≡ₚ k :: l.
Proof.
  induction l as [|x l IH]; simpl; [done|]. destruct (string_ltb x k); [|done].
  rewrite IH. constructor.
Qed.

Lemma sortKeys_perm l : sortKeys l ≡ₚ l.
Proof. induction l as [|k l IH]; simpl; [done|]. by rewrite insertKey_perm, IH. Qed.

Local Abbreviation sorted := (Sorted (fun a b : string => string_ltb a b = true)).

Lemma insertKey_sorted k l : k ∉ l -> sorted l -> sorted (insertKey k l).
Proof.
  intros Hk Hs. induction Hs as [|x l Hs IH Hx]; simpl; [by repeat constructor|].
  rewrite not_elem_of_cons in Hk. destruct Hk as [Hne Hk].
  destruct (string_ltb x k) eqn:E.
  - constructor; [by apply IH|]. destruct l as [|y l]; simpl; [by constructor|].
    inv Hx. destruct (string_ltb y k); by constructor.
  - constructor; [by constructor|]. constructor. by apply string_ltb_total.
Qed.

Lemma sortKeys_sorted l : NoDup l -> sorted (sortKeys l).
Proof.
  induction 1 as [|k l Hk _ IH]; [constructor|]. simpl. apply insertKey_sorted; [|done].
  by rewrite sortKeys_perm.
Qed.

Section decide.
Context {SO : Secp256k1} {SL : Secp256k1Laws} {KC : KeygenCodecs} {TR : Transport}.

Local Abbreviation q := GeneratorOrder.

(** ** The decided key *)

(** What a node holds of one decided sharing. *)
Definition decided (k : nat) (i : Z) (d : list (list Z) * list (list Z)) (kg : Keygen) : Prop :=
  matrix_ok k (fst d) /\ matrix_ok k (snd d) /\
  GetCommitmentMatrix (fst d) (snd d) = Ok (kgCbar kg) /\
  kgSi kg = beval (fst d) i 0 mod q /\ kgSiprime kg = beval (snd d) i 0 mod q.

(** The column that commits to the shares. *)
Definition share_column (d : list (list Z) * list (list Z)) : list Z * list Z :=
  (column 0 (fst d), column 0 (snd d)).

Lemma dbarInputs_decided k i ds keygens :
  Forall2 (decided k i) ds keygens ->
  dbarInputs keygens = Ok ((fun cd => zip_with ped (fst cd) (snd cd)) <$> (share_column <$> ds)).
Proof.
  unfold dbarInputs. induction 1 as [|d kg ds keygens (Hf & Hf' & HC & _) _ IH]; [done|].
  rewrite mapM_cons_res. rewrite (GetCommitmentMatrix_spec k) in HC by done. injection HC as <-.
  rewrite (GetColumnPoint_spec k) by done. cbn [mbind res_bind].
  assert (exists p l, zip_with ped (column 0 (fst d)) (column 0 (snd d)) = p :: l) as (p & l & Ec).
  { destruct Hf as (Hk & Hl & _), Hf' as (_ & Hl' & _). unfold column.
    destruct (fst d); [simpl in Hl; lia|]. destruct (snd d); [simpl in Hl'; lia|]. csimpl. eauto. }
  rewrite Ec. cbn [mbind res_bind]. rewrite IH. cbn [mbind res_bind]. rewrite !fmap_cons.
  change (share_column d) with (column 0 (fst d), column 0 (snd d)). cbn [fst snd]. by rewrite Ec.
Qed.

Lemma peval_sum_columns (css : list (list Z * list Z)) (g : list Z * list Z -> list Z) m x :
  Forall (fun cd => length (g cd) = m) css ->
  peval ((fun l => sumZ (fun cd => g cd !!! l) css) <$> seq 0 m) x = sumZ (fun cd => peval (g cd) x) css.
Proof.
  intros Hl. induction Hl as [|cd css Hcd _ IH].
  - cbn [sumZ foldr]. generalize (seq 0 m). intros l.
    induction l as [|a l IH]; [done|]. rewrite fmap_cons, peval_cons, IH. cbn. lia.
  - cbn [sumZ foldr] in *. fold (sumZ (fun cd => peval (g cd) x) css). rewrite <-IH, <-Hcd.
    rewrite <-(fmap_lookup_total_seq (g cd)) at 2. generalize (seq 0 (length (g cd))). intros l.
    induction l as [|a l IHl]; [done|]. rewrite !fmap_cons, !peval_cons, IHl. unfold sumZ. simpl. lia.
Qed.

(** The interpolated commitments commit to the sums of the dealings. *)
Lemma decided_Dbar k i ds keygens :
  ds <> [] -> Forall2 (decided k i) ds keygens ->
  exists inputs Dbar, dbarInputs keygens = Ok inputs /\ AddCommitments inputs = Ok Dbar /\
    (0 < length Dbar)%nat /\
    forall x, RHS Dbar x = ped (sumZ (fun d => beval (fst d) x 0) ds) (sumZ (fun d => beval (snd d) x 0) ds).
Proof.
  intros Hne Hd. eexists _, _. split; [by apply (dbarInputs_decided k i ds)|].
  assert (Forall (fun d => matrix_ok k (fst d) /\ matrix_ok k (snd d)) ds) as Hok.
  { clear -Hd. induction Hd as [|d kg ds keygens (Hf & Hf' & _) _ IH]; constructor; auto. }
  assert (Forall (fun cd => length (fst cd) = k /\ length (snd cd) = k) (share_column <$> ds)) as Hlen.
  { apply Forall_fmap. eapply list.Forall_impl; [exact Hok|]. intros d [(_ & Hl & _) (_ & Hl' & _)].
    simpl. by rewrite !length_column. }
  split; [apply (AddCommitments_ped _ k); [by destruct ds|done]|].
  assert (0 < k)%nat as Hk by (destruct Hok as [|d ? [(? & _) _] _]; [done|lia]).
  split; [rewrite length_fmap, length_seq; lia|]. intros x.
  rewrite <-(zip_with_fmap_seq ped), RHS_ped by (by rewrite !length_fmap).
  rewrite (peval_sum_columns _ fst k), (peval_sum_columns _ snd k), !sumZ_fmap
    by (eapply list.Forall_impl; [exact Hlen|by intros ? []]). simpl.
  f_equal; apply sumZ_ext_eq; intros d Hin; rewrite list.Forall_forall in Hok;
    destruct (Hok d Hin); by rewrite (beval_0_r k).
Qed.

Lemma SumScalars_decided (g : Keygen -> Z) (h : list (list Z) * list (list Z) -> Z) ds keygens :
  Forall2 (fun d kg => g kg = h d mod q) ds keygens ->
  SumScalars (g <$> keygens) ≡[q] sumZ h ds.
Proof.
  intros H2. unfold SumScalars. rewrite eqm_mod.
  assert (forall b, foldl Z.add b (g <$> keygens) ≡[q] b + sumZ h ds) as Hg; [|by rewrite Hg].
  induction H2 as [|d kg ds keygens E _ IH]; intros b; csimpl; [by rewrite Z.add_0_r|].
  rewrite IH, E, eqm_mod. unfold sumZ. simpl. by rewrite Z.add_assoc.
Qed.

Lemma SumScalars_nonneg l : 0 <= SumScalars l.
Proof. apply mod_order_bound. Qed.

(** C9: deciding derives the key: when every decided sharing ended with the
    dealer's values, the decide handler's verification succeeds, the node's key
    share is the sum of its shares, the stored commitments open to the sum of the
    dealings at every index, and the NIZKP it sends to every node passes both of
    the receiver's checks. *)
Theorem decide_derives_key `{MapRange} kn tape msg dkg k ds keygens :
  tape_ok tape -> ds <> [] ->
  Forall2 (decided k (NodeIndex (knNodeDetails kn))) ds keygens ->
  (forall m : KeygenMsgNIZKP, exists b, Marshal m = Some b) ->
  exists kn' tape' acts dkg' p b,
    processDecide kn tape msg dkg keygens = ((kn', tape'), acts, Returned) /\
    knDKGStore kn' !! dcDKGID msg = Some (Some dkg') /\
    dkgSi dkg' = sumZ (fun d => beval (fst d) (NodeIndex (knNodeDetails kn)) 0) ds mod q /\
    (forall x, RHS (dkgDbar dkg') x =
       ped (sumZ (fun d => beval (fst d) x 0) ds) (sumZ (fun d => beval (snd d) x 0) ds)) /\
    nzGSi p = dkgSi dkg' ⊙ secp_G /\
    Marshal (mkKeygenMsgNIZKP (dcDKGID msg) p) = Some b /\
    acts = OutputText (dcDKGID msg ++ " generated") ::
      ((fun n => Send n (CreateKeygenMessage NullKeygenID "nizkp" b)) <$> rangeNodes 50 kn) /\
    VerifyShareCommitment (nzGSiHSiprime p) (dkgDbar dkg') (nzNodeIndex p) = true /\
    VerifyNIZKPK (nzC p) (nzU1 p) (nzU2 p) (nzGSi p) (nzGSiHSiprime p) = Ok true.
Proof.
  intros Ht Hne Hd Hm. set (i := NodeIndex (knNodeDetails kn)) in *.
  destruct (decided_Dbar k i ds keygens Hne Hd) as (inputs & Dbar & E1 & E2 & _ & HD).
  set (abar := SumScalars (kgSi <$> keygens)). set (abar' := SumScalars (kgSiprime <$> keygens)).
  assert (abar ≡[q] sumZ (fun d => beval (fst d) i 0) ds) as Ha.
  { apply (SumScalars_decided kgSi (fun d => beval (fst d) i 0)). eapply Forall2_impl; [|exact Hd].
    by intros d kg (_ & _ & _ & ? & _). }
  assert (abar' ≡[q] sumZ (fun d => beval (snd d) i 0) ds) as Ha'.
  { apply (SumScalars_decided kgSiprime (fun d => beval (snd d) i 0)). eapply Forall2_impl; [|exact Hd].
    by intros d kg (_ & _ & _ & _ & ?). }
  assert (0 <= abar) as Hn by apply SumScalars_nonneg.
  assert (0 <= abar') as Hn' by apply SumScalars_nonneg.
  destruct (GenerateNIZKPK_honest abar abar' tape Hn Hn' Ht) as (c & u1 & u2 & tape' & E3 & _ & Hv).
  assert (VerifyShareCommitment (ped abar abar') Dbar i = true) as Hvs.
  { unfold VerifyShareCommitment. rewrite HD, <-Ha, <-Ha'. apply Z.eqb_refl. }
  destruct (Hm (mkKeygenMsgNIZKP (dcDKGID msg) (mkNIZKP i c u1 u2 (abar ⊙ secp_G) (ped abar abar'))))
    as (b & Eb).
  eexists _, _, _, (setDecided dkg Dbar abar abar'), (mkNIZKP i c u1 u2 (abar ⊙ secp_G) (ped abar abar')), b.
  unfold processDecide, run, emit. fold abar abar'. rewrite E1, E2.
  rewrite ScalarBaseMult_Bytes, ScalarMult_Bytes by (done || auto with torus). fold (ped abar abar').
  fold i. rewrite Hvs. cbn [negb]. rewrite E3. unfold marshal. rewrite Eb.
  split; [reflexivity|]. simpl. rewrite lookup_insert_eq. split_and!; try done.
  rewrite <-(Z.mod_small abar q) by apply mod_order_bound.
  apply eqm_mod_iff; [|done]. pose proof order_ge_2. lia.
Qed.

(** ** Completing the key *)

(** A NIZKP that passes both checks. *)
Definition nizkp_valid (dkg : DKG) (p : NIZKP) : Prop :=
  VerifyShareCommitment (nzGSiHSiprime p) (dkgDbar dkg) (nzNodeIndex p) = true /\
  VerifyNIZKPK (nzC p) (nzU1 p) (nzU2 p) (nzGSi p) (nzGSiHSiprime p) = Ok true.

(** What a valid NIZKP does when it does not complete the key, and before it
    completes it. *)
Lemma nizkp_counts `{MapRange} kn msg sender dkg :
  knDKGStore kn !! nzDKGID msg = Some (Some dkg) -> dkgDbar dkg <> [] ->
  nizkp_valid dkg (nzNIZKP msg) ->
  let store := <[ToNodeDetailsID sender := nzNIZKP msg]> (dkgNIZKPStore dkg) in
  Z.of_nat (size store) <> netK (knCurrNodes kn) ->
  processNIZKPMessage kn msg sender =
    (setDKG kn (nzDKGID msg) (setNIZKP dkg (ToNodeDetailsID sender) (nzNIZKP msg)), [], Returned).
Proof.
  intros Hl Hdb [H1 H2] store Hs. unfold processNIZKPMessage, getDKGIfDbarExists. rewrite Hl.
  destruct (dkgDbar dkg) as [|P Dbar] eqn:Ed; [done|]. rewrite Ed in *. rewrite H1. cbn [negb].
  unfold run. rewrite H2. cbn [negb]. cbn [setNIZKP dkgNIZKPStore].
  rewrite (proj2 (Z.eqb_neq _ _)) by done. done.
Qed.

Lemma KeygenStoreComplete_in net store dkgID id n :
  Nodes net !! id = Some n ->
  KeygenStoreComplete net store dkgID !! ToKeygenID (mkKeygenIDDetails dkgID (NodeIndex n)) = Some None.
Proof.
  unfold KeygenStoreComplete.
  refine (map_fold_weak_ind (fun (acc : gmap string (option Keygen)) (m : gmap string Node) =>
    m !! id = Some n ->
    acc !! ToKeygenID (mkKeygenIDDetails dkgID (NodeIndex n)) = Some None) _ _ _ _ (Nodes net)).
  - by rewrite lookup_empty.
  - intros j n' m acc _ IH. destruct (decide (j = id)) as [->|Hne].
    + rewrite lookup_insert_eq. intros [= ->]. by rewrite lookup_insert_eq.
    + rewrite lookup_insert_ne by done. intros Hm.
      destruct (decide (ToKeygenID (mkKeygenIDDetails dkgID (NodeIndex n')) =
        ToKeygenID (mkKeygenIDDetails dkgID (NodeIndex n)))) as [->|Hk].
      * by rewrite lookup_insert_eq.
      * rewrite lookup_insert_ne by done. by apply IH.
Qed.

(** Interpolating in the exponent always returns on as many points as indexes. *)
Lemma LagrangeCurvePts_total {A} (idx : A -> Z) (pt : A -> Point) l :
  l <> [] -> exists P, LagrangeCurvePts (idx <$> l) (pt <$> l) = Ok P.
Proof.
  intros Hne. unfold LagrangeCurvePts, LagrangePolys.
  destruct ((fun p => [p]) <$> (pt <$> l)) as [|poly0 polys'] eqn:E.
  { apply fmap_nil_inv, fmap_nil_inv in E. done. }
  assert (length poly0 = 1%nat) as ->.
  { destruct l as [|a l]; [done|]. csimpl in E. by injection E as <- _. }
  rewrite <-E, !length_fmap, Nat.eqb_refl. cbn [negb seq].
  rewrite mapM_cons_res.
  match goal with |- context [foldlM ?g ?b ?ll] =>
    assert (forall b' ll', ll' ⊆ ll -> exists P, foldlM g b' ll' = Ok P) as Hg end.
  { intros b' ll'. revert b'. induction ll' as [|[j x] ll' IH]; intros b' Hsub; [by eexists|].
    assert ((j, x) ∈ zip (seq 0 (length l)) (idx <$> l)) as Hin by (apply Hsub; by left).
    rewrite <-(length_fmap idx l) in Hin at 1. apply elem_of_zip_seq in Hin as [_ Hj].
    rewrite Nat.sub_0_r in Hj. apply lookup_lt_Some in Hj. rewrite length_fmap in Hj. cbn [foldlM fst snd].
    destruct (index_lt ((fun p => [p]) <$> (pt <$> l)) j) as (p & Hp & ->); [by rewrite !length_fmap|].
    cbn [mbind res_bind]. rewrite !list_lookup_fmap in Hp. destruct (l !! j); [|done]. injection Hp as <-.
    cbn [index deref lookup list_lookup mbind res_bind]. apply IH. set_solver. }
  destruct (Hg PointO (zip (seq 0 (length l)) (idx <$> l))) as (P & ->); [done|].
  cbn [mbind res_bind]. by eexists.
Qed.

(** C10: the K-th valid NIZKP from distinct nodes completes the key, and no
    earlier one does: the handler outputs exactly the node's share and
    commitments under the key's index, and afterwards the DKG, its sharing and
    the keygen of every dealer are completed. *)
Theorem nizkp_completes_key `{MapRange, !MapRangeLaws} kn msg sender dkg keyIndex :
  knDKGStore kn !! nzDKGID msg = Some (Some dkg) -> dkgDbar dkg <> [] ->
  dkgDKGID dkg = nzDKGID msg -> GetIndex (nzDKGID msg) = Ok keyIndex ->
  nizkp_valid dkg (nzNIZKP msg) ->
  (forall m : KeygenMsgPubKey, exists b, Marshal m = Some b) ->
  let store := <[ToNodeDetailsID sender := nzNIZKP msg]> (dkgNIZKPStore dkg) in
  exists kn' acts, processNIZKPMessage kn msg sender = (kn', acts, Returned) /\
    (Z.of_nat (size store) <> netK (knCurrNodes kn) -> acts = [] /\
       knDKGStore kn' !! nzDKGID msg =
         Some (Some (setNIZKP dkg (ToNodeDetailsID sender) (nzNIZKP msg)))) /\
    (Z.of_nat (size store) = netK (knCurrNodes kn) ->
       (exists m, acts = [OutputText (nzDKGID msg ++ " nizkp completed");
          OutputKey (mkKeyStorage keyIndex (dkgSi dkg) (dkgSiprime dkg) (dkgDbar dkg));
          GoPubKey m keyIndex]) /\
       knDKGStore kn' !! nzDKGID msg = Some None /\ knShareStore kn' !! nzDKGID msg = Some None /\
       forall id n, Nodes (knCurrNodes kn) !! id = Some n ->
         knKeygenStore kn' !! ToKeygenID (mkKeygenIDDetails (nzDKGID msg) (NodeIndex n)) = Some None).
Proof.
  intros Hl Hdb Hid Hgi Hv Hm store.
  destruct (decide (Z.of_nat (size store) = netK (knCurrNodes kn))) as [Hs|Hs].
  2: { eexists _, _. split; [by apply (nizkp_counts kn msg sender dkg)|]. split; [|done].
       intros _. split; [done|]. simpl. by rewrite lookup_insert_eq. }
  unfold processNIZKPMessage, getDKGIfDbarExists. rewrite Hl.
  destruct (dkgDbar dkg) as [|P Dbar] eqn:Ed; [done|]. destruct Hv as [H1 H2]. rewrite Ed in *. rewrite H1.
  cbn [negb]. unfold run. rewrite H2. cbn [negb]. cbn [setNIZKP dkgNIZKPStore]. fold store.
  rewrite (proj2 (Z.eqb_eq _ _)) by done. cbn [negb].
  set (proofs := mapRange 40 store).
  destruct (LagrangeCurvePts_total (fun ip => NodeIndex (FromNodeDetailsID NodeZero (fst ip)))
    (fun ip => nzGSi (snd ip)) proofs) as (GS & ->).
  { intros E. assert (length (mapRange 40 store) = 0%nat) as E0 by (unfold proofs in E; by rewrite E).
    rewrite mapRange_perm, length_map_to_list in E0. apply map_size_empty_inv in E0.
    by apply insert_non_empty in E0. }
  cbn [setGS setNIZKP dkgDKGID dkgSi dkgSiprime dkgDbar]. rewrite Hid, Hgi, Ed.
  destruct (Hm (mkKeygenMsgPubKey (ToNodeDetailsID (knNodeDetails kn)) (nzDKGID msg) (snd <$> proofs)))
    as (b & Eb).
  unfold marshal. rewrite Eb. unfold emit. eexists _, _. split; [reflexivity|]. split; [done|]. intros _.
  split; [by eexists|]. simpl. rewrite !lookup_insert_eq. split_and!; [done|done|].
  intros id n. apply KeygenStoreComplete_in.
Qed.

(** ** The proposal *)

(** The proofs a proposal carries for one keygen. *)
Definition proof_ok (kn : KeygenNode) (keygenid : KeygenID) (proofs : gmap NodeDetailsID ProposeProof) : Prop :=
  exists kg c, knKeygenStore kn !! keygenid = Some (Some kg) /\
    kgCStore kg !! GetCIDFromPointMatrix (kgCbar kg) = Some c /\ kgCbar kg <> [] /\
    (forall nid, ppSignedTextDetails <$> proofs !! nid = cSignedTextStore c !! nid).

Lemma proposeProof_ok kn keygenid proofs :
  proposeProof kn keygenid = Ok proofs -> proof_ok kn keygenid proofs.
Proof.
  unfold proposeProof. destruct (knKeygenStore kn !! keygenid) as [[kg|]|] eqn:E; [|done..].
  destruct (kgCbar kg) as [|row Cbar] eqn:Ec; [done|]. rewrite <-Ec.
  destruct (kgCStore kg !! _) as [c|] eqn:Es; [|done]. intros (C00 & _ & [= <-])%bind_Ok.
  exists kg, c. split_and!; [done|done|by rewrite Ec|]. intros nid. unfold SignedTextToProposeProof.
  rewrite lookup_fmap.
  assert (forall o : option SignedText, ppSignedTextDetails <$> ((fun text => mkProposeProof text C00) <$> o) = o)
    as Ho by (by intros []). apply Ho.
Qed.

(** A keygen that has a commitment has counted K+T ready messages for it. *)
Definition cbar_ok (net : NodeNetwork) (kg : Keygen) : Prop :=
  kgCbar kg <> [] -> exists c, kgCStore kg !! GetCIDFromPointMatrix (kgCbar kg) = Some c /\ netK net + netT net <= cRC c.

Lemma stored_bars_RC `{MapRange} reach c c' : stored_bars reach c c' -> cRC c' = cRC c /\ cC c' = cC c.
Proof.
  intros [[_ ->]|[_ (site & [[_ ->]|E])]]; [done..|]. unfold interpolateBars in E. by res_inv.
Qed.

(** Another record for a commitment counts no fewer. *)
Lemma cbar_ok_set net kg kg' C c : cbar_ok net kg -> kgCbar kg' = kgCbar kg ->
  kgCStore kg' = <[GetCIDFromPointMatrix C := c]> (kgCStore kg) ->
  cRC (default (newC (GetCIDFromPointMatrix C) C) (kgCStore kg !! GetCIDFromPointMatrix C)) <= cRC c -> cbar_ok net kg'.
Proof.
  intros Hok Eb Es Hc Hne. rewrite Eb in *. destruct (Hok Hne) as (c0 & H0 & H1). rewrite Es.
  destruct (decide (GetCIDFromPointMatrix C = GetCIDFromPointMatrix (kgCbar kg))) as [E|Hn].
  - rewrite E, lookup_insert_eq. exists c. split; [done|]. rewrite E, H0 in Hc. simpl in Hc. lia.
  - rewrite lookup_insert_ne by done. by exists c0.
Qed.

Lemma echo_cbar `{MapRange} net kn msg kg sender kg' acts st :
  cbar_ok net kg -> processEchoMessage kn msg kg sender = (kg', acts, st) -> cbar_ok net kg'.
Proof.
  intros Hok [->|(_ & _ & c & -> & Hb)]%processEcho_stored; [done|]. apply stored_bars_RC in Hb as [HR _].
  apply (cbar_ok_set net kg _ (ecC msg) c); [done..|]. rewrite HR. simpl. lia.
Qed.

(** What finishing does to the commitment. *)
Lemma finishKeygen_Cbar kn kg cID c kg' acts st : finishKeygen kn kg cID c = (kg', acts, st) ->
  kgCStore kg' = <[cID := c]> (kgCStore kg) /\ (kgCbar kg' = kgCbar kg \/ kgCbar kg' = cC c).
Proof.
  unfold finishKeygen, run, emit. repeat (case_match; simplify_eq); intros [= <- _ _]; simpl; auto.
Qed.

Lemma sendReady_Cbar `{MapRange} site kn kg cID c kg' acts st : sendReady site kn kg cID c = (kg', acts, st) ->
  exists c', kgCStore kg' = <[cID := c']> (kgCStore kg) /\ kgCbar kg' = kgCbar kg /\ cRC c' = cRC c.
Proof.
  intros [(-> & _)|(c' & E & -> & _)]%sendReady_cases; [by exists c|]. exists c'. split_and!; [done..|].
  unfold interpolateBars in E. by res_inv.
Qed.

Lemma ready_cbar `{MapRange, !MapRangeLaws} net kn msg kg sender kg' acts st :
  knCurrNodes kn = net -> kg_ok net kg -> cbar_ok net kg ->
  processReadyMessage kn msg kg sender = (kg', acts, st) -> cbar_ok net kg'.
Proof.
  intros Hkn [Es Hinv] Hok [[-> _]|(_ & _ & _ & _ & Hcase)]%processReady_cases; [done|]. rewrite Hkn in Hcase. cbv zeta in Hcase.
  assert (cRC (readied kg msg sender) = cRC (default (newC (GetCIDFromPointMatrix (rdC msg)) (rdC msg))
    (kgCStore kg !! GetCIDFromPointMatrix (rdC msg))) + 1) as HR by done.
  destruct Hcase as [(_ & _ & -> & _)|[(_ & Hf & Hfin)|(_ & Hsend)]].
  - apply (cbar_ok_set net kg _ (rdC msg) (readied kg msg sender)); [done..|lia].
  - apply finishKeygen_Cbar in Hfin as [Hs [Hb|Hb]].
    + apply (cbar_ok_set net kg _ (rdC msg) (readied kg msg sender)); [done..|lia].
    + intros _. pose proof (ci_cid _ _ _ _ _ _ (c_core_start net _ _ kg Es (rdC msg) Hinv eq_refl eq_refl)) as Hc.
      assert (GetCIDFromPointMatrix (kgCbar kg') = GetCIDFromPointMatrix (rdC msg)) as -> by (by rewrite Hb).
      rewrite Hs, lookup_insert_eq. eexists. split; [done|]. lia.
  - apply sendReady_Cbar in Hsend as (c' & Hs & Hb & Hc).
    apply (cbar_ok_set net kg _ (rdC msg) c'); [done..|lia].
Qed.

(** Along every run. *)
Lemma cbar_reachable kn0 kn : net_ok (knCurrNodes kn0) -> knKeygenStore kn0 = ∅ -> reachable kn0 kn ->
  knCurrNodes kn = knCurrNodes kn0 /\
  store_all (fun id kg => kg_good (knCurrNodes kn0) id kg /\ cbar_ok (knCurrNodes kn0) kg) (knKeygenStore kn).
Proof.
  intros Hnet He. set (net := knCurrNodes kn0) in *.
  induction 1 as [|MR ML kn tape sender msg kn' tape' acts st Hr [IHn IH] Hs _ H1
    |MR ML kn tape msg kn' tape' acts st Hr [IHn IH] H1].
  - split; [done|]. intros id' kg. by rewrite He, lookup_empty.
  - destruct (ProcessMessage_all (fun id kg => kg_good net id kg /\ cbar_ok net kg)
      kn tape sender msg kn' tape' acts st) as (Hn & _ & Hst); try done.
    + split; [apply kg_good_new|]. by intros Hne.
    + intros kg kg' [Hg Hb] Hfr. split; [by apply (kg_good_frame net _ kg)|].
      destruct Hfr as (E & _ & _ & _ & _ & Eb). unfold cbar_ok. by rewrite E, Eb.
    + intros kn1 m kg kg' a s Hk1 _ [Hg Hb] _ _ Hp. split;
        [apply (echo_good net kn1 m _ kg sender kg' a s Hnet); [congruence|done..]|].
      by apply (echo_cbar net kn1 m kg sender kg' a s).
    + intros kn1 m kg kg' a s Hk1 _ [Hg Hb] _ _ Hp. split;
        [apply (ready_good net kn1 m _ kg sender kg' a s Hnet); [congruence|done..]|].
      apply (ready_cbar net kn1 m kg sender kg' a s); [congruence|apply Hg|done..].
    + split; [congruence|done].
  - destruct (ProcessBroadcastMessage_all _ kn tape msg kn' tape' acts st IH H1) as [Hn Hst].
    split; [congruence|done].
Qed.

(** C11: a node proposes K+T sharings with their quorums: when, in a reachable state, a
    complete message makes it emit a proposal, the proposal lists exactly K+T keygens, in
    strictly ascending order, each stored by the node with a commitment, and the proofs
    for each are at least K+T signatures by nodes of the network, each valid on that
    keygen's ready text for this commitment. *)
Theorem proposal_has_quorums {CL : CodecLaws KeygenMsgPropose} {MR : MapRange} {ML : MapRangeLaws}
    self nodes t k idx delay kn msg details sender dkgs m kI dkgID :
  nodes_ok nodes -> 1 <= k -> 0 <= t ->
  reachable (NewKeygenNode self nodes t k idx delay) kn ->
  processCompleteMessage kn msg details sender = (dkgs, [GoPropose m kI dkgID], Returned) ->
  exists p, Unmarshal (kmData m) = Some p /\ prDKGID p = dkgID /\ GetIndex dkgID = Ok kI /\
    Z.of_nat (length (prKeygens p)) = k + t /\ sorted (prKeygens p) /\
    Forall2 (fun keygenid proofs => exists kg, knKeygenStore kn !! keygenid = Some (Some kg) /\ kgCbar kg <> [] /\
      k + t <= Z.of_nat (size proofs) /\
      forall nid pp, proofs !! nid = Some pp -> exists n C C00,
        mapFromNodeList nodes !! nid = Some n /\ entry C 0 0 = Ok C00 /\
        GetCIDFromPointMatrix C = GetCIDFromPointMatrix (kgCbar kg) /\
        ECDSAVerifyBytes (ToBytes (mkSignedTextDetails (Join [keygenid; "ready"] Delimiter1) C00))
          (PubKey n) (ppSignedTextDetails pp) = Ok true) (prKeygens p) (prProposeProofs p).
Proof.
  intros Hn Hk Ht Hr Hc. destruct (reachable_new _ _ _ _ _ _ _ Hn Hk Ht Hr) as (Hnet & Ekn & _).
  destruct (cbar_reachable (NewKeygenNode self nodes t k idx delay) kn) as [_ Hst]; [by apply net_ok_list|done|done|].
  unfold processCompleteMessage in Hc. rewrite Ekn in Hc. cbn [netK netT] in Hc.
  destruct (negb (String.eqb _ _)); [done|].
  destruct (GetOrSetIfNotComplete _ _ _) as [store [dkg|]]; [|done]. cbv zeta in Hc.
  set (dkg' := setDMap dkg (<[cmKeygenID msg := cmCommitmentArr msg]> (dkgDMap dkg))) in *.
  destruct (Z.eqb_spec (Z.of_nat (size (dkgDMap dkg'))) (k + t)) as [Hs|]; [|done]. cbn [negb] in Hc.
  destruct (shortID _) as [?| |]; [cbn [run] in Hc|done..].
  set (keygens := sortKeys (fst <$> mapRange 30 (dkgDMap dkg'))) in *. unfold run in Hc.
  destruct (mapM (proposeProof kn) keygens) as [proofs| |] eqn:Ep; [|done..]. cbn [mbind res_bind] in Hc.
  unfold marshal in Hc. destruct (Marshal _) as [data|] eqn:Em; [|done].
  destruct (GetIndex (kidDKGID details)) as [ki| |] eqn:Eg; [|done..].
  injection Hc as _ <- <- <-. apply Unmarshal_Marshal in Em. eexists. split; [exact Em|].
  assert (keygens ≡ₚ (map_to_list (dkgDMap dkg')).*1) as Hperm.
  { unfold keygens. by rewrite sortKeys_perm, mapRange_perm. }
  split_and!; [done|done| | |]; cbn [prKeygens prProposeProofs].
  - by rewrite Hperm, length_fmap, length_map_to_list.
  - apply sortKeys_sorted. rewrite mapRange_perm. apply NoDup_fst_map_to_list.
  - apply mapM_Ok_Forall2 in Ep. eapply Forall2_impl; [|exact Ep]. intros keygenid pr Hpr%proposeProof_ok.
    destruct Hpr as (kg & c & Hkg & Hc & Hne & Hpp). exists kg. split; [done|]. split; [done|].
    destruct (Hst keygenid kg Hkg) as [[[Es Hinv] Hsig _ Hid] Hb].
    destruct (Hb Hne) as (c' & Hc' & HR). rewrite Hc in Hc'. injection Hc' as <-.
    cbn in HR. destruct (ki_c _ _ _ Hinv _ _ Hc) as [Hcc _].
    rewrite (ci_RC _ _ _ _ _ _ Hcc) in HR. split.
    + assert (dom pr = dom (cSignedTextStore c)) as Hdom; [|apply (f_equal size) in Hdom; rewrite !size_dom in Hdom; lia].
      apply set_eq. intros nid. rewrite !elem_of_dom, <-Hpp. by rewrite fmap_is_Some.
    + intros nid pp Hl. assert (cSignedTextStore c !! nid = Some (ppSignedTextDetails pp)) as Ht'
        by (specialize (Hpp nid); rewrite Hl in Hpp; symmetry; exact Hpp).
      destruct (Hsig _ _ _ _ Hc Ht') as (n & C & C00 & H1 & H2 & H3 & H4). exists n, C, C00.
      unfold readyText in H4. rewrite Hid in *. done.
Qed.

End decide.
