(* ===== verification/KeygenToy.v ===== *)
(** A concrete network of three nodes on the toy curve, on which the key
    generation runs: the parameters of the model instantiated, a run of one
    sharing at one node evaluated, and the witnesses of the protocol's
    properties. *)
From Stdlib Require Import ZArith Sorted.
From stdpp Require Import gmap strings countable.
From S2P Require Import Prelude BigInt Field Curve Pvss Interpolate Avss Nizkpk Ecdsa Ids Effects Keygen KeygenInv KeygenReach KeygenSend KeygenCorrect KeygenDecide.

(** ** A serialisation: length-prefixed lists of numbers *)

Module ToyCodec.

(** Writers, and readers that return what is left. *)
Class Ser (A : Type) := {
  ser : A -> list Z;
  de : list Z -> option (A * list Z);
  de_ser a r : de (ser a ++ r) = Some (a, r);
}.

#[global] Instance ser_Z : Ser Z.
Proof.
  refine {| ser x := [x]; de l := match l with x :: r => Some (x, r) | [] => None end |}. done.
Defined.

Definition ser_iso {A B} `{Ser B} (f : A -> B) (g : B -> A) (Hfg : forall a, g (f a) = a) : Ser A.
Proof.
  refine {| ser a := ser (f a);
            de l := match de (A := B) l with Some (b, r) => Some (g b, r) | None => None end |}.
  intros a r. by rewrite de_ser, Hfg.
Defined.

#[global] Instance ser_prod {A B} `{Ser A, Ser B} : Ser (A * B).
Proof.
  refine {| ser ab := ser (fst ab) ++ ser (snd ab);
            de l := match de (A := A) l with
                    | Some (a, r) =>
                        match de (A := B) r with
                        | Some (b, r') => Some ((a, b), r')
                        | None => None
                        end
                    | None => None
                    end |}.
  intros [a b] r. simpl. by rewrite <-app_assoc, !de_ser.
Defined.

Section lists.
Context {A} `{Ser A}.

Fixpoint de_many (n : nat) (l : list Z) : option (list A * list Z) :=
  match n with
  | O => Some ([], l)
  | S n' =>
      match de (A := A) l with
      | Some (a, r) =>
          match de_many n' r with
          | Some (bs, r') => Some (a :: bs, r')
          | None => None
          end
      | None => None
      end
  end.

Lemma de_many_ser l r : de_many (length l) (concat (ser <$> l) ++ r) = Some (l, r).
Proof.
  induction l as [|a l IH]; [done|]. csimpl. rewrite <-app_assoc, de_ser. by rewrite IH.
Qed.

#[global] Instance ser_list : Ser (list A).
Proof.
  refine {| ser l := Z.of_nat (length l) :: concat (ser <$> l);
            de l := match l with n :: r => de_many (Z.to_nat n) r | [] => None end |}.
  intros l r. simpl. rewrite Nat2Z.id. apply de_many_ser.
Defined.

End lists.

#[global] Instance ser_string : Ser string :=
  ser_iso (fun s => Zpos (encode s))
    (fun z => match z with Zpos p => default EmptyString (decode p) | _ => EmptyString end)
    ltac:(intros s; cbv beta iota; by rewrite decode_encode).

#[global] Instance ser_map {A} `{Ser A} : Ser (gmap string A) :=
  ser_iso (B := list (string * A)) (fun m : gmap string A => map_to_list m) (fun l => list_to_map l)
    list_to_map_to_list.

#[global] Instance ser_point : Ser Point :=
  ser_iso (fun p => (PX p, PY p)) (fun xy => mkPoint (fst xy) (snd xy)) ltac:(by intros []).

#[global] Instance ser_text : Ser SignedTextDetails :=
  ser_iso (fun s => (stText s, stC00 s)) (fun xy => mkSignedTextDetails (fst xy) (snd xy))
    ltac:(by intros []).

#[global] Instance ser_proof : Ser ProposeProof :=
  ser_iso (fun s => (ppSignedTextDetails s, ppC00 s)) (fun xy => mkProposeProof (fst xy) (snd xy))
    ltac:(by intros []).

#[global] Instance ser_nizkp : Ser NIZKP :=
  ser_iso (fun p => (nzNodeIndex p, nzC p, nzU1 p, nzU2 p, nzGSi p, nzGSiHSiprime p))
    (fun '(a, b, c, d, e, g) => mkNIZKP a b c d e g) ltac:(by intros []).

#[global] Instance ser_share : Ser KeygenMsgShare := ser_iso msDKGID mkKeygenMsgShare ltac:(by intros []).

#[global] Instance ser_send : Ser KeygenMsgSend :=
  ser_iso (fun m => (snKeygenID m, snC m, snA m, snAprime m, snB m, snBprime m))
    (fun '(a, b, c, d, e, g) => mkKeygenMsgSend a b c d e g) ltac:(by intros []).

#[global] Instance ser_echo : Ser KeygenMsgEcho :=
  ser_iso (fun m => (ecKeygenID m, ecC m, ecAlpha m, ecAlphaprime m, ecBeta m, ecBetaprime m))
    (fun '(a, b, c, d, e, g) => mkKeygenMsgEcho a b c d e g) ltac:(by intros []).

#[global] Instance ser_ready : Ser KeygenMsgReady :=
  ser_iso (fun m => (rdKeygenID m, rdC m, rdAlpha m, rdAlphaprime m, rdBeta m, rdBetaprime m,
       (rdSignedText m : list Z)))
    (fun '(a, b, c, d, e, g, h) => mkKeygenMsgReady a b c d e g h) ltac:(by intros []).

#[global] Instance ser_complete : Ser KeygenMsgComplete :=
  ser_iso (fun m => (cmKeygenID m, cmCommitmentArr m))
    (fun xy => mkKeygenMsgComplete (fst xy) (snd xy)) ltac:(by intros []).

#[global] Instance ser_propose : Ser KeygenMsgPropose :=
  ser_iso (fun m => (prNodeDetailsID m, prDKGID m, prKeygens m, prProposeProofs m))
    (fun '(a, b, c, d) => mkKeygenMsgPropose a b c d) ltac:(by intros []).

#[global] Instance ser_pubkey : Ser KeygenMsgPubKey :=
  ser_iso (fun m => (pkNodeDetailsID m, pkDKGID m, pkPubKeyProofs m))
    (fun '(a, b, c) => mkKeygenMsgPubKey a b c) ltac:(by intros []).

#[global] Instance ser_decide : Ser KeygenMsgDecide :=
  ser_iso (fun m => (dcDKGID m, dcKeygens m)) (fun xy => mkKeygenMsgDecide (fst xy) (snd xy))
    ltac:(by intros []).

#[global] Instance ser_msgnizkp : Ser KeygenMsgNIZKP :=
  ser_iso (fun m => (nzDKGID m, nzNIZKP m)) (fun xy => mkKeygenMsgNIZKP (fst xy) (snd xy))
    ltac:(by intros []).

#[global] Instance codec_ser {A} `{Ser A} : Codec A | 100 := {|
  Marshal a := Some (ser a);
  Unmarshal b :=
    match de b with
    | Some (a, []) => Some a
    | _ => None
    end;
|}.

#[global] Instance codec_ser_laws {A} `{Ser A} : CodecLaws A.
Proof. constructor. intros a b [= <-]. simpl. rewrite <-(app_nil_r (ser a)). by rewrite de_ser. Qed.

#[global] Instance codecs : KeygenCodecs := {|
  codec_share := codec_ser;
  codec_send := codec_ser;
  codec_echo := codec_ser;
  codec_ready := codec_ser;
  codec_complete := codec_ser;
  codec_propose := codec_ser;
  codec_pubkey := codec_ser;
  codec_decide := codec_ser;
  codec_nizkp := codec_ser;
  codec_signedtext := codec_ser;
|}.

#[global] Instance range : MapRange := {| mapRange V site m := map_to_list m |}.

#[global] Instance range_laws : MapRangeLaws.
Proof. by constructor. Qed.

End ToyCodec.
Import ToyCodec.

(** ** The network *)

Definition toy_key (i : Z) : Z := 10 + i.
Definition toy_node (i : Z) : Node := mkNode i (ScalarBaseMult (Bytes (toy_key i))).
Definition toy_net_nodes : list Node := toy_node <$> [1; 2; 3].

#[global] Instance toy_transport : Transport := {| Sign b := ethSign (Keccak256 b) (toy_key 1) |}.

Definition toy_start (i : Z) : KeygenNode := NewKeygenNode (toy_node i) toy_net_nodes 1 2 0 0.
Definition toy_dkg : DKGID := GenerateDKGID 5.
Definition toy_id (dealer : Z) : KeygenID := ToKeygenID (mkKeygenIDDetails toy_dkg dealer).

Definition or_zero (r : res Z) : Z := match r with Ok x => x | _ => 0 end.

(** What node [m] sends to node [i]. *)
Definition toy_alpha (g : list (list Z)) (i m : Z) : Z :=
  or_zero (a ← EvaluateBivarPolyAtX g m; PolyEval a i).
Definition toy_beta (g : list (list Z)) (i m : Z) : Z :=
  or_zero (PolyEval (EvaluateBivarPolyAtY g m) i).

Definition bytes_of {A} `{Codec A} (a : A) : list Z := default [] (Marshal a).

Definition toy_echo (id : KeygenID) (i m : Z) : KeygenMsgEcho :=
  mkKeygenMsgEcho id toy_C (toy_alpha toy_f i m) (toy_alpha toy_f' i m)
    (toy_beta toy_f i m) (toy_beta toy_f' i m).

Definition toy_sig (id : KeygenID) (m : Z) : list Z :=
  match entry toy_C 0 0 with
  | Ok C00 =>
      default [] (ethSign (Keccak256 (ToBytes (mkSignedTextDetails
        (Join [id; "ready"] Delimiter1) C00))) (toy_key m))
  | _ => []
  end.

Definition toy_ready (id : KeygenID) (i m : Z) : KeygenMsgReady :=
  mkKeygenMsgReady id toy_C (toy_alpha toy_f i m) (toy_alpha toy_f' i m)
    (toy_beta toy_f i m) (toy_beta toy_f' i m) (toy_sig id m).

(** The messages of one sharing, as node [i] receives them. *)
Definition toy_messages (id : KeygenID) (i : Z) : list (Node * KeygenMessage) :=
  ((fun m => (toy_node m, CreateKeygenMessage id "echo" (bytes_of (toy_echo id i m)))) <$> [1; 2; 3]) ++
  ((fun m => (toy_node m, CreateKeygenMessage id "ready" (bytes_of (toy_ready id i m)))) <$> [1; 2; 3]).

(** Deliver messages one after the other. *)
Fixpoint deliver (kn : KeygenNode) (tape : Tape) (msgs : list (Node * KeygenMessage)) : KeygenNode * Tape :=
  match msgs with
  | [] => (kn, tape)
  | (sender, msg) :: msgs' =>
      let '((kn', tape'), _, _) := ProcessMessage kn tape sender msg in
      deliver kn' tape' msgs'
  end.

Lemma deliver_reachable ok kn0 kn tape msgs :
  reachable_with ok kn0 kn ->
  Forall (fun sm => in_net (knCurrNodes kn0) (fst sm) /\ ok (fst sm) (snd sm)) msgs ->
  reachable_with ok kn0 (fst (deliver kn tape msgs)).
Proof.
  intros Hr Hm. revert kn tape Hr. induction Hm as [|[s m] msgs [H1 H2] _ IH]; intros kn tape Hr; [done|].
  simpl. destruct (ProcessMessage kn tape s m) as [[[kn' tape'] acts] st] eqn:E.
  apply IH. by eapply reach_direct; [..|exact E]; try apply _.
Qed.

Definition toy_end (i : Z) : KeygenNode := fst (deliver (toy_start i) toy_tape (toy_messages (toy_id 2) i)).

Definition stored_keygen (kn : KeygenNode) (id : KeygenID) : Keygen :=
  match knKeygenStore kn !! id with
  | Some (Some kg) => kg
  | _ => newKeygen id
  end.

Definition toy_kg (i : Z) : Keygen := stored_keygen (toy_end i) (toy_id 2).

Example toy_run :
  (bool_decide (Phase (kgState (toy_kg 1)) = Ended), kgSi (toy_kg 1), kgSiprime (toy_kg 1)) = (true, 24, 3).
Proof. vm_compute. reflexivity. Qed.

(** ** The run meets the hypotheses of the properties *)

Lemma toy_nodes_ok : nodes_ok toy_net_nodes.
Proof.
  split; [repeat constructor; unfold in_int64; simpl; lia|].
  vm_compute. repeat constructor; set_solver.
Qed.

Lemma toy_senders id i j : Forall (fun sm => in_net (knCurrNodes (toy_start i)) (fst sm)) (toy_messages id j).
Proof. repeat constructor; vm_compute; reflexivity. Qed.

Lemma toy_reachable_with ok i :
  Forall (fun sm => ok (fst sm) (snd sm)) (toy_messages (toy_id 2) i) ->
  reachable_with ok (toy_start i) (toy_end i).
Proof.
  intros H. apply deliver_reachable; [apply reach_start|]. apply Forall_and; [|exact H].
  apply toy_senders.
Qed.

Lemma toy_reachable i : reachable (toy_start i) (toy_end i).
Proof. apply toy_reachable_with. by apply list.Forall_forall. Qed.

Lemma toy_stored1 : knKeygenStore (toy_end 1) !! toy_id 2 = Some (Some (toy_kg 1)).
Proof. vm_compute. reflexivity. Qed.

Lemma toy_stored3 : knKeygenStore (toy_end 3) !! toy_id 2 = Some (Some (toy_kg 3)).
Proof. vm_compute. reflexivity. Qed.

Lemma toy_ended1 : Phase (kgState (toy_kg 1)) = Ended.
Proof. vm_compute. reflexivity. Qed.

Lemma toy_ended3 : Phase (kgState (toy_kg 3)) = Ended.
Proof. vm_compute. reflexivity. Qed.

Lemma toy_Cbar1 : kgCbar (toy_kg 1) = toy_C.
Proof. vm_compute. reflexivity. Qed.

Lemma toy_Cbar3 : kgCbar (toy_kg 3) = toy_C.
Proof. vm_compute. reflexivity. Qed.

Lemma toy_commit : GetCommitmentMatrix toy_f toy_f' = Ok toy_C.
Proof. vm_compute. reflexivity. Qed.

(** The senders' betas are the dealer's. *)
Definition betas_check (i : Z) (sm : Node * KeygenMessage) : bool :=
  let m := NodeIndex (fst sm) in
  let ok b b' :=
    ((b - beval toy_f i m) mod 31 =? 0) && ((b' - beval toy_f' i m) mod 31 =? 0) in
  (if String.eqb (kmMethod (snd sm)) "echo" then
     match Unmarshal (A := KeygenMsgEcho) (kmData (snd sm)) with
     | Some m => ok (ecBeta m) (ecBetaprime m)
     | None => true
     end
   else true) &&
  (if String.eqb (kmMethod (snd sm)) "ready" then
     match Unmarshal (A := KeygenMsgReady) (kmData (snd sm)) with
     | Some m => ok (rdBeta m) (rdBetaprime m)
     | None => true
     end
   else true).

Lemma eqm31_check a b : ((a - b) mod 31 =? 0) = true -> a ≡[31] b.
Proof. intros E%Z.eqb_eq. apply Z.mod_divide in E; [done|lia]. Qed.

Lemma betas_check_right i cid id sm :
  betas_check i sm = true -> right_betas toy_f toy_f' i cid id (fst sm) (snd sm).
Proof.
  unfold betas_check. intros [H1 H2]%andb_true_iff _. split; intros m Hm E _.
  - rewrite Hm, String.eqb_refl, E in H1. apply andb_true_iff in H1 as [H3 H4].
    split; by apply eqm31_check.
  - rewrite Hm, String.eqb_refl, E in H2. apply andb_true_iff in H2 as [H3 H4].
    split; by apply eqm31_check.
Qed.

Lemma toy_betas i cid id :
  forallb (betas_check i) (toy_messages (toy_id 2) i) = true ->
  Forall (fun sm => right_betas toy_f toy_f' i cid id (fst sm) (snd sm)) (toy_messages (toy_id 2) i).
Proof.
  intros Hc. apply list.Forall_forall. intros sm Hin%list_elem_of_In. apply betas_check_right.
  by apply (proj1 (List.forallb_forall (betas_check i) (toy_messages (toy_id 2) i))).
Qed.

Lemma toy_reachable_betas1 cid id :
  reachable_with (right_betas toy_f toy_f' 1 cid id) (toy_start 1) (toy_end 1).
Proof. apply toy_reachable_with, toy_betas. vm_compute. reflexivity. Qed.

Lemma toy_reachable_betas3 cid id :
  reachable_with (right_betas toy_f toy_f' 3 cid id) (toy_start 3) (toy_end 3).
Proof. apply toy_reachable_with, toy_betas. vm_compute. reflexivity. Qed.

(** ** Witnesses *)

Lemma echo_quorums_intersect_witness :
  2 <= Z.of_nat (size (({["a"; "b"; "c"]} : gset string) ∩ {["b"; "c"; "d"]})).
Proof.
  apply (echo_quorums_intersect {["a"; "b"; "c"; "d"]} {["a"; "b"; "c"]} {["b"; "c"; "d"]} 2 1);
    [set_solver | set_solver | vm_compute; discriminate | vm_compute; discriminate].
Defined.

Definition toy_cid : CID := GetCIDFromPointMatrix toy_C.

Definition toy_record : CRecord := default (newC toy_cid []) (kgCStore (toy_kg 1) !! toy_cid).

Lemma toy_record_stored : kgCStore (toy_kg 1) !! toy_cid = Some toy_record.
Proof. vm_compute. reflexivity. Qed.

Lemma echo_threshold_unique_witness : cEC toy_record = 3 /\ toy_cid = toy_cid.
Proof.
  split; [vm_compute; reflexivity|].
  apply (echo_threshold_unique (toy_node 1) toy_net_nodes 1 2 0 0 (toy_end 1) (toy_id 2) (toy_kg 1)
    toy_cid toy_cid toy_record toy_record); [apply toy_nodes_ok | lia | lia | apply toy_reachable |
    apply toy_stored1 | apply toy_record_stored | apply toy_record_stored | |];
    vm_compute; discriminate.
Defined.

Lemma finished_sharing_quorum_witness :
  exists c, kgCStore (toy_kg 1) !! GetCIDFromPointMatrix (kgCbar (toy_kg 1)) = Some c /\
    3 <= Z.of_nat (size (cSignedTextStore c)) /\ head (cAbar c) = Some 24.
Proof.
  destruct (finished_sharing_quorum (toy_node 1) toy_net_nodes 1 2 0 0 (toy_end 1) (toy_id 2) (toy_kg 1))
    as (c & H1 & _ & H2 & H3 & _);
    [apply toy_nodes_ok | lia | lia | apply toy_reachable | apply toy_stored1 | apply toy_ended1 |].
  exists c. split; [exact H1|]. split; [lia|]. rewrite H3. vm_compute. reflexivity.
Defined.

Lemma finished_sharing_final_witness :
  knKeygenStore (toy_end 1) !! toy_id 2 = Some None \/
  exists kg', knKeygenStore (toy_end 1) !! toy_id 2 = Some (Some kg') /\ kgSi kg' = kgSi (toy_kg 1).
Proof.
  destruct (finished_sharing_final (toy_end 1) (toy_end 1) (toy_id 2) (toy_kg 1))
    as [H|(kg' & H & _ & Hs & _)];
    [apply toy_stored1 | apply toy_ended1 | apply reach_start | left; exact H |].
  right. exists kg'. auto.
Defined.

Lemma toy_well_shaped : well_shaped toy_C.
Proof.
  split; [vm_compute; discriminate|]. exists 2%nat. split; [lia|]. vm_compute. repeat constructor.
Qed.

(** The state after the three echoes and the first ready. *)
Definition toy_mid : KeygenNode :=
  fst (deliver (toy_start 1) toy_tape (take 4 (toy_messages (toy_id 2) 1))).
Definition toy_mid_kg : Keygen := stored_keygen toy_mid (toy_id 2).

Lemma toy_mid_reachable : reachable (toy_start 1) toy_mid.
Proof.
  apply deliver_reachable; [apply reach_start|]. apply Forall_and.
  - apply Forall_take, toy_senders.
  - by apply list.Forall_forall.
Qed.

Lemma toy_mid_stored : knKeygenStore toy_mid !! toy_id 2 = Some (Some toy_mid_kg).
Proof. vm_compute. reflexivity. Qed.

Lemma toy_mid_shapes cid c : kgCStore toy_mid_kg !! cid = Some c -> well_shaped (cC c).
Proof.
  intros H. assert (map_Forall (fun _ c => cC c = toy_C) (kgCStore toy_mid_kg)) as Hall.
  { apply map_Forall_to_list. vm_compute. by repeat constructor. }
  rewrite (Hall cid c H). apply toy_well_shaped.
Qed.

Lemma toy_node_2_in : toy_node 2 ∈ toy_net_nodes.
Proof. unfold toy_net_nodes. apply list_elem_of_fmap_2. set_solver. Qed.

Lemma toy_sig_length : (64 <= length (rdSignedText (toy_ready (toy_id 2) 1 2)))%nat.
Proof. vm_compute. repeat constructor. Qed.

Lemma toy_long_ids : Forall long_id (toy_node 1 :: toy_net_nodes).
Proof.
  assert (forallb (fun n => Nat.leb 8 (String.length (ToNodeDetailsID n))) (toy_node 1 :: toy_net_nodes) = true) as H
    by (vm_compute; reflexivity).
  rewrite List.forallb_forall in H. apply list.Forall_forall. intros n Hn%list_elem_of_In. by apply Nat.leb_le, H.
Qed.

(** The toy's messages carry the matrix of the dealing. *)
Definition shaped_check (sm : Node * KeygenMessage) : bool :=
  if String.eqb (kmMethod (snd sm)) "echo" then
    match Unmarshal (A := KeygenMsgEcho) (kmData (snd sm)) with Some m => bool_decide (ecC m = toy_C) | None => true end
  else if String.eqb (kmMethod (snd sm)) "ready" then
    match Unmarshal (A := KeygenMsgReady) (kmData (snd sm)) with Some m => bool_decide (rdC m = toy_C) | None => true end
  else true.

Lemma shaped_check_shaped sm : shaped_check sm = true -> shaped (fst sm) (snd sm).
Proof.
  unfold shaped_check. intros H. split; intros m E Em; rewrite E in H; cbn [String.eqb Ascii.eqb Bool.eqb] in H; rewrite Em in H;
    apply bool_decide_eq_true in H; rewrite H; apply toy_well_shaped.
Qed.

Lemma toy_messages_shaped i : forallb shaped_check (toy_messages (toy_id 2) i) = true ->
  Forall (fun sm => shaped (fst sm) (snd sm)) (toy_messages (toy_id 2) i).
Proof.
  intros H. apply list.Forall_forall. intros sm Hin%list_elem_of_In. apply shaped_check_shaped.
  by apply (proj1 (List.forallb_forall _ _) H).
Qed.

Lemma toy_mid_shaped : reachable_with shaped (toy_start 1) toy_mid.
Proof.
  apply deliver_reachable; [apply reach_start|]. apply Forall_and.
  - apply Forall_take, toy_senders.
  - apply Forall_take, toy_messages_shaped. vm_compute. reflexivity.
Qed.

Definition toy_ready_message : KeygenMessage := CreateKeygenMessage (toy_id 2) "ready" (bytes_of (toy_ready (toy_id 2) 1 2)).

Lemma echo_ready_never_panic_witness :
  snd (ProcessMessage toy_mid toy_tape (toy_node 2) toy_ready_message) <> Panicked.
Proof.
  apply (echo_ready_never_panic (toy_node 1) toy_net_nodes 1 2 0 0 toy_mid toy_tape (toy_node 2) toy_ready_message);
    [apply toy_nodes_ok | lia | lia | exact toy_long_ids | exact toy_mid_shaped | exact toy_node_2_in | by right | |].
  - apply (shaped_check_shaped (toy_node 2, toy_ready_message)). vm_compute. reflexivity.
  - intros m _ E. assert (Some m = Some (toy_ready (toy_id 2) 1 2)) as [= ->] by (rewrite <- E; vm_compute; reflexivity).
    exact toy_sig_length.
Defined.

Lemma ready_sent_once_witness :
  ready_once toy_mid_kg (processReadyMessage toy_mid (toy_ready (toy_id 2) 1 2) toy_mid_kg (toy_node 2)).
Proof.
  destruct (ready_sent_once (toy_node 1) toy_net_nodes 1 2 0 0 toy_mid (toy_id 2) toy_mid_kg (toy_node 2))
    as [_ H];
    [apply toy_nodes_ok | lia | lia | exact toy_mid_reachable | exact toy_mid_stored |
     exact toy_node_2_in |].
  exact (H (toy_ready (toy_id 2) 1 2)).
Defined.

Lemma finished_share_is_dealt_witness :
  kgSi (toy_kg 1) = 24 /\ AVSSVerifyShare toy_C 1 (kgSi (toy_kg 1)) (kgSiprime (toy_kg 1)) = Ok true.
Proof.
  destruct (finished_share_is_dealt toy_net_nodes 1 2 toy_f toy_f' (toy_id 2) (toy_node 1) 0 0
    (toy_end 1) (toy_kg 1) toy_C) as (H1 & _ & H2);
    [apply toy_nodes_ok | lia | apply toy_f_ok | apply toy_f'_ok | apply toy_commit |
     apply toy_reachable_betas1 | apply toy_stored1 | apply toy_ended1 | apply toy_Cbar1 |].
  split; [rewrite H1; vm_compute; reflexivity|exact H2].
Defined.

Lemma network_reconstructs_secret_witness :
  LagrangeScalar [mkPrimaryShare 3 (kgSi (toy_kg 3)); mkPrimaryShare 1 (kgSi (toy_kg 1))] 0 = 9.
Proof.
  rewrite (network_reconstructs_secret toy_net_nodes 1 2 toy_f toy_f' toy_cid (toy_id 2));
    [vm_compute; reflexivity | apply toy_nodes_ok | lia | apply toy_f_ok | apply toy_f'_ok | | |].
  - constructor; [|constructor; [|constructor]].
    + exists (toy_node 3), 0, 0, (toy_end 3), (toy_kg 3). split; [apply toy_reachable_betas3|].
      split; [apply toy_stored3|]. split; [apply toy_ended3|]. split; [by rewrite toy_Cbar3|reflexivity].
    + exists (toy_node 1), 0, 0, (toy_end 1), (toy_kg 1). split; [apply toy_reachable_betas1|].
      split; [apply toy_stored1|]. split; [apply toy_ended1|]. split; [by rewrite toy_Cbar1|reflexivity].
  - vm_compute. repeat constructor; set_solver.
  - simpl. lia.
Defined.

(** Node 2 relays its slices of the dealing to node 1. *)
Definition toy_sharing : Sharing := mkSharing toy_dkg 2 9 6.

Definition or_msg (r : res KeygenMessage) : KeygenMessage :=
  match r with
  | Ok m => m
  | _ => mkKeygenMessage EmptyString EmptyString EmptyString []
  end.

Definition toy_send : KeygenMessage := or_msg (sendMessage toy_sharing toy_f toy_f' toy_C (toy_node 2)).

Definition toy_received : KeygenMsgSend :=
  default (mkKeygenMsgSend EmptyString [] [] [] [] []) (Unmarshal (kmData toy_send)).

Definition toy_relayed : KeygenMessage :=
  or_msg (echoMessage (toy_start 2) (newKeygen (toy_id 2)) toy_received (toy_node 1)).

Lemma honest_echo_right_witness :
  right_betas toy_f toy_f' 1 toy_cid (toy_id 2) (toy_node 2) toy_relayed.
Proof.
  apply (honest_echo_right 2 toy_f toy_f' toy_C toy_sharing (toy_start 2) (newKeygen (toy_id 2))
    toy_send toy_received (toy_node 1));
    [apply toy_f_ok | apply toy_f'_ok | reflexivity | unfold in_int64; simpl; lia |
     vm_compute; reflexivity | vm_compute; reflexivity | vm_compute; reflexivity].
Defined.

(** Deciding on the one finished sharing. *)
Definition toy_decide : KeygenMsgDecide := mkKeygenMsgDecide toy_dkg [toy_id 2].

Lemma toy_decided : Forall2 (decided 2 1) [(toy_f, toy_f')] [toy_kg 1].
Proof.
  constructor; [|constructor]. split; [apply toy_f_ok|]. split; [apply toy_f'_ok|].
  split; [vm_compute; reflexivity|]. split; vm_compute; reflexivity.
Qed.

Lemma decide_derives_key_witness :
  exists kn' tape' acts dkg',
    processDecide (toy_end 1) toy_tape toy_decide (newDKG toy_dkg) [toy_kg 1] =
      ((kn', tape'), acts, Returned) /\
    knDKGStore kn' !! toy_dkg = Some (Some dkg') /\ dkgSi dkg' = 24.
Proof.
  destruct (decide_derives_key (toy_end 1) toy_tape toy_decide (newDKG toy_dkg) 2 [(toy_f, toy_f')] [toy_kg 1])
    as (kn' & t' & acts & dkg' & p & b & E & Hl & Hs & _);
    [apply toy_tape_ok | discriminate | apply toy_decided | intros m; by eexists |].
  exists kn', t', acts, dkg'. split; [exact E|]. split; [exact Hl|]. rewrite Hs. vm_compute. reflexivity.
Defined.

(** The last NIZKP of the key. *)
Definition toy_Dbar : list Point :=
  match GetColumnPoint toy_C 0 with Ok col => col | _ => [] end.

Definition toy_nizkp : NIZKP :=
  match GenerateNIZKPKWithCommitments 24 3 toy_tape with
  | Ok (c, u1, u2, gs, gshr, _) => mkNIZKP 1 c u1 u2 gs gshr
  | _ => mkNIZKP 0 0 0 0 PointO PointO
  end.

Definition toy_key_state : DKG :=
  setNIZKP (setDecided (newDKG toy_dkg) toy_Dbar 24 3) (ToNodeDetailsID (toy_node 2)) toy_nizkp.

Definition toy_before_last : KeygenNode := setDKG (toy_end 1) toy_dkg toy_key_state.
Definition toy_last : KeygenMsgNIZKP := mkKeygenMsgNIZKP toy_dkg toy_nizkp.

Lemma nizkp_completes_key_witness :
  exists kn' m, processNIZKPMessage toy_before_last toy_last (toy_node 1) =
      (kn', [OutputText (toy_dkg ++ " nizkp completed"); OutputKey (mkKeyStorage 5 24 3 toy_Dbar);
             GoPubKey m 5], Returned) /\
    knDKGStore kn' !! toy_dkg = Some None.
Proof.
  destruct (nizkp_completes_key toy_before_last toy_last (toy_node 1) toy_key_state 5)
    as (kn' & acts & E & _ & H);
    [vm_compute; reflexivity | vm_compute; discriminate | reflexivity | vm_compute; reflexivity |
     split; vm_compute; reflexivity | intros m; by eexists |].
  destruct H as ((m & Hacts) & Hd & _); [vm_compute; reflexivity|].
  exists kn', m. rewrite E, Hacts. split; [reflexivity|exact Hd].
Defined.

(** Node 1 finishes the sharings of all three dealers and is told so. *)
Definition toy_complete (dealer : Z) : KeygenMsgComplete :=
  mkKeygenMsgComplete (toy_id dealer) (match toy_C with row :: _ => row | [] => [] end).

Definition toy_all : list (Node * KeygenMessage) :=
  toy_messages (toy_id 1) 1 ++ toy_messages (toy_id 2) 1 ++ toy_messages (toy_id 3) 1 ++
  ((fun d => (toy_node 1, CreateKeygenMessage NullKeygenID "complete" (bytes_of (toy_complete d)))) <$> [3; 1]).

Definition toy_proposer : KeygenNode := fst (deliver (toy_start 1) toy_tape toy_all).

Lemma toy_proposer_reachable : reachable (toy_start 1) toy_proposer.
Proof.
  apply deliver_reachable; [apply reach_start|]. apply Forall_and.
  - unfold toy_all. rewrite !list.Forall_app. split_and!; [apply toy_senders..|].
    repeat constructor; vm_compute; reflexivity.
  - by apply list.Forall_forall.
Qed.

Definition toy_details : KeygenIDDetails := mkKeygenIDDetails toy_dkg 2.

Definition toy_proposal_result : gmap DKGID (option DKG) * list Action * status :=
  processCompleteMessage toy_proposer (toy_complete 2) toy_details (toy_node 1).

Definition toy_proposal : KeygenMessage :=
  match toy_proposal_result with
  | (_, [GoPropose m _ _], _) => m
  | _ => mkKeygenMessage EmptyString EmptyString EmptyString []
  end.

Lemma toy_proposal_emitted :
  processCompleteMessage toy_proposer (toy_complete 2) toy_details (toy_node 1) =
    (fst (fst toy_proposal_result), [GoPropose toy_proposal 5 toy_dkg], Returned).
Proof. vm_compute. reflexivity. Qed.

Lemma proposal_has_quorums_witness :
  exists p : KeygenMsgPropose, Unmarshal (kmData toy_proposal) = Some p /\ prDKGID p = toy_dkg /\
    length (prKeygens p) = 3%nat.
Proof.
  destruct (proposal_has_quorums (toy_node 1) toy_net_nodes 1 2 0 0 toy_proposer (toy_complete 2)
    toy_details (toy_node 1) (fst (fst toy_proposal_result)) toy_proposal 5 toy_dkg)
    as (p & Hp & Hd & _ & Hl & _);
    [apply toy_nodes_ok | lia | lia | apply toy_proposer_reachable | apply toy_proposal_emitted |].
  exists p. split; [exact Hp|]. split; [exact Hd|]. lia.
Defined.
