(* ===== verification/Mapping.v ===== *)
(** The hand-over of the key mapping between epochs (src/mapping): old nodes
    propose a freeze and, once the chain is frozen, send every new node the
    transfer summary and each key mapping; new nodes count the senders of equal
    messages and broadcast what K old nodes agree on.

    The concurrent maps of types.go are finite maps; [MappingNode]'s lock makes
    a handler one step.  The serialisation and the data source of the key
    mappings are parameters; the loop reads each index once, so a function of
    the index covers a source that changes while it is read. *)
From Stdlib Require Import ZArith.
From stdpp Require Import gmap strings.
From S2P Require Import Prelude BigInt Curve Pvss Ids Effects.

(** ** Data (types.go) *)

Abbreviation TransferSummaryID := string (only parsing).
Abbreviation MappingKeyID := string (only parsing).
Abbreviation MappingID := string (only parsing).

Record TransferSummary := mkTransferSummary { LastUnassignedIndex : Z }.

(** A nil map or slice is [None]: it is serialised differently from an empty one. *)
Record MappingKey := mkMappingKey {
  mkIndex : Z;
  mkPublicKey : Point;
  mkThreshold : Z;
  mkVerifiers : option (gmap string (option (list string)));
}.

Record NodeNetwork := mkNodeNetwork {
  Nodes : gmap NodeDetailsID Node;
  netN : Z;
  netT : Z;
  netK : Z;
  netEpochID : Z;
}.

Record MappingIDDetails := mkMappingIDDetails { OldEpoch : Z; NewEpoch : Z }.

Record MappingMessage := mkMappingMessage {
  mmVersion : string;
  mmMappingID : MappingID;
  mmMethod : string;
  mmData : list Z;
}.

Record MappingProposeFreezeMessage := mkMappingProposeFreezeMessage { pfMappingID : MappingID }.
Record MappingProposeFreezeBroadcastMessage :=
  mkMappingProposeFreezeBroadcastMessage { pfbMappingID : MappingID }.
Record MappingSummaryMessage := mkMappingSummaryMessage { smTransferSummary : TransferSummary }.
Record MappingSummaryBroadcastMessage :=
  mkMappingSummaryBroadcastMessage { sbTransferSummary : TransferSummary }.
Record MappingKeyMessage := mkMappingKeyMessage { kmMappingKey : MappingKey }.
Record MappingKeyBroadcastMessage := mkMappingKeyBroadcastMessage { kbMappingKey : MappingKey }.

Record MappingSummary := mkMappingSummary {
  msSendCount : gmap NodeDetailsID Z;
  MappingSummaryStore : gmap TransferSummaryID TransferSummary;
  MappingSummaryCount : gmap TransferSummaryID Z;
}.

Record MappingKeys := mkMappingKeys { mkSendCount : gmap MappingKeyID (gmap NodeDetailsID Z) }.

Record MappingNode := mkMappingNode {
  mnNodeDetails : Node;
  mnOldNodes : NodeNetwork;
  mnNewNodes : NodeNetwork;
  mnNodeIndex : Z;
  mnMappingSummary : MappingSummary;
  mnMappingKeys : MappingKeys;
  mnIsOldNode : bool;
  mnIsNewNode : bool;
}.

(** What the handlers leave to goroutines. *)
Inductive Action :=
  | Send (dst : Node) (msg : MappingMessage)
  | SendBroadcast (msg : MappingMessage).

#[global] Instance TransferSummary_eq_dec : EqDecision TransferSummary.
Proof. solve_decision. Defined.

#[global] Instance MappingKey_eq_dec : EqDecision MappingKey.
Proof. solve_decision. Defined.

#[global] Instance MappingMessage_eq_dec : EqDecision MappingMessage.
Proof. solve_decision. Defined.

#[global] Instance Node_eq_dec : EqDecision Node.
Proof. solve_decision. Defined.

#[global] Instance Action_eq_dec : EqDecision Action.
Proof. solve_decision. Defined.

Class MappingCodecs := {
  codec_propose :: Codec MappingProposeFreezeMessage;
  codec_propose_broadcast :: Codec MappingProposeFreezeBroadcastMessage;
  codec_summary :: Codec MappingSummaryMessage;
  codec_summary_broadcast :: Codec MappingSummaryBroadcastMessage;
  codec_key :: Codec MappingKey;
  codec_key_message :: Codec MappingKeyMessage;
  codec_key_broadcast :: Codec MappingKeyBroadcastMessage;
}.

(** [MappingDataSource.RetrieveKeyMapping]; [None] when it returns an error. *)
Class MappingDataSource := { RetrieveKeyMapping : Z -> option MappingKey }.

(** ** Identifiers *)

Definition NullMappingID : MappingID := EmptyString.

Definition TransferSummary_ID (t : TransferSummary) : TransferSummaryID :=
  Itoa (int64 (LastUnassignedIndex t)).

Definition MappingKey_ID `{Codec MappingKey} (m : MappingKey) : MappingKeyID :=
  match Marshal m with
  | Some byt => bytesString byt
  | None => EmptyString
  end.

Definition ToMappingID (d : MappingIDDetails) : MappingID :=
  Join [Itoa (OldEpoch d); Itoa (NewEpoch d)] Delimiter1.

(** The details as they are left, and the error if any: both fields are stored
    only after both have been parsed. *)
Definition FromMappingID (d : MappingIDDetails) (mappingID : MappingID)
    : MappingIDDetails * option string :=
  match Split mappingID Delimiter1 with
  | [s0; s1] =>
      match Atoi s0 with
      | None => (d, Some "strconv.Atoi: parsing"%string)
      | Some oldEpoch =>
          match Atoi s1 with
          | None => (d, Some "strconv.Atoi: parsing"%string)
          | Some newEpoch => (mkMappingIDDetails oldEpoch newEpoch, None)
          end
      end
  | _ => (d, Some "Error parsing PSSIDDetails, too few fields"%string)
  end.

(** types.go repeats the node ids of the key generation word for word. *)
Definition ToNodeDetailsID (n : Node) : NodeDetailsID := Ids.ToNodeDetailsID n.
Definition FromNodeDetailsID (n : Node) (nodeDetailsID : NodeDetailsID) : Node :=
  Ids.FromNodeDetailsID n nodeDetailsID.

Definition NodeExists (net : NodeNetwork) (n : Node) : bool :=
  match Nodes net !! ToNodeDetailsID n with Some _ => true | None => false end.

Definition mapFromNodeList (nodeList : list Node) : gmap NodeDetailsID Node :=
  foldl (fun m n => <[ToNodeDetailsID n := n]> m) ∅ nodeList.

(** ** Counting maps *)

(** [Get] of the maps to [int]: zero when the key is absent. *)
Definition getInt (m : gmap string Z) (k : string) : Z :=
  match m !! k with Some i => i | None => 0 end.

(** [SyncUpdate]: the callback gets zero when the key is absent, and may hand out
    actions. *)
Definition SyncUpdateInt (m : gmap string Z) (k : string) (cb : Z -> Z * list Action)
    : gmap string Z * list Action :=
  let '(newValue, acts) := cb (getInt m k) in (<[k := newValue]> m, acts).

(** ** Handlers (mapping.go) *)

Definition NodeVersion : string := "0.0.11".

Definition CreateMappingMessage (id : MappingID) (method : string) (data : list Z) : MappingMessage :=
  mkMappingMessage NodeVersion id method data.

Definition getMappingID (mn : MappingNode) : MappingID :=
  ToMappingID (mkMappingIDDetails (netEpochID (mnOldNodes mn)) (netEpochID (mnNewNodes mn))).

Definition NewMappingNode (nodeDetails : Node) (oldEpoch : Z) (oldNodeList : list Node)
    (oldNodesT oldNodesK newEpoch : Z) (newNodeList : list Node) (newNodesT newNodesK nodeIndex : Z)
    (isOldNode isNewNode : bool) : MappingNode :=
  mkMappingNode nodeDetails
    (mkNodeNetwork (mapFromNodeList oldNodeList) (Z.of_nat (length oldNodeList)) oldNodesT oldNodesK oldEpoch)
    (mkNodeNetwork (mapFromNodeList newNodeList) (Z.of_nat (length newNodeList)) newNodesT newNodesK newEpoch)
    nodeIndex (mkMappingSummary ∅ ∅ ∅) (mkMappingKeys ∅) isOldNode isNewNode.

Definition setSummary (mn : MappingNode) (s : MappingSummary) : MappingNode :=
  mkMappingNode (mnNodeDetails mn) (mnOldNodes mn) (mnNewNodes mn) (mnNodeIndex mn) s
    (mnMappingKeys mn) (mnIsOldNode mn) (mnIsNewNode mn).

Definition setKeys (mn : MappingNode) (k : gmap MappingKeyID (gmap NodeDetailsID Z)) : MappingNode :=
  mkMappingNode (mnNodeDetails mn) (mnOldNodes mn) (mnNewNodes mn) (mnNodeIndex mn)
    (mnMappingSummary mn) (mkMappingKeys k) (mnIsOldNode mn) (mnIsNewNode mn).

Definition errUnmarshal : string := "bijson: unmarshal".

Section handlers.
Context {MC : MappingCodecs}.

(** The broadcast of the agreed summary; a failed serialisation is only logged. *)
Definition summaryBroadcast (mn : MappingNode) (t : TransferSummary) : list Action :=
  match Marshal (mkMappingSummaryBroadcastMessage t) with
  | Some byt => [SendBroadcast (CreateMappingMessage (getMappingID mn) "mapping_summary_broadcast" byt)]
  | None => []
  end.

Definition keyBroadcast (mn : MappingNode) (key : MappingKey) : list Action :=
  match Marshal (mkMappingKeyBroadcastMessage key) with
  | Some byt => [SendBroadcast (CreateMappingMessage (getMappingID mn) "mapping_key_broadcast" byt)]
  | None => []
  end.

Definition processProposeFreeze (mn : MappingNode) (sender : Node) (data : list Z)
    : MappingNode * list Action * status :=
  if negb (mnIsOldNode mn) then
    (mn, [], Errored "mapping propose freeze must be handled by old nodes")
  else match Unmarshal (A := MappingProposeFreezeMessage) data with
  | None => (mn, [], Errored errUnmarshal)
  | Some m =>
      if negb (ToNodeDetailsID sender =? ToNodeDetailsID (mnNodeDetails mn))%string then
        (mn, [], Errored "propose freeze message can only be sent by the node itself")
      else if negb (pfMappingID m =? getMappingID mn)%string then
        (mn, [], Errored "unexpected mappingID")
      else run (marshal (mkMappingProposeFreezeBroadcastMessage (pfMappingID m))) mn (fun byt =>
        (mn, [SendBroadcast (CreateMappingMessage (getMappingID mn) "mapping_propose_freeze" byt)], Returned))
  end.

Definition processSummary (mn : MappingNode) (sender : Node) (data : list Z)
    : MappingNode * list Action * status :=
  if negb (mnIsNewNode mn) then
    (mn, [], Errored "mapping propose freeze must be handled by new nodes")
  else match Unmarshal (A := MappingSummaryMessage) data with
  | None => (mn, [], Errored errUnmarshal)
  | Some m =>
      let transferSummary := smTransferSummary m in
      let s := mnMappingSummary mn in
      if negb (NodeExists (mnOldNodes mn) sender) then
        (mn, [], Errored "Could not validate that sender was in previous node network for mapping summary")
      else if negb (getInt (msSendCount s) (ToNodeDetailsID sender) =? 0) then
        (mn, [], Errored "Sender already sent mapping frozen message")
      else
        let transferSummaryID := TransferSummary_ID transferSummary in
        let '(counts, acts) := SyncUpdateInt (MappingSummaryCount s) transferSummaryID (fun valueInMap =>
          let newValue := valueInMap + 1 in
          (newValue, if newValue =? netK (mnOldNodes mn) then summaryBroadcast mn transferSummary else [])) in
        (setSummary mn (mkMappingSummary
           (<[ToNodeDetailsID sender := 1]> (msSendCount s))
           (<[transferSummaryID := transferSummary]> (MappingSummaryStore s)) counts), acts, Returned)
  end.

(** The map of a key is created before the check of the sender, and the count is
    the size of that map after the sender has been added. *)
Definition processKey (mn : MappingNode) (sender : Node) (data : list Z)
    : MappingNode * list Action * status :=
  if negb (mnIsNewNode mn) then
    (mn, [], Errored "mapping propose freeze must be handled by new nodes")
  else match Unmarshal (A := MappingKeyMessage) data with
  | None => (mn, [], Errored errUnmarshal)
  | Some m =>
      let mappingKey := kmMappingKey m in
      if negb (NodeExists (mnOldNodes mn) sender) then
        (mn, [], Errored "Could not validate that sender was in previous node network for mapping key")
      else
        let id := MappingKey_ID mappingKey in
        let sendCount := mkSendCount (mnMappingKeys mn) in
        let sendCount := match sendCount !! id with
          | Some _ => sendCount
          | None => <[id := ∅]> sendCount
          end in
        let senders := default ∅ (sendCount !! id) in
        if negb (getInt senders (ToNodeDetailsID sender) =? 0) then
          (setKeys mn sendCount, [], Errored "Sender already sent this mapping key message")
        else
          let senders := <[ToNodeDetailsID sender := 1]> senders in
          (setKeys mn (<[id := senders]> sendCount),
           if Z.of_nat (size senders) =? netK (mnOldNodes mn) then keyBroadcast mn mappingKey else [],
           Returned)
  end.

Definition ProcessMessage (mn : MappingNode) (sender : Node) (msg : MappingMessage)
    : MappingNode * list Action * status :=
  if (mmMethod msg =? "mapping_propose_freeze")%string then processProposeFreeze mn sender (mmData msg)
  else if (mmMethod msg =? "mapping_summary")%string then processSummary mn sender (mmData msg)
  else if (mmMethod msg =? "mapping_key")%string then processKey mn sender (mmData msg)
  else (mn, [], Errored "Unimplemented method in mappingNode processMessage").

Context {DS : MappingDataSource} {MR : MapRange}.

Definition rangeNewNodes (site : nat) (mn : MappingNode) : list Node :=
  snd <$> mapRange site (Nodes (mnNewNodes mn)).

(** The key of an index the data source cannot retrieve. *)
Definition defaultKey (i : Z) : MappingKey := mkMappingKey i PointO 1 (Some ∅).

Definition keyAt (i : Z) : MappingKey := default (defaultKey i) (RetrieveKeyMapping i).

(** One iteration of the loop over the indexes: a failed serialisation skips it. *)
Definition sendKey (mn : MappingNode) (i : Z) : list Action :=
  match Marshal (mkMappingKeyMessage (keyAt i)) with
  | None => []
  | Some byt =>
      (fun n => Send n (CreateMappingMessage (getMappingID mn) "mapping_key" byt))
        <$> rangeNewNodes (S (Z.to_nat i)) mn
  end.

Definition ProcessBroadcastMessage (mn : MappingNode) (msg : MappingMessage)
    : MappingNode * list Action * status :=
  if (mmMethod msg =? "mapping_summary_frozen")%string then
    if negb (mnIsOldNode mn) then
      (mn, [], Errored "mapping propose freeze must be handled by old nodes")
    else match Unmarshal (A := MappingSummaryMessage) (mmData msg) with
    | None => (mn, [], Errored errUnmarshal)
    | Some m =>
        (mn,
         ((fun n => Send n (CreateMappingMessage (getMappingID mn) "mapping_summary" (mmData msg)))
            <$> rangeNewNodes 0 mn) ++
         concat (sendKey mn <$> seqZ 0 (int64 (LastUnassignedIndex (smTransferSummary m)))),
         Returned)
    end
  else (mn, [], Errored "Unimplemented method in mappingNode processBroadcastMessage").

End handlers.
