(* ===== verification/MappingVotes.v ===== *)
(** What the key mapping hand-over achieves: the new node's state refines a
    ballot of the old nodes, so each summary and each key is broadcast exactly
    when K old nodes have sent it, and exactly once; and the old nodes send
    every new node every key. *)
From Stdlib Require Import ZArith.
From stdpp Require Import gmap strings.
From S2P Require Import Prelude BigInt Curve Pvss Ids Effects Mapping.

(** Documented behaviour of the serialisation: what is parsed is what was
    printed, the parts the keys are identified by print to bytes, and a [uint]
    field holds a [uint]. *)
Class MappingCodecLaws `{MappingCodecs} := {
  law_summary_broadcast :: CodecLaws MappingSummaryBroadcastMessage;
  law_key :: CodecLaws MappingKey;
  law_key_message :: CodecLaws MappingKeyMessage;
  law_key_broadcast :: CodecLaws MappingKeyBroadcastMessage;
  Marshal_key_bytes (k : MappingKey) b : Marshal k = Some b -> Forall (fun x => 0 <= x < 256) b;
  Unmarshal_summary_uint b (m : MappingSummaryMessage) :
    Unmarshal b = Some m -> in_uint64 (LastUnassignedIndex (smTransferSummary m));
  Marshal_summary_total (m : MappingSummaryBroadcastMessage) : exists b, Marshal m = Some b;
  Marshal_mapping_key_total (k : MappingKey) : exists b, Marshal k = Some b;
  Marshal_key_total (m : MappingKeyBroadcastMessage) : exists b, Marshal m = Some b;
}.

(** ** Identifiers *)

Lemma int64_inj x y : in_uint64 x -> in_uint64 y -> int64 x = int64 y -> x = y.
Proof.
  unfold in_uint64, int64. intros Hx Hy E.
  assert ((x + 2 ^ 63) mod 2 ^ 64 = (y + 2 ^ 63) mod 2 ^ 64) as E' by lia.
  Z.to_euclidean_division_equations; lia.
Qed.

Lemma Itoa_inj x y : in_int64 x -> in_int64 y -> Itoa x = Itoa y -> x = y.
Proof. intros Hx Hy E. apply (f_equal Atoi) in E. rewrite !Atoi_Itoa in E by done. congruence. Qed.

Lemma TransferSummary_ID_inj t t' :
  in_uint64 (LastUnassignedIndex t) -> in_uint64 (LastUnassignedIndex t') ->
  TransferSummary_ID t = TransferSummary_ID t' -> t = t'.
Proof.
  destruct t as [x], t' as [y]. intros Hx Hy E. simpl in *. f_equal.
  apply int64_inj; [done|done|]. apply Itoa_inj; [apply int64_range|apply int64_range|exact E].
Qed.

Lemma bytesString_inj b b' :
  Forall (fun x => 0 <= x < 256) b -> Forall (fun x => 0 <= x < 256) b' ->
  bytesString b = bytesString b' -> b = b'.
Proof.
  unfold bytesString. intros Hb Hb' E. apply (f_equal chars) in E. rewrite !chars_unchars in E.
  revert b' Hb' E. induction Hb as [|x b Hx Hb IH]; intros b' Hb' E; destruct Hb' as [|y b' Hy Hb'];
    try done.
  csimpl in E. injection E as E1 E2. f_equal; [|by apply IH].
  apply (f_equal N_of_ascii) in E1. rewrite !N_ascii_embedding in E1 by lia. lia.
Qed.

Section votes.
Context {MC : MappingCodecs} {ML : MappingCodecLaws}.

Lemma MappingKey_ID_inj k k' : MappingKey_ID k = MappingKey_ID k' -> k = k'.
Proof.
  unfold MappingKey_ID. destruct (Marshal_mapping_key_total k) as [b E].
  destruct (Marshal_mapping_key_total k') as [b' E']. rewrite E, E'. intros Eb.
  apply bytesString_inj in Eb; [|by eapply Marshal_key_bytes..]. subst.
  apply Unmarshal_Marshal in E. apply Unmarshal_Marshal in E'. congruence.
Qed.

(** ** The ballot: the abstract specification *)

(** The summary a message is a vote for, and the key. *)
Definition summaryOf (msg : MappingMessage) : option TransferSummary :=
  if decide (mmMethod msg = "mapping_summary")
  then smTransferSummary <$> Unmarshal (mmData msg) else None.

Definition keyOf (msg : MappingMessage) : option MappingKey :=
  if decide (mmMethod msg = "mapping_key") then kmMappingKey <$> Unmarshal (mmData msg) else None.

Definition inOld (old : NodeNetwork) (sender : Node) : Prop :=
  is_Some (Nodes old !! ToNodeDetailsID sender).

#[local] Instance inOld_dec old sender : Decision (inOld old sender).
Proof. unfold inOld. apply _. Defined.

(** An old node votes for the first summary it sends. *)
Definition castSummary (old : NodeNetwork) (votes : gmap NodeDetailsID TransferSummary)
    (m : Node * MappingMessage) : gmap NodeDetailsID TransferSummary :=
  match summaryOf (snd m) with
  | Some s =>
      if decide (inOld old (fst m) /\ votes !! ToNodeDetailsID (fst m) = None)
      then <[ToNodeDetailsID (fst m) := s]> votes else votes
  | None => votes
  end.

Definition summaryVotes (old : NodeNetwork) (ms : list (Node * MappingMessage))
    : gmap NodeDetailsID TransferSummary := foldl (castSummary old) ∅ ms.

Definition tally (votes : gmap NodeDetailsID TransferSummary) (s : TransferSummary) : nat :=
  size (filter (fun kv => snd kv = s) votes).

(** An old node votes for every key it sends. *)
Definition keyVoters (old : NodeNetwork) (ms : list (Node * MappingMessage)) (key : MappingKey)
    : gset NodeDetailsID :=
  list_to_set ((fun m => ToNodeDetailsID (fst m)) <$>
    filter (fun m => keyOf (snd m) = Some key /\ inOld old (fst m)) ms).

Lemma tally_insert votes id s s' :
  votes !! id = None ->
  tally (<[id := s']> votes) s = (tally votes s + if decide (s' = s) then 1 else 0)%nat.
Proof.
  intros Hn. unfold tally. destruct (decide (s' = s)) as [->|Hs].
  - rewrite map_filter_insert_True by done. rewrite map_size_insert_None; [lia|].
    apply map_lookup_filter_None. by left.
  - rewrite map_filter_insert_False by done. rewrite delete_id by done. lia.
Qed.

Lemma summaryVotes_snoc old ms m :
  summaryVotes old (ms ++ [m]) = castSummary old (summaryVotes old ms) m.
Proof. unfold summaryVotes. by rewrite foldl_app. Qed.

Lemma keyVoters_snoc old ms m key :
  keyVoters old (ms ++ [m]) key = keyVoters old ms key ∪
    (if decide (keyOf (snd m) = Some key /\ inOld old (fst m)) then {[ToNodeDetailsID (fst m)]} else ∅).
Proof.
  unfold keyVoters. rewrite list.filter_app, fmap_app, list_to_set_app_L. f_equal.
  rewrite list.filter_cons, list.filter_nil. destruct (decide _); simpl; set_solver.
Qed.

Lemma summaryVotes_uint old ms id s :
  summaryVotes old ms !! id = Some s -> in_uint64 (LastUnassignedIndex s).
Proof.
  revert id s. induction ms as [|m ms IH] using rev_ind; [done|].
  intros id s. rewrite summaryVotes_snoc. unfold castSummary.
  destruct (summaryOf (snd m)) as [s'|] eqn:E; [|apply IH].
  destruct (decide _); [|apply IH]. rewrite lookup_insert_Some. intros [[_ <-]|[_ H]]; [|by eapply IH].
  unfold summaryOf in E. destruct (decide _); [|done].
  apply fmap_Some in E as [d [E ->]]. by eapply Unmarshal_summary_uint.
Qed.

Lemma NodeExists_inOld old sender : NodeExists old sender = bool_decide (inOld old sender).
Proof.
  destruct (bool_decide_reflect (inOld old sender)) as [[n H]|H]; unfold NodeExists; [by rewrite H|].
  destruct (Nodes old !! _) eqn:E; [|done]. exfalso. apply H. by exists n.
Qed.

(** ** The refinement *)

(** What no message changes. *)
Record static (mn0 mn : MappingNode) : Prop := {
  static_old : mnOldNodes mn = mnOldNodes mn0;
  static_new : mnNewNodes mn = mnNewNodes mn0;
  static_self : mnNodeDetails mn = mnNodeDetails mn0;
  static_isOld : mnIsOldNode mn = mnIsOldNode mn0;
  static_isNew : mnIsNewNode mn = mnIsNewNode mn0;
}.

Record refines (mn : MappingNode) (ms : list (Node * MappingMessage)) : Prop := {
  rf_sent id : msSendCount (mnMappingSummary mn) !! id =
    (fun _ => 1) <$> (summaryVotes (mnOldNodes mn) ms !! id);
  rf_count s : in_uint64 (LastUnassignedIndex s) ->
    getInt (MappingSummaryCount (mnMappingSummary mn)) (TransferSummary_ID s) =
      Z.of_nat (tally (summaryVotes (mnOldNodes mn) ms) s);
  rf_keys key : default ∅ (mkSendCount (mnMappingKeys mn) !! MappingKey_ID key) =
    gset_to_gmap 1 (keyVoters (mnOldNodes mn) ms key);
}.

(** The broadcasts a message causes, on the ballot. *)
Definition summaryAnnounced (old : NodeNetwork) (ms : list (Node * MappingMessage))
    (m : Node * MappingMessage) (s : TransferSummary) : bool :=
  bool_decide (summaryOf (snd m) = Some s /\ inOld old (fst m) /\
    summaryVotes old ms !! ToNodeDetailsID (fst m) = None /\
    Z.of_nat (tally (summaryVotes old ms) s) + 1 = netK old).

Definition keyAnnounced (old : NodeNetwork) (ms : list (Node * MappingMessage))
    (m : Node * MappingMessage) (key : MappingKey) : bool :=
  bool_decide (keyOf (snd m) = Some key /\ inOld old (fst m) /\
    (ToNodeDetailsID (fst m) ∉ keyVoters old ms key) /\
    Z.of_nat (size (keyVoters old ms key)) + 1 = netK old).

Definition occ (a : Action) (acts : list Action) : nat := length (filter (a =.) acts).

Lemma occ_app a l l' : occ a (l ++ l') = (occ a l + occ a l')%nat.
Proof. unfold occ. by rewrite list.filter_app, length_app. Qed.

Definition summaryAction (mn : MappingNode) (b : list Z) : Action :=
  SendBroadcast (CreateMappingMessage (getMappingID mn) "mapping_summary_broadcast" b).

Definition keyAction (mn : MappingNode) (b : list Z) : Action :=
  SendBroadcast (CreateMappingMessage (getMappingID mn) "mapping_key_broadcast" b).

Lemma occ_summaryBroadcast mn s s' b :
  Marshal (mkMappingSummaryBroadcastMessage s) = Some b ->
  occ (summaryAction mn b) (summaryBroadcast mn s') = if decide (s' = s) then 1%nat else 0%nat.
Proof.
  intros Hb. unfold summaryBroadcast, occ, summaryAction.
  destruct (Marshal_summary_total (mkMappingSummaryBroadcastMessage s')) as [b' Hb'].
  rewrite Hb', list.filter_cons, list.filter_nil. destruct (decide (s' = s)) as [->|Hs].
  - rewrite decide_True by congruence. done.
  - rewrite decide_False; [done|]. intros [= ->]. apply Unmarshal_Marshal in Hb, Hb'. congruence.
Qed.

Lemma occ_keyBroadcast mn k k' b :
  Marshal (mkMappingKeyBroadcastMessage k) = Some b ->
  occ (keyAction mn b) (keyBroadcast mn k') = if decide (k' = k) then 1%nat else 0%nat.
Proof.
  intros Hb. unfold keyBroadcast, occ, keyAction.
  destruct (Marshal_key_total (mkMappingKeyBroadcastMessage k')) as [b' Hb'].
  rewrite Hb', list.filter_cons, list.filter_nil. destruct (decide (k' = k)) as [->|Hs].
  - rewrite decide_True by congruence. done.
  - rewrite decide_False; [done|]. intros [= ->]. apply Unmarshal_Marshal in Hb, Hb'. congruence.
Qed.

Lemma occ_summary_in_key mn k b : occ (summaryAction mn b) (keyBroadcast mn k) = 0%nat.
Proof.
  unfold keyBroadcast, occ, summaryAction. destruct (Marshal _); [|done].
  by rewrite list.filter_cons, list.filter_nil, decide_False.
Qed.

Lemma occ_key_in_summary mn s b : occ (keyAction mn b) (summaryBroadcast mn s) = 0%nat.
Proof.
  unfold summaryBroadcast, occ, keyAction. destruct (Marshal _); [|done].
  by rewrite list.filter_cons, list.filter_nil, decide_False.
Qed.

(** What one message does, against the ballot. *)
Record step_ok (mn : MappingNode) ms (m : Node * MappingMessage) (mn' : MappingNode) acts : Prop := {
  st_static : static mn mn';
  st_refines : refines mn' (ms ++ [m]);
  st_summary s b : in_uint64 (LastUnassignedIndex s) ->
    Marshal (mkMappingSummaryBroadcastMessage s) = Some b ->
    occ (summaryAction mn b) acts = if summaryAnnounced (mnOldNodes mn) ms m s then 1%nat else 0%nat;
  st_key k b : Marshal (mkMappingKeyBroadcastMessage k) = Some b ->
    occ (keyAction mn b) acts = if keyAnnounced (mnOldNodes mn) ms m k then 1%nat else 0%nat;
}.

Lemma static_refl mn : static mn mn.
Proof. done. Qed.

Lemma castSummary_skip old votes m :
  (forall s, summaryOf (snd m) = Some s -> inOld old (fst m) ->
     votes !! ToNodeDetailsID (fst m) = None -> False) ->
  castSummary old votes m = votes.
Proof.
  intros H. unfold castSummary. destruct (summaryOf (snd m)) as [s|]; [|done].
  rewrite decide_False; [done|]. intros [??]; eauto.
Qed.

Lemma keyVoters_skip old ms m key :
  (keyOf (snd m) = Some key -> inOld old (fst m) ->
     ToNodeDetailsID (fst m) ∈ keyVoters old ms key) ->
  keyVoters old (ms ++ [m]) key = keyVoters old ms key.
Proof. intros H. rewrite keyVoters_snoc. destruct (decide _) as [[??]|]; set_solver. Qed.

(** A message that is no new vote. *)
Lemma step_skip mn ms m acts :
  refines mn ms ->
  (forall s, summaryOf (snd m) = Some s -> inOld (mnOldNodes mn) (fst m) ->
     summaryVotes (mnOldNodes mn) ms !! ToNodeDetailsID (fst m) = None -> False) ->
  (forall key, keyOf (snd m) = Some key -> inOld (mnOldNodes mn) (fst m) ->
     ToNodeDetailsID (fst m) ∈ keyVoters (mnOldNodes mn) ms key) ->
  (forall b, occ (summaryAction mn b) acts = 0%nat) ->
  (forall b, occ (keyAction mn b) acts = 0%nat) ->
  step_ok mn ms m mn acts.
Proof.
  intros [R1 R2 R3] Hs Hk Hos Hok. split; [done| | |].
  - split.
    + intros id. by rewrite summaryVotes_snoc, castSummary_skip.
    + intros s Hu. rewrite summaryVotes_snoc, castSummary_skip by done. by apply R2.
    + intros key. rewrite keyVoters_skip by auto. apply R3.
  - intros s b _ _. rewrite Hos. unfold summaryAnnounced. rewrite bool_decide_false; [done|].
    intros (H1 & H2 & H3 & _). eauto.
  - intros k b _. rewrite Hok. unfold keyAnnounced. rewrite bool_decide_false; [done|].
    intros (H1 & H2 & H3 & _). auto.
Qed.

Lemma sent_iff mn ms id :
  refines mn ms ->
  (getInt (msSendCount (mnMappingSummary mn)) id =? 0) =
    bool_decide (summaryVotes (mnOldNodes mn) ms !! id = None).
Proof.
  intros R. unfold getInt. rewrite (rf_sent _ _ R). by destruct (summaryVotes _ _ !! id).
Qed.

Lemma getInt_gset (X : gset string) id : (getInt (gset_to_gmap 1 X) id =? 0) = bool_decide (id ∉ X).
Proof.
  unfold getInt. destruct (gset_to_gmap 1 X !! id) as [i|] eqn:E.
  - apply lookup_gset_to_gmap_Some in E as [H <-]. by rewrite bool_decide_false by tauto.
  - apply lookup_gset_to_gmap_None in E. by rewrite bool_decide_true.
Qed.

Lemma processSummary_step mn ms sender msg mn' acts st :
  refines mn ms -> mnIsNewNode mn = true -> mmMethod msg = "mapping_summary"%string ->
  processSummary mn sender (mmData msg) = (mn', acts, st) -> step_ok mn ms (sender, msg) mn' acts.
Proof.
  intros R Hnew Hm. unfold processSummary. rewrite Hnew. cbn [negb].
  assert (keyOf msg = None) as Hk. { unfold keyOf. rewrite decide_False; [done|]. by rewrite Hm. }
  assert (summaryOf msg = smTransferSummary <$> Unmarshal (mmData msg)) as Hs.
  { unfold summaryOf. by rewrite decide_True. }
  destruct (Unmarshal (mmData msg)) as [d|] eqn:Ed; simpl in Hs.
  2: { intros [= <- <- _]. apply step_skip; simpl; naive_solver. }
  rewrite NodeExists_inOld, (sent_iff _ _ _ R). case_bool_decide as Ho; cbn [negb].
  2: { intros [= <- <- _]. apply step_skip; simpl; naive_solver. }
  case_bool_decide as Hv; cbn [negb].
  2: { intros [= <- <- _]. apply step_skip; simpl; naive_solver. }
  assert (in_uint64 (LastUnassignedIndex (smTransferSummary d))) as Hu.
  { by eapply Unmarshal_summary_uint. }
  set (s0 := smTransferSummary d) in *. unfold SyncUpdateInt. cbv zeta beta.
  rewrite (rf_count _ _ R s0 Hu). intros [= <- <- _].
  assert (castSummary (mnOldNodes mn) (summaryVotes (mnOldNodes mn) ms) (sender, msg) =
    <[ToNodeDetailsID sender := s0]> (summaryVotes (mnOldNodes mn) ms)) as Ec.
  { unfold castSummary. simpl. rewrite Hs. by rewrite decide_True. }
  split; [done| | |].
  - destruct R as [R1 R2 R3]. split; simpl.
    + intros id. rewrite summaryVotes_snoc, Ec, !lookup_insert. by case_decide.
    + intros s Hus. rewrite summaryVotes_snoc, Ec, tally_insert by done.
      unfold getInt. rewrite lookup_insert. case_decide as Hid.
      * apply TransferSummary_ID_inj in Hid; [|done|done]. rewrite decide_True by done. subst. lia.
      * rewrite decide_False by congruence. fold (getInt (MappingSummaryCount (mnMappingSummary mn))
          (TransferSummary_ID s)). rewrite R2 by done. lia.
    + intros key. rewrite keyVoters_skip; [apply R3|]. simpl. by rewrite Hk.
  - intros s b Hus Hb. unfold summaryAnnounced. cbn [fst snd]. rewrite Hs.
    destruct (Z.eqb_spec (Z.of_nat (tally (summaryVotes (mnOldNodes mn) ms) s0) + 1) (netK (mnOldNodes mn)))
      as [E|E].
    + rewrite (occ_summaryBroadcast _ _ _ _ Hb). case_decide as Hss.
      * subst s. by rewrite bool_decide_true.
      * rewrite bool_decide_false; [done|]. intros ([= ->] & _). done.
    + rewrite bool_decide_false; [done|]. intros ([= ->] & _ & _ & ?). done.
  - intros k b _. unfold keyAnnounced. cbn [fst snd]. rewrite Hk, bool_decide_false by naive_solver.
    destruct (_ =? _); [apply occ_key_in_summary|done].
Qed.

Lemma processKey_step mn ms sender msg mn' acts st :
  refines mn ms -> mnIsNewNode mn = true -> mmMethod msg = "mapping_key"%string ->
  processKey mn sender (mmData msg) = (mn', acts, st) -> step_ok mn ms (sender, msg) mn' acts.
Proof.
  intros R Hnew Hm. unfold processKey. rewrite Hnew. cbn [negb].
  assert (summaryOf msg = None) as Hs. { unfold summaryOf. rewrite decide_False; [done|]. by rewrite Hm. }
  assert (keyOf msg = kmMappingKey <$> Unmarshal (mmData msg)) as Hk.
  { unfold keyOf. by rewrite decide_True. }
  destruct (Unmarshal (mmData msg)) as [d|] eqn:Ed; simpl in Hk.
  2: { intros [= <- <- _]. apply step_skip; simpl; naive_solver. }
  rewrite NodeExists_inOld. case_bool_decide as Ho; cbn [negb].
  2: { intros [= <- <- _]. apply step_skip; simpl; naive_solver. }
  set (k0 := kmMappingKey d) in *. cbv zeta.
  set (sc := match mkSendCount (mnMappingKeys mn) !! MappingKey_ID k0 with
             | Some _ => mkSendCount (mnMappingKeys mn)
             | None => <[MappingKey_ID k0 := ∅]> (mkSendCount (mnMappingKeys mn)) end).
  assert (forall id, default ∅ (sc !! id) = default ∅ (mkSendCount (mnMappingKeys mn) !! id)) as Esc.
  { intros id. unfold sc. destruct (mkSendCount _ !! MappingKey_ID k0) eqn:E; [done|].
    rewrite lookup_insert. case_decide as Hid; [|done]. subst id. by rewrite E. }
  assert (refines (setKeys mn sc) ms) as R'.
  { destruct R as [R1 R2 R3]. split; [done|done|]. intros key. simpl. by rewrite Esc, R3. }
  rewrite Esc, (rf_keys _ _ R k0), getInt_gset. case_bool_decide as Hv; cbn [negb].
  2: { intros [= <- <- _].
       destruct (step_skip (setKeys mn sc) ms (sender, msg) [] R') as [S1 S2 S3 S4];
         [simpl; rewrite Hs; naive_solver|simpl; rewrite Hk; naive_solver|done..|by split]. }
  set (voters := keyVoters (mnOldNodes mn) ms k0) in *. intros [= <- <- _].
  assert (forall key, keyVoters (mnOldNodes mn) (ms ++ [(sender, msg)]) key =
    if decide (key = k0) then {[ToNodeDetailsID sender]} ∪ voters
    else keyVoters (mnOldNodes mn) ms key) as Ev.
  { intros key. rewrite keyVoters_snoc. simpl. rewrite Hk. case_decide as Hd; case_decide as He; subst; [set_solver|naive_solver|naive_solver|set_solver]. }
  assert (<[ToNodeDetailsID sender := 1]> (gset_to_gmap 1 voters) =
    gset_to_gmap 1 ({[ToNodeDetailsID sender]} ∪ voters)) as Ei.
  { by rewrite gset_to_gmap_union_singleton. }
  assert (size (gset_to_gmap 1 ({[ToNodeDetailsID sender]} ∪ voters)) = S (size voters)) as Esz.
  { rewrite <-size_dom, dom_gset_to_gmap. rewrite size_union, size_singleton by set_solver. done. }
  rewrite Ei, Esz. split; [done| | |].
  - destruct R as [R1 R2 R3]. split; simpl.
    + intros id. rewrite summaryVotes_snoc, castSummary_skip; [done|]. simpl. by rewrite Hs.
    + intros s Hus. rewrite summaryVotes_snoc, castSummary_skip; [by apply R2|]. simpl. by rewrite Hs.
    + intros key. rewrite Ev, lookup_insert. case_decide as Hid.
      * apply MappingKey_ID_inj in Hid as <-. by rewrite decide_True.
      * rewrite decide_False by congruence. rewrite Esc. apply R3.
  - intros s b _ _. unfold summaryAnnounced. cbn [fst snd]. rewrite Hs, bool_decide_false by naive_solver.
    destruct (_ =? _); [apply occ_summary_in_key|done].
  - intros k b Hb. unfold keyAnnounced. cbn [fst snd]. rewrite Hk.
    destruct (Z.eqb_spec (Z.of_nat (S (size voters))) (netK (mnOldNodes mn))) as [E|E].
    + rewrite (occ_keyBroadcast _ _ _ _ Hb). case_decide as Hkk.
      * subst k. rewrite bool_decide_true; [done|]. split_and!; [done|done|done|]. fold voters. lia.
      * rewrite bool_decide_false; [done|]. intros ([= ->] & _). done.
    + rewrite bool_decide_false; [done|]. intros ([= ->] & _ & _ & H). fold voters in H. lia.
Qed.

Lemma ProcessMessage_step mn ms sender msg mn' acts st :
  refines mn ms -> mnIsNewNode mn = true ->
  ProcessMessage mn sender msg = (mn', acts, st) -> step_ok mn ms (sender, msg) mn' acts.
Proof.
  intros R Hnew. unfold ProcessMessage.
  destruct (String.eqb_spec (mmMethod msg) "mapping_propose_freeze") as [E|E1].
  { intros H. assert (mn' = mn /\ (forall b, occ (summaryAction mn b) acts = 0%nat) /\
      (forall b, occ (keyAction mn b) acts = 0%nat)) as (-> & Hs & Hk).
    { unfold processProposeFreeze, run, occ, summaryAction, keyAction in *.
      repeat case_match; simplify_eq/=; try done.
      split_and!; [done|intros b; by rewrite list.filter_cons, decide_False..]. }
    apply step_skip; [done|..|done|done]; simpl; unfold summaryOf, keyOf; rewrite E;
      intros ? H'; by rewrite decide_False in H'. }
  destruct (String.eqb_spec (mmMethod msg) "mapping_summary") as [E2|E2]; [by apply processSummary_step|].
  destruct (String.eqb_spec (mmMethod msg) "mapping_key") as [E3|E3]; [by apply processKey_step|].
  intros [= <- <- _]. apply step_skip; [done|..|done|done]; simpl; unfold summaryOf, keyOf;
    intros ? H'; by rewrite decide_False in H'.
Qed.

(** ** Runs *)

(** Handle messages one after the other, collecting the actions. *)
Fixpoint receive (mn : MappingNode) (ms : list (Node * MappingMessage)) : MappingNode * list Action :=
  match ms with
  | [] => (mn, [])
  | (sender, msg) :: ms' =>
      let '(mn1, acts1, _) := ProcessMessage mn sender msg in
      let '(mn2, acts2) := receive mn1 ms' in (mn2, acts1 ++ acts2)
  end.

Lemma receive_snoc mn ms sender msg :
  receive mn (ms ++ [(sender, msg)]) =
    let '(mn1, acts1) := receive mn ms in
    let '(mn2, acts2, _) := ProcessMessage mn1 sender msg in (mn2, acts1 ++ acts2).
Proof.
  revert mn. induction ms as [|[sender' msg'] ms IH]; intros mn; simpl.
  - destruct (ProcessMessage mn sender msg) as [[mn1 acts1] st]. by rewrite app_nil_r.
  - destruct (ProcessMessage mn sender' msg') as [[mn1 acts1] st]. rewrite IH.
    destruct (receive mn1 ms) as [mn2 acts2]. destruct (ProcessMessage mn2 sender msg) as [[mn3 acts3] st'].
    by rewrite app_assoc.
Qed.

Lemma tally_nil old s : tally (summaryVotes old []) s = 0%nat.
Proof.
  unfold tally. change (summaryVotes old []) with (∅ : gmap NodeDetailsID TransferSummary).
  by rewrite map_filter_empty, map_size_empty.
Qed.

Lemma tally_snoc old ms m s :
  tally (summaryVotes old (ms ++ [m])) s = (tally (summaryVotes old ms) s +
    if decide (summaryOf (snd m) = Some s /\ inOld old (fst m) /\
      summaryVotes old ms !! ToNodeDetailsID (fst m) = None) then 1 else 0)%nat.
Proof.
  rewrite summaryVotes_snoc. unfold castSummary. destruct (summaryOf (snd m)) as [s'|].
  2: { rewrite decide_False by naive_solver. lia. }
  destruct (decide (inOld old (fst m) /\ _)) as [[Ho Hv]|H].
  - rewrite tally_insert by done. destruct (decide (s' = s)) as [->|Hs].
    + by rewrite decide_True.
    + by rewrite decide_False by naive_solver.
  - rewrite decide_False by naive_solver. lia.
Qed.

Lemma voters_snoc old ms m key :
  size (keyVoters old (ms ++ [m]) key) = (size (keyVoters old ms key) +
    if decide (keyOf (snd m) = Some key /\ inOld old (fst m) /\
      ToNodeDetailsID (fst m) ∉ keyVoters old ms key) then 1 else 0)%nat.
Proof.
  rewrite keyVoters_snoc. destruct (decide (keyOf (snd m) = Some key /\ inOld old (fst m))) as [[Hk Ho]|H].
  - destruct (decide (ToNodeDetailsID (fst m) ∈ keyVoters old ms key)) as [Hv|Hv].
    + rewrite decide_False by tauto.
      assert (keyVoters old ms key ∪ {[ToNodeDetailsID (fst m)]} = keyVoters old ms key) as -> by set_solver. lia.
    + rewrite decide_True by done. by rewrite size_union, size_singleton by set_solver.
  - rewrite decide_False by tauto. rewrite union_empty_r_L. lia.
Qed.

(** Everything a run announces, on the ballot. *)
Record run_ok (start : MappingNode) ms (mn : MappingNode) acts : Prop := {
  ro_static : static start mn;
  ro_refines : refines mn ms;
  ro_summary s b : in_uint64 (LastUnassignedIndex s) ->
    Marshal (mkMappingSummaryBroadcastMessage s) = Some b ->
    occ (summaryAction start b) acts =
      if netK (mnOldNodes start) <=? Z.of_nat (tally (summaryVotes (mnOldNodes start) ms) s)
      then 1%nat else 0%nat;
  ro_key k b : Marshal (mkMappingKeyBroadcastMessage k) = Some b ->
    occ (keyAction start b) acts =
      if netK (mnOldNodes start) <=? Z.of_nat (size (keyVoters (mnOldNodes start) ms k))
      then 1%nat else 0%nat;
}.

(** A node that has received nothing. *)
Definition fresh (mn : MappingNode) : Prop :=
  mnMappingSummary mn = mkMappingSummary ∅ ∅ ∅ /\ mnMappingKeys mn = mkMappingKeys ∅.

Lemma static_actions start mn :
  static start mn -> getMappingID mn = getMappingID start.
Proof. intros [H1 H2 _ _ _]. unfold getMappingID. by rewrite H1, H2. Qed.

Lemma receive_ok start ms mn acts :
  fresh start -> mnIsNewNode start = true -> 1 <= netK (mnOldNodes start) ->
  receive start ms = (mn, acts) -> run_ok start ms mn acts.
Proof.
  intros [F1 F2] Hnew HK. revert mn acts.
  induction ms as [|[sender msg] ms IH] using rev_ind; intros mn acts.
  { intros [= <- <-]. split; [done| | |].
    - split; [intros id; by rewrite F1|intros s _; by rewrite F1, tally_nil|intros key; rewrite F2].
      change (keyVoters _ [] key) with (∅ : gset NodeDetailsID).
      cbn [mkSendCount]. by rewrite lookup_empty, gset_to_gmap_empty.
    - intros s b _ _. rewrite tally_nil. change (Z.of_nat 0) with 0.
      destruct (Z.leb_spec (netK (mnOldNodes start)) 0); [lia|done].
    - intros k b _. change (keyVoters _ [] k) with (∅ : gset NodeDetailsID). rewrite size_empty.
      change (Z.of_nat 0) with 0. destruct (Z.leb_spec (netK (mnOldNodes start)) 0); [lia|done]. }
  rewrite receive_snoc. destruct (receive start ms) as [mn1 acts1].
  destruct (ProcessMessage mn1 sender msg) as [[mn2 acts2] st] eqn:E. intros [= <- <-].
  destruct (IH mn1 acts1 eq_refl) as [S R HS HKy].
  apply (ProcessMessage_step _ ms) in E as [S' R' HS' HK']; [|done|by rewrite (static_isNew start)].
  assert (forall b, summaryAction mn1 b = summaryAction start b) as Es.
  { intros b. unfold summaryAction. by rewrite (static_actions _ _ S). }
  assert (forall b, keyAction mn1 b = keyAction start b) as Ek.
  { intros b. unfold keyAction. by rewrite (static_actions _ _ S). }
  split; [by destruct S, S'; split; etransitivity|done| |].
  - intros s b Hu Hb. rewrite occ_app, (HS s b Hu Hb), <-Es, (HS' s b Hu Hb), tally_snoc.
    rewrite (static_old _ _ S). unfold summaryAnnounced.
    case_bool_decide as H1; [destruct H1 as (H1 & H2 & H3 & H4); rewrite decide_True by done|];
      [|case_decide as H2; [assert (Z.of_nat (tally (summaryVotes (mnOldNodes start) ms) s) + 1 <>
          netK (mnOldNodes start)) by naive_solver|]]; bool_tests; simpl in *; lia.
  - intros k b Hb. rewrite occ_app, (HKy k b Hb), <-Ek, (HK' k b Hb), voters_snoc.
    rewrite (static_old _ _ S). unfold keyAnnounced.
    case_bool_decide as H1; [destruct H1 as (H1 & H2 & H3 & H4); rewrite decide_True by done|];
      [|case_decide as H2; [assert (Z.of_nat (size (keyVoters (mnOldNodes start) ms k)) + 1 <>
          netK (mnOldNodes start)) by naive_solver|]]; bool_tests; simpl in *; lia.
Qed.

(** ** Agreement *)

Lemma tally_disjoint (votes : gmap NodeDetailsID TransferSummary) s s' :
  s <> s' -> (tally votes s + tally votes s' <= size votes)%nat.
Proof.
  intros Hs. induction votes as [|id t votes Hid IH] using map_ind.
  - unfold tally. rewrite !map_filter_empty, !map_size_empty. lia.
  - rewrite !tally_insert, map_size_insert_None by done.
    repeat case_decide; subst; try lia; done.
Qed.

Lemma summaryVotes_dom old ms : dom (summaryVotes old ms) ⊆ dom (Nodes old).
Proof.
  induction ms as [|m ms IH] using rev_ind.
  { change (summaryVotes old []) with (∅ : gmap NodeDetailsID TransferSummary). set_solver. }
  rewrite summaryVotes_snoc. unfold castSummary. destruct (summaryOf _); [|done].
  case_decide as H; [|done]. destruct H as [H _]. rewrite dom_insert.
  apply elem_of_dom in H. set_solver.
Qed.

Lemma size_mapFromNodeList_le l : (size (mapFromNodeList l) <= length l)%nat.
Proof.
  induction l as [|n l IH] using rev_ind; [done|]. unfold mapFromNodeList. rewrite foldl_app, length_app.
  simpl. fold (mapFromNodeList l). rewrite map_size_insert.
  destruct (mapFromNodeList l !! _); simpl; lia.
Qed.

(** ** What an old node sends *)

Lemma mapFromNodeList_Some l id n :
  mapFromNodeList l !! id = Some n -> n ∈ l /\ ToNodeDetailsID n = id.
Proof.
  induction l as [|n' l IH] using rev_ind; [done|]. unfold mapFromNodeList. rewrite foldl_app. simpl.
  fold (mapFromNodeList l). rewrite lookup_insert_Some, elem_of_app.
  intros [[<- <-]|[_ [H <-]%IH]]; split; [right; set_solver|done|by left|done].
Qed.

Lemma mapFromNodeList_in l n :
  Forall (fun n => in_int64 (NodeIndex n)) l -> n ∈ l ->
  mapFromNodeList l !! ToNodeDetailsID n = Some n.
Proof.
  induction l as [|n' l IH] using rev_ind; [set_solver|]. intros Hl Hn.
  unfold mapFromNodeList. rewrite foldl_app. simpl. fold (mapFromNodeList l).
  rewrite lookup_insert. case_decide as E.
  - f_equal. apply ToNodeDetailsID_inj; [|by eapply (proj1 (list.Forall_forall _ _) Hl n)|done].
    apply (proj1 (list.Forall_forall _ _) Hl). set_solver.
  - apply list.Forall_app in Hl as [Hl _]. apply IH; [done|]. apply elem_of_app in Hn as [Hn|Hn]; [done|].
    set_solver.
Qed.

(** What is sent to one node, in order. *)
Definition sentTo (dst : Node) (acts : list Action) : list MappingMessage :=
  omap (fun a => match a with Send d m => if decide (d = dst) then Some m else None | _ => None end) acts.

Lemma sentTo_app dst l l' : sentTo dst (l ++ l') = sentTo dst l ++ sentTo dst l'.
Proof. unfold sentTo. apply omap_app. Qed.

Lemma sentTo_nodes dst (nodes : list Node) m :
  NoDup nodes -> dst ∈ nodes -> sentTo dst ((fun n => Send n m) <$> nodes) = [m].
Proof.
  unfold sentTo. induction 1 as [|n nodes Hn Hnd IH]; [set_solver|]. intros Hin. csimpl.
  destruct (decide (n = dst)) as [->|Hne].
  - f_equal. clear -Hn. induction nodes as [|n' nodes IH]; [done|]. csimpl.
    rewrite decide_False by set_solver. apply IH. set_solver.
  - apply IH. set_solver.
Qed.

Context {DS : MappingDataSource} {MR : MapRange} {RL : MapRangeLaws}.

Lemma rangeNewNodes_spec site mn l dst :
  Nodes (mnNewNodes mn) = mapFromNodeList l -> Forall (fun n => in_int64 (NodeIndex n)) l -> dst ∈ l ->
  NoDup (rangeNewNodes site mn) /\ dst ∈ rangeNewNodes site mn.
Proof.
  intros El Hl Hd. unfold rangeNewNodes. split.
  - apply (NoDup_fmap_1 ToNodeDetailsID). rewrite <-list_fmap_compose.
    assert (ToNodeDetailsID ∘ snd <$> mapRange site (Nodes (mnNewNodes mn)) ≡ₚ
      (fst <$> map_to_list (Nodes (mnNewNodes mn)))) as ->; [|apply NoDup_fst_map_to_list].
    rewrite (mapRange_perm Node site). rewrite El.
    erewrite list_fmap_ext; [done|]. intros i [id n] H. simpl.
    apply list_elem_of_lookup_2, elem_of_map_to_list in H. by apply mapFromNodeList_Some in H as [_ ?].
  - rewrite (mapRange_perm Node site). rewrite El. apply list_elem_of_fmap.
    exists (ToNodeDetailsID dst, dst). split; [done|]. apply elem_of_map_to_list.
    by apply mapFromNodeList_in.
Qed.

Lemma sentTo_keys mn l dst (enc : Z -> list Z) idxs :
  Nodes (mnNewNodes mn) = mapFromNodeList l -> Forall (fun n => in_int64 (NodeIndex n)) l -> dst ∈ l ->
  (forall i, i ∈ idxs -> Marshal (mkMappingKeyMessage (keyAt i)) = Some (enc i)) ->
  sentTo dst (concat (sendKey mn <$> idxs)) =
    (fun i => CreateMappingMessage (getMappingID mn) "mapping_key" (enc i)) <$> idxs.
Proof.
  intros El Hl Hd He. induction idxs as [|i idxs IH]; [done|]. csimpl. rewrite sentTo_app.
  rewrite IH by set_solver. unfold sendKey at 1. rewrite He by set_solver.
  destruct (rangeNewNodes_spec (S (Z.to_nat i)) mn l dst El Hl Hd) as [H1 H2].
  by rewrite sentTo_nodes.
Qed.

Lemma frozen_acts mn msg d :
  mnIsOldNode mn = true -> mmMethod msg = "mapping_summary_frozen"%string ->
  Unmarshal (mmData msg) = Some d -> LastUnassignedIndex (smTransferSummary d) < 2 ^ 63 ->
  ProcessBroadcastMessage mn msg =
    (mn, ((fun n => Send n (CreateMappingMessage (getMappingID mn) "mapping_summary" (mmData msg)))
            <$> rangeNewNodes 0 mn) ++
         concat (sendKey mn <$> seqZ 0 (LastUnassignedIndex (smTransferSummary d))), Returned).
Proof.
  intros Ho Hm Ed Hlt. unfold ProcessBroadcastMessage. rewrite Hm, Ho, Ed. simpl.
  pose proof (Unmarshal_summary_uint _ _ Ed) as [? ?]. by rewrite int64_id by (unfold in_int64; lia).
Qed.

Lemma keyVoters_elem old ms key o m :
  keyOf m = Some key -> inOld old o -> (o, m) ∈ ms -> ToNodeDetailsID o ∈ keyVoters old ms key.
Proof.
  intros Hk Ho Hin. unfold keyVoters. apply elem_of_list_to_set.
  apply list_elem_of_fmap. exists (o, m). split; [done|]. by apply list_elem_of_filter.
Qed.

Lemma frozen_key_elem mn l dst n i km :
  Nodes (mnNewNodes mn) = mapFromNodeList l -> Forall (fun n => in_int64 (NodeIndex n)) l -> dst ∈ l ->
  Marshal (mkMappingKeyMessage (keyAt i)) = Some km -> 0 <= i < n ->
  Send dst (CreateMappingMessage (getMappingID mn) "mapping_key" km) ∈ concat (sendKey mn <$> seqZ 0 n).
Proof.
  intros El Hl Hd Hkm Hi. apply list_elem_of_In, in_concat. exists (sendKey mn i). split.
  - apply list_elem_of_In, list_elem_of_fmap. exists i. split; [done|]. apply elem_of_seqZ. lia.
  - apply list_elem_of_In. unfold sendKey. rewrite Hkm. apply list_elem_of_fmap. exists dst.
    split; [done|]. by apply (rangeNewNodes_spec _ _ l).
Qed.

Lemma occ_pos a acts : a ∈ acts -> (0 < occ a acts)%nat.
Proof.
  intros H. unfold occ. assert (a ∈ filter (a =.) acts) as H' by (by apply list_elem_of_filter).
  destruct (filter _ acts); [by apply elem_of_nil in H'|simpl; lia].
Qed.

(** ** Properties *)

Section properties.
Variables (self : Node) (oldEpoch newEpoch oldT oldK newT newK nodeIndex : Z).
Variables (oldNodes newNodes : list Node).

Let node (isOld isNew : bool) : MappingNode :=
  NewMappingNode self oldEpoch oldNodes oldT oldK newEpoch newNodes newT newK nodeIndex isOld isNew.
Let mappingID : MappingID := ToMappingID (mkMappingIDDetails oldEpoch newEpoch).
Let old : NodeNetwork := mnOldNodes (node false true).

(** C14: a new node broadcasts by quorum: after any messages, in any order and
    from any senders, it has broadcast a transfer summary exactly once if at
    least K old nodes sent that summary as their first one, and otherwise never;
    and a key mapping exactly once if at least K distinct old nodes sent it, and
    otherwise never. *)
Theorem mapping_broadcasts_at_quorum isOld ms mn acts :
  1 <= oldK -> receive (node isOld true) ms = (mn, acts) ->
  (forall s b, in_uint64 (LastUnassignedIndex s) ->
     Marshal (mkMappingSummaryBroadcastMessage s) = Some b ->
     occ (SendBroadcast (CreateMappingMessage mappingID "mapping_summary_broadcast" b)) acts =
       if oldK <=? Z.of_nat (tally (summaryVotes old ms) s) then 1%nat else 0%nat) /\
  (forall k b, Marshal (mkMappingKeyBroadcastMessage k) = Some b ->
     occ (SendBroadcast (CreateMappingMessage mappingID "mapping_key_broadcast" b)) acts =
       if oldK <=? Z.of_nat (size (keyVoters old ms k)) then 1%nat else 0%nat).
Proof.
  intros HK E. apply receive_ok in E as [_ _ Hs Hk]; [|done..]. split; [exact Hs|exact Hk].
Qed.

(** With fewer than 2K old nodes a new node broadcasts at most one transfer
    summary, whatever it receives. *)
Theorem mapping_summary_agreement isOld ms mn acts s s' b b' :
  1 <= oldK -> Z.of_nat (length oldNodes) < 2 * oldK ->
  in_uint64 (LastUnassignedIndex s) -> in_uint64 (LastUnassignedIndex s') ->
  Marshal (mkMappingSummaryBroadcastMessage s) = Some b ->
  Marshal (mkMappingSummaryBroadcastMessage s') = Some b' ->
  receive (node isOld true) ms = (mn, acts) ->
  SendBroadcast (CreateMappingMessage mappingID "mapping_summary_broadcast" b) ∈ acts ->
  SendBroadcast (CreateMappingMessage mappingID "mapping_summary_broadcast" b') ∈ acts -> s = s'.
Proof.
  intros HK HN Hu Hu' Hb Hb' E Hin Hin'. apply receive_ok in E as [_ _ Hs _]; [|done..].
  pose proof (Hs s b Hu Hb) as H. pose proof (Hs s' b' Hu' Hb') as H'.
  apply occ_pos in Hin, Hin'. destruct (decide (s = s')) as [|Hne]; [done|]. exfalso.
  pose proof (tally_disjoint (summaryVotes (mnOldNodes (node isOld true)) ms) s s' Hne) as Ht.
  pose proof (summaryVotes_dom (mnOldNodes (node isOld true)) ms) as Hd.
  apply subseteq_size in Hd. rewrite !size_dom in Hd.
  pose proof (size_mapFromNodeList_le oldNodes) as Hl.
  change (Nodes (mnOldNodes (node isOld true))) with (mapFromNodeList oldNodes) in Hd.
  change (netK (mnOldNodes (node isOld true))) with oldK in *.
  unfold summaryAction in H, H'. change (getMappingID (node isOld true)) with mappingID in *.
  rewrite H in Hin. rewrite H' in Hin'. bool_tests; lia.
Qed.

(** On a frozen summary an old node changes nothing and sends every new
    node the summary as it received it, followed by the key mapping of every
    index below the last unassigned one, in order and once each. *)
Theorem frozen_summary_sends_all_keys isNew msg d dst (enc : Z -> list Z) :
  Forall (fun n => in_int64 (NodeIndex n)) newNodes -> dst ∈ newNodes ->
  mmMethod msg = "mapping_summary_frozen"%string -> Unmarshal (mmData msg) = Some d ->
  LastUnassignedIndex (smTransferSummary d) < 2 ^ 63 ->
  (forall i, 0 <= i < LastUnassignedIndex (smTransferSummary d) ->
     Marshal (mkMappingKeyMessage (keyAt i)) = Some (enc i)) ->
  exists acts, ProcessBroadcastMessage (node true isNew) msg = (node true isNew, acts, Returned) /\
    sentTo dst acts = CreateMappingMessage mappingID "mapping_summary" (mmData msg) ::
      ((fun i => CreateMappingMessage mappingID "mapping_key" (enc i)) <$>
         seqZ 0 (LastUnassignedIndex (smTransferSummary d))).
Proof.
  intros Hn Hd Hm Ed Hlt He. pose proof (frozen_acts (node true isNew) msg d eq_refl Hm Ed Hlt) as Ef.
  eexists. split; [exact Ef|]. rewrite sentTo_app.
  destruct (rangeNewNodes_spec 0 (node true isNew) newNodes dst eq_refl Hn Hd) as [H1 H2].
  rewrite (sentTo_nodes dst _ _ H1 H2). simpl. f_equal.
  apply (sentTo_keys (node true isNew) newNodes); [done|done|done|].
  intros i [? ?]%elem_of_seqZ. apply He. lia.
Qed.

End properties.

(** C15: the mapping is handed over: when at least K distinct old nodes with the
    same key mappings handle the frozen summary and every message they send to a new node is delivered to
    it, in any order and mixed with any other messages, then that node
    broadcasts the key mapping of every index below the last unassigned one,
    exactly once each. *)
Theorem mapping_handed_over oldEpoch newEpoch oldNodes oldT oldK newNodes newT newK
    (senders : list Node) self isOld isNew idx idx' msg d ms mn acts i b :
  1 <= oldK -> oldK <= Z.of_nat (length senders) ->
  NoDup (ToNodeDetailsID <$> senders) -> senders ⊆ oldNodes ->
  Forall (fun n => in_int64 (NodeIndex n)) oldNodes -> Forall (fun n => in_int64 (NodeIndex n)) newNodes ->
  self ∈ newNodes ->
  mmMethod msg = "mapping_summary_frozen"%string -> Unmarshal (mmData msg) = Some d ->
  LastUnassignedIndex (smTransferSummary d) < 2 ^ 63 ->
  (forall o m, o ∈ senders ->
     Send self m ∈ snd (fst (ProcessBroadcastMessage (NewMappingNode o oldEpoch oldNodes oldT oldK
       newEpoch newNodes newT newK idx true isNew) msg)) -> (o, m) ∈ ms) ->
  receive (NewMappingNode self oldEpoch oldNodes oldT oldK newEpoch newNodes newT newK idx' isOld true) ms
    = (mn, acts) ->
  0 <= i < LastUnassignedIndex (smTransferSummary d) ->
  is_Some (Marshal (mkMappingKeyMessage (keyAt i))) ->
  Marshal (mkMappingKeyBroadcastMessage (keyAt i)) = Some b ->
  occ (SendBroadcast (CreateMappingMessage (ToMappingID (mkMappingIDDetails oldEpoch newEpoch))
         "mapping_key_broadcast" b)) acts = 1%nat.
Proof.
  intros HK Hlen Hnd Hsub Hoi Hni Hself Hm Ed Hlt Hdel E Hi [km Hkm] Hb.
  apply receive_ok in E as [_ _ _ Hk]; [|done..]. etransitivity; [exact (Hk _ _ Hb)|].
  set (start := NewMappingNode self oldEpoch oldNodes oldT oldK newEpoch newNodes newT newK idx' isOld true) in *.
  assert (list_to_set (ToNodeDetailsID <$> senders) ⊆ keyVoters (mnOldNodes start) ms (keyAt i)) as Hv.
  { intros id Hid. apply elem_of_list_to_set, list_elem_of_fmap in Hid as (o & -> & Ho).
    apply (keyVoters_elem _ _ _ o (CreateMappingMessage (getMappingID start) "mapping_key" km)).
    - unfold keyOf. rewrite decide_True by done. simpl. by rewrite (Unmarshal_Marshal _ _ Hkm).
    - eexists. apply mapFromNodeList_in; [done|by apply Hsub].
    - apply (Hdel o _ Ho). rewrite (frozen_acts _ msg d) by done. simpl.
      apply elem_of_app. right.
      by apply (frozen_key_elem (NewMappingNode o oldEpoch oldNodes oldT oldK newEpoch newNodes newT newK
        idx true isNew) newNodes _ _ i). }
  apply subseteq_size in Hv. rewrite size_list_to_set, length_fmap in Hv by done.
  change (netK (mnOldNodes start)) with oldK. bool_tests; [done|lia].
Qed.

End votes.
