(* ===== verification/MappingToy.v ===== *)
(** A concrete serialisation and a concrete hand-over from three old nodes to two
    new ones, with the witnesses of the properties of the key mapping. *)
From Stdlib Require Import ZArith.
From stdpp Require Import gmap strings countable.
From S2P Require Import Prelude BigInt Curve Pvss Ids Effects Mapping MappingVotes.

(** ** A serialisation: the number of a value, as bytes *)

Definition count_marshal {A} `{Countable A} (a : A) : option (list Z) := Some (Bytes (Zpos (encode a))).
Definition count_unmarshal {A} `{Countable A} (b : list Z) : option A := decode (Z.to_pos (SetBytes b)).

Arguments count_marshal : simpl never.
Arguments count_unmarshal : simpl never.

Lemma count_roundtrip {A} `{Countable A} (a : A) b :
  count_marshal a = Some b -> count_unmarshal b = Some a.
Proof. intros [= <-]. unfold count_unmarshal. rewrite SetBytes_Bytes. apply decode_encode. Qed.

#[global] Instance point_countable : Countable Point.
Proof. by refine (inj_countable' (fun p => (PX p, PY p)) (fun xy => mkPoint (fst xy) (snd xy)) _); intros []. Defined.

#[global] Instance key_countable : Countable MappingKey.
Proof.
  refine (inj_countable' (fun k => (mkIndex k, mkPublicKey k, mkThreshold k, mkVerifiers k))
    (fun '(a, b, c, d) => mkMappingKey a b c d) _). by intros [].
Defined.

(** A summary is read only if its index is a [uint]. *)
Definition uint_summary (i : Z) : option MappingSummaryMessage :=
  if decide (0 <= i < 2 ^ 64) then Some (mkMappingSummaryMessage (mkTransferSummary i)) else None.

(** The codec of a type that is read from and written to a countable one. *)
Definition count_codec {A B} `{Countable B} (f : A -> B) (g : B -> option A) : Codec A :=
  {| Marshal a := count_marshal (f a); Unmarshal b := count_unmarshal b ≫= g |}.

Lemma count_codec_laws {A B} `{Countable B} (f : A -> B) (g : B -> option A) :
  (forall a, g (f a) = Some a) -> @CodecLaws A (count_codec f g).
Proof.
  intros Hfg. constructor. intros a b E. change (count_unmarshal b ≫= g = Some a).
  rewrite (count_roundtrip _ _ E). apply Hfg.
Qed.

#[global] Instance toy_mapping_codecs : MappingCodecs := {|
  codec_propose := count_codec pfMappingID (Some ∘ mkMappingProposeFreezeMessage);
  codec_propose_broadcast := count_codec pfbMappingID (Some ∘ mkMappingProposeFreezeBroadcastMessage);
  codec_summary := count_codec (fun m => LastUnassignedIndex (smTransferSummary m)) uint_summary;
  codec_summary_broadcast := count_codec (fun m => LastUnassignedIndex (sbTransferSummary m))
    (fun i => Some (mkMappingSummaryBroadcastMessage (mkTransferSummary i)));
  codec_key := count_codec id Some;
  codec_key_message := count_codec kmMappingKey (Some ∘ mkMappingKeyMessage);
  codec_key_broadcast := count_codec kbMappingKey (Some ∘ mkMappingKeyBroadcastMessage);
|}.

#[global] Instance toy_mapping_laws : MappingCodecLaws.
Proof.
  split; try (apply count_codec_laws; by intros [[]]); try (apply count_codec_laws; by intros []); try by eexists.
  - intros k b [= <-]. apply Bytes_range.
  - intros b m (i & _ & E)%bind_Some. unfold uint_summary in E. case_decide; [|done]. by injection E as <-.
Qed.

#[global] Instance toy_range : MapRange := {| mapRange V site m := map_to_list m |}.

#[global] Instance toy_range_laws : MapRangeLaws.
Proof. by constructor. Qed.

(** Indexes zero and one have keys, index two has not. *)
#[global] Instance toy_source : MappingDataSource := {|
  RetrieveKeyMapping i :=
    if i <? 2 then Some (mkMappingKey i (mkPoint (10 + i) 7) 1 (Some {["google" := Some ["alice"]]}))
    else None
|}.

(** ** The hand-over *)

Definition mtoy_node (i : Z) : Node := mkNode i (mkPoint (100 + i) (200 + i)).
Definition mtoy_old : list Node := mtoy_node <$> [1; 2; 3].
Definition mtoy_new : list Node := mtoy_node <$> [4; 5].

Definition mtoy_at (i : Z) (isOld isNew : bool) : MappingNode :=
  NewMappingNode (mtoy_node i) 7 mtoy_old 1 2 8 mtoy_new 1 1 0 isOld isNew.

Definition mtoy_bytes {A} `{Codec A} (a : A) : list Z := default [] (Marshal a).

Definition mtoy_summary : TransferSummary := mkTransferSummary 3.
Definition mtoy_frozen : MappingMessage :=
  CreateMappingMessage "" "mapping_summary_frozen" (mtoy_bytes (mkMappingSummaryMessage mtoy_summary)).

Definition mtoy_sent (i : Z) : list (Node * MappingMessage) :=
  (fun m => (mtoy_node i, m)) <$>
    sentTo (mtoy_node 4) (snd (fst (ProcessBroadcastMessage (mtoy_at i true false) mtoy_frozen))).

(** What node 4 receives: node 1 twice, then a lie of node 3, then node 2. *)
Definition mtoy_received : list (Node * MappingMessage) :=
  mtoy_sent 1 ++ mtoy_sent 1 ++
  [(mtoy_node 3, CreateMappingMessage "" "mapping_summary" (mtoy_bytes (mkMappingSummaryMessage (mkTransferSummary 9))))] ++
  mtoy_sent 2.

Definition mtoy_broadcast {A} `{Codec A} (method : string) (a : A) : Action :=
  SendBroadcast (CreateMappingMessage (ToMappingID (mkMappingIDDetails 7 8)) method (mtoy_bytes a)).

Definition mtoy_run : MappingNode * list Action := receive (mtoy_at 4 false true) mtoy_received.

Lemma mtoy_run_eq : receive (mtoy_at 4 false true) mtoy_received = (fst mtoy_run, snd mtoy_run).
Proof. exact (surjective_pairing (receive (mtoy_at 4 false true) mtoy_received)). Qed.

Lemma mapping_broadcasts_at_quorum_witness :
  occ (mtoy_broadcast "mapping_summary_broadcast" (mkMappingSummaryBroadcastMessage mtoy_summary))
    (snd mtoy_run) = 1%nat /\
  occ (mtoy_broadcast "mapping_summary_broadcast" (mkMappingSummaryBroadcastMessage (mkTransferSummary 9)))
    (snd mtoy_run) = 0%nat /\
  occ (mtoy_broadcast "mapping_key_broadcast" (mkMappingKeyBroadcastMessage (keyAt 1))) (snd mtoy_run) = 1%nat.
Proof.
  destruct (mapping_broadcasts_at_quorum (mtoy_node 4) 7 8 1 2 1 1 0 mtoy_old mtoy_new false
    mtoy_received (fst mtoy_run) (snd mtoy_run) ltac:(lia) mtoy_run_eq) as [Hs Hk].
  split_and!.
  - exact (Hs mtoy_summary _ ltac:(by split) eq_refl).
  - exact (Hs (mkTransferSummary 9) _ ltac:(by split) eq_refl).
  - exact (Hk (keyAt 1) _ eq_refl).
Defined.

Lemma mapping_summary_agreement_witness : mtoy_summary = mtoy_summary.
Proof.
  assert (mtoy_broadcast "mapping_summary_broadcast" (mkMappingSummaryBroadcastMessage mtoy_summary)
    ∈ snd mtoy_run) as Hin.
  { apply (bool_decide_unpack _). vm_compute. exact I. }
  exact (mapping_summary_agreement (mtoy_node 4) 7 8 1 2 1 1 0 mtoy_old mtoy_new false
    mtoy_received (fst mtoy_run) (snd mtoy_run) mtoy_summary mtoy_summary _ _ ltac:(lia) ltac:(done)
    ltac:(by split) ltac:(by split) eq_refl eq_refl mtoy_run_eq Hin Hin).
Defined.

Lemma mtoy_index (l : list Z) :
  Forall in_int64 l -> Forall (fun n => in_int64 (NodeIndex n)) (mtoy_node <$> l).
Proof. intros H. apply list.Forall_fmap. exact H. Qed.

Lemma mtoy_range_small (l : list Z) : forallb (fun i => (0 <=? i) && (i <? 10)) l = true -> Forall in_int64 l.
Proof.
  intros H. apply list.Forall_forall. intros i Hi. apply list_elem_of_In in Hi.
  rewrite forallb_forall in H. specialize (H i Hi). unfold in_int64. lia.
Qed.

Lemma mtoy_old_ok : Forall (fun n => in_int64 (NodeIndex n)) mtoy_old.
Proof. apply mtoy_index, mtoy_range_small. reflexivity. Qed.

Lemma mtoy_new_ok : Forall (fun n => in_int64 (NodeIndex n)) mtoy_new.
Proof. apply mtoy_index, mtoy_range_small. reflexivity. Qed.

Lemma mtoy_4_new : mtoy_node 4 ∈ mtoy_new.
Proof. by left. Qed.

Definition mtoy_enc (i : Z) : list Z := mtoy_bytes (mkMappingKeyMessage (keyAt i)).

Lemma mtoy_frozen_reads : Unmarshal (mmData mtoy_frozen) = Some (mkMappingSummaryMessage mtoy_summary).
Proof. vm_compute. reflexivity. Qed.

Lemma frozen_summary_sends_all_keys_witness :
  length (sentTo (mtoy_node 4) (snd (fst (ProcessBroadcastMessage (mtoy_at 1 true false) mtoy_frozen)))) = 4%nat.
Proof.
  destruct (frozen_summary_sends_all_keys (mtoy_node 1) 7 8 1 2 1 1 0 mtoy_old mtoy_new false mtoy_frozen
    (mkMappingSummaryMessage mtoy_summary) (mtoy_node 4) mtoy_enc mtoy_new_ok mtoy_4_new eq_refl
    mtoy_frozen_reads ltac:(done) ltac:(done)) as (acts & E & Es).
  unfold mtoy_at. rewrite E. cbn [fst snd]. rewrite Es. reflexivity.
Defined.

(** Nodes 1 and 2 deliver everything they send to node 4. *)
Lemma mtoy_delivered o m :
  o ∈ [mtoy_node 1; mtoy_node 2] ->
  Send (mtoy_node 4) m ∈ snd (fst (ProcessBroadcastMessage
    (NewMappingNode o 7 mtoy_old 1 2 8 mtoy_new 1 1 0 true false) mtoy_frozen)) ->
  (o, m) ∈ mtoy_received.
Proof.
  intros Ho Hm.
  assert (forall i, Send (mtoy_node 4) m ∈ snd (fst (ProcessBroadcastMessage (mtoy_at i true false) mtoy_frozen)) ->
    (mtoy_node i, m) ∈ mtoy_sent i) as H.
  { intros i Hi. unfold mtoy_sent. apply list_elem_of_fmap. exists m. split; [done|].
    unfold sentTo. apply list_elem_of_omap. eexists. split; [exact Hi|]. cbv beta iota.
    destruct (decide _); congruence. }
  unfold mtoy_received. rewrite !elem_of_app. apply list_elem_of_In in Ho as [<-|[<-|[]]].
  - left. by apply H.
  - right. right. right. by apply H.
Qed.

Lemma mapping_handed_over_witness :
  occ (mtoy_broadcast "mapping_key_broadcast" (mkMappingKeyBroadcastMessage (keyAt 2))) (snd mtoy_run) = 1%nat.
Proof.
  apply (mapping_handed_over 7 8 mtoy_old 1 2 mtoy_new 1 1 [mtoy_node 1; mtoy_node 2] (mtoy_node 4) false
    false 0 0 mtoy_frozen (mkMappingSummaryMessage mtoy_summary) mtoy_received (fst mtoy_run) (snd mtoy_run) 2).
  - lia.
  - done.
  - apply (bool_decide_unpack _). vm_compute. exact I.
  - intros n Hn. set_solver.
  - exact mtoy_old_ok.
  - exact mtoy_new_ok.
  - exact mtoy_4_new.
  - reflexivity.
  - exact mtoy_frozen_reads.
  - done.
  - exact mtoy_delivered.
  - exact mtoy_run_eq.
  - by split.
  - by eexists.
  - reflexivity.
Defined.
