(* ===== verification/Dealer.v ===== *)
(** Dealer messages (src/dealer/types.go), with which the holder of a key hands a
    new public key, share or commitment to the network, and the identity of a
    user at a verifier (src/auth/verifier.go).

    The signature check and the configuration flag are parameters; the current
    time is an argument, as seconds and nanoseconds since the Unix epoch. *)
From Stdlib Require Import ZArith.
From stdpp Require Import gmap strings.
From S2P Require Import Prelude BigInt Curve Effects.

(** ** Data *)

Record Message := mkMessage {
  dmMethod : string;
  dmKeyIndex : Z;
  dmPubKey : Point;
  dmData : list Z;
  dmSignature : list Z;
}.

Record TMessage := mkTMessage { tmTimestamp : string; tmMessage : string }.

Record MsgUpdatePublicKey := mkMsgUpdatePublicKey {
  upKeyIndex : Z;
  upTMessage : TMessage;
  upOldPubKey : Point;
  upOldPubKeySig : list Z;
  upNewPubKey : Point;
  upNewPubKeySig : list Z;
}.

Record MsgUpdateShare := mkMsgUpdateShare {
  usKeyIndex : Z;
  usTMessage : TMessage;
  usSi : Z;
  usSiprime : Z;
}.

Record MsgUpdateCommitment := mkMsgUpdateCommitment {
  ucKeyIndex : Z;
  ucTMessage : TMessage;
  ucCommitment : list (list Point);
}.

(** ** Time: package time's seconds since year one, in 64 bits *)

Definition unixToInternal : Z := 62135596800.

(** [time.Unix(u, 0).Add(1 * time.Minute).Before(now)]: [time.Unix] wraps and
    [Add] saturates. *)
Definition expired (u : Z) (now : Z * Z) : bool :=
  let t := Z.min (2 ^ 63 - 1) (int64 (u + unixToInternal) + 60) in
  let s := int64 (fst now + unixToInternal) in
  (t <? s) || ((t =? s) && (0 <? snd now)).

Section validate.
Context {NC : NodeConfig} {TC : TorusCrypto}.

(** ** Checks *)

Definition samePoint (P Q : Point) : bool := (PX P =? PX Q) && (PY P =? PY Q).

Definition Message_Validate (m : Message) (existingPubKey : Point) : bool :=
  if negb ValidateDealer then true
  else if negb (samePoint existingPubKey (dmPubKey m)) then false
  else VerifyPtFromRaw (dmData m) (dmPubKey m) (dmSignature m).

Definition TMessage_Byte (t : TMessage) : list Z :=
  stringBytes (Join [tmTimestamp t; tmMessage t] Delimiter2).

Definition MsgUpdatePublicKey_Validate (now : Z * Z) (d : MsgUpdatePublicKey) (existingPubKey : Point)
    : bool :=
  if negb ValidateDealer then true
  else if negb (samePoint existingPubKey (upOldPubKey d)) then false
  else match Split (tmMessage (upTMessage d)) Delimiter1 with
  | [msgPrefix; msg; oldPubKeyX; oldPubKeyY; newPubKeyX; newPubKeyY] =>
      if negb (msgPrefix =? "mug00")%string then false
      else if negb (msg =? "updatePubKey")%string then false
      else match Atoi (tmTimestamp (upTMessage d)) with
      | None => false
      | Some unixTime =>
          if expired unixTime now then false
          else if negb (oldPubKeyX =? Text16 (PX (upOldPubKey d)))%string
               || negb (oldPubKeyY =? Text16 (PY (upOldPubKey d)))%string
               || negb (newPubKeyX =? Text16 (PX (upNewPubKey d)))%string
               || negb (newPubKeyY =? Text16 (PY (upNewPubKey d)))%string then false
          else if negb (VerifyPtFromRaw (TMessage_Byte (upTMessage d)) (upOldPubKey d) (upOldPubKeySig d))
          then false
          else VerifyPtFromRaw (TMessage_Byte (upTMessage d)) (upNewPubKey d) (upNewPubKeySig d)
      end
  | _ => false
  end.

Definition MsgUpdateShare_Validate (now : Z * Z) (d : MsgUpdateShare) : bool :=
  if negb ValidateDealer then true
  else match Split (tmMessage (usTMessage d)) Delimiter1 with
  | [msgPrefix; msg] =>
      if negb (msgPrefix =? "mug00")%string then false
      else if negb (msg =? "updateShare")%string then false
      else match Atoi (tmTimestamp (usTMessage d)) with
      | None => false
      | Some unixTime => negb (expired unixTime now)
      end
  | _ => false
  end.

Definition MsgUpdateCommitment_Validate (now : Z * Z) (d : MsgUpdateCommitment) : bool :=
  if negb ValidateDealer then true
  else match Split (tmMessage (ucTMessage d)) Delimiter1 with
  | [msgPrefix; msg] =>
      if negb (msgPrefix =? "mug00")%string then false
      else if negb (msg =? "updateCommitment")%string then false
      else match Atoi (tmTimestamp (ucTMessage d)) with
      | None => false
      | Some unixTime => negb (expired unixTime now)
      end
  | _ => false
  end.

End validate.

(** ** Users at a verifier (auth/verifier.go) *)

Record VerifierDetails := mkVerifierDetails { vdVerifier : string; vdVerifierID : string }.

Definition ToVerifierDetailsID (v : VerifierDetails) : string :=
  Join [vdVerifier v; vdVerifierID v] Delimiter1.

Definition FromVerifierDetailsID (vID : string) : res VerifierDetails :=
  match Split vID Delimiter1 with
  | [verifier; verifierID] => Ok (mkVerifierDetails verifier verifierID)
  | _ => Err "Error parsing PSSIDDetails, too few fields"
  end.

(** ** Proofs *)

Lemma samePoint_true P Q : samePoint P Q = true <-> P = Q.
Proof.
  unfold samePoint. rewrite andb_true_iff, !Z.eqb_eq. destruct P as [x y], Q as [x' y']. simpl.
  split; [intros [-> ->]|intros [= -> ->]]; done.
Qed.

Lemma Split_spec s sep ws : Split s sep = ws -> s = Join ws sep.
Proof. intros <-. by rewrite Join_Split. Qed.

Lemma ToVerifierDetailsID_round v :
  Delimiter1 ∉ chars (vdVerifier v) -> Delimiter1 ∉ chars (vdVerifierID v) ->
  FromVerifierDetailsID (ToVerifierDetailsID v) = Ok v.
Proof.
  intros H1 H2. unfold FromVerifierDetailsID, ToVerifierDetailsID.
  rewrite Split_Join; [by destruct v|done|]. by repeat constructor.
Qed.

Lemma FromVerifierDetailsID_inv vID v : FromVerifierDetailsID vID = Ok v -> ToVerifierDetailsID v = vID.
Proof.
  unfold FromVerifierDetailsID. destruct (Split vID Delimiter1) as [|w1 [|w2 [|]]] eqn:E; try done.
  intros [= <-]. symmetry. by apply Split_spec.
Qed.

(** The text a key holder signs to hand over from [old] to [new]. *)
Definition updateText (old new : Point) : string :=
  Join ["mug00"; "updatePubKey"; Text16 (PX old); Text16 (PY old); Text16 (PX new); Text16 (PY new)]
    Delimiter1.

Lemma updateText_split old new :
  Split (updateText old new) Delimiter1 =
    ["mug00"; "updatePubKey"; Text16 (PX old); Text16 (PY old); Text16 (PX new); Text16 (PY new)]%string.
Proof.
  apply Split_Join; [done|]. assert (N_of_ascii Delimiter1 <= 31)%N by (by vm_compute).
  repeat constructor; auto with torus; vm_compute; set_solver.
Qed.

Section properties.
Context {NC : NodeConfig} {TC : TorusCrypto}.

(** C18: a public key is replaced only with its holder's consent: when the checks
    are on, an update is accepted exactly when it names the existing key as the
    old one, is no older than a minute, and both the old and the new key have
    signed the text that names the two. *)
Theorem update_pubkey_authorised now d existing :
  ValidateDealer = true ->
  MsgUpdatePublicKey_Validate now d existing = true <->
  upOldPubKey d = existing /\
  tmMessage (upTMessage d) = updateText existing (upNewPubKey d) /\
  (exists u, Atoi (tmTimestamp (upTMessage d)) = Some u /\ expired u now = false) /\
  VerifyPtFromRaw (TMessage_Byte (upTMessage d)) existing (upOldPubKeySig d) = true /\
  VerifyPtFromRaw (TMessage_Byte (upTMessage d)) (upNewPubKey d) (upNewPubKeySig d) = true.
Proof.
  intros Hv. unfold MsgUpdatePublicKey_Validate. rewrite Hv. cbn [negb]. split.
  - destruct (samePoint existing (upOldPubKey d)) eqn:Es; [|done]. apply samePoint_true in Es as ->.
    cbn [negb]. destruct (Split (tmMessage (upTMessage d)) Delimiter1)
      as [|w1 [|w2 [|w3 [|w4 [|w5 [|w6 [|]]]]]]] eqn:E; try done.
    destruct (String.eqb_spec w1 "mug00") as [->|]; [|done].
    destruct (String.eqb_spec w2 "updatePubKey") as [->|]; [|done]. cbn [negb].
    destruct (Atoi _) as [u|]; [|done]. destruct (expired u now) eqn:Ex; [done|].
    destruct (String.eqb_spec w3 (Text16 (PX (upOldPubKey d)))) as [->|]; [|done].
    destruct (String.eqb_spec w4 (Text16 (PY (upOldPubKey d)))) as [->|]; [|done].
    destruct (String.eqb_spec w5 (Text16 (PX (upNewPubKey d)))) as [->|]; [|done].
    destruct (String.eqb_spec w6 (Text16 (PY (upNewPubKey d)))) as [->|]; [|done]. cbn [negb orb].
    destruct (VerifyPtFromRaw _ (upOldPubKey d) _) eqn:E1; [|done]. cbn [negb]. intros E2.
    apply Split_spec in E. eauto 8.
  - intros (Eo & Et & (u & Ea & Ex) & E1 & E2). rewrite Eo, Et, updateText_split, Ea, Ex.
    rewrite (proj2 (samePoint_true existing existing) eq_refl), !String.eqb_refl. cbn [negb orb].
    by rewrite E1, E2.
Qed.

End properties.

(** ** A concrete configuration, and the witness *)

Module ToyDealer.

#[global] Instance config : NodeConfig :=
  {| ValidateDealer := true; IgnoreEpochForKeyAssign := false; KeyBuffer := 3 |}.

(** A signature that anyone can make, but on one text under one key only. *)
#[global] Instance crypto : TorusCrypto := {|
  VerifyPtFromRaw b P sig := bool_decide (sig = PX P :: b);
  PointToEthAddressHex P := Join [Text16 (PX P); Text16 (PY P)] Delimiter1;
|}.

Definition old : Point := mkPoint 17 4.
Definition new : Point := mkPoint 300 5.
Definition text : TMessage := mkTMessage "1600000000" (updateText old new).
Definition update : MsgUpdatePublicKey :=
  mkMsgUpdatePublicKey 6 text old (17 :: TMessage_Byte text) new (300 :: TMessage_Byte text).
Definition now : Z * Z := (1600000060, 0).

End ToyDealer.

Lemma update_pubkey_authorised_witness :
  MsgUpdatePublicKey_Validate ToyDealer.now ToyDealer.update ToyDealer.old = true.
Proof.
  apply (@update_pubkey_authorised ToyDealer.config ToyDealer.crypto ToyDealer.now ToyDealer.update ToyDealer.old eq_refl).
  split_and!; [done|done|exists 1600000000; by split|by apply bool_decide_eq_true..].
Defined.
