(* ===== verification/GoTime.v ===== *)
(** Package time: an instant is a pair of seconds since year one, kept in 64
    bits, and nanoseconds; a duration is a number of nanoseconds in 64 bits. *)
From Stdlib Require Import ZArith.
From stdpp Require Import gmap.
From S2P Require Import Prelude BigInt Dealer.

Definition Second : Z := 10 ^ 9.
Definition Minute : Z := 60 * Second.

(** [time.Unix(sec, nsec)]: the seconds wrap. *)
Definition timeUnix (sec nsec : Z) : Z * Z :=
  (int64 (sec + nsec / Second + unixToInternal), nsec mod Second).

(** [t.Add(d)]: the seconds saturate. *)
Definition timeAdd (t : Z * Z) (d : Z) : Z * Z :=
  let ns := snd t + d in
  let sum := fst t + ns / Second in
  (if 2 ^ 63 - 1 <? sum then 2 ^ 63 - 1 else if sum <? - 2 ^ 63 then - (2 ^ 63 - 1) else sum, ns mod Second).

(** [t.Before(u)]. *)
Definition timeBefore (t u : Z * Z) : bool :=
  (fst t <? fst u) || ((fst t =? fst u) && (snd t <? snd u)).

(** Nanoseconds of an instant. *)
Definition nanos (t : Z * Z) : Z := fst t * Second + snd t.

(** An instant as the clock gives it, far from the ends of the range. *)
Definition clockTime (t : Z * Z) : Prop := - 2 ^ 62 <= fst t < 2 ^ 62 /\ 0 <= snd t < Second.

Lemma timeBefore_nanos t u :
  0 <= snd t < Second -> 0 <= snd u < Second -> timeBefore t u = (nanos t <? nanos u).
Proof.
  unfold timeBefore, nanos, Second. intros Ht Hu.
  destruct (Z.ltb_spec (fst t) (fst u)), (Z.eqb_spec (fst t) (fst u)), (Z.ltb_spec (snd t) (snd u)); simpl;
    symmetry; (apply Z.ltb_lt; lia) || (apply Z.ltb_ge; lia).
Qed.

Lemma timeAdd_nanos t d :
  clockTime t -> - 2 ^ 63 <= d < 2 ^ 63 ->
  nanos (timeAdd t d) = nanos t + d /\ 0 <= snd (timeAdd t d) < Second.
Proof.
  unfold clockTime, timeAdd, nanos, Second. intros [H1 H2] Hd. simpl fst. simpl snd.
  pose proof (Z.div_mod (snd t + d) (10 ^ 9)) as Hdm.
  pose proof (Z.mod_pos_bound (snd t + d) (10 ^ 9)) as Hm.
  assert (- 2 ^ 34 <= (snd t + d) / 10 ^ 9 <= 2 ^ 34) as Hb.
  { split; [apply Z.div_le_lower_bound; lia|apply Z.div_le_upper_bound; lia]. }
  destruct (Z.ltb_spec (2 ^ 63 - 1) (fst t + (snd t + d) / 10 ^ 9)); [lia|].
  destruct (Z.ltb_spec (fst t + (snd t + d) / 10 ^ 9) (- 2 ^ 63)); [lia|]. lia.
Qed.

(** [t.Add(d).Before(now)]: the instant is more than [d] old. *)
Lemma timeAdd_before t d now :
  clockTime t -> clockTime now -> - 2 ^ 63 <= d < 2 ^ 63 ->
  timeBefore (timeAdd t d) now = (nanos t + d <? nanos now).
Proof.
  intros Ht [_ Hn] Hd. destruct (timeAdd_nanos t d Ht Hd) as [E Hs].
  by rewrite timeBefore_nanos, E.
Qed.

(** The expiry of dealer messages is the one-minute case. *)
Lemma expired_before u now :
  0 <= snd now < Second ->
  expired u now = timeBefore (timeAdd (timeUnix u 0) Minute) (timeUnix (fst now) (snd now)).
Proof.
  intros Hn. unfold expired, timeBefore, timeAdd, timeUnix, Minute, Second in *. simpl fst. simpl snd.
  rewrite (Z.div_small (snd now)), (Z.mod_small (snd now)), !Z.add_0_r by lia.
  change (0 / 10 ^ 9) with 0. change (0 mod 10 ^ 9) with 0.
  change ((0 + 60 * 10 ^ 9) / 10 ^ 9) with 60. change ((0 + 60 * 10 ^ 9) mod 10 ^ 9) with 0.
  pose proof (int64_range (u + unixToInternal)) as Hr. unfold in_int64 in Hr.
  destruct (Z.ltb_spec (2 ^ 63 - 1) (int64 (u + unixToInternal) + 60)).
  - by rewrite Z.min_l by lia.
  - destruct (Z.ltb_spec (int64 (u + unixToInternal) + 60) (- 2 ^ 63)); [lia|].
    by rewrite Z.min_r by lia.
Qed.
