(* ===== verification/Auth.v ===== *)
(** Verification of the users' tokens (src/auth): the verifiers of one identity
    provider each, behind the [Verifier] interface, the general verifier that
    routes a request to one of them, and the service in front of it
    (src/dkgnode/verifier.go).

    The providers answer over HTTP, which is a parameter, as are the
    serialisation and the configuration; the current time is an argument.  Of an
    answer only the fields the code reads are kept.  The Discord and Reddit
    verifiers, which parse dates and fold the case of Unicode letters, are
    arguments of the service; SocialAuth defines them. *)
From Stdlib Require Import ZArith.
From stdpp Require Import gmap strings.
From S2P Require Import Prelude BigInt Curve Effects GoTime.

(** ** The interface *)

(** [VerifyRequestIdentity now rawPayload] gives whether the request is verified
    and the user's id at the provider. *)
Record Verifier := mkVerifier {
  GetIdentifier : string;
  CleanToken : string -> string;
  VerifyRequestIdentity : Z * Z -> list Z -> res (bool * string);
}.

(** ** Parameters *)

(** The body of a provider's answer; the second call carries headers. *)
Class Web := {
  httpGet : string -> res (list Z);
  httpDo : string -> list (string * string) -> res (list Z);
}.

(** Strings of the configuration that may change (GlobalMutableConfig), and
    torus-common's parser of hexadecimal numbers. *)
Class AuthConfig := {
  GetS : string -> string;
  HexToBigInt : string -> Z;
}.

(** ** Data *)

Record VerifyMessage := mkVerifyMessage { vmToken : string; vmVerifierIdentifier : string }.

Record TorusRequest := mkTorusRequest { trVerifierID : string; trTimestamp : Z }.
Record TorusVerifierParams := mkTorusVerifierParams { tpVerifierID : string; tpTimestamp : Z; tpIDToken : string }.

Record GoogleVerifierParams := mkGoogleVerifierParams { gpIDToken : string; gpVerifierID : string }.
Record GoogleAuthResponse := mkGoogleAuthResponse { gaAzp : string; gaEmail : string; gaIat : string }.

Record FacebookVerifierParams := mkFacebookVerifierParams { fpIDToken : string; fpVerifierID : string }.
Record FacebookAuthResponse := mkFacebookAuthResponse {
  faError : option string;
  faIsValid : bool;
  faUserID : string;
}.

Record TwitchVerifierParams := mkTwitchVerifierParams { wpIDToken : string; wpVerifierID : string }.
Record TwitchAuthResponse := mkTwitchAuthResponse { waAUD : string; waIAT : Z; waSUB : string }.

Record TestVerifierParams := mkTestVerifierParams { xpIDToken : string; xpID : string }.

Class AuthCodecs := {
  codec_verify_message :: Codec VerifyMessage;
  codec_torus_request :: Codec TorusRequest;
  codec_torus_params :: Codec TorusVerifierParams;
  codec_google_params :: Codec GoogleVerifierParams;
  codec_google_response :: Codec GoogleAuthResponse;
  codec_facebook_params :: Codec FacebookVerifierParams;
  codec_facebook_response :: Codec FacebookAuthResponse;
  codec_twitch_params :: Codec TwitchVerifierParams;
  codec_twitch_response :: Codec TwitchAuthResponse;
  codec_test_params :: Codec TestVerifierParams;
}.

(** ** Strings *)

Fixpoint dropSpaces (s : list ascii) : list ascii :=
  match s with
  | " "%char :: s' => dropSpaces s'
  | _ => s
  end.

(** [strings.Trim(s, " ")]. *)
Definition TrimSpaces (s : string) : string :=
  unchars (reverse (dropSpaces (reverse (dropSpaces (chars s))))).

(** [new(big.Int).SetString(s, 10)]. *)
Definition SetString10 (s : string) : option Z := parse_signed 10 (chars s).

Definition hexVal (c : ascii) : option Z :=
  d ← char_digit c; if d <? 16 then Some d else None.

Fixpoint hexPairs (s : list ascii) : option (list Z) :=
  match s with
  | [] => Some []
  | c :: d :: s' => x ← hexVal c; y ← hexVal d; r ← hexPairs s'; Some (x * 16 + y :: r)
  | _ => None
  end.

(** [hex.DecodeString]. *)
Definition HexDecode (s : string) : res (list Z) :=
  match hexPairs (chars s) with
  | Some b => Ok b
  | None => Err "encoding/hex: invalid"
  end.

Section auth.
Context {TC : TorusCrypto} {WB : Web} {CF : AuthConfig} {AC : AuthCodecs} {MR : MapRange}.

Definition errBijson : string := "bijson: could not unmarshal".

Definition unmarshalMsg {A} `{Codec A} (data : list Z) : res A :=
  match Unmarshal data with Some a => Ok a | None => Err errBijson end.

Definition ensure (b : bool) (e : string) : res unit := if b then Ok tt else Err e.

(** ** Torus (torus_verifier.go): a signature of a fixed key *)

Definition TorusPubKey : Point :=
  mkPoint (HexToBigInt (GetS "TorusVerifierPubKeyX")) (HexToBigInt (GetS "TorusVerifierPubKeyY")).

Definition Torus_VerifyRequestIdentity (Timeout : Z) (now : Z * Z) (rawPayload : list Z) : res (bool * string) :=
  p ← unmarshalMsg (A := TorusVerifierParams) rawPayload;
  marshalled ← marshal (mkTorusRequest (tpVerifierID p) (tpTimestamp p));
  decodedIDToken ← HexDecode (tpIDToken p);
  _ ← ensure (VerifyPtFromRaw marshalled TorusPubKey decodedIDToken) "signature is not valid";
  let timeSigned := timeUnix 0 (int64 (tpTimestamp p)) in
  _ ← ensure (negb (timeBefore (timeAdd timeSigned Timeout) now)) "timesigned is more than 60 seconds ago";
  Ok (true, tpVerifierID p).

Definition TorusVerifier (Timeout : Z) : Verifier :=
  mkVerifier "torus" TrimSpaces (Torus_VerifyRequestIdentity Timeout).

Definition NewTorusVerifier : Verifier := TorusVerifier (60 * Second).

(** ** Google (google_verifier.go) *)

Definition Google_VerifyRequestIdentity (Timeout : Z) (now : Z * Z) (rawPayload : list Z) : res (bool * string) :=
  p ← unmarshalMsg (A := GoogleVerifierParams) rawPayload;
  let IDToken := TrimSpaces (gpIDToken p) in
  _ ← ensure (negb ((gpVerifierID p =? "")%string || (IDToken =? "")%string)) "invalid payload parameters";
  b ← httpGet ("https://www.googleapis.com/oauth2/v3/tokeninfo?id_token=" ++ IDToken)%string;
  body ← unmarshalMsg (A := GoogleAuthResponse) b;
  timeSignedInt ← match SetString10 (gaIat body) with Some i => Ok i | None => Err "Could not get timesignedint" end;
  let timeSigned := timeUnix (int64 timeSignedInt) 0 in
  _ ← ensure (negb (timeBefore (timeAdd timeSigned Timeout) now)) "timesigned is more than 60 seconds ago";
  _ ← ensure (GetS "GoogleClientID" =? gaAzp body)%string "azip is not clientID";
  _ ← ensure (gpVerifierID p =? gaEmail body)%string "email not equal to body.email";
  Ok (true, gpVerifierID p).

Definition GoogleVerifier (Timeout : Z) : Verifier :=
  mkVerifier "google" TrimSpaces (Google_VerifyRequestIdentity Timeout).

Definition NewGoogleVerifier : Verifier := GoogleVerifier (60 * Second).

(** ** Facebook (facebook_verifier.go) *)

Definition Facebook_VerifyRequestIdentity (now : Z * Z) (rawPayload : list Z) : res (bool * string) :=
  p ← unmarshalMsg (A := FacebookVerifierParams) rawPayload;
  let IDToken := TrimSpaces (fpIDToken p) in
  _ ← ensure (negb ((IDToken =? "")%string || (fpVerifierID p =? "")%string)) "invalid payload parameters";
  body ← httpGet ("https://graph.facebook.com/debug_token?input_token=" ++ IDToken ++ "&access_token="
                    ++ GetS "FacebookAppID" ++ "|" ++ GetS "FacebookAppSecret")%string;
  resp ← unmarshalMsg (A := FacebookAuthResponse) body;
  _ ← match faError resp with Some message => Err message | None => Ok tt end;
  _ ← ensure (faIsValid resp) "Access token is not valid";
  _ ← ensure (faUserID resp =? fpVerifierID p)%string "UserIDs do not match";
  Ok (true, fpVerifierID p).

Definition NewFacebookVerifier : Verifier := mkVerifier "facebook" TrimSpaces Facebook_VerifyRequestIdentity.

(** ** Twitch (twitch_verifier.go) *)

Definition Twitch_VerifyRequestIdentity (Timeout : Z) (now : Z * Z) (rawPayload : list Z) : res (bool * string) :=
  p ← unmarshalMsg (A := TwitchVerifierParams) rawPayload;
  let IDToken := TrimSpaces (wpIDToken p) in
  _ ← ensure (negb ((IDToken =? "")%string || (wpVerifierID p =? "")%string)) "invalid payload parameters";
  body ← httpDo "https://id.twitch.tv/oauth2/userinfo" [("Authorization", "Bearer " ++ IDToken)%string];
  r ← unmarshalMsg (A := TwitchAuthResponse) body;
  let timeSigned := timeUnix (int64 (waIAT r)) 0 in
  _ ← ensure (negb (timeBefore (timeAdd timeSigned Timeout) now)) "timesigned is more than 60 seconds ago";
  _ ← ensure (waSUB r =? wpVerifierID p)%string "UserIDs do not match";
  _ ← ensure (waAUD r =? GetS "TwitchClientID")%string "aud and clientid do not match";
  Ok (true, wpVerifierID p).

Definition TwitchVerifier (Timeout : Z) : Verifier :=
  mkVerifier "twitch" TrimSpaces (Twitch_VerifyRequestIdentity Timeout).

Definition NewTwitchVerifier : Verifier := TwitchVerifier (60 * Second).

(** ** Test (test_verifier.go): one token for everybody *)

Definition Test_VerifyRequestIdentity (CorrectIDToken : string) (now : Z * Z) (jsonToken : list Z)
    : res (bool * string) :=
  p ← unmarshalMsg (A := TestVerifierParams) jsonToken;
  _ ← ensure (TrimSpaces (xpIDToken p) =? CorrectIDToken)%string "Token is not the correct one";
  Ok (true, xpID p).

Definition NewTestVerifier (correctIDToken : string) : Verifier :=
  mkVerifier "test" TrimSpaces (Test_VerifyRequestIdentity correctIDToken).

(** ** The general verifier (verifier.go) *)

(** [None] is a map that was not made. *)
Record DefaultGeneralVerifier := mkGeneralVerifier { Verifiers : option (gmap string Verifier) }.

Definition ListVerifiers (tgv : DefaultGeneralVerifier) : list string :=
  (mapRange 60 (default ∅ (Verifiers tgv))).*1.

Definition Lookup (tgv : DefaultGeneralVerifier) (verifierIdentifier : string) : res Verifier :=
  match Verifiers tgv with
  | None => Err "Verifiers mapping not initialized"
  | Some vs =>
      match vs !! verifierIdentifier with
      | None => Err ("Verifier with verifierIdentifier " ++ verifierIdentifier ++ " could not be found")
      | Some v => Ok v
      end
  end.

Definition Verify (tgv : DefaultGeneralVerifier) (now : Z * Z) (rawMessage : list Z) : res (bool * string) :=
  verifyMessage ← unmarshalMsg (A := VerifyMessage) rawMessage;
  v ← Lookup tgv (vmVerifierIdentifier verifyMessage);
  let cleanedToken := CleanToken v (vmToken verifyMessage) in
  _ ← ensure (cleanedToken =? vmToken verifyMessage)%string "Cleaned token is different from original token";
  VerifyRequestIdentity v now rawMessage.

Definition NewGeneralVerifier (verifiers : list Verifier) : DefaultGeneralVerifier :=
  mkGeneralVerifier (Some (foldl (fun m v => <[GetIdentifier v := v]> m) ∅ verifiers)).

(** ** The service (dkgnode/verifier.go) *)

Definition VerifierService_OnStart (IsDebug : bool) (discord reddit : Verifier) : DefaultGeneralVerifier :=
  let verifiers :=
    [NewGoogleVerifier; discord; NewFacebookVerifier; reddit; NewTwitchVerifier; NewTorusVerifier] in
  NewGeneralVerifier (if IsDebug then verifiers ++ [NewTestVerifier "blublu"] else verifiers).

(** [clean_token]. *)
Definition cleanToken (tgv : DefaultGeneralVerifier) (verifierIdentifier idtoken : string) : res string :=
  verifier ← Lookup tgv verifierIdentifier; Ok (CleanToken verifier idtoken).

End auth.
