(* ===== verification/AuthProps.v ===== *)
(** What the verifiers of Auth accept. *)
From Stdlib Require Import ZArith.
From stdpp Require Import gmap strings.
From S2P Require Import Prelude BigInt Curve Effects Dealer GoTime Auth.

(** ** Hexadecimal texts *)

Lemma hexVal_digit d : 0 <= d < 16 -> hexVal (digit_char d) = Some d.
Proof.
  intros Hd. unfold hexVal. destruct (digit_char_spec d) as [-> _]; [lia|]. simpl. by rewrite (proj2 (Z.ltb_lt d 16)) by lia.
Qed.

Lemma HexDecode_HexEncode bs : Forall (fun b => 0 <= b < 256) bs -> HexDecode (HexEncode bs) = Ok bs.
Proof.
  intros Hb. unfold HexDecode, HexEncode. rewrite chars_unchars.
  assert (hexPairs (bs ≫= fun b => [digit_char (b / 16); digit_char (b mod 16)]) = Some bs) as ->; [|done].
  induction Hb as [|b bs Hb _ IH]; [done|]. csimpl.
  rewrite !hexVal_digit by (Z.to_euclidean_division_equations; lia). simpl. rewrite IH. simpl.
  do 2 f_equal. Z.to_euclidean_division_equations; lia.
Qed.

(** ** The general verifier *)

Section props.
Context {TC : TorusCrypto} {WB : Web} {CF : AuthConfig} {AC : AuthCodecs} {MR : MapRange}.

Lemma unmarshalMsg_Ok {A} `{Codec A} data (a : A) : unmarshalMsg data = Ok a <-> Unmarshal data = Some a.
Proof. unfold unmarshalMsg. destruct (Unmarshal data); naive_solver. Qed.

Lemma marshal_Some {A} `{Codec A} (a : A) b : marshal a = Ok b <-> Marshal a = Some b.
Proof. unfold marshal. destruct (Marshal a); naive_solver. Qed.

Lemma ensure_Ok b e u : ensure b e = Ok u <-> b = true.
Proof. destruct b, u; simpl; naive_solver. Qed.

Lemma Lookup_Ok tgv id v :
  Lookup tgv id = Ok v <-> exists vs, Verifiers tgv = Some vs /\ vs !! id = Some v.
Proof.
  unfold Lookup. destruct (Verifiers tgv) as [vs|]; [|naive_solver].
  destruct (vs !! id) eqn:E; [|naive_solver]. split; [|by intros (? & [= <-] & ?); simplify_eq].
  intros [= <-]. by exists vs.
Qed.

Lemma Verify_Ok tgv now raw r :
  Verify tgv now raw = Ok r <->
  exists m v, Unmarshal (A := VerifyMessage) raw = Some m /\ Lookup tgv (vmVerifierIdentifier m) = Ok v /\
    CleanToken v (vmToken m) = vmToken m /\ VerifyRequestIdentity v now raw = Ok r.
Proof.
  unfold Verify. rewrite bind_Ok. setoid_rewrite bind_Ok. setoid_rewrite bind_Ok. split.
  - intros (m & Hm%unmarshalMsg_Ok & v & Hv & u & He%ensure_Ok & Hr). exists m, v.
    split_and!; [done|done|by apply String.eqb_eq|done].
  - intros (m & v & Hm & Hv & Hc & Hr). exists m. split; [by apply unmarshalMsg_Ok|]. exists v. split; [done|].
    exists tt. split; [|done]. apply ensure_Ok. by apply String.eqb_eq.
Qed.

(** ** Torus *)

(** The service routes the identifier to the Torus verifier, whatever the other
    verifiers are, as long as they have other identifiers. *)
Lemma torus_registered IsDebug discord reddit :
  GetIdentifier discord <> "torus"%string -> GetIdentifier reddit <> "torus"%string ->
  Lookup (VerifierService_OnStart IsDebug discord reddit) "torus" = Ok NewTorusVerifier.
Proof.
  intros Hd Hr. apply Lookup_Ok. unfold VerifierService_OnStart, NewGeneralVerifier. eexists. split; [done|].
  destruct IsDebug; simpl; [rewrite lookup_insert_ne by done|]; by rewrite lookup_insert_eq.
Qed.

Lemma timeUnix_nanos ns :
  in_int64 ns -> clockTime (timeUnix 0 ns) /\ nanos (timeUnix 0 ns) = ns + unixToInternal * Second.
Proof.
  unfold in_int64, timeUnix, clockTime, nanos, unixToInternal, Second. intros Hns. simpl fst. simpl snd.
  pose proof (Z.div_mod ns (10 ^ 9)). pose proof (Z.mod_pos_bound ns (10 ^ 9)).
  assert (- 2 ^ 34 <= ns / 10 ^ 9 <= 2 ^ 34) as Hb.
  { split; [apply Z.div_le_lower_bound; lia|apply Z.div_le_upper_bound; lia]. }
  rewrite int64_id by (unfold in_int64; lia). lia.
Qed.

(** The verifier service identifies a user for the Torus verifier exactly when
    the request names that verifier, its token is free of surrounding spaces and is
    the hexadecimal form of a signature by the configured key on the user's id and
    timestamp, and the timestamp is at most sixty seconds old. *)
Theorem torus_identity_signed IsDebug discord reddit now raw m b vid :
  GetIdentifier discord <> "torus"%string -> GetIdentifier reddit <> "torus"%string ->
  clockTime now -> Unmarshal (A := VerifyMessage) raw = Some m -> vmVerifierIdentifier m = "torus"%string ->
  Verify (VerifierService_OnStart IsDebug discord reddit) now raw = Ok (b, vid) <->
  b = true /\ TrimSpaces (vmToken m) = vmToken m /\
  exists p body sig,
    Unmarshal (A := TorusVerifierParams) raw = Some p /\ tpVerifierID p = vid /\
    Marshal (mkTorusRequest vid (tpTimestamp p)) = Some body /\ HexDecode (tpIDToken p) = Ok sig /\
    VerifyPtFromRaw body TorusPubKey sig = true /\
    nanos now <= int64 (tpTimestamp p) + unixToInternal * Second + 60 * Second.
Proof.
  intros Hd Hr Hnow Hm Ht. rewrite Verify_Ok. rewrite Hm.
  assert (forall ts, negb (timeBefore (timeAdd (timeUnix 0 (int64 ts)) (60 * Second)) now) = true <->
    nanos now <= int64 ts + unixToInternal * Second + 60 * Second) as Htime.
  { intros ts. destruct (timeUnix_nanos (int64 ts) (int64_range ts)) as [Hc Hn].
    rewrite timeAdd_before, Hn by (done || unfold Second; lia). rewrite negb_true_iff, Z.ltb_ge. lia. }
  split.
  - intros (m' & v & [= <-] & Hv & Hc & E). rewrite Ht, (torus_registered IsDebug discord reddit Hd Hr) in Hv.
    injection Hv as <-. simpl in Hc, E. unfold Torus_VerifyRequestIdentity in E.
    apply bind_Ok in E as (p & Hp%unmarshalMsg_Ok & E). apply bind_Ok in E as (body & Hb%marshal_Some & E).
    apply bind_Ok in E as (sig & Hs & E). apply bind_Ok in E as (? & Hver%ensure_Ok & E).
    apply bind_Ok in E as (? & Htm%ensure_Ok & E). apply Htime in Htm. injection E as <- <-.
    split_and!; [done|done|]. by exists p, body, sig.
  - intros (-> & Hc & p & body & sig & Hp & Hid & Hb & Hs & Hver & Htm). exists m, NewTorusVerifier.
    rewrite Ht. split_and!; [done|by apply torus_registered|done|]. simpl. unfold Torus_VerifyRequestIdentity.
    rewrite (proj2 (unmarshalMsg_Ok _ _) Hp). cbn [mbind res_bind].
    rewrite Hid, (proj2 (marshal_Some _ _) Hb). cbn [mbind res_bind]. rewrite Hs. cbn [mbind res_bind].
    rewrite Hver. cbn [mbind res_bind ensure]. by rewrite (proj2 (Htime _) Htm).
Qed.

End props.
