(* ===== verification/DateTime.v ===== *)
(** What the verifiers of user identities use of the packages time and strings: parsing an
    instant in the layout of RFC 3339, as Go 1.12 does, and comparing texts without regard
    to case.

    The table of package unicode that maps a rune to the next one of its case folding is a
    parameter. *)
From Stdlib Require Import ZArith.
From stdpp Require Import gmap strings.
From S2P Require Import Prelude BigInt Effects Dealer GoTime.

(** ** Dates *)

Definition isLeap (year : Z) : bool := (year mod 4 =? 0) && (negb (year mod 100 =? 0) || (year mod 400 =? 0)).

Definition daysIn (month year : Z) : Z :=
  if month =? 2 then (if isLeap year then 29 else 28)
  else if (month =? 4) || (month =? 6) || (month =? 9) || (month =? 11) then 30 else 31.

(** The days of a year before a month. *)
Definition daysBefore (month year : Z) : Z :=
  default 0 ([0; 31; 59; 90; 120; 151; 181; 212; 243; 273; 304; 334] !! Z.to_nat (month - 1))
  + (if (2 <? month) && isLeap year then 1 else 0).

(** The days from the first of January of year one. *)
Definition daysSince (year month day : Z) : Z :=
  365 * (year - 1) + (year - 1) / 4 - (year - 1) / 100 + (year - 1) / 400 + daysBefore month year + (day - 1).

(** [Date] in UTC. *)
Definition dateUTC (year month day hour min sec nsec : Z) : Z * Z :=
  (daysSince year month day * 86400 + hour * 3600 + min * 60 + sec, nsec).

(** ** Parsing *)

Definition decDigit (c : ascii) : option Z := d ← char_digit c; if d <? 10 then Some d else None.

(** The number of a text of decimal digits, which may be empty. *)
Fixpoint decNumber (acc : Z) (s : list ascii) : option Z :=
  match s with
  | [] => Some acc
  | c :: s => d ← decDigit c; decNumber (10 * acc + d) s
  end.

(** [atoi] of package time, which takes a sign. *)
Definition timeAtoi (s : list ascii) : option Z :=
  match s with
  | "-"%char :: s => Z.opp <$> decNumber 0 s
  | "+"%char :: s => decNumber 0 s
  | s => decNumber 0 s
  end.

(** [getnum]: two digits, or one when [fixed] is false. *)
Definition getnum (s : list ascii) (fixed : bool) : option (Z * list ascii) :=
  match s with
  | [] => None
  | c :: s =>
      a ← decDigit c;
      match s with
      | c' :: s' =>
          match decDigit c' with
          | Some b => Some (10 * a + b, s')
          | None => if fixed then None else Some (a, s)
          end
      | [] => if fixed then None else Some (a, s)
      end
  end.

Definition skipChar (c : ascii) (s : list ascii) : option (list ascii) :=
  match s with
  | c' :: s => if Ascii.eqb c c' then Some s else None
  | [] => None
  end.

Definition inRange (lo hi x : Z) : option unit := if (lo <=? x) && (x <=? hi) then Some tt else None.

(** The digits a text starts with. *)
Fixpoint leadingDigits (s : list ascii) : list ascii * list ascii :=
  match s with
  | c :: s' =>
      match decDigit c with
      | Some _ => let '(ds, rest) := leadingDigits s' in (c :: ds, rest)
      | None => ([], s)
      end
  | [] => ([], [])
  end.

(** A fraction of a second, which the layout does not have, is taken when it has a digit. *)
Definition parseFraction (s : list ascii) : option (Z * list ascii) :=
  match s with
  | "."%char :: rest =>
      match leadingDigits rest with
      | ([], _) => Some (0, s)
      | (ds, rest') =>
          ns ← decNumber 0 ds;
          if ns <? 10 ^ 9 then Some (ns * 10 ^ Z.max 0 (9 - Z.of_nat (length ds)), rest') else None
      end
  | _ => Some (0, s)
  end.

(** The offset of the zone in seconds. *)
Definition parseZone (s : list ascii) : option (Z * list ascii) :=
  match s with
  | "Z"%char :: rest => Some (0, rest)
  | sign :: h1 :: h2 :: ":"%char :: m1 :: m2 :: rest =>
      hr ← timeAtoi [h1; h2];
      mm ← timeAtoi [m1; m2];
      let zoneOffset := (hr * 60 + mm) * 60 in
      match sign with
      | "+"%char => Some (zoneOffset, rest)
      | "-"%char => Some (- zoneOffset, rest)
      | _ => None
      end
  | _ => None
  end.

(** The year has four characters, the first of which is a digit. *)
Definition parseYear (s : list ascii) : option (Z * list ascii) :=
  match s with
  | c1 :: c2 :: c3 :: c4 :: rest =>
      _ ← decDigit c1;
      year ← timeAtoi [c1; c2; c3; c4];
      Some (year, rest)
  | _ => None
  end.

(** [time.Parse(time.RFC3339, s)]. *)
Definition parseRFC3339 (s : list ascii) : option (Z * Z) :=
  '(year, s) ← parseYear s; s ← skipChar "-" s;
  '(month, s) ← getnum s true; _ ← inRange 1 12 month; s ← skipChar "-" s;
  '(day, s) ← getnum s true; s ← skipChar "T" s;
  '(hour, s) ← getnum s false; _ ← inRange 0 23 hour; s ← skipChar ":" s;
  '(min, s) ← getnum s true; _ ← inRange 0 59 min; s ← skipChar ":" s;
  '(sec, s) ← getnum s true; _ ← inRange 0 59 sec;
  '(nsec, s) ← parseFraction s;
  '(zoneOffset, s) ← parseZone s;
  _ ← (if decide (s = []) then Some tt else None);
  _ ← inRange 1 (daysIn month year) day;
  let t := dateUTC year month day hour min sec nsec in
  Some (fst t - zoneOffset, snd t).

(** ** Texts written in the layout *)

Definition two (n : Z) : list ascii := [digit_char (n / 10); digit_char (n mod 10)].
Definition four (n : Z) : list ascii := two (n / 100) ++ two (n mod 100).

Inductive Zone := UTC | Offset (ahead : bool) (hr mm : Z).

Definition zoneText (z : Zone) : list ascii :=
  match z with
  | UTC => ["Z"%char]
  | Offset ahead hr mm => (if ahead then "+"%char else "-"%char) :: two hr ++ ":"%char :: two mm
  end.

Definition zoneSeconds (z : Zone) : Z :=
  match z with
  | UTC => 0
  | Offset ahead hr mm => (if ahead then 1 else -1) * ((hr * 60 + mm) * 60)
  end.

Definition zoneOk (z : Zone) : Prop := match z with UTC => True | Offset _ hr mm => 0 <= hr < 100 /\ 0 <= mm < 100 end.

Definition formatRFC3339 (year month day hour min sec : Z) (z : Zone) : list ascii :=
  four year ++ "-"%char :: two month ++ "-"%char :: two day ++ "T"%char :: two hour ++ ":"%char :: two min ++ ":"%char :: two sec ++ zoneText z.

Lemma decDigit_char d : 0 <= d < 10 -> decDigit (digit_char d) = Some d.
Proof.
  intros Hd. unfold decDigit. destruct (digit_char_spec d) as [-> _]; [lia|]. simpl. by rewrite (proj2 (Z.ltb_lt d 10)) by lia.
Qed.

Lemma digits_of n : 0 <= n < 100 -> 0 <= n / 10 < 10 /\ 0 <= n mod 10 < 10 /\ 10 * (n / 10) + n mod 10 = n.
Proof. intros. Z.to_euclidean_division_equations; lia. Qed.

Lemma getnum_two n s fixed : 0 <= n < 100 -> getnum (two n ++ s) fixed = Some (n, s).
Proof.
  intros (H1 & H2 & H3)%digits_of. unfold getnum, two. cbn [app].
  rewrite !decDigit_char by done. cbn [mbind option_bind]. by rewrite H3.
Qed.

Lemma timeAtoi_digit d s : 0 <= d < 10 -> timeAtoi (digit_char d :: s) = decNumber 0 (digit_char d :: s).
Proof.
  intros Hd. destruct (digit_char_spec d) as (_ & _ & Hm & Hp); [lia|]. unfold timeAtoi.
  destruct (digit_char d) as [[] [] [] [] [] [] [] []]; done.
Qed.

Lemma decNumber_two acc n s : 0 <= n < 100 -> decNumber acc (two n ++ s) = decNumber (100 * acc + n) s.
Proof.
  intros (H1 & H2 & H3)%digits_of. unfold two. cbn [app decNumber].
  rewrite decDigit_char by done. cbn [mbind option_bind]. rewrite decDigit_char by done. cbn [mbind option_bind]. f_equal. lia.
Qed.

Lemma timeAtoi_two n : 0 <= n < 100 -> timeAtoi (two n) = Some n.
Proof.
  intros Hn. destruct (digits_of n Hn) as (H1 & _ & _). unfold two at 1. rewrite timeAtoi_digit by done.
  fold (two n). rewrite <- (app_nil_r (two n)), decNumber_two by done. done.
Qed.

Lemma parseYear_four n s : 0 <= n < 10000 -> parseYear (four n ++ s) = Some (n, s).
Proof.
  intros Hn. assert (0 <= n / 100 < 100 /\ 0 <= n mod 100 < 100 /\ 100 * (n / 100) + n mod 100 = n) as (H1 & H2 & H3)
    by (Z.to_euclidean_division_equations; lia).
  destruct (digits_of _ H1) as (D1 & _ & _). unfold four, parseYear, two at 1 2. cbn [app].
  rewrite decDigit_char by done. cbn [mbind option_bind]. rewrite timeAtoi_digit by done.
  change [digit_char (n / 100 / 10); digit_char ((n / 100) mod 10); digit_char ((n mod 100) / 10); digit_char ((n mod 100) mod 10)]
    with (two (n / 100) ++ two (n mod 100)).
  rewrite decNumber_two by done. rewrite <- (app_nil_r (two (n mod 100))), decNumber_two by done. simpl. do 2 f_equal. lia.
Qed.

Lemma parseZone_text z : zoneOk z -> parseZone (zoneText z) = Some (zoneSeconds z, []).
Proof.
  destruct z as [|ahead hr mm]; [done|]. intros [H1 H2]. unfold zoneText, zoneSeconds.
  pose proof (timeAtoi_two hr H1) as E1. pose proof (timeAtoi_two mm H2) as E2.
  unfold two in *. destruct ahead; cbn [app parseZone]; rewrite E1; cbn [mbind option_bind]; rewrite E2; cbn [mbind option_bind];
    do 2 f_equal; lia.
Qed.

Lemma parseFraction_zone z s : parseFraction (zoneText z ++ s) = Some (0, zoneText z ++ s).
Proof. by destruct z as [|[] hr mm]. Qed.

Lemma inRange_Some lo hi x : lo <= x <= hi -> inRange lo hi x = Some tt.
Proof. intros H. unfold inRange. by rewrite !(proj2 (Z.leb_le _ _)) by lia. Qed.

Lemma skipChar_same c s : skipChar c (c :: s) = Some s.
Proof. unfold skipChar. by rewrite Ascii.eqb_refl. Qed.

Lemma daysIn_bound month year : daysIn month year <= 31.
Proof. unfold daysIn. repeat case_match; lia. Qed.

Ltac parse_step :=
  cbn [mbind option_bind];
  first [rewrite parseYear_four by lia | rewrite skipChar_same | rewrite getnum_two by lia | rewrite inRange_Some by lia].

(** A text in the layout is read as its instant. *)
Lemma parse_format year month day hour min sec z :
  0 <= year < 10000 -> 1 <= month <= 12 -> 1 <= day <= daysIn month year -> 0 <= hour < 24 -> 0 <= min < 60 -> 0 <= sec < 60 ->
  zoneOk z ->
  parseRFC3339 (formatRFC3339 year month day hour min sec z) =
  Some (daysSince year month day * 86400 + hour * 3600 + min * 60 + sec - zoneSeconds z, 0).
Proof.
  intros Hy Hm Hd Hh Hmi Hs Hz. pose proof (daysIn_bound month year).
  unfold parseRFC3339, formatRFC3339. repeat parse_step. cbn [mbind option_bind].
  rewrite <- (app_nil_r (zoneText z)), parseFraction_zone, app_nil_r. cbn [mbind option_bind].
  by rewrite parseZone_text by done.
Qed.

(** The days are counted as the calendar goes on: the first of a month is the day after the
    last of the month before. *)
Lemma daysSince_month year month : 1 <= month < 12 ->
  daysSince year (month + 1) 1 = daysSince year month (daysIn month year) + 1.
Proof.
  intros Hm. unfold daysSince, daysBefore, daysIn.
  assert (month = 1 \/ month = 2 \/ month = 3 \/ month = 4 \/ month = 5 \/ month = 6 \/ month = 7 \/ month = 8 \/
    month = 9 \/ month = 10 \/ month = 11) as Hc by lia.
  generalize ((year - 1) / 4), ((year - 1) / 100), ((year - 1) / 400). intros d1 d2 d3.
  destruct_or! Hc; subst; destruct (isLeap year); simpl; lia.
Qed.

Lemma daysSince_year year : daysSince (year + 1) 1 1 = daysSince year 12 31 + 1.
Proof.
  unfold daysSince, daysBefore, isLeap. simpl. rewrite !Z.add_simpl_r.
  destruct (Z.eqb_spec (year mod 4) 0), (Z.eqb_spec (year mod 100) 0), (Z.eqb_spec (year mod 400) 0); simpl;
    Z.to_euclidean_division_equations; lia.
Qed.

(** ** Comparing texts without regard to case *)

Definition RuneError : Z := 65533.

Definition inBytes (lo hi b : Z) : bool := (lo <=? b) && (b <=? hi).

(** [utf8.DecodeRuneInString] of a text that starts with a byte that is not ASCII: the
    rune, and what follows it.  A sequence that is not valid is one byte long. *)
Definition decodeRune (b0 : Z) (s : list Z) : Z * list Z :=
  let invalid := (RuneError, s) in
  if inBytes 194 223 b0 then
    match s with
    | b1 :: s1 => if inBytes 128 191 b1 then ((b0 - 192) * 64 + (b1 - 128), s1) else invalid
    | _ => invalid
    end
  else if inBytes 224 239 b0 then
    match s with
    | b1 :: b2 :: s2 =>
        if inBytes (if b0 =? 224 then 160 else 128) (if b0 =? 237 then 159 else 191) b1 && inBytes 128 191 b2
        then ((b0 - 224) * 4096 + (b1 - 128) * 64 + (b2 - 128), s2) else invalid
    | _ => invalid
    end
  else if inBytes 240 244 b0 then
    match s with
    | b1 :: b2 :: b3 :: s3 =>
        if inBytes (if b0 =? 240 then 144 else 128) (if b0 =? 244 then 143 else 191) b1 && inBytes 128 191 b2 && inBytes 128 191 b3
        then ((b0 - 240) * 262144 + (b1 - 128) * 4096 + (b2 - 128) * 64 + (b3 - 128), s3) else invalid
    | _ => invalid
    end
  else invalid.

(** The runes of a text; a rune takes a byte or more. *)
Fixpoint runes (fuel : nat) (s : list Z) : list Z :=
  match fuel, s with
  | S fuel, b :: s =>
      if b <? 128 then b :: runes fuel s
      else let '(r, rest) := decodeRune b s in r :: runes fuel rest
  | _, _ => []
  end.

(** The next rune of the case folding, going around. *)
Class Unicode := { SimpleFold : Z -> Z }.
Class UnicodeLaws `{Unicode} := { SimpleFold_orbit r : exists i, (1 <= i <= 4)%nat /\ Nat.iter i SimpleFold r = r }.

Section fold.
Context {U : Unicode}.

Fixpoint foldLoop (fuel : nat) (sr tr r : Z) : Z :=
  match fuel with
  | O => r
  | S fuel => if negb (r =? sr) && (r <? tr) then foldLoop fuel sr tr (SimpleFold r) else r
  end.

Definition sameFold (sr tr : Z) : bool :=
  if tr =? sr then true
  else
    let '(sr, tr) := if tr <? sr then (tr, sr) else (sr, tr) in
    if tr <? 128 then inBytes 65 90 sr && (tr =? sr + 32)
    else foldLoop 4 sr tr (SimpleFold sr) =? tr.

Fixpoint equalRunes (s t : list Z) : bool :=
  match s, t with
  | sr :: s, tr :: t => sameFold sr tr && equalRunes s t
  | [], [] => true
  | _, _ => false
  end.

(** [strings.EqualFold]. *)
Definition EqualFold (s t : string) : bool :=
  let rs s := runes (String.length s) (stringBytes s) in equalRunes (rs s) (rs t).

Lemma runes_fuel fuel fuel' s : (length s <= fuel)%nat -> (length s <= fuel')%nat -> runes fuel s = runes fuel' s.
Proof.
  revert fuel' s. induction fuel as [|fuel IH]; intros [|fuel'] [|b s] H H'; simpl in *; try lia; try done.
  destruct (b <? 128); [f_equal; apply IH; lia|].
  assert (length (decodeRune b s).2 <= length s)%nat as Hl.
  { unfold decodeRune. repeat case_match; simpl; lia. }
  destruct (decodeRune b s) as [r rest]. simpl in Hl. f_equal. apply IH; lia.
Qed.

(** The fuel of the loop is enough when a folding has at most four runes. *)
Lemma foldLoop_enough `{!UnicodeLaws} sr tr fuel : (4 <= fuel)%nat ->
  foldLoop fuel sr tr (SimpleFold sr) = foldLoop 4 sr tr (SimpleFold sr).
Proof.
  assert (forall k r f f', Nat.iter k SimpleFold r = sr -> (k < f)%nat -> (k < f')%nat -> foldLoop f sr tr r = foldLoop f' sr tr r) as Henough.
  { induction k as [|k IH]; intros r [|f] [|f'] Hk Hf Hf'; try lia; cbn [foldLoop].
    - simpl in Hk. by rewrite Hk, Z.eqb_refl.
    - destruct (_ && _); [|done]. apply IH; [by rewrite Nat.iter_succ_r in Hk|lia..]. }
  intros Hf. destruct (SimpleFold_orbit sr) as ([|i] & Hi & E); [lia|]. rewrite Nat.iter_succ_r in E.
  apply (Henough i); [done|lia..].
Qed.

(** For texts of ASCII the comparison is that of their lower cases. *)
Definition lower (b : Z) : Z := if inBytes 65 90 b then b + 32 else b.

Definition ascii_text (s : string) : Prop := Forall (fun b => 0 <= b < 128) (stringBytes s).

Lemma sameFold_ascii sr tr : 0 <= sr < 128 -> 0 <= tr < 128 -> sameFold sr tr = bool_decide (lower sr = lower tr).
Proof.
  intros Hs Ht. unfold sameFold, lower, inBytes.
  destruct (Z.eqb_spec tr sr) as [->|Hne]; [by rewrite bool_decide_true|].
  destruct (Z.ltb_spec tr sr); rewrite (proj2 (Z.ltb_lt _ 128)) by lia;
    repeat match goal with |- context [?x <=? ?y] => destruct (Z.leb_spec x y) end; simpl;
    case_bool_decide; try (apply Z.eqb_eq; lia); try (apply Z.eqb_neq; lia); try done; lia.
Qed.

Lemma runes_ascii s fuel : Forall (fun b => 0 <= b < 128) s -> (length s <= fuel)%nat -> runes fuel s = s.
Proof.
  intros Hs. revert fuel. induction Hs as [|b s Hb _ IH]; intros [|fuel] Hf; simpl in *; try lia; try done.
  rewrite (proj2 (Z.ltb_lt b 128)) by lia. by rewrite IH by lia.
Qed.

Lemma EqualFold_ascii s t : ascii_text s -> ascii_text t ->
  EqualFold s t = bool_decide (lower <$> stringBytes s = lower <$> stringBytes t).
Proof.
  intros Hs Ht. unfold EqualFold.
  assert (forall s, length (stringBytes s) = String.length s) as Hl.
  { intros u. unfold stringBytes, chars. rewrite length_fmap. induction u; simpl; congruence. }
  rewrite !runes_ascii by (done || by rewrite Hl). clear Hl. revert Hs Ht. unfold ascii_text.
  generalize (stringBytes s), (stringBytes t). clear s t. intros l. induction l as [|sr l IH]; intros [|tr l'] Hs Ht; try done.
  inversion_clear Hs as [|? ? H1 Hs']. inversion_clear Ht as [|? ? H2 Ht'].
  cbn [equalRunes]. rewrite sameFold_ascii, IH by done. rewrite !fmap_cons.
  destruct (bool_decide_reflect (lower sr = lower tr)) as [E1|E1], (bool_decide_reflect (lower <$> l = lower <$> l')) as [E2|E2];
    symmetry; cbn [andb]; rewrite ?bool_decide_eq_true, ?bool_decide_eq_false; congruence.
Qed.

End fold.
