(* ===== verification/SocialAuth.v ===== *)
(** The verifiers of the Discord and Reddit identities (src/auth/discord_verifier.go and
    reddit_verifier.go), which ask the provider with the user's token in a header, and the
    verifier of the demonstrations (demo_verifier.go). *)
From Stdlib Require Import ZArith.
From stdpp Require Import gmap strings.
From S2P Require Import Prelude BigInt Curve Effects Dealer GoTime Auth AuthProps DateTime.

(** ** Data *)

Record DiscordAuthResponse := mkDiscordAuthResponse { daApplicationID : string; daUserID : string; daExpires : string }.
Record DiscordVerifierParams := mkDiscordVerifierParams { dpIDToken : string; dpVerifierID : string }.

Record RedditAuthResponse := mkRedditAuthResponse { raName : string; raOAuthClientID : string }.
Record RedditVerifierParams := mkRedditVerifierParams { rpIDToken : string; rpVerifierID : string }.

Record DemoVerifierParams := mkDemoVerifierParams { mpIndex : Z; mpIDToken : string; mpEmail : string }.

Class SocialCodecs := {
  codec_discord_params :: Codec DiscordVerifierParams;
  codec_discord_response :: Codec DiscordAuthResponse;
  codec_reddit_params :: Codec RedditVerifierParams;
  codec_reddit_response :: Codec RedditAuthResponse;
  codec_demo_params :: Codec DemoVerifierParams;
}.

Section social.
Context {WB : Web} {CF : AuthConfig} {SC : SocialCodecs} {U : Unicode}.

(** ** Discord *)

Definition Day : Z := 24 * 60 * Minute.

Definition discordHeaders (IDToken : string) : list (string * string) :=
  [("User-Agent", "DiscordBot (https://app.tor.us/, v0.1.2)"); ("Authorization", "Bearer " ++ IDToken)]%string.

(** The token was signed seven days before it expires. *)
Definition Discord_VerifyRequestIdentity (Timeout : Z) (now : Z * Z) (rawPayload : list Z) : res (bool * string) :=
  p ← unmarshalMsg (A := DiscordVerifierParams) rawPayload;
  body ← httpDo "https://discordapp.com/api/oauth2/@me" (discordHeaders (dpIDToken p));
  r ← unmarshalMsg (A := DiscordAuthResponse) body;
  timeExpires ← match parseRFC3339 (chars (daExpires r)) with Some t => Ok t | None => Err "parsing time" end;
  let timeSigned := timeAdd timeExpires (- (7 * Day)) in
  _ ← ensure (negb (timeBefore (timeAdd timeSigned Timeout) now)) "timesigned is more than 60 seconds ago";
  _ ← ensure (dpVerifierID p =? daUserID r)%string "IDs do not match";
  _ ← ensure (GetS "DiscordClientID" =? daApplicationID r)%string "ClientIDs do not match";
  Ok (true, dpVerifierID p).

Definition DiscordVerifier (Timeout : Z) : Verifier :=
  mkVerifier "discord" TrimSpaces (Discord_VerifyRequestIdentity Timeout).

Definition NewDiscordVerifier : Verifier := DiscordVerifier (60 * Second).

(** ** Reddit *)

Definition redditHeaders (IDToken : string) : list (string * string) :=
  [("User-Agent", "linux:torus:v0.0.1 (by /u/reddit)"); ("Host", "reddit.com"); ("Authorization", "Bearer " ++ IDToken)]%string.

Definition Reddit_VerifyRequestIdentity (now : Z * Z) (rawPayload : list Z) : res (bool * string) :=
  p ← unmarshalMsg (A := RedditVerifierParams) rawPayload;
  body ← httpDo "https://oauth.reddit.com/api/v1/me" (redditHeaders (rpIDToken p));
  r ← unmarshalMsg (A := RedditAuthResponse) body;
  _ ← ensure (EqualFold (rpVerifierID p) (raName r)) "Ids do not match";
  _ ← ensure (GetS "RedditClientID" =? raOAuthClientID r)%string "OAuth Client IDs do not match";
  Ok (true, rpVerifierID p).

Definition NewRedditVerifier : Verifier := mkVerifier "reddit" TrimSpaces Reddit_VerifyRequestIdentity.

(** ** The demonstration *)

(** A store that is not made panics when it is written. *)
Record DemoVerifier := mkDemoVerifier { ExpectedKey : string; Store : option (gmap string bool) }.

Definition Demo_VerifyRequestIdentity (v : DemoVerifier) (jsonToken : list Z) : DemoVerifier * res (bool * string) :=
  match Unmarshal (A := DemoVerifierParams) jsonToken with
  | None => (v, Err errBijson)
  | Some p =>
      let IDToken := TrimSpaces (mpIDToken p) in
      if negb (IDToken =? ExpectedKey v)%string then (v, Err "invalid idtoken")
      else
        match Store v with
        | Some m => (mkDemoVerifier (ExpectedKey v) (Some (<[IDToken := true]> m)), Ok (true, mpEmail p))
        | None => (v, Panic)
        end
  end.

(** ** What they accept *)

(** A Discord identity is the one the provider names for the token, of an application of
    the configured id, when the token was signed less than the timeout ago. *)
Lemma discord_accepts Timeout now raw b id : Discord_VerifyRequestIdentity Timeout now raw = Ok (b, id) <->
  b = true /\ exists token body app expires t,
    Unmarshal raw = Some (mkDiscordVerifierParams token id) /\
    httpDo "https://discordapp.com/api/oauth2/@me" (discordHeaders token) = Ok body /\
    Unmarshal body = Some (mkDiscordAuthResponse app id expires) /\
    parseRFC3339 (chars expires) = Some t /\
    timeBefore (timeAdd (timeAdd t (- (7 * Day))) Timeout) now = false /\ app = GetS "DiscordClientID".
Proof.
  unfold Discord_VerifyRequestIdentity. split.
  - intros ([token id'] & Hp%unmarshalMsg_Ok & H)%bind_Ok. apply bind_Ok in H as (body & Hb & H).
    apply bind_Ok in H as ([app user expires] & Hr%unmarshalMsg_Ok & H). cbn in *.
    apply bind_Ok in H as (t & Ht & H). destruct (parseRFC3339 _) as [t'|] eqn:Et; [|done]. injection Ht as ->.
    apply bind_Ok in H as (u1 & H1%ensure_Ok & H). apply bind_Ok in H as (u2 & H2%ensure_Ok & H).
    apply bind_Ok in H as (u3 & H3%ensure_Ok & H). apply String.eqb_eq in H2, H3. apply negb_true_iff in H1. subst.
    injection H as <- <-. split; [done|]. by exists token, body, (GetS "DiscordClientID"), expires, t.
  - intros (-> & token & body & app & expires & t & Hp & Hb & Hr & Ht & H1 & ->).
    apply unmarshalMsg_Ok in Hp, Hr. rewrite Hp. simpl. rewrite Hb. simpl. rewrite Hr. simpl. rewrite Ht. simpl.
    rewrite H1. simpl. by rewrite !String.eqb_refl.
Qed.

(** A token that expires at an instant is taken until the timeout after the instant seven
    days before. *)
Lemma discord_age t Timeout now : clockTime t -> clockTime now -> 0 <= Timeout < 2 ^ 62 ->
  - 2 ^ 61 <= fst t <= 2 ^ 61 ->
  timeBefore (timeAdd (timeAdd t (- (7 * Day))) Timeout) now = (nanos t - 7 * Day + Timeout <? nanos now).
Proof.
  intros Ht Hn HT Hb. destruct (timeAdd_nanos t (- (7 * Day)) Ht) as [E Hs]; [done|].
  rewrite timeAdd_before; [by rewrite E| |done|lia]. split; [|done].
  unfold nanos, Second, Day, Minute, Second in *. destruct Ht as [_ Ht]. unfold Second in Ht. lia.
Qed.

(** A Reddit identity is any spelling of the name the provider has for the token. *)
Lemma reddit_accepts now raw b id : Reddit_VerifyRequestIdentity now raw = Ok (b, id) <->
  b = true /\ exists token body name,
    Unmarshal raw = Some (mkRedditVerifierParams token id) /\
    httpDo "https://oauth.reddit.com/api/v1/me" (redditHeaders token) = Ok body /\
    Unmarshal body = Some (mkRedditAuthResponse name (GetS "RedditClientID")) /\ EqualFold id name = true.
Proof.
  unfold Reddit_VerifyRequestIdentity. split.
  - intros ([token id'] & Hp%unmarshalMsg_Ok & H)%bind_Ok. apply bind_Ok in H as (body & Hb & H).
    apply bind_Ok in H as ([name client] & Hr%unmarshalMsg_Ok & H). cbn in *.
    apply bind_Ok in H as (u1 & H1%ensure_Ok & H). apply bind_Ok in H as (u2 & H2%ensure_Ok & H).
    apply String.eqb_eq in H2. subst. injection H as <- <-. split; [done|]. by exists token, body, name.
  - intros (-> & token & body & name & Hp & Hb & Hr & H1). apply unmarshalMsg_Ok in Hp, Hr.
    rewrite Hp. simpl. rewrite Hb. simpl. rewrite Hr. simpl. rewrite H1. simpl. by rewrite String.eqb_refl.
Qed.

End social.

(** The service has all six verifiers under their own names. *)
Lemma social_registered `{TorusCrypto, Web, AuthConfig, AuthCodecs, SocialCodecs, Unicode} IsDebug :
  let tgv := VerifierService_OnStart IsDebug NewDiscordVerifier NewRedditVerifier in
  Lookup tgv "discord" = Ok NewDiscordVerifier /\ Lookup tgv "reddit" = Ok NewRedditVerifier.
Proof. by destruct IsDebug. Qed.

Example discord_expiry : parseRFC3339 (chars "2020-03-01T09:30:00.25+00:00") = Some (63718651800, 250000000) /\
  parseRFC3339 (chars "2020-02-30T09:30:00Z") = None /\ parseRFC3339 (chars "2020-03-01 09:30:00Z") = None.
Proof. split_and!; vm_compute; reflexivity. Qed.
