(* ===== verification/Cache.v ===== *)
(** The cache of token commitments and of signer signatures (src/dkgnode/cache.go):
    which temporary key a user committed to a token with, for ninety minutes.

    go-cache is a parameter: a map whose entries expire.  The clock is an
    argument, in nanoseconds. *)
From Stdlib Require Import ZArith.
From stdpp Require Import gmap strings.
From S2P Require Import Prelude Curve Effects GoTime.

(** ** Parameters *)

(** [New], [Get], [Set] and [Add] of go-cache, at the time of the call.  [Add]
    fails when the key is there. *)
Class GoCache := {
  cache : Type -> Type;
  cacheNew : forall V, cache V;
  cacheGet : forall V, Z -> cache V -> string -> option V;
  cacheSet : forall V, Z -> cache V -> string -> V -> Z -> cache V;
  cacheAdd : forall V, Z -> cache V -> string -> V -> Z -> res (cache V);
}.
Arguments cacheNew {_} {V}.
Arguments cacheGet {_} {V} _ _ _.
Arguments cacheSet {_} {V} _ _ _ _ _.
Arguments cacheAdd {_} {V} _ _ _ _ _.

(** What a positive duration means: the entry is found until then and not after. *)
Class GoCacheLaws `{GoCache} := {
  cacheGet_new V now k : cacheGet now (cacheNew : cache V) k = None;
  cacheGet_set V now t (c : cache V) k v d k' :
    0 < d ->
    cacheGet now (cacheSet t c k v d) k' =
      if decide (k = k') then (if t + d <? now then None else Some v) else cacheGet now c k';
  cacheAdd_set V t (c : cache V) k v d :
    cacheAdd t c k v d =
      match cacheGet t c k with
      | Some _ => Err "Item already exists"
      | None => Ok (cacheSet t c k v d)
      end;
}.

(** ** The service *)

Record TokenCommitmentData := mkTokenCommitmentData { tcExists : bool; tcPubKey : Point }.

Section cache.
Context {GC : GoCache}.

Record CacheService := mkCacheService {
  tokenCache : gmap string (cache TokenCommitmentData);
  signerCache : cache bool;
}.

Definition CacheService_OnStart : CacheService := mkCacheService ∅ cacheNew.

Definition signerSigExists (now : Z) (c : CacheService) (signature : string) : bool :=
  match cacheGet now (signerCache c) signature with Some _ => true | None => false end.

Definition recordSignerSig (now : Z) (c : CacheService) (signature : string) : CacheService * option string :=
  match cacheAdd now (signerCache c) signature true Minute with
  | Ok s => (mkCacheService (tokenCache c) s, None)
  | Err e => (c, Some e)
  | Panic => (c, None)
  end.

(** Every token call makes the verifier's cache when it is not there. *)
Definition verifierCache (c : CacheService) (verifier : string) : CacheService * cache TokenCommitmentData :=
  match tokenCache c !! verifier with
  | Some v => (c, v)
  | None => (mkCacheService (<[verifier := cacheNew]> (tokenCache c)) (signerCache c), cacheNew)
  end.

Definition tokenCommitExists (now : Z) (c : CacheService) (verifier tokenCommitment : string)
    : CacheService * bool :=
  let '(c, v) := verifierCache c verifier in
  (c, match cacheGet now v tokenCommitment with Some _ => true | None => false end).

Definition getTokenCommitKey (now : Z) (c : CacheService) (verifier tokenCommitment : string)
    : CacheService * Point :=
  let '(c, v) := verifierCache c verifier in
  (c, match cacheGet now v tokenCommitment with Some d => tcPubKey d | None => PointO end).

Definition recordTokenCommit (now : Z) (c : CacheService) (verifier tokenCommitment : string) (pubKey : Point)
    : CacheService :=
  let '(c, v) := verifierCache c verifier in
  mkCacheService
    (<[verifier := cacheSet now v tokenCommitment (mkTokenCommitmentData true pubKey) (90 * Minute)]> (tokenCache c))
    (signerCache c).

(** ** What the cache remembers *)

(** The key that is remembered for a commitment at a verifier. *)
Definition commitKey (now : Z) (c : CacheService) (verifier tokenCommitment : string) : option Point :=
  v ← tokenCache c !! verifier; tcPubKey <$> cacheGet now v tokenCommitment.

Context {GL : GoCacheLaws}.

Lemma commitKey_start now verifier k : commitKey now CacheService_OnStart verifier k = None.
Proof. done. Qed.

Lemma verifierCache_get now c verifier k :
  cacheGet now (snd (verifierCache c verifier)) k =
    (v ← tokenCache c !! verifier; cacheGet now v k).
Proof.
  unfold verifierCache. destruct (tokenCache c !! verifier); [done|]. simpl. apply cacheGet_new.
Qed.

Lemma commitKey_verifierCache now c verifier verifier' k :
  commitKey now (fst (verifierCache c verifier)) verifier' k = commitKey now c verifier' k.
Proof.
  unfold commitKey, verifierCache. destruct (tokenCache c !! verifier) as [v|] eqn:E; [done|]. simpl.
  destruct (decide (verifier = verifier')) as [<-|Hne].
  - rewrite lookup_insert_eq, E. simpl. by rewrite cacheGet_new.
  - by rewrite lookup_insert_ne.
Qed.

Lemma tokenCommitExists_key now c verifier k :
  snd (tokenCommitExists now c verifier k) = bool_decide (is_Some (commitKey now c verifier k)).
Proof.
  unfold tokenCommitExists. pose proof (verifierCache_get now c verifier k) as E.
  destruct (verifierCache c verifier) as [c' v]. simpl in *. rewrite E. unfold commitKey.
  destruct (tokenCache c !! verifier) as [v'|]; [|done]. simpl. by destruct (cacheGet now v' k).
Qed.

Lemma tokenCommitExists_cache now now' c verifier k verifier' k' :
  commitKey now' (fst (tokenCommitExists now c verifier k)) verifier' k' = commitKey now' c verifier' k'.
Proof.
  unfold tokenCommitExists. pose proof (commitKey_verifierCache now' c verifier verifier' k') as E.
  by destruct (verifierCache c verifier).
Qed.

Lemma getTokenCommitKey_key now c verifier k :
  snd (getTokenCommitKey now c verifier k) = default PointO (commitKey now c verifier k).
Proof.
  unfold getTokenCommitKey. pose proof (verifierCache_get now c verifier k) as E.
  destruct (verifierCache c verifier) as [c' v]. simpl in *. rewrite E. unfold commitKey.
  destruct (tokenCache c !! verifier) as [v'|]; [|done]. simpl. by destruct (cacheGet now v' k).
Qed.

Lemma getTokenCommitKey_cache now now' c verifier k verifier' k' :
  commitKey now' (fst (getTokenCommitKey now c verifier k)) verifier' k' = commitKey now' c verifier' k'.
Proof.
  unfold getTokenCommitKey. pose proof (commitKey_verifierCache now' c verifier verifier' k') as E.
  by destruct (verifierCache c verifier).
Qed.

(** A recorded key is remembered for ninety minutes, and no other entry changes. *)
Lemma recordTokenCommit_key now t c verifier k P verifier' k' :
  commitKey now (recordTokenCommit t c verifier k P) verifier' k' =
    if decide (verifier = verifier' /\ k = k')
    then (if t + 90 * Minute <? now then None else Some P)
    else commitKey now c verifier' k'.
Proof.
  unfold recordTokenCommit. pose proof (verifierCache_get now c verifier) as Eg.
  pose proof (commitKey_verifierCache now c verifier verifier' k') as Ec.
  destruct (verifierCache c verifier) as [c' v]. unfold commitKey in *. simpl in *.
  destruct (decide (verifier = verifier')) as [<-|Hne].
  - rewrite lookup_insert_eq. simpl. rewrite cacheGet_set by done. destruct (decide (k = k')) as [<-|Hk].
    + rewrite decide_True by done. by destruct (_ <? now).
    + rewrite decide_False by (by intros []). rewrite Eg. by destruct (tokenCache c !! verifier).
  - rewrite lookup_insert_ne by done. rewrite decide_False by (by intros []). exact Ec.
Qed.

End cache.
