(* ===== verification/Base64.v ===== *)
(** Package encoding/base64: the standard encoding with padding, and its decoder, which
    skips line ends and does not look at the bits that the last bytes leave over. *)
From Stdlib Require Import ZArith.
From stdpp Require Import gmap strings.
From S2P Require Import Prelude BigInt.

(** ** Digits *)

Definition digit64 (d : Z) : ascii :=
  ascii_of_N (Z.to_N (
    if d <? 26 then 65 + d else if d <? 52 then 97 + (d - 26) else if d <? 62 then 48 + (d - 52) else if d =? 62 then 43 else 47)).

Definition value64 (c : ascii) : option Z :=
  let n := Z.of_N (N_of_ascii c) in
  if (65 <=? n) && (n <=? 90) then Some (n - 65)
  else if (97 <=? n) && (n <=? 122) then Some (n - 97 + 26)
  else if (48 <=? n) && (n <=? 57) then Some (n - 48 + 52)
  else if n =? 43 then Some 62 else if n =? 47 then Some 63 else None.

Definition padding : ascii := "="%char.

(** ** [EncodeToString] *)

Fixpoint encode64 (bs : list Z) : list ascii :=
  match bs with
  | [] => []
  | [a] => [digit64 (a / 4); digit64 (a mod 4 * 16); padding; padding]
  | [a; b] => [digit64 (a / 4); digit64 (a mod 4 * 16 + b / 16); digit64 (b mod 16 * 4); padding]
  | a :: b :: c :: bs =>
      digit64 (a / 4) :: digit64 (a mod 4 * 16 + b / 16) :: digit64 (b mod 16 * 4 + c / 64) :: digit64 (c mod 64) :: encode64 bs
  end.

Definition EncodeToString (bs : list Z) : string := unchars (encode64 bs).

(** ** [DecodeString] *)

Fixpoint decode64 (cs : list ascii) : option (list Z) :=
  match cs with
  | [] => Some []
  | a :: b :: c :: d :: rest =>
      x ← value64 a; y ← value64 b;
      match value64 c, value64 d with
      | Some z, Some u => l ← decode64 rest; Some (x * 4 + y / 16 :: y mod 16 * 16 + z / 4 :: z mod 4 * 64 + u :: l)
      | Some z, None => if decide (d = padding /\ rest = []) then Some [x * 4 + y / 16; y mod 16 * 16 + z / 4] else None
      | None, _ => if decide (c = padding /\ d = padding /\ rest = []) then Some [x * 4 + y / 16] else None
      end
  | _ => None
  end.

Definition lineEnd (c : ascii) : Prop := c = "010"%char \/ c = "013"%char.
#[global] Instance lineEnd_dec c : Decision (lineEnd c).
Proof. unfold lineEnd. apply _. Defined.

Definition DecodeString (s : string) : option (list Z) := decode64 (filter (fun c => ~ lineEnd c) (chars s)).

(** ** Round trip *)

Definition byte (b : Z) : Prop := 0 <= b < 256.

Lemma value64_digit64 d : 0 <= d < 64 -> value64 (digit64 d) = Some d.
Proof.
  intros Hd. assert (d ∈ seqZ 0 64) as H by (apply elem_of_seqZ; lia).
  assert (forallb (fun d => bool_decide (value64 (digit64 d) = Some d)) (seqZ 0 64) = true) as HF by (vm_compute; reflexivity).
  rewrite forallb_forall in HF. by apply list_elem_of_In, HF, bool_decide_eq_true in H.
Qed.

Lemma digit64_no_lineEnd d : 0 <= d < 64 -> ~ lineEnd (digit64 d).
Proof.
  intros Hd. assert (d ∈ seqZ 0 64) as H by (apply elem_of_seqZ; lia). revert H.
  assert (Forall (fun d => ~ lineEnd (digit64 d)) (seqZ 0 64)) as HF by (apply (bool_decide_unpack _); vm_compute; done).
  by apply (proj1 (list.Forall_forall _ _) HF).
Qed.

Lemma split_byte b n : byte b -> 0 < n -> (n | 256) -> 0 <= b / n < 256 / n /\ 0 <= b mod n < n.
Proof.
  intros Hb Hn [k E]. unfold byte in Hb. rewrite E. rewrite Z.div_mul by lia. split; [|by apply Z.mod_pos_bound].
  split; [apply Z.div_pos; lia|apply Z.div_lt_upper_bound; lia].
Qed.

(** The three groups of six bits of the digits in the middle. *)
Lemma groups_range a b c : byte a -> byte b -> byte c ->
  0 <= a / 4 < 64 /\ 0 <= a mod 4 * 16 + b / 16 < 64 /\ 0 <= b mod 16 * 4 + c / 64 < 64 /\ 0 <= c mod 64 < 64.
Proof.
  intros Ha Hb Hc. destruct (split_byte a 4 Ha ltac:(lia) ltac:(by exists 64)) as [A1 A2].
  destruct (split_byte b 16 Hb ltac:(lia) ltac:(by exists 16)) as [B1 B2].
  destruct (split_byte c 64 Hc ltac:(lia) ltac:(by exists 4)) as [C1 C2].
  change (256 / 4) with 64 in A1. change (256 / 16) with 16 in B1. change (256 / 64) with 4 in C1. lia.
Qed.

Lemma groups_bytes a b c : byte a -> byte b -> byte c ->
  a / 4 * 4 + (a mod 4 * 16 + b / 16) / 16 = a /\
  (a mod 4 * 16 + b / 16) mod 16 * 16 + (b mod 16 * 4 + c / 64) / 4 = b /\
  (b mod 16 * 4 + c / 64) mod 4 * 64 + c mod 64 = c.
Proof.
  unfold byte. intros Ha Hb Hc.
  pose proof (Z.div_mod a 4). pose proof (Z.div_mod b 16). pose proof (Z.div_mod c 64).
  destruct (split_byte b 16 Hb ltac:(lia) ltac:(by exists 16)) as [Hb1 _].
  destruct (split_byte c 64 Hc ltac:(lia) ltac:(by exists 4)) as [Hc1 _].
  change (256 / 16) with 16 in Hb1. change (256 / 64) with 4 in Hc1.
  rewrite !(Z.add_comm (_ * _) (_ / _)), !Z.div_add, !Z.mod_add, (Z.div_small (b / 16)), (Z.mod_small (b / 16)),
    (Z.div_small (c / 64)), (Z.mod_small (c / 64)) by lia. lia.
Qed.

Lemma decode64_encode64 bs : Forall byte bs -> decode64 (encode64 bs) = Some bs.
Proof.
  revert bs. fix IH 1. intros [|a [|b [|c bs]]] H; [done|..]; repeat (apply Forall_cons_1 in H as [? H]).
  - pose proof (groups_range a 0 0) as (R1 & R2 & _); try done. pose proof (groups_bytes a 0 0) as (E & _); try done.
    change (0 / 16) with 0 in *. rewrite Z.add_0_r in *. simpl. rewrite !value64_digit64 by done. simpl. by rewrite E.
  - pose proof (groups_range a b 0) as (R1 & R2 & R3 & _); try done. pose proof (groups_bytes a b 0) as (E1 & E2 & _); try done.
    change (0 / 64) with 0 in *. rewrite Z.add_0_r in *. simpl. rewrite !value64_digit64 by done. simpl. by rewrite E1, E2.
  - destruct (groups_range a b c) as (R1 & R2 & R3 & R4); try done. destruct (groups_bytes a b c) as (E1 & E2 & E3); try done.
    simpl. rewrite !value64_digit64 by done. simpl. rewrite IH by done. simpl. by rewrite E1, E2, E3.
Qed.

Lemma encode64_no_lineEnd bs : Forall byte bs -> Forall (fun c => ~ lineEnd c) (encode64 bs).
Proof.
  assert (~ lineEnd padding) by (apply (bool_decide_unpack _); vm_compute; done).
  revert bs. fix IH 1. intros [|a [|b [|c bs]]] H'; [constructor|..]; repeat (apply Forall_cons_1 in H' as [? H']).
  - destruct (groups_range a 0 0) as (R1 & R2 & _); try done. change (0 / 16) with 0 in *. rewrite Z.add_0_r in *.
    repeat constructor; done || by apply digit64_no_lineEnd.
  - destruct (groups_range a b 0) as (R1 & R2 & R3 & _); try done. change (0 / 64) with 0 in *. rewrite Z.add_0_r in *.
    repeat constructor; done || by apply digit64_no_lineEnd.
  - destruct (groups_range a b c) as (R1 & R2 & R3 & R4); try done.
    repeat (constructor; [by apply digit64_no_lineEnd|]). by apply IH.
Qed.

Lemma DecodeString_lines s : Forall (fun c => ~ lineEnd c) (chars s) -> DecodeString s = decode64 (chars s).
Proof.
  intros H. unfold DecodeString. f_equal. induction H as [|c cs Hc _ IH]; [done|]. by rewrite filter_cons_True, IH.
Qed.

Theorem DecodeString_EncodeToString bs : Forall byte bs -> DecodeString (EncodeToString bs) = Some bs.
Proof.
  intros H. unfold EncodeToString. rewrite DecodeString_lines; rewrite chars_unchars; [by apply decode64_encode64|].
  by apply encode64_no_lineEnd.
Qed.

(** ** Other texts of the same bytes *)

(** The last digit but the padding with its lowest bit set. *)
Fixpoint variant64 (bs : list Z) : list ascii :=
  match bs with
  | [] => []
  | [a] => [digit64 (a / 4); digit64 (a mod 4 * 16 + 1); padding; padding]
  | [a; b] => [digit64 (a / 4); digit64 (a mod 4 * 16 + b / 16); digit64 (b mod 16 * 4 + 1); padding]
  | a :: b :: c :: bs =>
      digit64 (a / 4) :: digit64 (a mod 4 * 16 + b / 16) :: digit64 (b mod 16 * 4 + c / 64) :: digit64 (c mod 64) :: variant64 bs
  end.

Lemma digit64_inj d d' : 0 <= d < 64 -> 0 <= d' < 64 -> digit64 d = digit64 d' -> d = d'.
Proof. intros H H' E. apply (f_equal value64) in E. rewrite !value64_digit64 in E by done. by injection E. Qed.

(** Bytes that do not fill their last group have a second text, without line ends. *)
Lemma variant64_spec bs : Forall byte bs -> Z.of_nat (length bs) mod 3 <> 0 ->
  variant64 bs <> encode64 bs /\ decode64 (variant64 bs) = Some bs /\ Forall (fun c => ~ lineEnd c) (variant64 bs).
Proof.
  assert (~ lineEnd padding) as Hpad by (apply (bool_decide_unpack _); vm_compute; done).
  revert bs. fix IH 1. intros [|a [|b [|c bs]]] H Hl; [done|..]; repeat (apply Forall_cons_1 in H as [? H]).
  - destruct (groups_range a 16 0) as (R1 & R2 & _); try done. destruct (groups_bytes a 16 0) as (E1 & _); try done.
    change (16 / 16) with 1 in *. simpl. split_and!.
    + intros [= E%digit64_inj]; lia.
    + rewrite !value64_digit64 by done. simpl. by rewrite E1.
    + repeat constructor; done || by apply digit64_no_lineEnd.
  - destruct (groups_range a b 64) as (R1 & R2 & R3 & _); try done. destruct (groups_bytes a b 64) as (E1 & E2 & _); try done.
    change (64 / 64) with 1 in *. simpl. split_and!.
    + intros [= E%digit64_inj]; lia.
    + rewrite !value64_digit64 by done. simpl. by rewrite E1, E2.
    + repeat constructor; done || by apply digit64_no_lineEnd.
  - destruct (groups_range a b c) as (R1 & R2 & R3 & R4); try done. destruct (groups_bytes a b c) as (E1 & E2 & E3); try done.
    destruct (IH bs) as (Hne & Hd & Hf); [done|..].
    { intros Hz. apply Hl. simpl length. rewrite !Nat2Z.inj_succ. unfold Z.succ.
      replace (Z.of_nat (length bs) + 1 + 1 + 1) with (Z.of_nat (length bs) + 1 * 3) by lia. by rewrite Z.mod_add. }
    simpl. split_and!.
    + by intros [= E].
    + rewrite !value64_digit64 by done. simpl. rewrite Hd. simpl. by rewrite E1, E2, E3.
    + repeat (constructor; [by apply digit64_no_lineEnd|]). done.
Qed.

Theorem second_text bs : Forall byte bs -> Z.of_nat (length bs) mod 3 <> 0 ->
  exists s, s <> EncodeToString bs /\ DecodeString s = Some bs /\ Forall (fun c => ~ lineEnd c) (chars s).
Proof.
  intros Hb Hl. destruct (variant64_spec bs Hb Hl) as (Hne & Hd & Hf). exists (unchars (variant64 bs)). split_and!.
  - intros E. apply (f_equal chars) in E. unfold EncodeToString in E. by rewrite !chars_unchars in E.
  - rewrite DecodeString_lines by (by rewrite chars_unchars). by rewrite chars_unchars.
  - by rewrite chars_unchars.
Qed.
