(* ===== verification/Middleware.v ===== *)
(** The HTTP middleware in front of the JSON-RPC handlers (src/dkgnode/middleware.go, with
    the router of server.go): reading the body, finding the method and checking the
    signature of the captcha on assignments of keys.

    The signature check of torus-common, the serialisation and the cache of signatures are
    parameters; the time is an argument.  Logging and telemetry are left out. *)
From Stdlib Require Import ZArith.
From stdpp Require Import gmap strings.
From S2P Require Import Prelude BigInt Field Curve Effects GoTime Cache Base64.

(** ** Parameters *)

(** The configuration, whose two numbers give the key of the captcha, and the check of
    a signature over the data and the key of the node. *)
Class CaptchaConfig := {
  JRPCAuth : bool;
  captchaPubKey : Point;
  EthPrivateKey : string;
  VerifyPtFromRawWithPubKey : list Z -> string -> string -> Point -> list Z -> bool;
}.

(** ** Data *)

Record jRPCRequest := mkJRPCRequest { jMethod : string }.

Record CustomAuthFields := mkCustomAuthFields { caTimestamp : string; caNonce : string; caSignature : list Z }.

Class MiddlewareCodecs := {
  codec_jrpc_request :: Codec jRPCRequest;
  codec_custom_auth :: Codec CustomAuthFields;
}.

(** A header that is absent is empty; a body that cannot be read is [None]. *)
Record Request := mkRequest { rqSignature : string; rqNonce : string; rqTimestamp : string; rqBody : option (list Z) }.

(** What the middleware has set on the request. *)
Record ReqContext := mkReqContext { cxBody : option (list Z); cxMethod : option string }.

Definition KeyAssignMethod : string := "KeyAssign".

(** [Silent] is the empty answer of a handler that writes nothing. *)
Inductive httpOutcome (A : Type) := Served (a : A) | Rejected401 (error : string) | Silent.
Arguments Served {A}.
Arguments Rejected401 {A}.
Arguments Silent {A}.

(** ** The deprecated fields in the body *)

(** [\s]. *)
Definition isSpace (c : Z) : bool := (c =? 9) || (c =? 10) || (c =? 12) || (c =? 13) || (c =? 32).

Fixpoint skipSpace (s : list Z) : list Z :=
  match s with
  | c :: s' => if isSpace c then skipSpace s' else s
  | [] => []
  end.

Fixpoint stripPrefix (p s : list Z) : option (list Z) :=
  match p, s with
  | [], _ => Some s
  | x :: p, y :: s => if x =? y then stripPrefix p s else None
  | _, [] => None
  end.

Definition quote : Z := 34.

(** [.*?] up to the next quotation mark of the line. *)
Fixpoint skipString (s : list Z) : option (list Z) :=
  match s with
  | [] => None
  | c :: s => if c =? quote then Some s else if c =? 10 then None else skipString s
  end.

(** What is left after [\s*key\s*:\s*...,?], with the key and its value in quotation
    marks, at the start of the text. *)
Definition matchField (key : string) (s : list Z) : option (list Z) :=
  s ← stripPrefix (quote :: stringBytes key ++ [quote]) (skipSpace s);
  s ← stripPrefix [58] (skipSpace s);
  s ← stripPrefix [quote] (skipSpace s);
  s ← skipString s;
  Some (match s with 44 :: s' => s' | _ => s end).

(** [ReplaceAll] with nothing: the leftmost matches that do not overlap. *)
Fixpoint dropFields (fuel : nat) (key : string) (s : list Z) : list Z :=
  match fuel with
  | O => s
  | S fuel =>
      match matchField key s with
      | Some rest => dropFields fuel key rest
      | None => match s with c :: s' => c :: dropFields fuel key s' | [] => [] end
      end
  end.

(** A comma before the brace that ends the text is taken out. *)
Definition dropLastComma (s : list Z) : list Z :=
  match reverse s with
  | 125 :: r =>
      match skipSpace r with
      | 44 :: r' => reverse r' ++ reverse (take (length r - length (skipSpace r)) r) ++ [125]
      | _ => s
      end
  | _ => s
  end.

Definition filterBytes (bytes : list Z) (keys : list string) : list Z :=
  dropLastComma (foldl (fun s key => dropFields (length s) key s) bytes keys).

(** ** Handlers *)

Section middleware.
Context {SO : Secp256k1} {GC : GoCache} {CC : CaptchaConfig} {MCD : MiddlewareCodecs}.
Context {A : Type}.

Definition Handler : Type := Z * Z -> Request -> ReqContext -> CacheService -> CacheService * httpOutcome A.

Definition parseBodyMiddleware (next : Handler) : Handler := fun now r cx c =>
  match rqBody r with
  | None => (c, Silent)
  | Some body => next now r (mkReqContext (Some body) (cxMethod cx)) c
  end.

(** A body that is not the request of one method goes on without a method. *)
Definition augmentRequestMiddleware (next : Handler) : Handler := fun now r cx c =>
  match cxBody cx with
  | None => next now r cx c
  | Some body =>
      match Unmarshal (A := jRPCRequest) body with
      | None => next now r cx c
      | Some j => next now r (mkReqContext (cxBody cx) (Some (jMethod j))) c
      end
  end.

(** The credentials of a request: the text under which its signature is remembered, the
    signature if the text gives one, and what must have been signed. *)
Record Credentials := mkCredentials {
  crTimestamp : string; crNonce : string; crSigText : string; crRawSig : option (list Z); crBody : list Z;
}.

Definition fromHeaders (r : Request) (cx : ReqContext) : res Credentials :=
  match cxBody cx with
  | None => Err "body on request is not bytes"
  | Some body => Ok (mkCredentials (rqTimestamp r) (rqNonce r) (rqSignature r) (DecodeString (rqSignature r)) body)
  end.

Definition fromBody (cx : ReqContext) : res Credentials :=
  match cxBody cx with
  | None => Err "in deprecated, body on request is not bytes"
  | Some body =>
      match Unmarshal (A := CustomAuthFields) body with
      | None => Err "in deprecated, could not unmarshal to get customAuthFields"
      | Some f =>
          Ok (mkCredentials (caTimestamp f) (caNonce f) (EncodeToString (caSignature f)) (Some (caSignature f))
                (filterBytes body ["torus-signature"; "torus-nonce"; "torus-timestamp"]))
      end
  end.

Definition credentialsOf (r : Request) (cx : ReqContext) : res Credentials :=
  if negb (rqSignature r =? EmptyString)%string && negb (rqNonce r =? EmptyString)%string
     && negb (rqTimestamp r =? EmptyString)%string
  then fromHeaders r cx
  else fromBody cx.

(** The time and the cache are looked at first, then the signature is remembered, then
    it is checked.  The two forms of the credentials have the same checks, with other
    texts of the errors. *)
Definition checkSigner (now : Z * Z) (c : CacheService) (cr : Credentials) : option string :=
  match Atoi (crTimestamp cr) with
  | None => Some "error getting timestamp"%string
  | Some timestamp =>
      if timeBefore (timeAdd (timeUnix timestamp 0) Minute) now then Some "signature expired"%string
      else if signerSigExists (nanos now) c (crSigText cr) then Some "signature already seen"%string
      else None
  end.

Definition recordSigner (now : Z * Z) (c : CacheService) (cr : Credentials) : CacheService :=
  fst (recordSignerSig (nanos now) c (crSigText cr)).

Definition sigData (cr : Credentials) : list Z :=
  crBody cr ++ stringBytes (Join [EmptyString; crTimestamp cr; crNonce cr] Delimiter1).

Definition verifySigner (cr : Credentials) : option string :=
  match crRawSig cr with
  | None => Some "error decoding signature"%string
  | Some rawSig =>
      match SetString16 EthPrivateKey with
      | None => Some "could not setString for ethPrivKey"%string
      | Some ethPrivKey =>
          let pubKey := ScalarBaseMult (Bytes ethPrivKey) in
          if negb (VerifyPtFromRawWithPubKey (sigData cr) (Text16 (PX pubKey)) (Text16 (PY pubKey)) captchaPubKey rawSig)
          then Some "invalid signature"%string
          else None
      end
  end.

Definition authMiddleware (next : Handler) : Handler := fun now r cx c =>
  if negb JRPCAuth then next now r cx c
  else if negb (bool_decide (cxMethod cx = Some KeyAssignMethod)) then next now r cx c
  else
    match credentialsOf r cx with
    | Err e => (c, Rejected401 e)
    | Panic => (c, Silent)
    | Ok cr =>
        match checkSigner now c cr with
        | Some e => (c, Rejected401 e)
        | None =>
            let c := recordSigner now c cr in
            match verifySigner cr with
            | Some e => (c, Rejected401 e)
            | None => next now r cx c
            end
        end
    end.

(** The router: the middleware in the order in which it is added. *)
Definition router (next : Handler) (now : Z * Z) (r : Request) (c : CacheService) : CacheService * httpOutcome A :=
  parseBodyMiddleware (augmentRequestMiddleware (authMiddleware next)) now r (mkReqContext None None) c.

End middleware.

(** ** What is let through *)

Section props.
Context {SO : Secp256k1} {GC : GoCache} {GL : GoCacheLaws} {CC : CaptchaConfig} {MCD : MiddlewareCodecs}.
Context {A : Type} (next : Handler (A := A)).

(** What the middleware leaves to the rest of the node does not touch the signatures
    that are remembered. *)
Hypothesis next_signers : forall now r cx c, signerCache (fst (next now r cx c)) = signerCache c.

Definition contextOf (r : Request) : ReqContext :=
  mkReqContext (rqBody r) (match rqBody r with Some body => jMethod <$> Unmarshal body | None => None end).

(** A request to assign a key, with its credentials. *)
Definition assigns (r : Request) (cr : Credentials) : Prop :=
  cxMethod (contextOf r) = Some KeyAssignMethod /\ credentialsOf r (contextOf r) = Ok cr.

Lemma router_eq now r c : router next now r c =
  match rqBody r with None => (c, Silent) | Some _ => authMiddleware next now r (contextOf r) c end.
Proof.
  unfold router, parseBodyMiddleware, augmentRequestMiddleware, contextOf. destruct (rqBody r) as [body|]; [|done]. simpl.
  by destruct (Unmarshal body).
Qed.

(** A request that is let through has credentials that the captcha has signed, for this
    node and no more than a minute ago, and that are remembered from then on. *)
Lemma served_authenticated now r cr c c' a : JRPCAuth = true -> assigns r cr -> router next now r c = (c', Served a) ->
  checkSigner now c cr = None /\ verifySigner cr = None /\
  next now r (contextOf r) (recordSigner now c cr) = (c', Served a).
Proof.
  intros Hj [Hm Hcr]. rewrite router_eq. destruct (rqBody r); [|done]. unfold authMiddleware.
  rewrite Hj, Hm, Hcr, bool_decide_true by done. simpl.
  destruct (checkSigner now c cr); [done|]. by destruct (verifySigner cr).
Qed.

(** What the first checks have found. *)
Lemma checkSigner_None now c cr : checkSigner now c cr = None -> exists dated, Atoi (crTimestamp cr) = Some dated /\
  timeBefore (timeAdd (timeUnix dated 0) Minute) now = false /\ signerSigExists (nanos now) c (crSigText cr) = false.
Proof.
  unfold checkSigner. destruct (Atoi (crTimestamp cr)) as [dated|]; [|done]. exists dated.
  destruct (timeBefore _ now); [done|]. by destruct (signerSigExists _ _ _).
Qed.

(** The signature is found until the instant. *)
Definition remembered (until : Z) (c : CacheService) (sigText : string) : Prop :=
  forall t, t <= until -> is_Some (cacheGet t (signerCache c) sigText).

Lemma Minute_pos : 0 < Minute.
Proof. done. Qed.

Lemma recordSigner_get t now c cr sigText : 
  cacheGet t (signerCache (recordSigner now c cr)) sigText =
    if decide (crSigText cr = sigText /\ cacheGet (nanos now) (signerCache c) sigText = None)
    then (if nanos now + Minute <? t then None else Some true) else cacheGet t (signerCache c) sigText.
Proof.
  unfold recordSigner, recordSignerSig. rewrite cacheAdd_set.
  destruct (cacheGet (nanos now) (signerCache c) (crSigText cr)) as [b|] eqn:E; simpl.
  - rewrite decide_False; [done|]. intros [<- E']. congruence.
  - rewrite cacheGet_set by apply Minute_pos. destruct (decide (crSigText cr = sigText)) as [<-|]; [by rewrite decide_True|].
    rewrite decide_False; [done|]. by intros [? _].
Qed.

Lemma router_remembered now r c until sigText :
  remembered until c sigText -> nanos now <= until -> remembered until (fst (router next now r c)) sigText.
Proof.
  intros Hr Hnow. rewrite router_eq. destruct (rqBody r) as [body|]; [|done]. unfold authMiddleware.
  assert (forall c', remembered until c' sigText -> remembered until (fst (next now r (contextOf r) c')) sigText) as Hnext.
  { intros c' H t Ht. rewrite next_signers. by apply H. }
  destruct JRPCAuth; [simpl|by apply Hnext]. case_bool_decide; [simpl|by apply Hnext].
  destruct (credentialsOf r _) as [cr| |]; [|done..]. destruct (checkSigner _ _ _); [done|].
  assert (remembered until (recordSigner now c cr) sigText) as H'.
  { intros t Ht. rewrite recordSigner_get. rewrite decide_False by (intros [_ E]; destruct (Hr _ Hnow) as [b Hb]; congruence).
    by apply Hr. }
  destruct (verifySigner cr); [done|]. by apply Hnext.
Qed.

(** Later requests, in the order of their times. *)
Fixpoint serveAll (c : CacheService) (rs : list ((Z * Z) * Request)) : CacheService :=
  match rs with
  | [] => c
  | (now, r) :: rs => serveAll (fst (router next now r c)) rs
  end.

Lemma serveAll_remembered until sigText rs : forall c, remembered until c sigText ->
  Forall (fun nr => nanos nr.1 <= until) rs -> remembered until (serveAll c rs) sigText.
Proof.
  induction rs as [|[now r] rs IH]; intros c Hc Hrs; [done|]. apply Forall_cons_1 in Hrs as [Hn Hrs]. simpl.
  apply IH; [|done]. by apply router_remembered.
Qed.

(** C38: With the captcha on, a single request to assign a key (one whose body is the
    request of that method: a batch is not checked) is let through only with credentials
    whose timestamp is no more than a minute old, whose signature has not been seen, and
    which the captcha has signed for this node; and no later request with the same text of
    a signature is let through, whatever was served in between, unless it is dated after
    the first was served. *)
Theorem captcha_once now r cr c c' a now' r' cr' timestamp rs :
  JRPCAuth = true -> assigns r cr -> router next now r c = (c', Served a) ->
  assigns r' cr' -> crSigText cr' = crSigText cr -> Atoi (crTimestamp cr') = Some timestamp ->
  clockTime (timeUnix timestamp 0) -> clockTime now' ->
  nanos (timeUnix timestamp 0) <= nanos now ->
  Forall (fun nr => nanos nr.1 <= nanos now') rs ->
  (exists dated, Atoi (crTimestamp cr) = Some dated /\ timeBefore (timeAdd (timeUnix dated 0) Minute) now = false) /\
  signerSigExists (nanos now) c (crSigText cr) = false /\ verifySigner cr = None /\
  exists e, snd (router next now' r' (serveAll c' rs)) = Rejected401 e.
Proof.
  intros Hj Hr Hs [Hm' Hcr'] Et Ht Hct Hcn Hle Hrs. destruct (served_authenticated _ _ _ _ _ _ Hj Hr Hs) as (Hc & Hv & Hn).
  destruct (checkSigner_None _ _ _ Hc) as (dated & Hd & Hlate & Hnew). split; [by exists dated|]. split; [done|]. split; [done|]. rewrite router_eq. destruct (rqBody r') as [body|] eqn:Eb;
    [|by unfold contextOf in Hm'; rewrite Eb in Hm'].
  unfold authMiddleware. rewrite Hj, Hm', Hcr', bool_decide_true by done. simpl. unfold checkSigner. rewrite Ht, Et.
  rewrite timeAdd_before by (done || by split). destruct (Z.ltb_spec (nanos (timeUnix timestamp 0) + Minute) (nanos now')) as [|Hlive];
    [by eexists|].
  assert (remembered (nanos now + Minute) c' (crSigText cr)) as Hrem.
  { intros t Htt. pose proof (next_signers now r (contextOf r) (recordSigner now c cr)) as E. rewrite Hn in E. simpl in E.
    rewrite E, recordSigner_get. unfold signerSigExists in Hnew.
    destruct (cacheGet (nanos now) (signerCache c) (crSigText cr)) eqn:E'; [done|].
    rewrite decide_True by done. destruct (Z.ltb_spec (nanos now + Minute) t); [lia|by eexists]. }
  assert (remembered (nanos now + Minute) (serveAll c' rs) (crSigText cr)) as Hrem'.
  { apply serveAll_remembered; [done|]. eapply list.Forall_impl; [exact Hrs|]. simpl. intros; lia. }
  unfold signerSigExists. destruct (Hrem' (nanos now')) as [b ->]; [lia|]. by eexists.
Qed.

(** *** What the middleware does not stop *)

(** A body that is not the request of one method, such as a batch of requests, is
    handed on without a check. *)
Theorem unparsed_body_passes now r c body : rqBody r = Some body -> Unmarshal (A := jRPCRequest) body = None ->
  router next now r c = next now r (contextOf r) c.
Proof.
  intros Hb Hu. rewrite router_eq. unfold authMiddleware, contextOf. rewrite Hb, Hu. simpl.
  by destruct JRPCAuth.
Qed.

(** The signature is remembered under its text, and a signature whose length is not a
    multiple of three has a second text: the request is let through again at once. *)
Theorem second_text_passes now r c c' a sig cr :
  JRPCAuth = true -> assigns r cr -> router next now r c = (c', Served a) ->
  rqNonce r <> EmptyString -> rqTimestamp r <> EmptyString ->
  rqSignature r = EncodeToString sig -> Forall byte sig -> Z.of_nat (length sig) mod 3 <> 0 ->
  exists s, s <> rqSignature r /\ forall c2, signerSigExists (nanos now) c2 s = false ->
    let r2 := mkRequest s (rqNonce r) (rqTimestamp r) (rqBody r) in
    exists cr2, router next now r2 c2 = next now r2 (contextOf r2) (recordSigner now c2 cr2).
Proof.
  intros Hj Hr Hs Hn Ht Hsig Hbytes Hlen. destruct (served_authenticated _ _ _ _ _ _ Hj Hr Hs) as (Hc & Hv & _).
  destruct Hr as [Hm Hcr]. destruct (second_text sig Hbytes Hlen) as (s & Hne & Hd & _). exists s. split; [congruence|].
  assert (forall t, t <> EmptyString -> (t =? EmptyString)%string = false) as Hns by (intros t; by apply String.eqb_neq).
  assert (s <> EmptyString) as Hs0. { intros ->. injection Hd as <-. by apply Hlen. }
  assert (rqSignature r <> EmptyString) as Hr0.
  { rewrite Hsig. intros E. pose proof (DecodeString_EncodeToString sig Hbytes) as Hd'. rewrite E in Hd'. injection Hd' as <-.
    by apply Hlen. }
  intros c2 Hc2 r2. unfold credentialsOf, fromHeaders in Hcr. rewrite !Hns in Hcr by done. simpl in Hcr.
  destruct (rqBody r) as [body|] eqn:Eb; [|by unfold contextOf in Hm; rewrite Eb in Hm].
  assert (contextOf r2 = contextOf r) as Ecx by (unfold contextOf, r2; simpl; by rewrite Eb).
  injection Hcr as <-.
  exists (mkCredentials (rqTimestamp r) (rqNonce r) s (DecodeString s) body).
  rewrite router_eq. simpl. unfold authMiddleware. rewrite Ecx, Hj, Hm, bool_decide_true by done. simpl.
  unfold credentialsOf, fromHeaders. simpl. rewrite !Hns by done. simpl. unfold contextOf at 1. rewrite Eb. simpl.
  unfold checkSigner, verifySigner, sigData in *. simpl in *. rewrite Hc2.
  rewrite Hsig, DecodeString_EncodeToString in Hv by done. rewrite Hd.
  destruct (Atoi _); [|done]. destruct (timeBefore _ _); [done|]. rewrite Hv. unfold contextOf. by rewrite Eb.
Qed.

End props.
