(* ===== verification/Config.v ===== *)
(** The configuration of a node (src/config/config.go), which is read when it starts, the
    settings that can be changed while it runs, and the management RPC that changes them
    (src/mrpc/mrpc_handlers.go).

    The code goes through the fields of its structure by reflection, and the two readers
    find them by their tags: here the structure is the table of its fields and a
    configuration maps the name of a field to its value.  bijson's and env's readers are
    parameters, as is the file. *)
From Stdlib Require Import ZArith.
From stdpp Require Import gmap strings.
From S2P Require Import Prelude BigInt Curve Effects GoTime Cache Middleware.

(** ** Values and fields *)

Inductive FieldType := TString | TInt | TBool.

#[global] Instance FieldType_eq_dec : EqDecision FieldType.
Proof. solve_decision. Defined.

Inductive Value := VString (s : string) | VInt (i : Z) | VBool (b : bool).

Definition typeOf (v : Value) : FieldType :=
  match v with VString _ => TString | VInt _ => TInt | VBool _ => TBool end.

Definition goType (t : FieldType) : Type := match t with TString => string | TInt => Z | TBool => bool end.
Definition toValue (t : FieldType) : goType t -> Value :=
  match t with TString => VString | TInt => VInt | TBool => VBool end.
Definition zeroOf (t : FieldType) : Value :=
  match t with TString => VString EmptyString | TInt => VInt 0 | TBool => VBool false end.

(** A field with its tags; a mutable one can be changed while the node runs. *)
Record Field := mkField { fName : string; fType : FieldType; fJson : string; fEnv : string; fMutable : bool }.

#[global] Instance Field_eq_dec : EqDecision Field.
Proof. solve_decision. Defined.

Definition fields : list Field := [
  mkField "HttpServerPort" TString "httpServerPort" "HTTP_SERVER_PORT" false;
  mkField "ManagementRPCPort" TString "managementRPCPort" "MANAGEMENT_RPC_PORT" false;
  mkField "UseManagementRPC" TBool "useManagementRPC" "USE_MANAGEMENT_RPC" false;
  mkField "MainServerAddress" TString "mainServerAddress" "MAIN_SERVER_ADDRESS" false;
  mkField "EthConnection" TString "ethconnection" "ETH_CONNECTION" false;
  mkField "EthPrivateKey" TString "ethprivatekey" "ETH_PRIVATE_KEY" false;
  mkField "BftURI" TString "bfturi" "BFT_URI" false;
  mkField "ABCIServer" TString "abciserver" "ABCI_SERVER" false;
  mkField "TMP2PListenAddress" TString "tmp2plistenaddress" "TM_P2P_LISTEN_ADDRESS" false;
  mkField "P2PListenAddress" TString "p2plistenaddress" "P2P_LISTEN_ADDRESS" false;
  mkField "NodeListAddress" TString "nodelistaddress" "NODE_LIST_ADDRESS" false;
  mkField "KeyBuffer" TInt "keybuffer" "KEY_BUFFER" false;
  mkField "KeysPerEpoch" TInt "keysperepoch" "KEYS_PER_EPOCH" false;
  mkField "KeyBufferTriggerPercentage" TInt "keybuffertriggerpercentage" "KEY_BUFFER_TRIGGER_PERCENTAGE" false;
  mkField "BasePath" TString "basepath" "BASE_PATH" false;
  mkField "InitEpoch" TInt "initepoch" "INIT_EPOCH" false;
  mkField "ShouldRegister" TBool "register" "REGISTER" false;
  mkField "CPUProfileToFile" TString "cpuProfile" "CPU_PROFILE" false;
  mkField "IsDebug" TBool "debug" "DEBUG" false;
  mkField "PprofPort" TString "pprofPort" "PPROF_PORT" false;
  mkField "PprofEnabled" TBool "pprofEnabled" "PPROF_ENABLED" false;
  mkField "ProvidedIPAddress" TString "ipAddress" "IP_ADDRESS" false;
  mkField "LogLevel" TString "loglevel" "LOG_LEVEL" false;
  mkField "TendermintLogging" TBool "tendermintLogging" "TENDERMINT_LOGGING" false;
  mkField "TMMessageQueueProcesses" TInt "tmMessageQueueProcesses" "TM_MESSAGE_QUEUE_PROCESSES" false;
  mkField "MaxBftConnections" TInt "maxBftConnections" "MAX_BFT_CONNECTIONS" false;
  mkField "StackImpactEnabled" TBool "stackImpactEnabled" "STACK_IMPACT_ENABLED" false;
  mkField "StackImpactKey" TString "stackImpactKey" "STACK_IMPACT_KEY" false;
  mkField "ServeUsingTLS" TBool "useTLS" "USE_TLS" false;
  mkField "UseAutoCert" TBool "useAutoCert" "USE_AUTO_CERT" false;
  mkField "AutoCertCacheDir" TString "autoCertCacheDir" "AUTO_CERT_CACHE_DIR" false;
  mkField "PublicURL" TString "publicURL" "PUBLIC_URL" false;
  mkField "ServerCert" TString "serverCert" "SERVER_CERT" false;
  mkField "ServerKey" TString "serverKey" "SERVER_KEY" false;
  mkField "EthPollFreq" TInt "ethPollFreq" "ETH_POLL_FREQ" false;
  mkField "TendermintMetrics" TBool "tendermintMetrics" "TENDERMINT_METRICS" false;
  mkField "GoogleClientID" TString "googleClientID" "GOOGLE_CLIENT_ID" true;
  mkField "FacebookAppID" TString "facebookAppID" "FACEBOOK_APP_ID" true;
  mkField "FacebookAppSecret" TString "facebookAppSecret" "FACEBOOK_APP_SECRET" true;
  mkField "TwitchClientID" TString "twitchClientID" "TWITCH_CLIENT_ID" true;
  mkField "RedditClientID" TString "redditClientID" "REDDIT_CLIENT_ID" true;
  mkField "DiscordClientID" TString "discordClientID" "DISCORD_CLIENT_ID" true;
  mkField "TorusVerifierPubKeyX" TString "torusVerifierPubKeyX" "TORUS_VERIFIER_PUB_KEY_X" true;
  mkField "TorusVerifierPubKeyY" TString "torusVerifierPubKeyY" "TORUS_VERIFIER_PUB_KEY_Y" true;
  mkField "EncryptShares" TBool "encryptShares" "ENCRYPT_SHARES" true;
  mkField "ValidateDealer" TBool "validateDealer" "VALIDATE_DEALER" true;
  mkField "JRPCAuth" TBool "jrpcAuth" "JRPC_AUTH" true;
  mkField "JRPCAuthPubKeyX" TString "jrpcAuthPubKeyX" "JRPC_AUTH_PUB_KEY_X" true;
  mkField "JRPCAuthPubKeyY" TString "jrpcAuthPubKeyY" "JRPC_AUTH_PUB_KEY_Y" true;
  mkField "PSSShareDelayMS" TInt "pssShareDelayMS" "PSS_SHARE_DELAY_MS" true;
  mkField "DiskQueueReadRateMS" TInt "diskQueueReadRateMS" "DISK_QUEUE_READ_RATE_MS" true;
  mkField "DiskQueueHWMMB" TInt "diskQueueHWMMB" "DISK_QUEUE_HWM_MB" true;
  mkField "DiskQueueWriteToDB" TBool "diskQueueWriteToDB" "DISK_QUEUE_WRITE_TO_DB" true;
  mkField "DiskQueueLogLevel" TInt "diskQueueLogLeve" "DISK_QUEUE_LOG_LEVEL" true;
  mkField "StaggerDelay" TInt "staggerDelay" "STAGGER_DELAY" false;
  mkField "OSFreeMemoryMS" TInt "osFreeMemoryMS" "OS_FREE_MEMORY_MS" true;
  mkField "IgnoreEpochForKeyAssign" TBool "ignoreEpochForKeyAssign" "IGNORE_EPOCH_FOR_KEY_ASSIGN" true
]%string.

Abbreviation Config := (gmap string Value).

Definition DefaultConfigSettings : Config := list_to_map ((fun f => (fName f, zeroOf (fType f))) <$> fields).

(** The string of a field. *)
Definition stringField (c : Config) (name : string) : string :=
  match c !! name with Some (VString s) => s | _ => EmptyString end.

(** ** Command line flags (package flag) *)

Inductive FlagType := FlagBool | FlagString.

Definition flagTypes : list (string * FlagType) := [
  ("register", FlagBool); ("debug", FlagBool); ("ethprivateKey", FlagString); ("ipAddress", FlagString);
  ("cpuProfile", FlagString); ("ethConnection", FlagString); ("nodeListAddress", FlagString); ("basePath", FlagString);
  ("configPath", FlagString)]%string.

Definition flagType (name : string) : option FlagType :=
  snd <$> (snd <$> list_find (fun p : string * FlagType => p.1 = name) flagTypes).

Definition ParseBool (s : string) : option bool :=
  if bool_decide (s ∈ ["1"; "t"; "T"; "TRUE"; "true"; "True"]%string) then Some true
  else if bool_decide (s ∈ ["0"; "f"; "F"; "FALSE"; "false"; "False"]%string) then Some false
  else None.

(** A name and what follows its equals sign, which is not looked for at the start. *)
Fixpoint cutValue (s : list ascii) : list ascii * option (list ascii) :=
  match s with
  | [] => ([], None)
  | "="%char :: rest => ([], Some rest)
  | c :: rest => let '(name, v) := cutValue rest in (c :: name, v)
  end.

Inductive Arg := Positional | FlagArg (name : string) (value : option string) | BadFlag.

(** How an argument is read; two minuses alone end the flags, as a positional argument
    does. *)
Definition readArg (s : string) : Arg :=
  match chars s with
  | "-"%char :: (c :: rest) as w =>
      let name := if Ascii.eqb c "-" then rest else w in
      match name with
      | [] => Positional
      | c :: name =>
          if Ascii.eqb c "-" || Ascii.eqb c "=" then BadFlag
          else let '(n, v) := cutValue name in FlagArg (unchars (c :: n)) (unchars <$> v)
      end
  | _ => Positional
  end.

(** [flag.Parse]: the flags that are passed, the last one of a name counting; [None] when
    the process ends over an argument it does not take. *)
Fixpoint parseFlags (args : list string) (passed : gmap string Value) : option (gmap string Value) :=
  match args with
  | [] => Some passed
  | arg :: args =>
      match readArg arg with
      | Positional => Some passed
      | BadFlag => None
      | FlagArg name value =>
          match flagType name, value, args with
          | None, _, _ => None
          | Some FlagBool, None, _ => parseFlags args (<[name := VBool true]> passed)
          | Some FlagBool, Some v, _ =>
              match ParseBool v with Some b => parseFlags args (<[name := VBool b]> passed) | None => None end
          | Some FlagString, Some v, _ => parseFlags args (<[name := VString v]> passed)
          | Some FlagString, None, v :: args => parseFlags args (<[name := VString v]> passed)
          | Some FlagString, None, [] => None
          end
      end
  end.

(** ** Reading the configuration *)

(** What the readers find for a tag when they look for a value of a type. *)
Class ConfigReaders := {
  ReadFile : string -> res (list Z);
  jsonField : list Z -> string -> forall t, option (goType t);
  envField : string -> forall t, option (goType t);
}.

(** The flags and the fields they set. *)
Definition flagFields : list (string * string) := [
  ("register", "ShouldRegister"); ("debug", "IsDebug"); ("ethprivateKey", "EthPrivateKey");
  ("ipAddress", "ProvidedIPAddress"); ("cpuProfile", "CPUProfileToFile"); ("ethConnection", "EthConnection");
  ("nodeListAddress", "NodeListAddress"); ("basePath", "BasePath")]%string.

(** [createConfigWithFlags]: a flag that is not passed leaves its field, so the defaults
    that the flags are declared with are not used. *)
Definition createConfigWithFlags (passed : gmap string Value) (c : Config) : Config * string :=
  (foldl (fun c ff => match passed !! ff.1 with Some v => <[ff.2 := v]> c | None => c end) c flagFields,
   match passed !! "configPath"%string with Some (VString s) => s | _ => EmptyString end).

Definition mergeWithFlags (passed : gmap string Value) (c flagConfig : Config) : Config :=
  foldl (fun c ff => if decide (is_Some (passed !! ff.1)) then
                       (match flagConfig !! ff.2 with Some v => <[ff.2 := v]> c | None => c end)
                     else c) c flagFields.

(** The levels of logrus; a name that is not among them has the first one, which logs
    nothing but panics. *)
Definition logLevelMap : list (string * Z) :=
  [("panic", 0); ("fatal", 1); ("error", 2); ("warn", 3); ("info", 4); ("debug", 5); ("trace", 6)]%string.
Definition logLevel (name : string) : option Z := snd <$> (snd <$> list_find (fun p : string * Z => p.1 = name) logLevelMap).

Section readers.
Context {CR : ConfigReaders}.

Definition assign (value : forall f : Field, option (goType (fType f))) (c : Config) : Config :=
  foldl (fun c f => match value f with Some v => <[fName f := toValue (fType f) v]> c | None => c end) c fields.

Definition readAndMarshallJSONConfig (configPath : string) (c : Config) : Config :=
  match ReadFile configPath with
  | Ok b => assign (fun f => jsonField b (fJson f) (fType f)) c
  | _ => c
  end.

Definition envParse (c : Config) : Config := assign (fun f => envField (fEnv f) (fType f)) c.

(** The configuration and the level of the log; the address that is passed is used only
    until the next two lines. *)
Definition LoadConfig (args : list string) (configPath : string) : option (Config * Z) :=
  passed ← parseFlags args ∅;
  let '(flagConf, providedCF) := createConfigWithFlags passed DefaultConfigSettings in
  let configPath := if String.eqb providedCF EmptyString then configPath else providedCF in
  let conf := readAndMarshallJSONConfig configPath DefaultConfigSettings in
  let conf := envParse conf in
  let conf := mergeWithFlags passed conf flagConf in
  let ip := stringField conf "ProvidedIPAddress" in
  let port := stringField conf "HttpServerPort" in
  let conf := if String.eqb ip EmptyString then conf
              else <["P2PListenAddress" := VString ("/ip4/" +:+ ip +:+ "/tcp/1080")]>
                     (<["MainServerAddress" := VString (ip +:+ ":" +:+ port)]> conf) in
  let conf := <["MainServerAddress" := VString ("0.0.0.0" +:+ ":" +:+ port)]> conf in
  let conf := <["P2PListenAddress" := VString "/ip4/0.0.0.0/tcp/1080"]> conf in
  Some (conf, default 0 (logLevel (stringField conf "LogLevel"))).

End readers.

(** ** The settings that may change *)

Abbreviation MutableConfig := (gmap string Value).

Definition Exists (m : MutableConfig) (key : string) : bool := bool_decide (is_Some (m !! key)).

(** A value of another type is only logged and read as the zero of the type. *)
Definition GetS (m : MutableConfig) (key : string) : string :=
  match m !! key with Some (VString s) => s | _ => EmptyString end.
Definition GetI (m : MutableConfig) (key : string) : Z := match m !! key with Some (VInt i) => i | _ => 0 end.
Definition GetB (m : MutableConfig) (key : string) : bool := match m !! key with Some (VBool b) => b | _ => false end.

Definition SetS (m : MutableConfig) (key : string) (v : string) : MutableConfig := <[key := VString v]> m.
Definition SetI (m : MutableConfig) (key : string) (v : Z) : MutableConfig := <[key := VInt v]> m.
Definition SetB (m : MutableConfig) (key : string) (v : bool) : MutableConfig := <[key := VBool v]> m.

(** The fields with the tag, each stored at its type. *)
Definition InitMutableConfig (c : Config) : MutableConfig :=
  foldl (fun m f =>
    if fMutable f then
      match fType f with
      | TString => SetS m (fName f) (GetS c (fName f))
      | TInt => SetI m (fName f) (GetI c (fName f))
      | TBool => SetB m (fName f) (GetB c (fName f))
      end
    else m) ∅ fields.

(** ** The management RPC *)

Record SetMutableConfigParams := mkSetMutableConfigParams {
  mcKey : string; mcValueType : string; mcStringValue : string; mcIntValue : Z; mcBoolValue : bool;
}.

Inductive mrpcRequest :=
  | SetLogLevel (params : option string)
  | SetMutableConfig (params : option SetMutableConfigParams)
  | RetriggerPSS (params : option unit).

(** The answer to a change of a setting lists all of them. *)
Inductive mrpcAnswer := MrpcOk (newConfigs : option MutableConfig) | ErrParse | ErrInvalidParams | ErrActions (message : string).

Record Managed := mkManaged { mgLevel : Z; mgConfig : MutableConfig }.

Definition setMutableConfig (p : SetMutableConfigParams) (m : MutableConfig) : option MutableConfig :=
  if (mcValueType p =? "string")%string then Some (SetS m (mcKey p) (mcStringValue p))
  else if (mcValueType p =? "int")%string then Some (SetI m (mcKey p) (mcIntValue p))
  else if (mcValueType p =? "bool")%string then Some (SetB m (mcKey p) (mcBoolValue p))
  else None.

(** Parameters that do not unmarshal are [None]; [retrigger] is the action of the node,
    which may not be there, with how it ends. *)
Definition mrpcServe (retrigger : option (option string)) (s : Managed) (req : mrpcRequest) : Managed * mrpcAnswer :=
  match req with
  | SetLogLevel None | SetMutableConfig None | RetriggerPSS None => (s, ErrParse)
  | SetLogLevel (Some level) =>
      match logLevel level with
      | Some l => (mkManaged l (mgConfig s), MrpcOk None)
      | None => (s, ErrInvalidParams)
      end
  | SetMutableConfig (Some p) =>
      match setMutableConfig p (mgConfig s) with
      | Some m => (mkManaged (mgLevel s) m, MrpcOk (Some m))
      | None => (s, ErrInvalidParams)
      end
  | RetriggerPSS (Some _) =>
      (s, match retrigger with
          | None => ErrActions "actions are undefined"
          | Some (Some e) => ErrActions ("Could not retrigger pss, error: " +:+ e)
          | Some None => MrpcOk None
          end)
  end.

(** The handler of a dealer's message, which is not among the registered ones. *)
Definition serveDealerMessage {Message : Type} (handle : option (Message -> option string)) (params : option Message)
    : mrpcAnswer :=
  match params, handle with
  | None, _ => ErrParse
  | Some _, None => ErrActions "actions are undefined"
  | Some m, Some handle =>
      match handle m with
      | Some e => ErrActions ("could not handle dealer message, error: " +:+ e)
      | None => MrpcOk None
      end
  end.

(** ** The value a setting has *)

(** A flag's value and the value a request sets. *)
Definition flagOf (passed : gmap string Value) (field : string) : option Value :=
  p ← list_find (fun ff : string * string => ff.2 = field) flagFields; passed !! p.2.1.

Definition setValue (p : SetMutableConfigParams) : option Value :=
  if (mcValueType p =? "string")%string then Some (VString (mcStringValue p))
  else if (mcValueType p =? "int")%string then Some (VInt (mcIntValue p))
  else if (mcValueType p =? "bool")%string then Some (VBool (mcBoolValue p))
  else None.

Definition readSetting (t : FieldType) (m : MutableConfig) (key : string) : Value :=
  match t with TString => VString (GetS m key) | TInt => VInt (GetI m key) | TBool => VBool (GetB m key) end.

(** What a request changes: a key and its new value. *)
Definition change (req : mrpcRequest) : option (string * Value) :=
  match req with
  | SetMutableConfig (Some p) => v ← setValue p; Some (mcKey p, v)
  | _ => None
  end.

(** The last value that was set for a key. *)
Definition lastSet (key : string) (reqs : list mrpcRequest) : option Value :=
  foldl (fun last req => match change req with
                         | Some (k, v) => if decide (k = key) then Some v else last
                         | None => last
                         end) None reqs.

Definition mrpcServeAll (retrigger : option (option string)) (s : Managed) (reqs : list mrpcRequest) : Managed :=
  foldl (fun s req => (mrpcServe retrigger s req).1) s reqs.

(** A request gives the field a value of its type, if it gives it one. *)
Definition typedFor (f : Field) (req : mrpcRequest) : Prop := forall v, change req = Some (fName f, v) -> typeOf v = fType f.

(** ** Lemmas *)

Lemma fields_NoDup : NoDup (fName <$> fields).
Proof. refine (bool_decide_unpack _ _). vm_compute. exact I. Qed.

(** No two fields are read by the same tag. *)
Lemma tags_NoDup : NoDup (fJson <$> fields) /\ NoDup (fEnv <$> fields).
Proof. split; refine (bool_decide_unpack _ _); vm_compute; exact I. Qed.

(** Writing optional values under different keys. *)
Lemma foldl_insert_other {A} (key : A -> string) (val : A -> option Value) l : forall (c : Config) k, k ∉ key <$> l ->
  foldl (fun c a => match val a with Some v => <[key a := v]> c | None => c end) c l !! k = c !! k.
Proof.
  induction l as [|a l IH]; intros c k Hk; [done|]. simpl. rewrite fmap_cons in Hk. apply not_elem_of_cons in Hk as [Hne Hk].
  rewrite IH by done. destruct (val a); [by rewrite lookup_insert_ne|done].
Qed.

Lemma foldl_insert_elem {A} (key : A -> string) (val : A -> option Value) l : NoDup (key <$> l) -> forall (c : Config) a, a ∈ l ->
  foldl (fun c a => match val a with Some v => <[key a := v]> c | None => c end) c l !! key a =
  match val a with Some v => Some v | None => c !! key a end.
Proof.
  induction l as [|b l IH]; intros Hnd c a; [by intros ?%not_elem_of_nil|].
  inversion_clear Hnd as [|? ? Hb Hnd']. simpl.
  intros [->|Ha]%elem_of_cons.
  - rewrite foldl_insert_other by done. destruct (val b); [by rewrite lookup_insert_eq|done].
  - rewrite (IH Hnd') by done. destruct (val a); [done|].
    destruct (val b); [|done]. rewrite lookup_insert_ne; [done|]. intros E. apply Hb. rewrite E. by apply list_elem_of_fmap_2.
Qed.

Lemma default_field f : f ∈ fields -> DefaultConfigSettings !! fName f = Some (zeroOf (fType f)).
Proof.
  intros Hf. apply elem_of_list_to_map_1.
  - rewrite <- list_fmap_compose. apply fields_NoDup.
  - apply (list_elem_of_fmap_2 (fun f => (fName f, zeroOf (fType f)))), Hf.
Qed.

Lemma flagFields_NoDup : NoDup (snd <$> flagFields).
Proof. refine (bool_decide_unpack _ _). vm_compute. exact I. Qed.

(** Flags hold values of the type they are declared with. *)
Definition flagTyped (passed : gmap string Value) : Prop := forall name v, passed !! name = Some v ->
  exists t, flagType name = Some t /\ typeOf v = match t with FlagBool => TBool | FlagString => TString end.

Lemma parseFlags_typed args passed passed' : flagTyped passed -> parseFlags args passed = Some passed' -> flagTyped passed'.
Proof.
  assert (forall n (args : list string), (length args <= n)%nat -> forall passed, flagTyped passed ->
    parseFlags args passed = Some passed' -> flagTyped passed') as H; [|by apply (H (length args))].
  clear. induction n as [|n IH]; intros [|arg args] Hn passed Hp; simpl in *; try lia; try (by intros [= <-]).
  assert (forall name t v, flagType name = Some t -> typeOf v = match t with FlagBool => TBool | FlagString => TString end ->
    flagTyped (<[name := v]> passed)) as Hi.
  { intros name t v Ht Hv name' v'. destruct (decide (name = name')) as [<-|Hne].
    - rewrite lookup_insert_eq. intros [= <-]. eauto.
    - rewrite lookup_insert_ne by done. apply Hp. }
  destruct (readArg arg) as [|name value|]; [by intros [= <-]| |done].
  destruct (flagType name) as [[]|] eqn:Et; [| |done].
  - destruct value as [v|]; [destruct (ParseBool v); [|done]|]; (apply IH; [lia|]; by eapply Hi).
  - destruct value as [v|]; [apply IH; [lia|]; by eapply Hi|]. destruct args as [|v args]; [done|].
    simpl in Hn. apply IH; [lia|]. by eapply Hi.
Qed.

(** The field that a flag sets has the flag's type. *)
Lemma flagFields_typed ff : ff ∈ flagFields -> forall t, flagType ff.1 = Some t ->
  forall f, f ∈ fields -> fName f = ff.2 -> fType f = match t with FlagBool => TBool | FlagString => TString end.
Proof.
  assert (Forall (fun ff => Forall (fun f => fName f = ff.2 ->
    Some (fType f) = (fun t => match t with FlagBool => TBool | FlagString => TString end) <$> flagType ff.1) fields) flagFields) as H.
  { refine (bool_decide_unpack _ _). vm_compute. exact I. }
  intros Hff t Ht f Hf E. rewrite list.Forall_forall in H. specialize (H ff Hff). rewrite list.Forall_forall in H.
  specialize (H f Hf E). rewrite Ht in H. by injection H.
Qed.

#[local] Opaque DefaultConfigSettings fields flagFields.

Section readers_props.
Context {CR : ConfigReaders}.

Definition configFile (passed : gmap string Value) (configPath : string) : option (list Z) :=
  let path := match passed !! "configPath"%string with
              | Some (VString s) => if String.eqb s EmptyString then configPath else s
              | _ => configPath
              end in
  match ReadFile path with Ok b => Some b | _ => None end.

(** A flag comes before the environment, the environment before the file. *)
Definition chosen (passed : gmap string Value) (configPath : string) (f : Field) : Value :=
  match flagOf passed (fName f) with
  | Some v => v
  | None =>
      match envField (fEnv f) (fType f) with
      | Some v => toValue (fType f) v
      | None =>
          match configFile passed configPath ≫= (fun b => jsonField b (fJson f) (fType f)) with
          | Some v => toValue (fType f) v
          | None => zeroOf (fType f)
          end
      end
  end.

Definition settingOf (passed : gmap string Value) (configPath : string) (c : Config) (f : Field) : Value :=
  if decide (fName f = "MainServerAddress")%string then VString ("0.0.0.0:" +:+ stringField c "HttpServerPort")
  else if decide (fName f = "P2PListenAddress")%string then VString "/ip4/0.0.0.0/tcp/1080"
  else chosen passed configPath f.

Lemma assign_field value c f : f ∈ fields ->
  assign value c !! fName f = match value f with Some v => Some (toValue (fType f) v) | None => c !! fName f end.
Proof.
  intros Hf. unfold assign.
  assert (forall l c, foldl (fun c f => match value f with Some v => <[fName f := toValue (fType f) v]> c | None => c end) c l =
    foldl (fun c f => match toValue (fType f) <$> value f with Some v => <[fName f := v]> c | None => c end) c l) as ->.
  { induction l as [|g l IH]; intros c'; [done|]. simpl. by destruct (value g). }
  rewrite (foldl_insert_elem fName (fun f => toValue (fType f) <$> value f)) by (done || apply fields_NoDup).
  by destruct (value f).
Qed.

Lemma flagOf_cases passed name :
  (exists ff, ff ∈ flagFields /\ ff.2 = name /\ flagOf passed name = passed !! ff.1) \/
  ((name ∉ snd <$> flagFields) /\ flagOf passed name = None).
Proof.
  unfold flagOf. destruct (list_find _ flagFields) as [[i ff]|] eqn:E.
  - apply list_find_Some in E as (Hi & Hff & _). left. exists ff. split_and!; [by eapply list_elem_of_lookup_2|done|done].
  - right. split; [|done]. apply list_find_None in E. rewrite list.Forall_forall in E.
    intros (ff & -> & Hff)%list_elem_of_fmap. by apply (E ff).
Qed.

Lemma flags_field passed c d name :
  mergeWithFlags passed c (createConfigWithFlags passed d).1 !! name =
  match flagOf passed name with Some v => Some v | None => c !! name end.
Proof.
  set (fc := (createConfigWithFlags passed d).1).
  set (val := fun ff : string * string => if decide (is_Some (passed !! ff.1)) then fc !! ff.2 else None).
  assert (forall l (c : Config), foldl (fun c ff => if decide (is_Some (passed !! ff.1)) then
                       (match fc !! ff.2 with Some v => <[ff.2 := v]> c | None => c end) else c) c l =
    foldl (fun c ff => match val ff with Some v => <[ff.2 := v]> c | None => c end) c l) as E.
  { induction l as [|ff l IH]; intros c'; [done|]. cbn [foldl]. rewrite IH. f_equal. unfold val.
    by destruct (decide (is_Some (passed !! ff.1))). }
  unfold mergeWithFlags. rewrite E. clear E.
  destruct (flagOf_cases passed name) as [(ff & Hff & <- & ->)|[Hn ->]]; [|by rewrite (foldl_insert_other snd)].
  rewrite (foldl_insert_elem snd val) by (done || apply flagFields_NoDup). unfold val, fc, createConfigWithFlags. cbn [fst].
  rewrite (foldl_insert_elem snd (fun ff => passed !! ff.1)) by (done || apply flagFields_NoDup).
  case_decide as Hs; destruct (passed !! ff.1); try done. by destruct Hs.
Qed.

Lemma chosen_typed passed configPath f : flagTyped passed -> f ∈ fields -> typeOf (chosen passed configPath f) = fType f.
Proof.
  intros Hp Hf. unfold chosen. destruct (flagOf passed (fName f)) as [v|] eqn:E.
  - destruct (flagOf_cases passed (fName f)) as [(ff & Hff & Hn & E')|[_ E']]; rewrite E in E'; [|done].
    symmetry in E'. destruct (Hp _ _ E') as (t & Ht & ->). symmetry. by apply (flagFields_typed ff).
  - destruct (envField _ _) as [v|]; [by destruct (fType f)|].
    destruct (_ ≫= _) as [v|]; by destruct (fType f).
Qed.

(** Every field of a loaded configuration. *)
Lemma loaded_field args configPath c lvl : LoadConfig args configPath = Some (c, lvl) ->
  exists passed, parseFlags args ∅ = Some passed /\ forall f, f ∈ fields ->
    c !! fName f = Some (settingOf passed configPath c f) /\ typeOf (settingOf passed configPath c f) = fType f.
Proof.
  unfold LoadConfig. destruct (parseFlags args ∅) as [passed|] eqn:Ep; [|done]. cbn [mbind option_bind].
  assert (flagTyped passed) as Hp by (eapply parseFlags_typed; [|exact Ep]; intros ? ?; by rewrite lookup_empty).
  rewrite (surjective_pairing (createConfigWithFlags passed DefaultConfigSettings)).
  set (flagConf := (createConfigWithFlags passed DefaultConfigSettings).1).
  set (path := if String.eqb _ EmptyString then configPath else _).
  set (conf := mergeWithFlags _ _ _). intros [= <- _]. exists passed. split; [done|].
  assert (forall f, f ∈ fields -> conf !! fName f = Some (chosen passed configPath f)) as Hc.
  { intros f Hf. unfold conf, flagConf. rewrite flags_field. unfold chosen. destruct (flagOf passed (fName f)); [done|]. unfold envParse. rewrite assign_field by done.
    destruct (envField _ _); [done|]. unfold readAndMarshallJSONConfig, configFile.
    assert (path = match passed !! "configPath"%string with
              | Some (VString s) => if String.eqb s EmptyString then configPath else s | _ => configPath end) as <-.
    { unfold path, createConfigWithFlags. cbn [snd]. by destruct (passed !! "configPath"%string) as [[]|]. }
    destruct (ReadFile path) as [b| |]; cbn [mbind option_bind]; [rewrite assign_field by done|by rewrite default_field..].
    destruct (jsonField _ _ _); [done|]. by rewrite default_field. }
  intros f Hf. split.
  - unfold settingOf. destruct (decide (fName f = "P2PListenAddress")%string) as [->|H2].
    { by rewrite lookup_insert_eq. }
    rewrite lookup_insert_ne by done. destruct (decide (fName f = "MainServerAddress")%string) as [->|H1].
    { rewrite lookup_insert_eq. do 2 f_equal. unfold stringField at 2. rewrite !lookup_insert_ne by done.
      destruct (stringField conf "ProvidedIPAddress" =? "")%string; [done|]. by rewrite !lookup_insert_ne by done. }
    rewrite lookup_insert_ne by done. destruct (stringField conf "ProvidedIPAddress" =? "")%string; [by apply Hc|].
    rewrite !lookup_insert_ne by done. by apply Hc.
  - unfold settingOf. case_decide as H1; [|case_decide as H2].
    + assert (Forall (fun f => fName f = "MainServerAddress"%string -> fType f = TString) fields) as H
        by (refine (bool_decide_unpack _ _); vm_compute; exact I).
      rewrite list.Forall_forall in H. by rewrite (H f).
    + assert (Forall (fun f => fName f = "P2PListenAddress"%string -> fType f = TString) fields) as H
        by (refine (bool_decide_unpack _ _); vm_compute; exact I).
      rewrite list.Forall_forall in H. by rewrite (H f).
    + by apply chosen_typed.
Qed.
End readers_props.

(** ** Settings while the node runs *)

Lemma init_field c f : f ∈ fields -> fMutable f = true ->
  InitMutableConfig c !! fName f = Some (readSetting (fType f) c (fName f)).
Proof.
  intros Hf Hm. unfold InitMutableConfig.
  set (val := fun f : Field => if fMutable f then Some (readSetting (fType f) c (fName f)) else None).
  assert (forall l (m : MutableConfig), foldl (fun m f =>
    if fMutable f then
      match fType f with
      | TString => SetS m (fName f) (GetS c (fName f))
      | TInt => SetI m (fName f) (GetI c (fName f))
      | TBool => SetB m (fName f) (GetB c (fName f))
      end
    else m) m l =
    foldl (fun m f => match val f with Some v => <[fName f := v]> m | None => m end) m l) as ->.
  { induction l as [|g l IH]; intros m; [done|]. cbn [foldl]. rewrite IH. f_equal. unfold val.
    destruct (fMutable g); [|done]. by destruct (fType g). }
  rewrite (foldl_insert_elem fName val) by (done || apply fields_NoDup). unfold val. by rewrite Hm.
Qed.

Lemma readSetting_typed t (m : MutableConfig) key v : m !! key = Some v -> typeOf v = t -> readSetting t m key = v.
Proof. intros E <-. unfold readSetting, GetS, GetI, GetB. destruct v; simpl; by rewrite E. Qed.

Lemma serve_config retrigger s req : mgConfig (mrpcServe retrigger s req).1 =
  match change req with Some (k, v) => <[k := v]> (mgConfig s) | None => mgConfig s end.
Proof.
  destruct req as [[level|]|[p|]|[[]|]]; simpl; try done; [by destruct (logLevel level)|].
  unfold setMutableConfig, setValue. by destruct (mcValueType p =? "string")%string, (mcValueType p =? "int")%string, (mcValueType p =? "bool")%string.
Qed.

Lemma served_field retrigger f reqs s v0 :
  mgConfig s !! fName f = Some v0 -> typeOf v0 = fType f -> Forall (typedFor f) reqs ->
  let v := default v0 (lastSet (fName f) reqs) in
  mgConfig (mrpcServeAll retrigger s reqs) !! fName f = Some v /\ typeOf v = fType f.
Proof.
  intros E Ht. induction reqs as [|req reqs IH] using rev_ind; [done|].
  intros [Hall Hreq]%Forall_app. apply Forall_inv in Hreq. destruct (IH Hall) as [IH1 IH2].
  unfold mrpcServeAll, lastSet. rewrite !foldl_app. cbn [foldl]. rewrite serve_config.
  fold (lastSet (fName f) reqs) (mrpcServeAll retrigger s reqs).
  destruct (change req) as [[k v]|] eqn:Ec; [|done]. destruct (decide (k = fName f)) as [->|Hne].
  - rewrite lookup_insert_eq. split; [done|]. by apply Hreq.
  - by rewrite lookup_insert_ne.
Qed.

(** C40: A loaded configuration gives every field a value of the field's type: what a flag
    passed on the command line says, else what the environment says, else the file, else the
    zero of the type, except that the two listening addresses are fixed; and a setting that
    may change is read as the last value that the management RPC has set, as long as it sets
    values of the setting's type, and as the loaded one before. *)
Theorem settings_typed `{ConfigReaders} args configPath c lvl :
  LoadConfig args configPath = Some (c, lvl) ->
  exists passed, parseFlags args ∅ = Some passed /\ forall f, f ∈ fields ->
    let v := settingOf passed configPath c f in
    c !! fName f = Some v /\ typeOf v = fType f /\
    (fMutable f = true -> forall retrigger level reqs, Forall (typedFor f) reqs ->
       readSetting (fType f) (mgConfig (mrpcServeAll retrigger (mkManaged level (InitMutableConfig c)) reqs)) (fName f) =
       default v (lastSet (fName f) reqs)).
Proof.
  intros (passed & Hp & Hf)%loaded_field. exists passed. split; [done|]. intros f Hin v.
  destruct (Hf f Hin) as [Hv Ht]. split_and!; [done..|]. intros Hm retrigger level reqs Hreqs.
  destruct (served_field retrigger f reqs (mkManaged level (InitMutableConfig c)) v) as [E1 E2]; [|done..|].
  - simpl. rewrite init_field by done. f_equal. by apply readSetting_typed.
  - by apply readSetting_typed.
Qed.

(** A request may give a setting a value of another type, which is then read as the zero:
    text in the place of a boolean switches a check off. *)
Lemma mistyped_setting retrigger s key v : let p := mkSetMutableConfigParams key "string" v 0 true in
  let r := mrpcServe retrigger s (SetMutableConfig (Some p)) in
  GetB (mgConfig r.1) key = false /\ r.2 = MrpcOk (Some (mgConfig r.1)).
Proof. simpl. unfold GetB, SetS. by rewrite lookup_insert_eq. Qed.

(** The captcha is off when its setting is. *)
Lemma captcha_off {A} `{GoCache} {CC : CaptchaConfig} {MCC : MiddlewareCodecs} (m : MutableConfig) (next : Handler (A := A)) :
  JRPCAuth = GetB m "JRPCAuth" -> GetB m "JRPCAuth" = false ->
  forall now r cx c, authMiddleware next now r cx c = next now r cx c.
Proof. intros E Hb now r cx c. unfold authMiddleware. by rewrite E, Hb. Qed.

(** The address that is passed is not used. *)
Lemma address_ignored `{ConfigReaders} args configPath c lvl :
  LoadConfig args configPath = Some (c, lvl) ->
  stringField c "MainServerAddress" = "0.0.0.0:" +:+ stringField c "HttpServerPort" /\
  stringField c "P2PListenAddress" = "/ip4/0.0.0.0/tcp/1080".
Proof.
  intros (passed & _ & Hf)%loaded_field.
  destruct (Hf (mkField "MainServerAddress" TString "mainServerAddress" "MAIN_SERVER_ADDRESS" false)) as [E1 _];
    [refine (bool_decide_unpack _ _); vm_compute; exact I|].
  destruct (Hf (mkField "P2PListenAddress" TString "p2plistenaddress" "P2P_LISTEN_ADDRESS" false)) as [E2 _];
    [refine (bool_decide_unpack _ _); vm_compute; exact I|].
  cbn [fName] in E1, E2. split; [unfold stringField at 1; by rewrite E1|unfold stringField; by rewrite E2].
Qed.

(** ** A configuration *)

Module ConfigToy.

(** A file that gives the port and the log's level, and an environment that turns the
    captcha on. *)
Definition ctoy_readers : ConfigReaders := {|
  ReadFile path := if (path =? "/config.json")%string then Ok [1] else Err "no such file";
  jsonField b tag t :=
    match t with
    | TString => if (tag =? "httpServerPort")%string then Some "8000"%string
                 else if (tag =? "loglevel")%string then Some "info"%string else None
    | _ => None
    end;
  envField tag t :=
    match t with
    | TBool => if (tag =? "JRPC_AUTH")%string then Some true else None
    | TString => if (tag =? "HTTP_SERVER_PORT")%string then Some "9000"%string else None
    | TInt => None
    end;
|}.
#[local] Existing Instance ctoy_readers.

Definition ctoy_args : list string := ["-register=false"; "--ipAddress"; "10.0.0.1"; "-debug"; "--"; "-nonsense"]%string.

Definition ctoy_loaded : option (Config * Z) := LoadConfig ctoy_args "/config.json".
Definition ctoy_config : Config := from_option fst ∅ ctoy_loaded.

Definition ctoy_off : mrpcRequest := SetMutableConfig (Some (mkSetMutableConfigParams "JRPCAuth" "bool" EmptyString 0 false)).
Definition ctoy_on : mrpcRequest := SetMutableConfig (Some (mkSetMutableConfigParams "JRPCAuth" "bool" EmptyString 0 true)).
Definition ctoy_text : mrpcRequest := SetMutableConfig (Some (mkSetMutableConfigParams "JRPCAuth" "string" "true" 0 true)).

Definition ctoy_managed (reqs : list mrpcRequest) : Managed :=
  mrpcServeAll None (mkManaged 4 (InitMutableConfig ctoy_config)) reqs.

(** The environment comes before the file, the arguments after the two minuses are not
    flags, and the address of the flag is kept but not listened on. *)
Example ctoy_reads :
  ((fun cl => (((fun k => cl.1 !! k) <$> ["HttpServerPort"; "ShouldRegister"; "IsDebug"; "ProvidedIPAddress"; "MainServerAddress"; "BasePath"]%string), cl.2)) <$> ctoy_loaded) =
  Some ([Some (VString "9000"); Some (VBool false); Some (VBool true); Some (VString "10.0.0.1"); Some (VString "0.0.0.0:9000"); Some (VString "")], 4) /\
  LoadConfig ["-nonsense"%string] "/config.json" = None.
Proof. split; vm_compute; reflexivity. Qed.

Lemma ctoy_loaded_eq : LoadConfig ctoy_args "/config.json" = Some (ctoy_config, 4).
Proof.
  assert (snd <$> ctoy_loaded = Some 4) as E by (vm_compute; reflexivity).
  unfold ctoy_config, ctoy_loaded in *. destruct (LoadConfig _ _) as [[c l]|]; [|done]. cbn in *. by injection E as ->.
Qed.

Example ctoy_switches : GetB (mgConfig (ctoy_managed [])) "JRPCAuth" = true /\
  GetB (mgConfig (ctoy_managed [ctoy_off; ctoy_on])) "JRPCAuth" = true /\
  GetB (mgConfig (ctoy_managed [ctoy_text])) "JRPCAuth" = false.
Proof. split_and!; vm_compute; reflexivity. Qed.

Definition ctoy_field : Field := mkField "JRPCAuth" TBool "jrpcAuth" "JRPC_AUTH" true.

Lemma settings_typed_witness : exists passed, parseFlags ctoy_args ∅ = Some passed /\
  ctoy_config !! "JRPCAuth"%string = Some (settingOf passed "/config.json" ctoy_config ctoy_field) /\
  VBool (GetB (mgConfig (ctoy_managed [ctoy_on; ctoy_off])) "JRPCAuth") = VBool false.
Proof.
  destruct (settings_typed ctoy_args "/config.json" ctoy_config 4 ctoy_loaded_eq) as (passed & Hp & Hf).
  exists passed. split; [exact Hp|].
  assert (ctoy_field ∈ fields) as Hin by (refine (bool_decide_unpack _ _); vm_compute; exact I).
  destruct (Hf ctoy_field Hin) as (Hv & Ht & Hs). split; [exact Hv|].
  etrans; [apply (Hs eq_refl None 4 [ctoy_on; ctoy_off])|reflexivity].
  repeat constructor; intros v [= <-]; reflexivity.
Defined.

End ConfigToy.
