(* ===== verification/P2p.v ===== *)
(** Messages between nodes (src/dkgnode/p2p.go and ping.go): how a node makes,
    signs, sends and authenticates the messages that the transports of the
    protocols exchange, and the ping that checks a new peer.

    libp2p and the multiaddress library are parameters; so is what the service
    asks the Ethereum service, whose file gives an instance.  A stream is what was
    read from it, or the error of reading.  What leaves the node is an action. *)
From Stdlib Require Import ZArith.
From stdpp Require Import gmap strings.
From S2P Require Import Prelude BigInt Curve Pvss Effects.

(** ** Parameters *)

(** libp2p and its multiaddresses; a peer id is its bytes. *)
Class LibP2P := {
  Multiaddr : Type;
  NewMultiaddr : string -> res Multiaddr;
  ValueForIPFS : Multiaddr -> res string;
  MultiaddrString : Multiaddr -> string;
  IDB58Encode : string -> string;
  IDB58Decode : string -> res string;
}.

(** What the service asks of the Ethereum service, and whether writing to a
    stream of a peer fails. *)
Class P2pNode := {
  GetSelfPublicKey : res Point;
  SelfSignData : list Z -> res (list Z);
  VerifyDataWithNodelist : Point -> list Z -> list Z -> res Node;
  streamFails : string -> string -> option string;
}.

(** ** Data *)

Definition p2pMessageVersion : string := "0.0.11".

Record P2PBasicMsgRaw := mkP2PBasicMsgRaw {
  rwTimestamp : Z;
  rwId : string;
  rwGossip : bool;
  rwNodeId : string;
  rwNodePubKey : list Z;
  rwSign : list Z;
  rwMsgType : string;
  rwPayload : list Z;
}.

Record P2PBasicMsg := mkP2PBasicMsg {
  bmVersion : string;
  bmTimestamp : Z;
  bmId : string;
  bmGossip : bool;
  bmNodeId : string;
  bmNodePubKey : list Z;
  bmSign : list Z;
  bmMsgType : string;
  bmPayload : list Z;
}.

Record PingMessage := mkPingMessage { pgMessage : string }.

Definition CreateP2PBasicMsg (r : P2PBasicMsgRaw) : P2PBasicMsg :=
  mkP2PBasicMsg p2pMessageVersion (rwTimestamp r) (rwId r) (rwGossip r) (rwNodeId r) (rwNodePubKey r)
    (rwSign r) (rwMsgType r) (rwPayload r).

Definition SetSign (msg : P2PBasicMsg) (sig : list Z) : P2PBasicMsg :=
  mkP2PBasicMsg (bmVersion msg) (bmTimestamp msg) (bmId msg) (bmGossip msg) (bmNodeId msg)
    (bmNodePubKey msg) sig (bmMsgType msg) (bmPayload msg).

(** The variable a failed cast leaves. *)
Definition P2PBasicMsgZero : P2PBasicMsg :=
  mkP2PBasicMsg EmptyString 0 EmptyString false EmptyString [] [] EmptyString [].

Class P2pCodecs := {
  codec_p2p_msg :: Codec P2PBasicMsg;
  codec_ping_message :: Codec PingMessage;
}.

(** What the service leaves to the host and the event bus. *)
Inductive P2pAction :=
  | WriteStream (peerID protocol : string) (data : list Z)
  | Publish (topic : string) (msg : P2PBasicMsg).

(** [p2pPeers] is the host's peer store, [p2pHandlers] the protocols whose streams
    are forwarded, [p2pRequests] the pings that have no response yet. *)
Record P2PService `{LibP2P} := mkP2PService {
  p2pHostID : string;
  p2pHostAddress : option Multiaddr;
  p2pPeers : list string;
  p2pHandlers : gset string;
  p2pRequests : gmap string P2PBasicMsg;
}.

Definition setPeers `{LibP2P} (p : P2PService) (l : list string) : P2PService :=
  mkP2PService _ (p2pHostID p) (p2pHostAddress p) l (p2pHandlers p) (p2pRequests p).
Definition setHandlers `{LibP2P} (p : P2PService) (h : gset string) : P2PService :=
  mkP2PService _ (p2pHostID p) (p2pHostAddress p) (p2pPeers p) h (p2pRequests p).
Definition setRequests `{LibP2P} (p : P2PService) (r : gmap string P2PBasicMsg) : P2PService :=
  mkP2PService _ (p2pHostID p) (p2pHostAddress p) (p2pPeers p) (p2pHandlers p) r.

Definition pingRequest : string := "/ping/pingreq/0.0.1".
Definition pingResponse : string := "/ping/pingresp/0.0.1".

(** Private keys are handed to libp2p in 32 bytes. *)
Definition padPrivKeyBytes (kBytes : list Z) : list Z :=
  if Nat.ltb (length kBytes) 32 then replicate (32 - length kBytes) 0 ++ kBytes else kBytes.

Section p2p.
Context {SO : Secp256k1} {TC : TorusCrypto} {LP : LibP2P} {PN : P2pNode} {PCD : P2pCodecs}.
Context {CP : Codec Point}.

Definition errP2pUnmarshal : string := "bijson: could not unmarshal".

Definition p2pUnmarshal {A} `{Codec A} (data : list Z) : res A :=
  match Unmarshal data with Some a => Ok a | None => Err errP2pUnmarshal end.

(** utils.go *)
Definition GetPeerIDFromP2pListenAddress (p2pListenAddress : string) : res string :=
  ipfsaddr ← NewMultiaddr p2pListenAddress;
  pid ← ValueForIPFS ipfsaddr;
  IDB58Decode pid.

(** The first six hexadecimal digits of the hash. *)
Definition HashToString (bytes : list Z) : string := unchars (take 6 (chars (HexEncode (Keccak256 bytes)))).

(** ** Making and authenticating messages (p2p.go) *)

(** The message without its signature; a failed serialisation gives nil. *)
Definition GetSerializedBody (msg : P2PBasicMsg) : list Z := default [] (Marshal (SetSign msg [])).

Definition authenticateMessage (data : P2PBasicMsg) : res unit :=
  pk ← p2pUnmarshal (bmNodePubKey data);
  _ ← VerifyDataWithNodelist pk (bmSign data) (GetSerializedBody data);
  Ok tt.

(** The epoch is not used, nor is anything verified. *)
Definition authenticateMessageInEpoch (data : P2PBasicMsg) (epoch : Z) : res unit :=
  pk ← p2pUnmarshal (A := Point) (bmNodePubKey data); Ok tt.

Definition signP2PMessage (message : P2PBasicMsg) : res (list Z) :=
  data ← marshal message; SelfSignData data.

Definition verifySigOnMsg (data signature rawPubKey : list Z) : res unit :=
  match Unmarshal rawPubKey with
  | None => Err "Could not unmarshall NodePubKey when verifyDataWithNodelist"
  | Some pk => if VerifyPtFromRaw data pk signature then Ok tt else Err "invalid ecdsa sig in verifySigOnMsg"
  end.

(** A key that does not serialise leaves the field nil. *)
Definition NewP2PMessage (now : Z * Z) (p : P2PService) (messageId : string) (gossip : bool)
    (payload : list Z) (msgType : string) : res P2PBasicMsg :=
  ptPk ← GetSelfPublicKey;
  Ok (CreateP2PBasicMsg
        (mkP2PBasicMsgRaw (fst now) messageId gossip (IDB58Encode (p2pHostID p)) (default [] (Marshal ptPk))
           [] msgType payload)).

(** Whether the message left the node, or the error. *)
Definition sendP2PMessage (id protocol : string) (msg : P2PBasicMsg) : list P2pAction * option string :=
  match Marshal msg with
  | None => ([], Some errMarshal)
  | Some data =>
      match streamFails id protocol with
      | Some e => ([], Some e)
      | None => ([WriteStream id protocol data], None)
      end
  end.

(** The handler [ForwardP2PToEventBus] sets for a protocol. *)
Definition forwardStream (proto : string) (buf : res (list Z)) : list P2pAction :=
  match buf with
  | Ok buf =>
      match p2pUnmarshal buf with
      | Ok p2pMsg =>
          match authenticateMessage p2pMsg with
          | Ok _ => [Publish ("p2p:forward:" +:+ proto) p2pMsg]
          | _ => []
          end
      | _ => []
      end
  | _ => []
  end.

Definition ForwardP2PToEventBus (p : P2PService) (proto : string) : P2PService :=
  setHandlers p ({[proto]} ∪ p2pHandlers p).
Definition StopForwardP2PToEventBus (p : P2PService) (proto : string) : P2PService :=
  setHandlers p (p2pHandlers p ∖ {[proto]}).

(** A stream a peer opens reaches the handler of its protocol, if there is one. *)
Definition incomingStream (p : P2PService) (proto : string) (buf : res (list Z)) : list P2pAction :=
  if decide (proto ∈ p2pHandlers p) then forwardStream proto buf else [].

(** ** Ping (ping.go) *)

(** The new message with its signature. *)
Definition signedMessage (now : Z * Z) (p : P2PService) (messageId : string) (payload : list Z)
    (msgType : string) : res P2PBasicMsg :=
  msg ← NewP2PMessage now p messageId false payload msgType;
  signature ← signP2PMessage msg;
  Ok (SetSign msg signature).

Definition Ping (now : Z * Z) (uuid : string) (p : P2PService) (peerID : string)
    : P2PService * list P2pAction * res unit :=
  match Marshal (mkPingMessage ("Ping from " +:+ IDB58Encode (p2pHostID p))) with
  | None => (p, [], Err "Failed marshal ping")
  | Some pBytes =>
      match signedMessage now p uuid pBytes EmptyString with
      | Panic => (p, [], Panic)
      | Err e => (p, [], Err ("Failed to sign pb data: " +:+ e))
      | Ok req =>
          match sendP2PMessage peerID pingRequest req with
          | (acts, Some e) => (p, acts, Err ("Failed to send proto message: " +:+ e))
          | (acts, None) => (setRequests p (<[bmId req := req]> (p2pRequests p)), acts, Ok tt)
          end
      end
  end.

(** [verifySigOnMsg] of a message by the key it carries. *)
Definition verifyOwnSig (data : P2PBasicMsg) : res unit :=
  verifySigOnMsg (GetSerializedBody data) (bmSign data) (bmNodePubKey data).

Definition onPingRequest (now : Z * Z) (p : P2PService) (remotePeer : string) (buf : res (list Z))
    : list P2pAction :=
  match (buf ← buf;
         data ← p2pUnmarshal buf;
         _ ← verifyOwnSig data;
         pingBytes ← marshal (mkPingMessage ("Ping response from " +:+ IDB58Encode (p2pHostID p)));
         signedMessage now p (bmId data) pingBytes EmptyString) with
  | Ok resp => fst (sendP2PMessage remotePeer pingResponse resp)
  | _ => []
  end.

Definition onPingResponse (p : P2PService) (buf : res (list Z)) : P2PService :=
  match (buf ← buf;
         data ← p2pUnmarshal buf;
         _ ← verifyOwnSig data;
         ping ← p2pUnmarshal (A := PingMessage) (bmPayload data);
         Ok data) with
  | Ok data =>
      match p2pRequests p !! bmId data with
      | Some _ => setRequests p (delete (bmId data) (p2pRequests p))
      | None => p
      end
  | _ => p
  end.

(** A peer that is not known yet is added and pinged.  The address of the peer and
    its id are only read to fill the address book; an address that does not parse
    is nil, and taking it apart panics. *)
Definition ConnectToP2PNode (now : Z * Z) (uuid : string) (p : P2PService) (nodeP2PConnection nodePeerID : string)
    : P2PService * list P2pAction * res unit :=
  let peerAdded := bool_decide (nodePeerID ∈ p2pPeers p) in
  if bool_decide (nodePeerID <> p2pHostID p) && negb peerAdded then
    match NewMultiaddr nodeP2PConnection with
    | Ok _ => Ping now uuid (setPeers p (p2pPeers p ++ [nodePeerID])) nodePeerID
    | _ => (p, [], Panic)
    end
  else (p, [], Ok tt).

(** ** The service *)

Inductive p2pRequest :=
  | p2p_id
  | set_stream_handler (proto : string)
  | remove_stream_handler (proto : string)
  | authenticate_message (msg : P2PBasicMsg)
  | authenticate_message_in_epoch (msg : P2PBasicMsg) (epoch : Z)
  | new_p2p_message (messageId : string) (gossip : bool) (payload : list Z) (msgType : string)
  | sign_p2p_message (msg : P2PBasicMsg)
  | send_p2p_message (id protocol : string) (msg : P2PBasicMsg)
  | connect_to_p2p_node (nodeP2PConnection nodePeerID : string)
  | get_host_address.

Inductive p2pData :=
  | P2pNil
  | P2pID (id : string)
  | P2pTrue
  | P2pMsg (msg : P2PBasicMsg)
  | P2pBytes (b : list Z)
  | P2pAddress (s : string).

Definition p2pRes {A} (m : res A) (f : A -> p2pData) : res p2pData :=
  match m with Ok a => Ok (f a) | Err e => Err e | Panic => Panic end.

(** The dispatch of [P2PService.Call]; [now] and [uuid] are drawn when the request
    is served. *)
Definition P2PService_Call (now : Z * Z) (uuid : string) (p : P2PService) (req : p2pRequest)
    : P2PService * list P2pAction * res p2pData :=
  match req with
  | p2p_id => (p, [], Ok (P2pID (p2pHostID p)))
  | set_stream_handler proto => (ForwardP2PToEventBus p proto, [], Ok P2pTrue)
  | remove_stream_handler proto => (StopForwardP2PToEventBus p proto, [], Ok P2pTrue)
  | authenticate_message msg => (p, [], p2pRes (authenticateMessage msg) (fun _ => P2pNil))
  | authenticate_message_in_epoch msg epoch =>
      (p, [], p2pRes (authenticateMessageInEpoch msg epoch) (fun _ => P2pNil))
  | new_p2p_message messageId gossip payload msgType =>
      (p, [], p2pRes (NewP2PMessage now p messageId gossip payload msgType) P2pMsg)
  | sign_p2p_message msg => (p, [], p2pRes (signP2PMessage msg) P2pBytes)
  | send_p2p_message id protocol msg =>
      let '(acts, e) := sendP2PMessage id protocol msg in
      (p, acts, match e with Some e => Err e | None => Ok P2pNil end)
  | connect_to_p2p_node conn peerID =>
      let '(p, acts, r) := ConnectToP2PNode now uuid p conn peerID in (p, acts, p2pRes r (fun _ => P2pNil))
  | get_host_address =>
      (p, [], match p2pHostAddress p with
              | Some a => Ok (P2pAddress (MultiaddrString a))
              | None => Err "hostAddress not initialized"
              end)
  end.

End p2p.
