(* ===== verification/PssTypes.v ===== *)
(** The identifiers and messages of the proactive secret sharing
    (src/pss/types.go).  A sharing id carries the parameters of both epochs and
    the id of the key; every dealer of a sharing has a PSS id of its own. *)
From Stdlib Require Import ZArith.
From stdpp Require Import gmap strings.
From S2P Require Import Prelude BigInt Field Curve Pvss Ids Effects.

Abbreviation SharingID := string (only parsing).
Abbreviation PSSKeygenID := string (only parsing).
Abbreviation PSSID := string (only parsing).
Abbreviation VID := string (only parsing).

(** ** Key ids *)

Definition GenerateKeygenID (i : Z) : PSSKeygenID := Join ["SHARING"; Text16 i] Delimiter3.

(** An id with two fields whose second is no number dereferences nil. *)
Definition KeygenID_GetIndex (keygenID : PSSKeygenID) : res Z :=
  match Split keygenID Delimiter3 with
  | [_; s] => i ← deref (SetString16 s); Ok (int64 i)
  | _ => Ok 0
  end.

(** ** Sharing ids *)

Record EpochParams := mkEpochParams {
  epochOld : Z; nOld : Z; kOld : Z; tOld : Z;
  epochNew : Z; nNew : Z; kNew : Z; tNew : Z;
}.

Definition GetSharingID (kID : PSSKeygenID) (p : EpochParams) : SharingID :=
  Join [Itoa (epochOld p); Itoa (nOld p); Itoa (kOld p); Itoa (tOld p);
        Itoa (epochNew p); Itoa (nNew p); Itoa (kNew p); Itoa (tNew p); kID] Delimiter2.

Definition GetKeygenID (sID : SharingID) : PSSKeygenID :=
  match Split sID Delimiter2 with
  | [_; _; _; _; _; _; _; _; kID] => kID
  | _ => EmptyString
  end.

Definition atoiErr (s : string) : res Z :=
  match Atoi s with
  | Some x => Ok x
  | None => Err "strconv.Atoi: parsing"
  end.

Definition GetEpochParams (sID : SharingID) : res EpochParams :=
  match Split sID Delimiter2 with
  | [s0; s1; s2; s3; s4; s5; s6; s7; _] =>
      a ← atoiErr s0; b ← atoiErr s1; c ← atoiErr s2; d ← atoiErr s3;
      e ← atoiErr s4; f ← atoiErr s5; g ← atoiErr s6; h ← atoiErr s7;
      Ok (mkEpochParams a b c d e f g h)
  | _ => Err "could not split sharingID"
  end.

(** ** PSS ids *)

Record PSSIDDetails := mkPSSIDDetails { pidSharingID : SharingID; pidDealerIndex : Z }.

Definition NullPSSID : PSSID := EmptyString.
Definition PSSIDDetailsZero : PSSIDDetails := mkPSSIDDetails EmptyString 0.

Definition ToPSSID (d : PSSIDDetails) : PSSID :=
  Join [pidSharingID d; Itoa (pidDealerIndex d)] Delimiter1.

(** The fields as they are left, and the error if any: the sharing id is stored
    before the dealer index is parsed. *)
Definition FromPSSID (d : PSSIDDetails) (pssID : PSSID) : PSSIDDetails * option string :=
  match Split pssID Delimiter1 with
  | [s0; s1] =>
      match Atoi s1 with
      | Some index => (mkPSSIDDetails s0 index, None)
      | None => (mkPSSIDDetails s0 (pidDealerIndex d), Some "strconv.Atoi: parsing"%string)
      end
  | _ => (d, Some "Error parsing PSSIDDetails, too few fields"%string)
  end.

(** types.go repeats the node ids of the key generation word for word. *)
Definition ToNodeDetailsID (n : Node) : NodeDetailsID := Ids.ToNodeDetailsID n.
Definition FromNodeDetailsID (n : Node) (nodeDetailsID : NodeDetailsID) : Node :=
  Ids.FromNodeDetailsID n nodeDetailsID.

(** ** Messages *)

Record PSSMessage := mkPSSMessage {
  pmVersion : string;
  pmPSSID : PSSID;
  pmMethod : string;
  pmData : list Z;
}.

Definition NodeVersion : string := "0.0.11".

Definition CreatePSSMessage (id : PSSID) (method : string) (data : list Z) : PSSMessage :=
  mkPSSMessage NodeVersion id method data.

Record PSSMsgShare := mkPSSMsgShare { pshSharingID : SharingID }.
Record PSSMsgRecover := mkPSSMsgRecover { prcSharingID : SharingID; prcV : list Point }.

Record PSSMsgSend := mkPSSMsgSend {
  psnPSSID : PSSID;
  psnC : list (list Point);
  psnA : list Z;
  psnAprime : list Z;
  psnB : list Z;
  psnBprime : list Z;
}.

Record PSSMsgEcho := mkPSSMsgEcho {
  pecPSSID : PSSID;
  pecC : list (list Point);
  pecAlpha : Z;
  pecAlphaprime : Z;
  pecBeta : Z;
  pecBetaprime : Z;
}.

Record PSSMsgReady := mkPSSMsgReady {
  prdPSSID : PSSID;
  prdC : list (list Point);
  prdAlpha : Z;
  prdAlphaprime : Z;
  prdBeta : Z;
  prdBetaprime : Z;
  prdSignedText : list Z;
}.

Record PSSMsgComplete := mkPSSMsgComplete { pcmPSSID : PSSID; pcmC00 : Point }.

Record PSSMsgPropose := mkPSSMsgPropose {
  pprNodeDetailsID : NodeDetailsID;
  pprSharingID : SharingID;
  pprPSSs : list PSSID;
  pprSignedTexts : list (gmap NodeDetailsID (list Z));
}.

Record PSSMsgDecide := mkPSSMsgDecide { pdcSharingID : SharingID; pdcPSSs : list PSSID }.

Section vid.
Context {SO : Secp256k1}.

(** No separators at all between the coordinates. *)
Definition GetVIDFromPointArray (ptArr : list Point) : VID :=
  HexEncode (Keccak256 (concat ((fun pt => Bytes (PX pt) ++ Bytes (PY pt)) <$> ptArr))).

End vid.

(** ** Round trips *)

Lemma GetEpochParams_GetSharingID kID p :
  in_int64 (epochOld p) -> in_int64 (nOld p) -> in_int64 (kOld p) -> in_int64 (tOld p) ->
  in_int64 (epochNew p) -> in_int64 (nNew p) -> in_int64 (kNew p) -> in_int64 (tNew p) ->
  Delimiter2 ∉ chars kID ->
  GetEpochParams (GetSharingID kID p) = Ok p /\ GetKeygenID (GetSharingID kID p) = kID.
Proof.
  intros H1 H2 H3 H4 H5 H6 H7 H8 Hk. unfold GetEpochParams, GetKeygenID, GetSharingID.
  assert (N_of_ascii Delimiter2 <= 31)%N by (by vm_compute).
  rewrite !Split_Join by first [done|repeat constructor; auto with torus].
  unfold atoiErr. rewrite !Atoi_Itoa by done. by destruct p.
Qed.

Lemma FromPSSID_To d d0 :
  in_int64 (pidDealerIndex d) -> Delimiter1 ∉ chars (pidSharingID d) ->
  FromPSSID d0 (ToPSSID d) = (d, None).
Proof.
  intros Hi Hs. unfold FromPSSID, ToPSSID. assert (N_of_ascii Delimiter1 <= 31)%N by (by vm_compute).
  rewrite Split_Join by first [done|repeat constructor; auto with torus].
  rewrite Atoi_Itoa by done. by destruct d.
Qed.
