(* ===== verification/Pss.v ===== *)
(** The proactive secret sharing (src/pss/keygen_pss.go, with the data of
    types.go): the old nodes share their shares of a key with the new nodes, who
    agree on a set of dealers and interpolate the dealt shares to new shares of
    the same key.

    As in the key generation a handler is one atomic step; [Waiting] is the body
    of a polling loop whose condition does not hold yet.  What is collected for
    one commitment matrix (the type [C]) and how it is updated are those of
    Keygen, which keygen_pss.go repeats.  A store maps an id to [None] once it is
    completed. *)
From Stdlib Require Import ZArith.
From stdpp Require Import gmap strings.
From S2P Require Import Prelude BigInt Field Curve Pvss Avss Ecdsa Ids Effects Keygen PssTypes.

(** ** Data (types.go) *)

Record NodeNetwork := mkNodeNetwork {
  netNodes : gmap NodeDetailsID Node;
  netN : Z;
  netT : Z;
  netK : Z;
  netEpochID : Z;
}.

Record Sharing := mkSharing {
  shKeygenID : PSSKeygenID;
  shNodes : list Node;
  shEpoch : Z;
  shI : Z;
  shSi : Z;
  shSiprime : Z;
  shC : list Point;
}.

(** [rcD] is nil until K old nodes have sent the same polynomial. *)
Record Recover := mkRecover {
  rcSharingID : SharingID;
  rcD : option (list Point);
  rcDCount : gmap VID (gmap NodeDetailsID bool);
  rcPSSCompleteCount : gmap PSSID bool;
  rcSi : Z;
  rcSiprime : Z;
  rcVbar : list Point;
}.

Record PSSState := mkPSSState {
  stPhase : phaseState;
  stDealer : bool;
  stPlayer : bool;
  stReceivedSend : bool;
  stReceivedEcho : gmap NodeDetailsID bool;
  stReceivedReady : gmap NodeDetailsID bool;
}.

Record PSS := mkPSS {
  psPSSID : PSSID;
  psEpoch : Z;
  psSi : Z;
  psSiprime : Z;
  psF : list (list Z);
  psFprime : list (list Z);
  psCbar : list (list Point);
  psC : list (list Point);
  psCStore : gmap CID CRecord;
  psState : PSSState;
}.

Record PSSNode := mkPSSNode {
  pnNodeDetails : Node;
  pnOldNodes : NodeNetwork;
  pnNewNodes : NodeNetwork;
  pnNodeIndex : Z;
  pnRecoverStore : gmap SharingID (option Recover);
  pnPSSStore : gmap PSSID (option PSS);
  pnIsDealer : bool;
  pnIsPlayer : bool;
  pnStaggerDelay : Z;
}.

Record RefreshKeyStorage := mkRefreshKeyStorage {
  rkKeyIndex : Z;
  rkSi : Z;
  rkSiprime : Z;
  rkCommitmentPoly : list Point;
}.

(** What a handler leaves to goroutines.  [GoPropose] is the staggered broadcast,
    which looks at the recover of its sharing when it wakes up. *)
Inductive Action :=
  | Send (dst : Node) (msg : PSSMessage)
  | OutputText (text : string)
  | OutputRefresh (key : RefreshKeyStorage)
  | SendBroadcast (msg : PSSMessage)
  | GoPropose (msg : PSSMessage) (keyIndex : Z) (sharingID : SharingID).

(** Serialisation of every message type. *)
Class PSSCodecs := {
  codec_pss_share :: Codec PSSMsgShare;
  codec_pss_recover :: Codec PSSMsgRecover;
  codec_pss_send :: Codec PSSMsgSend;
  codec_pss_echo :: Codec PSSMsgEcho;
  codec_pss_ready :: Codec PSSMsgReady;
  codec_pss_complete :: Codec PSSMsgComplete;
  codec_pss_msg_propose :: Codec PSSMsgPropose;
  codec_pss_msg_decide :: Codec PSSMsgDecide;
}.

(** [PSSDataSource.GetSharing]; [None] is nil, and the call may panic. *)
Class PSSDataSource := { GetSharing : PSSKeygenID -> res (option Sharing) }.

(** ** Stores and constructors *)

Definition mapFromNodeList (nodeList : list Node) : gmap NodeDetailsID Node :=
  foldl (fun m n => <[PssTypes.ToNodeDetailsID n := n]> m) ∅ nodeList.

Definition NewPSSNode (nodeDetails : Node) (oldEpoch : Z) (oldNodeList : list Node) (oldNodesT oldNodesK : Z)
    (newEpoch : Z) (newNodeList : list Node) (newNodesT newNodesK nodeIndex : Z) (isDealer isPlayer : bool)
    (staggerDelay : Z) : PSSNode :=
  mkPSSNode nodeDetails
    (mkNodeNetwork (mapFromNodeList oldNodeList) (Z.of_nat (length oldNodeList)) oldNodesT oldNodesK oldEpoch)
    (mkNodeNetwork (mapFromNodeList newNodeList) (Z.of_nat (length newNodeList)) newNodesT newNodesK newEpoch)
    nodeIndex ∅ ∅ isDealer isPlayer staggerDelay.

(** The literals of [ProcessMessage]. *)
Definition newPSS (pn : PSSNode) (id : PSSID) : PSS :=
  mkPSS id 0 0 0 [] [] [] [] ∅ (mkPSSState Initial (pnIsDealer pn) (pnIsPlayer pn) false ∅ ∅).

Definition newRecover (id : SharingID) : Recover := mkRecover id None ∅ ∅ 0 0 [].

(** [PSSStoreSyncMap.Complete]: the ids of the dealers are built from the indexes
    of the new nodes. *)
Definition PSSStoreComplete (net : NodeNetwork) (store : gmap PSSID (option PSS)) (sharingID : SharingID)
    : gmap PSSID (option PSS) :=
  map_fold (fun _ v acc => <[ToPSSID (mkPSSIDDetails sharingID (NodeIndex v)) := None]> acc)
    store (netNodes net).

(** Field updates. *)
Definition setState (p : PSS) (s : PSSState) : PSS :=
  mkPSS (psPSSID p) (psEpoch p) (psSi p) (psSiprime p) (psF p) (psFprime p) (psCbar p) (psC p) (psCStore p) s.

Definition setPhase (p : PSS) (ph : phaseState) : PSS :=
  let s := psState p in
  setState p (mkPSSState ph (stDealer s) (stPlayer s) (stReceivedSend s) (stReceivedEcho s) (stReceivedReady s)).

Definition setReceivedSend (p : PSS) : PSS :=
  let s := psState p in
  setState p (mkPSSState (stPhase s) (stDealer s) (stPlayer s) true (stReceivedEcho s) (stReceivedReady s)).

Definition setReceivedEcho (id : NodeDetailsID) (p : PSS) : PSS :=
  let s := psState p in
  setState p (mkPSSState (stPhase s) (stDealer s) (stPlayer s) (stReceivedSend s)
    (<[id := true]> (stReceivedEcho s)) (stReceivedReady s)).

Definition setReceivedReady (id : NodeDetailsID) (p : PSS) : PSS :=
  let s := psState p in
  setState p (mkPSSState (stPhase s) (stDealer s) (stPlayer s) (stReceivedSend s)
    (stReceivedEcho s) (<[id := true]> (stReceivedReady s))).

Definition setDealing (p : PSS) (F Fprime : list (list Z)) (C : list (list Point)) : PSS :=
  mkPSS (psPSSID p) (psEpoch p) (psSi p) (psSiprime p) F Fprime (psCbar p) C (psCStore p) (psState p).

Definition setC (p : PSS) (cid : CID) (c : CRecord) : PSS :=
  mkPSS (psPSSID p) (psEpoch p) (psSi p) (psSiprime p) (psF p) (psFprime p) (psCbar p) (psC p)
    (<[cid := c]> (psCStore p)) (psState p).

Definition setResult (p : PSS) (Cbar : list (list Point)) (Si Siprime : Z) : PSS :=
  mkPSS (psPSSID p) (psEpoch p) Si Siprime (psF p) (psFprime p) Cbar (psC p) (psCStore p) (psState p).

Definition setPSSStore (pn : PSSNode) (s : gmap PSSID (option PSS)) : PSSNode :=
  mkPSSNode (pnNodeDetails pn) (pnOldNodes pn) (pnNewNodes pn) (pnNodeIndex pn) (pnRecoverStore pn) s
    (pnIsDealer pn) (pnIsPlayer pn) (pnStaggerDelay pn).

Definition setRecoverStore (pn : PSSNode) (s : gmap SharingID (option Recover)) : PSSNode :=
  mkPSSNode (pnNodeDetails pn) (pnOldNodes pn) (pnNewNodes pn) (pnNodeIndex pn) s (pnPSSStore pn)
    (pnIsDealer pn) (pnIsPlayer pn) (pnStaggerDelay pn).

Definition setRecover (pn : PSSNode) (id : SharingID) (r : Recover) : PSSNode :=
  setRecoverStore pn (<[id := Some r]> (pnRecoverStore pn)).

(** ** Thresholds *)

(** max(roundUp((n+t+1)/2), k), written as in the key generation. *)
Definition ecThreshold (n k t : Z) : Z := Keygen.ecThreshold n k t.

Definition netEcThreshold (net : NodeNetwork) : Z := ecThreshold (netN net) (netK net) (netT net).

(** The pause before a staggered broadcast, in milliseconds. *)
Definition stagger (pn : PSSNode) (seed : Z) : res Z :=
  if netN (pnNewNodes pn) =? 0 then Panic
  else Ok (int64 (Z.rem (int64 (seed + NodeIndex (pnNodeDetails pn))) (netN (pnNewNodes pn))
                  * pnStaggerDelay pn)).

Section handlers.
Context {SO : Secp256k1} {PC : PSSCodecs} {TR : Transport} {MR : MapRange} {DS : PSSDataSource}.

Definition rangeNewNodes (site : nat) (pn : PSSNode) : list Node :=
  snd <$> mapRange site (netNodes (pnNewNodes pn)).

(** A loop that builds messages and sends them, until one cannot be built. *)
Fixpoint sendEach (l : list (Node * res PSSMessage)) : list Action * status :=
  match l with
  | [] => ([], Returned)
  | (n, Ok msg) :: l' => let '(acts, st) := sendEach l' in (Send n msg :: acts, st)
  | (_, Err e) :: _ => ([], Errored e)
  | (_, Panic) :: _ => ([], Panicked)
  end.

Definition newPoly (pn : PSSNode) (coeff : list Z) : PrimaryPolynomial :=
  mkPrimaryPolynomial coeff (netK (pnNewNodes pn)).

(** ** The share message *)

(** What an old node sends to one new node: its slices of the dealing, and the
    public polynomial of the key. *)
Definition sendMessage (sharingID : SharingID) (sharing : Sharing) (F Fprime : list (list Z))
    (C : list (list Point)) (newNode : Node) : res PSSMessage :=
  let pssID := ToPSSID (mkPSSIDDetails sharingID (shI sharing)) in
  a ← EvaluateBivarPolyAtX F (NodeIndex newNode);
  aprime ← EvaluateBivarPolyAtX Fprime (NodeIndex newNode);
  let b := EvaluateBivarPolyAtY F (NodeIndex newNode) in
  let bprime := EvaluateBivarPolyAtY Fprime (NodeIndex newNode) in
  data ← marshal (mkPSSMsgSend pssID C (Coeff a) (Coeff aprime) (Coeff b) (Coeff bprime));
  Ok (CreatePSSMessage pssID "send" data).

Definition recoverMessage (sharingID : SharingID) (sharing : Sharing) : res PSSMessage :=
  data ← marshal (mkPSSMsgRecover sharingID (shC sharing));
  Ok (CreatePSSMessage NullPSSID "recover" data).

Definition processShare (pn : PSSNode) (msg : PSSMsgShare) (pss : PSS) (tape : Tape)
    : (PSS * Tape) * list Action * status :=
  let sharingID := pshSharingID msg in
  if decide (stPhase (psState pss) = Ended) then ((pss, tape), [], Errored "PSS has ended, ignored message")
  else if negb (stDealer (psState pss)) then
    ((pss, tape), [], Errored "PSS could not be started since the node is not a dealer")
  else run (GetSharing (GetKeygenID sharingID)) (pss, tape) (fun found => match found with
  | None => ((pss, tape), [], Errored "could not find sharing for sharingID")
  | Some sharing =>
      run (GenerateRandomBivariatePolynomial (shSi sharing) (netK (pnNewNodes pn)) tape)
        (pss, tape) (fun Ft =>
      run (GenerateRandomBivariatePolynomial (shSiprime sharing) (netK (pnNewNodes pn)) (snd Ft))
        (pss, snd Ft) (fun Fpt =>
      run (GetCommitmentMatrix (fst Ft) (fst Fpt)) (pss, snd Fpt) (fun C =>
      let pss' := setDealing pss (fst Ft) (fst Fpt) C in
      match sendEach (concat ((fun n =>
              [(n, sendMessage sharingID sharing (fst Ft) (fst Fpt) C n);
               (n, recoverMessage sharingID sharing)]) <$> rangeNewNodes 0 pn)) with
      | (acts, Returned) => ((setPhase pss' Started, snd Fpt), acts, Returned)
      | (acts, st) => ((pss', snd Fpt), acts, st)
      end)))
  end).

(** ** The recover message *)

Definition setD (r : Recover) (V : list Point) : Recover :=
  mkRecover (rcSharingID r) (Some V) (rcDCount r) (rcPSSCompleteCount r) (rcSi r) (rcSiprime r) (rcVbar r).

Definition setDCount (r : Recover) (m : gmap VID (gmap NodeDetailsID bool)) : Recover :=
  mkRecover (rcSharingID r) (rcD r) m (rcPSSCompleteCount r) (rcSi r) (rcSiprime r) (rcVbar r).

(** The sender's membership is not checked. *)
Definition countRecover (K : Z) (r : Recover) (sender : Node) (V : list Point) : Recover :=
  let vID := GetVIDFromPointArray V in
  let dCount := <[PssTypes.ToNodeDetailsID sender := true]> (default ∅ (rcDCount r !! vID)) in
  let r' := setDCount r (<[vID := dCount]> (rcDCount r)) in
  if Z.of_nat (size dCount) =? K then setD r' V else r'.

Definition processRecover (pn : PSSNode) (sender : Node) (msg : PSSMsgRecover)
    : PSSNode * list Action * status :=
  match prcV msg with
  | [] => (pn, [], Errored "Recover message commitment poly is of length 0")
  | V =>
      let id := prcSharingID msg in
      match GetOrSetIfNotComplete (pnRecoverStore pn) id (newRecover id) with
      | (store, None) => (setRecoverStore pn store, [], Returned)
      | (store, Some r) =>
          (setRecoverStore pn (<[id := Some (countRecover (netK (pnOldNodes pn)) r sender V)]> store), [], Returned)
      end
  end.

(** ** The send message *)

Definition echoMessage (pn : PSSNode) (pss : PSS) (msg : PSSMsgSend) (newNode : Node) : res PSSMessage :=
  alpha ← PolyEval (newPoly pn (psnA msg)) (NodeIndex newNode);
  alphaprime ← PolyEval (newPoly pn (psnAprime msg)) (NodeIndex newNode);
  beta ← PolyEval (newPoly pn (psnB msg)) (NodeIndex newNode);
  betaprime ← PolyEval (newPoly pn (psnBprime msg)) (NodeIndex newNode);
  data ← marshal (mkPSSMsgEcho (psnPSSID msg) (psnC msg) alpha alphaprime beta betaprime);
  Ok (CreatePSSMessage (psPSSID pss) "echo" data).

(** An unknown sender has index zero. *)
Definition processSend (pn : PSSNode) (id : PSSID) (msg : PSSMsgSend) (pss : PSS) (sender : Node)
    : PSS * list Action * status :=
  if decide (stPhase (psState pss) = Ended) then (pss, [], Errored "PSS has ended, ignored message")
  else if negb (stPlayer (psState pss)) then
    (pss, [], Errored "could not receive send message because node is not a player")
  else if stReceivedSend (psState pss) then (pss, [], Errored "Already received a send message for PSSID")
  else match FromPSSID PSSIDDetailsZero id with
  | (_, Some e) => (pss, [], Errored e)
  | (details, None) =>
      let senderID :=
        NodeIndex (default NodeZero (netNodes (pnOldNodes pn) !! PssTypes.ToNodeDetailsID sender)) in
      if negb (senderID =? pidDealerIndex details) then
        (pss, [], Errored "'Send' message was not sent by the dealer")
      else
        let pss' := setReceivedSend pss in
        run (AVSSVerifyPoly (psnC msg) (NodeIndex (pnNodeDetails pn)) (newPoly pn (psnA msg))
               (newPoly pn (psnAprime msg)) (newPoly pn (psnB msg)) (newPoly pn (psnBprime msg)))
          pss' (fun verified =>
        if negb verified then (pss', [], Errored "Could not verify polys against commitment")
        else
          let '(acts, st) := sendEach ((fun n => (n, echoMessage pn pss msg n)) <$> rangeNewNodes 1 pn) in
          (pss', acts, st))
  end.

(** ** Echo and ready *)

Definition readyText (pss : PSS) : string := Join [psPSSID pss; "ready"] Delimiter1.

Definition readyMessage (pn : PSSNode) (pss : PSS) (c : CRecord) (newNode : Node) : res PSSMessage :=
  sigBytes ← match Sign (stringBytes (readyText pss)) with
             | Some s => Ok s
             | None => Err "could not sign"
             end;
  alpha ← PolyEval (newPoly pn (cAbar c)) (NodeIndex newNode);
  alphaprime ← PolyEval (newPoly pn (cAbarprime c)) (NodeIndex newNode);
  beta ← PolyEval (newPoly pn (cBbar c)) (NodeIndex newNode);
  betaprime ← PolyEval (newPoly pn (cBbarprime c)) (NodeIndex newNode);
  data ← marshal (mkPSSMsgReady (psPSSID pss) (cC c) alpha alphaprime beta betaprime sigBytes);
  Ok (CreatePSSMessage (psPSSID pss) "ready" data).

(** Interpolate and send ready to every new node. *)
Definition sendReady (site : nat) (pn : PSSNode) (pss : PSS) (cID : CID) (c : CRecord)
    : PSS * list Action * status :=
  run (interpolateBars site c) (setC pss cID c) (fun c' =>
    let '(acts, st) := sendEach ((fun n => (n, readyMessage pn pss c' n)) <$> rangeNewNodes (site + 4) pn) in
    (setC pss cID c', acts, st)).

Definition processEcho (pn : PSSNode) (msg : PSSMsgEcho) (pss : PSS) (sender : Node)
    : PSS * list Action * status :=
  let net := pnNewNodes pn in
  if decide (stPhase (psState pss) = Ended) then (pss, [], Errored "PSS has ended, ignored message")
  else if negb (stPlayer (psState pss)) then
    (pss, [], Errored "could not receive echo message because node is not a player")
  else if decide (stReceivedEcho (psState pss) !! PssTypes.ToNodeDetailsID sender = Some true)
  then (pss, [], Errored "Already received a echo message for PSSID")
  else
    run (AVSSVerifyPoint (pecC msg) (NodeIndex sender) (NodeIndex (pnNodeDetails pn))
           (pecAlpha msg) (pecAlphaprime msg) (pecBeta msg) (pecBetaprime msg)) pss (fun verified =>
    if negb verified
    then (pss, [], Errored "Could not verify point against commitments for echo message")
    else
      let cID := GetCIDFromPointMatrix (pecC msg) in
      let c0 := default (newC cID (pecC msg)) (psCStore pss !! cID) in
      let c := countEcho
        (storePoints c0 sender (pecAlpha msg) (pecAlphaprime msg) (pecBeta msg) (pecBetaprime msg)) in
      if (cEC c =? netEcThreshold net) && (cRC c <? netK net)
      then sendReady 10 pn pss cID c
      else (setC pss cID c, [], Returned)).

(** The K+T-th ready: the sharing is complete. *)
Definition finishPSS (pn : PSSNode) (id : PSSID) (pss : PSS) (cID : CID) (c : CRecord)
    : PSS * list Action * status :=
  let pss1 := setC pss cID c in
  let pss2 := setResult pss1 (cC c) (psSi pss) (psSiprime pss) in
  run (index (cAbar c) 0) pss2 (fun Si =>
  let pss3 := setResult pss2 (cC c) Si (psSiprime pss) in
  run (index (cAbarprime c) 0) pss3 (fun Siprime =>
    let pss4 := setResult pss3 (cC c) Si Siprime in
    emit [OutputText (psPSSID pss ++ " shared.")]
      (run (C00 ← entry (cC c) 0 0; marshal (mkPSSMsgComplete id C00)) pss4 (fun data =>
        (setPhase pss4 Ended, [Send (pnNodeDetails pn) (CreatePSSMessage NullPSSID "complete" data)],
         Returned))))).

Definition processReady (pn : PSSNode) (msg : PSSMsgReady) (pss : PSS) (sender : Node)
    : PSS * list Action * status :=
  let net := pnNewNodes pn in
  if decide (stPhase (psState pss) = Ended) then (pss, [], Errored "PSS has ended, ignored message")
  else if negb (stPlayer (psState pss)) then
    (pss, [], Errored "could not receive ready message because node is not a player")
  else if decide (stReceivedReady (psState pss) !! PssTypes.ToNodeDetailsID sender = Some true)
  then (pss, [], Errored "already received a ready message for PSSID")
  else
    run (AVSSVerifyPoint (prdC msg) (NodeIndex sender) (NodeIndex (pnNodeDetails pn))
           (prdAlpha msg) (prdAlphaprime msg) (prdBeta msg) (prdBetaprime msg)) pss (fun verified =>
    if negb verified
    then (pss, [], Errored "Could not verify point against commitments for ready message")
    else
      run (ECDSAVerify (stringBytes (readyText pss)) (PubKey sender) (prdSignedText msg)) pss (fun sigValid =>
      if negb sigValid then (pss, [], Errored "Could not verify signature on message")
      else
        let cID := GetCIDFromPointMatrix (prdC msg) in
        let c0 := default (newC cID (prdC msg)) (psCStore pss !! cID) in
        let c := countReady
          (storePoints c0 sender (prdAlpha msg) (prdAlphaprime msg) (prdBeta msg) (prdBetaprime msg))
          (PssTypes.ToNodeDetailsID sender) (prdSignedText msg) in
        if (cRC c =? netK net) && (cEC c <? netEcThreshold net)
        then sendReady 20 pn pss cID c
        else if cRC c =? netK net + netT net
        then finishPSS pn (prdPSSID msg) pss cID c
        else (setC pss cID c, [], Returned))).

(** ** The complete message *)

Definition setCompleteCount (r : Recover) (m : gmap PSSID bool) : Recover :=
  mkRecover (rcSharingID r) (rcD r) (rcDCount r) m (rcSi r) (rcSiprime r) (rcVbar r).

(** [checkSufficientRecoversIfNotComplete]: the recover once its polynomial is
    agreed on, or why it is not. *)
Inductive recoverState := RecoverIn (r : Recover) (D : list Point) | RecoverCleanedUp | RecoverNotIn.

Definition checkSufficientRecovers (pn : PSSNode) (sharingID : SharingID) : recoverState :=
  match pnRecoverStore pn !! sharingID with
  | Some None => RecoverCleanedUp
  | None => RecoverNotIn
  | Some (Some r) => match rcD r with Some D => RecoverIn r D | None => RecoverNotIn end
  end.

(** The signatures of one completed sharing. *)
Definition proposeTexts (pn : PSSNode) (pssid : PSSID) : res (gmap NodeDetailsID SignedText) :=
  match pnPSSStore pn !! pssid with
  | Some (Some pss) =>
      match psCbar pss with
      | [] => Err "Could not get completed cbar"
      | cbar =>
          match psCStore pss !! GetCIDFromPointMatrix cbar with
          | None => Err "Could not get completed c"
          | Some c => Ok (cSignedTextStore c)
          end
      end
  | _ => Err "Could not get completed pss"
  end.

(** The proposal of the sharings that have completed. *)
Definition proposeSharings (pn : PSSNode) (sharingID : SharingID) (r : Recover)
    : PSSNode * list Action * status :=
  let psss := sortKeys (fst <$> mapRange 30 (rcPSSCompleteCount r)) in
  run (texts ← mapM (proposeTexts pn) psss;
       marshal (mkPSSMsgPropose EmptyString sharingID psss texts)) pn (fun data =>
  run (KeygenID_GetIndex (GetKeygenID sharingID)) pn (fun keyIndex =>
  (pn, [GoPropose (CreatePSSMessage NullPSSID "propose" data) keyIndex sharingID], Returned))).

Definition processComplete (pn : PSSNode) (sender : Node) (msg : PSSMsgComplete)
    : PSSNode * list Action * status :=
  if negb (String.eqb (PssTypes.ToNodeDetailsID sender) (PssTypes.ToNodeDetailsID (pnNodeDetails pn)))
  then (pn, [], Errored "This message can only be accepted if its sent to ourselves")
  else match FromPSSID PSSIDDetailsZero (pcmPSSID msg) with
  | (_, Some e) => (pn, [], Errored e)
  | (details, None) =>
      let sharingID := pidSharingID details in
      match checkSufficientRecovers pn sharingID with
      | RecoverCleanedUp => (pn, [], Returned)
      | RecoverNotIn => (pn, [], Waiting)
      | RecoverIn r D =>
          if negb (VerifyShareCommitment (pcmC00 msg) D (pidDealerIndex details)) then
            (pn, [], Errored "could not verify share commitment in complete message")
          else
            let r' := setCompleteCount r (<[pcmPSSID msg := true]> (rcPSSCompleteCount r)) in
            let pn' := setRecover pn sharingID r' in
            if Z.of_nat (size (rcPSSCompleteCount r')) =? netK (pnOldNodes pn)
            then proposeSharings pn' sharingID r'
            else (pn', [], Returned)
      end
  end.

(** The goroutine of the proposal once it has woken up. *)
Definition proposeGoroutine (r : Recover) (msg : PSSMessage) : list Action :=
  if rcSi r =? 0 then [SendBroadcast msg] else [].

(** ** Direct messages *)

Definition errUnmarshal : string := "could not unmarshal data".

Definition pssResult (pn : PSSNode) (tape : Tape) (id : PSSID) (r : PSS * list Action * status)
    : (PSSNode * Tape) * list Action * status :=
  let '(pss, acts, st) := r in
  ((setPSSStore pn (<[id := Some pss]> (pnPSSStore pn)), tape), acts, st).

(** The deferred update of a handler runs on every way out of it. *)
Definition deferred (f : PSS -> PSS) (r : PSS * list Action * status) : PSS * list Action * status :=
  let '(pss, acts, st) := r in (f pss, acts, st).

Definition routeMessage (pn : PSSNode) (tape : Tape) (sender : Node) (msg : PSSMessage)
    : (PSSNode * Tape) * list Action * status :=
  let id := pmPSSID msg in
  match GetOrSetIfNotComplete (pnPSSStore pn) id (newPSS pn id) with
  | (store, None) => ((pn, tape), [], Returned)
  | (store, Some pss) =>
      let pn1 := setPSSStore pn store in
      if String.eqb (pmMethod msg) "share" then
        match Unmarshal (A := PSSMsgShare) (pmData msg) with
        | None => ((pn1, tape), [], Errored errUnmarshal)
        | Some m =>
            let '((pss', tape'), acts, st) := processShare pn1 m pss tape in
            pssResult pn1 tape' id (pss', acts, st)
        end
      else if String.eqb (pmMethod msg) "recover" then
        match Unmarshal (A := PSSMsgRecover) (pmData msg) with
        | None => ((pn1, tape), [], Errored errUnmarshal)
        | Some m => let '(pn2, acts, st) := processRecover pn1 sender m in ((pn2, tape), acts, st)
        end
      else if String.eqb (pmMethod msg) "send" then
        match Unmarshal (A := PSSMsgSend) (pmData msg) with
        | None => ((pn1, tape), [], Errored errUnmarshal)
        | Some m => pssResult pn1 tape id (processSend pn1 id m pss sender)
        end
      else if String.eqb (pmMethod msg) "echo" then
        pssResult pn1 tape id (deferred (setReceivedEcho (PssTypes.ToNodeDetailsID sender))
          match Unmarshal (A := PSSMsgEcho) (pmData msg) with
          | None => (pss, [], Errored errUnmarshal)
          | Some m => processEcho pn1 m pss sender
          end)
      else if String.eqb (pmMethod msg) "ready" then
        pssResult pn1 tape id (deferred (setReceivedReady (PssTypes.ToNodeDetailsID sender))
          match Unmarshal (A := PSSMsgReady) (pmData msg) with
          | None => (pss, [], Errored errUnmarshal)
          | Some m =>
              match FromPSSID PSSIDDetailsZero (prdPSSID m) with
              | (_, Some e) => (pss, [], Errored e)
              | (_, None) => processReady pn1 m pss sender
              end
          end)
      else if String.eqb (pmMethod msg) "complete" then
        match Unmarshal (A := PSSMsgComplete) (pmData msg) with
        | None => ((pn1, tape), [], Errored errUnmarshal)
        | Some m => let '(pn2, acts, st) := processComplete pn1 sender m in ((pn2, tape), acts, st)
        end
      else ((pn1, tape), [], Errored "PssMessage method not found")
  end.

(** The ids are logged before anything else is done, and the handlers log the same ones
    again: in the source all of this is one function. *)
Definition logIDs (pn : PSSNode) (sender : Node) : res unit :=
  _ ← shortID (PssTypes.ToNodeDetailsID (pnNodeDetails pn));
  _ ← shortID (PssTypes.ToNodeDetailsID sender);
  Ok tt.

Definition ProcessMessage (pn : PSSNode) (tape : Tape) (sender : Node) (msg : PSSMessage)
    : (PSSNode * Tape) * list Action * status :=
  run (logIDs pn sender) (pn, tape) (fun _ => routeMessage pn tape sender msg).

(** ** Broadcast messages *)

Definition pssCleanUp (pn : PSSNode) (sharingID : SharingID) : PSSNode :=
  setPSSStore (setRecoverStore pn (<[sharingID := None]> (pnRecoverStore pn)))
    (PSSStoreComplete (pnNewNodes pn) (pnPSSStore pn) sharingID).

(** The loop of [checkAllPSSEndedIfNotComplete]: (pssRefs, alreadyCleanUp, pssEnded). *)
Definition collectPSS (pn : PSSNode) (pssArr : list PSSID) : list PSS * bool * bool :=
  foldl (fun '(refs, cleaned, ended) pssid =>
    match pnPSSStore pn !! pssid with
    | Some None => (refs, true, ended)
    | None => (refs, cleaned, false)
    | Some (Some pss) =>
        (refs ++ [pss], cleaned, if decide (stPhase (psState pss) = Ended) then ended else false)
    end) ([], false, true) pssArr.

Definition checkAllPSSEnded (pn : PSSNode) (sharingID : SharingID) (pssArr : list PSSID)
    : option Recover * list PSS * bool * bool :=
  match pnRecoverStore pn !! sharingID with
  | Some None => (None, [], true, true)
  | None => (None, [], false, false)
  | Some (Some r) =>
      let '(refs, cleaned, ended) := collectPSS pn pssArr in (Some r, refs, cleaned, ended)
  end.

Definition setShares (r : Recover) (Si Siprime : Z) : Recover :=
  mkRecover (rcSharingID r) (rcD r) (rcDCount r) (rcPSSCompleteCount r) Si Siprime (rcVbar r).

Definition setVbar (r : Recover) (Vbar : list Point) : Recover :=
  mkRecover (rcSharingID r) (rcD r) (rcDCount r) (rcPSSCompleteCount r) (rcSi r) (rcSiprime r) Vbar.

(** The dealers of the decided sharings. *)
Definition dealers (refs : list PSS) : res (list Z) :=
  mapM (fun pss => match FromPSSID PSSIDDetailsZero (psPSSID pss) with
    | (_, Some e) => Err e
    | (details, None) => Ok (pidDealerIndex details)
    end) refs.

(** The index of the refreshed key. *)
Definition refreshedIndex (keygenID : PSSKeygenID) : res Z :=
  match Split keygenID Delimiter3 with
  | [_; s] =>
      match SetString16 s with
      | Some i => Ok i
      | None => Err "Could not setstring for keygenID"
      end
  | _ => Err "could not split keygenID"
  end.

(** The body of the decide case once every decided sharing has ended. *)
Definition processDecide (pn : PSSNode) (msg : PSSMsgDecide) (r : Recover) (refs : list PSS)
    : PSSNode * list Action * status :=
  let id := pdcSharingID msg in
  run (dealers refs) pn (fun indexes =>
  let abar := LagrangeScalarCP (zip_with mkPoint indexes (psSi <$> refs)) 0 in
  let abarprime := LagrangeScalarCP (zip_with mkPoint indexes (psSiprime <$> refs)) 0 in
  let r1 := setShares r abar abarprime in
  run (columns ← mapM (fun pss => GetColumnPoint (psCbar pss) 0) refs; LagrangePolys indexes columns)
    (setRecover pn id r1) (fun Vbar =>
  let r2 := setVbar r1 Vbar in
  let pn2 := setRecover pn id r2 in
  let gsi := ScalarBaseMult (Bytes abar) in
  let hsiprime := ScalarMult secp_H (Bytes abarprime) in
  let gsihsiprime := CurveAdd gsi hsiprime in
  if negb (VerifyShareCommitment gsihsiprime Vbar (NodeIndex (pnNodeDetails pn))) then
    (pn2, [], Errored "could not verify shares against interpolated commitments")
  else
    emit [OutputText (id ++ " refreshed")]
    (run (refreshedIndex (GetKeygenID (rcSharingID r2))) pn2 (fun keyIndex =>
    (pssCleanUp pn2 (rcSharingID r2),
     [OutputRefresh (mkRefreshKeyStorage keyIndex abar abarprime Vbar)], Returned))))).

(** The node's own id is logged first; [processDecide] logs the same one again. *)
Definition ProcessBroadcastMessage (pn : PSSNode) (msg : PSSMessage) : PSSNode * list Action * status :=
  run (shortID (PssTypes.ToNodeDetailsID (pnNodeDetails pn))) pn (fun _ =>
  if String.eqb (pmMethod msg) "decide" then
    match Unmarshal (A := PSSMsgDecide) (pmData msg) with
    | None => (pn, [], Errored errUnmarshal)
    | Some m =>
        match checkAllPSSEnded pn (pdcSharingID m) (pdcPSSs m) with
        | (_, _, true, _) => (pn, [], Returned)
        | (Some r, refs, false, true) => processDecide pn m r refs
        | _ => (pn, [], Waiting)
        end
    end
  else (pn, [], Errored "PssMessage method not found")).

End handlers.
