(* ===== verification/PssReach.v ===== *)
(** The state of a refreshing node over any sequence of messages.  A sharing
    collects echoes and readies as a key generation does, so the invariant of a
    keygen is the invariant of a sharing, read through [asKeygen]. *)
From Stdlib Require Import Zdivisibility ZArith.
From stdpp Require Import gmap strings.
From S2P Require Import Prelude BigInt Field Curve Pvss Interpolate Avss Nizkpk Ecdsa Ids Effects Keygen KeygenInv KeygenReach KeygenCorrect PssTypes Pss.

(** ** A sharing as a keygen *)

Definition asNet (net : NodeNetwork) : Keygen.NodeNetwork :=
  Keygen.mkNodeNetwork (netNodes net) (netN net) (netT net) (netK net).

Definition asKeygen (p : PSS) : Keygen :=
  mkKeygen (psPSSID p) (psSi p) (psSiprime p) (psF p) (psFprime p) (psCbar p) (psC p) (psCStore p)
    (mkKeygenState (stPhase (psState p)) (stReceivedSend (psState p)) (stReceivedEcho (psState p))
       (stReceivedReady (psState p))).

Definition asEcho (m : PSSMsgEcho) : KeygenMsgEcho :=
  mkKeygenMsgEcho (pecPSSID m) (pecC m) (pecAlpha m) (pecAlphaprime m) (pecBeta m) (pecBetaprime m).

Definition asReady (m : PSSMsgReady) : KeygenMsgReady :=
  mkKeygenMsgReady (prdPSSID m) (prdC m) (prdAlpha m) (prdAlphaprime m) (prdBeta m) (prdBetaprime m)
    (prdSignedText m).

Section shapes.
Context {SO : Secp256k1} {SL : Secp256k1Laws} {PC : PSSCodecs} {TR : Transport} {DS : PSSDataSource}.
Context {MR : MapRange} {ML : MapRangeLaws}.

(** ** The shapes of the handlers' results *)

Lemma sendReady_stored site pn pss cID c pss' acts st :
  sendReady site pn pss cID c = (pss', acts, st) ->
  exists c', (interpolateBars site c = Panic /\ c' = c \/ interpolateBars site c = Ok c') /\
    pss' = setC pss cID c'.
Proof.
  unfold sendReady, run. destruct (interpolateBars site c) as [c'|e|] eqn:E.
  - destruct (sendEach _) as [acts' st']. intros [= <- _ _]. eauto.
  - by apply interpolateBars_no_Err in E.
  - intros [= <- _ _]. eauto.
Qed.

Lemma pss_processEcho_stored pn msg pss sender pss' acts st :
  processEcho pn msg pss sender = (pss', acts, st) ->
  pss' = pss \/
  (stPhase (psState pss) <> Ended /\
   stReceivedEcho (psState pss) !! Ids.ToNodeDetailsID sender <> Some true /\
   echo_stored (asNet (pnNewNodes pn)) (asKeygen pss) (asEcho msg) sender (asKeygen pss')).
Proof.
  unfold processEcho. case_decide as Hp; [intros [= <- _ _]; by left|].
  destruct (negb (stPlayer _)); [intros [= <- _ _]; by left|].
  case_decide as Hr; [intros [= <- _ _]; by left|]. unfold run.
  destruct (AVSSVerifyPoint _ _ _ _ _ _ _) as [[]|e|]; simpl negb; cbv iota zeta;
    [|intros [= <- _ _]; by left..].
  change (countEcho _) with (echoed (asKeygen pss) (asEcho msg) sender).
  intros H1. right. do 2 (split; [done|]). unfold echo_stored. cbv zeta.
  set (c := echoed (asKeygen pss) (asEcho msg) sender) in *.
  destruct (Z.eqb_spec (cEC c) (netEcThreshold (pnNewNodes pn))) as [E1|E1],
    (Z.ltb_spec (cRC c) (netK (pnNewNodes pn))) as [E2|E2]; cbn [andb] in H1.
  - apply sendReady_stored in H1 as (c' & Hc' & ->). exists c'. split; [done|]. right. eauto.
  - injection H1 as <- _ _. exists c. split; [done|]. left. split; [|done]. intros [_ H%Z.lt_nge]. by apply H.
  - injection H1 as <- _ _. exists c. split; [done|]. left. split; [|done]. by intros [H _].
  - injection H1 as <- _ _. exists c. split; [done|]. left. split; [|done]. by intros [H _].
Qed.

(** Finishing only adds the record and the results. *)
Lemma finishPSS_frame pn id pss cID c pss' acts st :
  finishPSS pn id pss cID c = (pss', acts, st) ->
  psCStore pss' = <[cID := c]> (psCStore pss) /\ psPSSID pss' = psPSSID pss /\
  stReceivedEcho (psState pss') = stReceivedEcho (psState pss) /\
  stReceivedReady (psState pss') = stReceivedReady (psState pss) /\
  (stPhase (psState pss') = stPhase (psState pss) \/
   stPhase (psState pss') = Ended /\ psCbar pss' = cC c /\
   head (cAbar c) = Some (psSi pss') /\ head (cAbarprime c) = Some (psSiprime pss')).
Proof.
  unfold finishPSS, run.
  destruct (index (cAbar c) 0) as [Si|e|] eqn:E1; [|intros [= <- _ _]; simpl; auto 6..].
  destruct (index (cAbarprime c) 0) as [Si'|e|] eqn:E2; [|intros [= <- _ _]; simpl; auto 6..].
  unfold emit. destruct (_ ≫= _) as [data|e|]; intros [= <- _ _]; simpl; auto 6.
  apply index_Ok in E1, E2. split_and!; try done. right. split_and!; try done.
  - by destruct (cAbar c).
  - by destruct (cAbarprime c).
Qed.

Lemma pss_processReady_stored pn msg pss sender pss' acts st :
  processReady pn msg pss sender = (pss', acts, st) ->
  pss' = pss \/
  (stPhase (psState pss) <> Ended /\
   stReceivedReady (psState pss) !! Ids.ToNodeDetailsID sender <> Some true /\
   ready_stored (asNet (pnNewNodes pn)) (asKeygen pss) (asReady msg) sender (asKeygen pss')).
Proof.
  unfold processReady. case_decide as Hp; [intros [= <- _ _]; by left|].
  destruct (negb (stPlayer _)); [intros [= <- _ _]; by left|].
  case_decide as Hr; [intros [= <- _ _]; by left|]. unfold run.
  destruct (AVSSVerifyPoint _ _ _ _ _ _ _) as [[]|e|]; simpl negb; cbv iota zeta;
    [|intros [= <- _ _]; by left..].
  destruct (ECDSAVerify _ _ _) as [[]|e|]; simpl negb; cbv iota zeta; [|intros [= <- _ _]; by left..].
  change (countReady _ _ _) with (readied (asKeygen pss) (asReady msg) sender).
  intros H1. right. do 2 (split; [done|]). unfold ready_stored. cbv zeta.
  set (c := readied (asKeygen pss) (asReady msg) sender) in *.
  destruct (cRC c =? netK (pnNewNodes pn)) eqn:E1, (cEC c <? netEcThreshold (pnNewNodes pn)) eqn:E2;
    cbn [andb] in H1.
  1: { apply Z.eqb_eq in E1. apply Z.ltb_lt in E2. apply sendReady_stored in H1 as (c' & Hc' & ->).
       exists c'. split_and!; [done..| |by left]. right. eauto. }
  all: assert (~ (cRC c = netK (pnNewNodes pn) /\ cEC c < netEcThreshold (pnNewNodes pn))) as Hno by lia.
  all: exists c; destruct (Z.eqb_spec (cRC c) (netK (pnNewNodes pn) + netT (pnNewNodes pn))) as [E3|E3];
    [apply finishPSS_frame in H1 as (Hc & Hi & He & Hr' & Hph)|
     injection H1 as <- _ _; split_and!; [done..|by left|by left]].
  all: split_and!; [done..|by left|]; destruct Hph as [Hph|(Hph & HC & Hh & Hh')]; [by left|by right].
Qed.

(** Steps that touch no record. *)
Lemma pss_processShare_frame pn msg pss tape pss' tape' acts st :
  processShare pn msg pss tape = ((pss', tape'), acts, st) -> kg_frame (asKeygen pss) (asKeygen pss').
Proof.
  assert (kg_frame (asKeygen pss) (asKeygen pss)) as Hrefl by (by split_and!).
  unfold processShare. case_decide as Hp; [by intros [= <- _ _ _]|].
  destruct (negb _); [by intros [= <- _ _ _]|].
  unfold run. destruct (GetSharing _) as [[sh|]| |]; [|by intros [= <- _ _ _]..].
  destruct (GenerateRandomBivariatePolynomial _ _ _) as [[F t1]|e|]; [|by intros [= <- _ _ _]..].
  destruct (GenerateRandomBivariatePolynomial _ _ _) as [[F' t2]|e|]; [|by intros [= <- _ _ _]..].
  destruct (GetCommitmentMatrix _ _) as [C|e|]; [|by intros [= <- _ _ _]..].
  destruct (sendEach _) as [acts1 []]; intros [= <- _ _ _]; split_and!; simpl; try done;
    intros He; by destruct Hp.
Qed.

Lemma pss_processSend_frame pn id msg pss sender pss' acts st :
  processSend pn id msg pss sender = (pss', acts, st) -> kg_frame (asKeygen pss) (asKeygen pss').
Proof.
  assert (kg_frame (asKeygen pss) (asKeygen pss)) as Hrefl by (by split_and!).
  assert (kg_frame (asKeygen pss) (asKeygen (setReceivedSend pss))) as Hs by (by split_and!).
  unfold processSend. case_decide; [by intros [= <- _ _]|].
  destruct (negb _); [by intros [= <- _ _]|]. destruct (stReceivedSend _); [by intros [= <- _ _]|].
  destruct (FromPSSID _ _) as [details [e|]]; [by intros [= <- _ _]|].
  destruct (negb _); [by intros [= <- _ _]|]. unfold run.
  destruct (AVSSVerifyPoly _ _ _ _ _ _) as [b|e|]; [|by intros [= <- _ _]..].
  destruct (negb b); [by intros [= <- _ _]|]. destruct (sendEach _). by intros [= <- _ _].
Qed.

(** ** One message *)

Definition stored_all (P : PSSID -> PSS -> Prop) (store : gmap PSSID (option PSS)) : Prop :=
  forall id p, store !! id = Some (Some p) -> P id p.

Lemma stored_all_set P store id p :
  stored_all P store -> P id p -> stored_all P (<[id := Some p]> store).
Proof.
  intros Hs Hk i p'. destruct (decide (i = id)) as [->|Hne].
  - rewrite lookup_insert_eq. by intros [= <-].
  - rewrite lookup_insert_ne by done. apply Hs.
Qed.

Lemma PSSStoreComplete_lookup net store sharingID id p :
  PSSStoreComplete net store sharingID !! id = Some (Some p) -> store !! id = Some (Some p).
Proof.
  unfold PSSStoreComplete. revert id p.
  refine (map_fold_weak_ind (fun (acc : gmap string (option PSS)) _ => forall id p,
    acc !! id = Some (Some p) -> store !! id = Some (Some p)) _ _ _ _ (netNodes net)); [done|].
  intros i n m acc _ IH id p H.
  destruct (decide (ToPSSID (mkPSSIDDetails sharingID (NodeIndex n)) = id)) as [E|Hne].
  - by rewrite E, lookup_insert_eq in H.
  - rewrite lookup_insert_ne in H by done. by apply IH.
Qed.

(** What a step keeps of the node. *)
Definition same_node (pn pn' : PSSNode) : Prop :=
  pnNewNodes pn' = pnNewNodes pn /\ pnOldNodes pn' = pnOldNodes pn /\ pnNodeDetails pn' = pnNodeDetails pn.

Lemma processComplete_store pn sender msg pn' acts st :
  processComplete pn sender msg = (pn', acts, st) -> same_node pn pn' /\ pnPSSStore pn' = pnPSSStore pn.
Proof.
  unfold processComplete, proposeSharings, run.
  repeat (case_match; try (by intros [= <- _ _]); simplify_eq); by intros [= <- _ _].
Qed.

Lemma processRecover_store pn sender msg pn' acts st :
  processRecover pn sender msg = (pn', acts, st) -> same_node pn pn' /\ pnPSSStore pn' = pnPSSStore pn.
Proof.
  unfold processRecover. repeat (case_match; try (by intros [= <- _ _]); simplify_eq).
Qed.

(** What a property of stored sharings has to survive to hold after a message. *)
Lemma pss_ProcessMessage_all (P : PSSID -> PSS -> Prop) pn tape sender msg pn' tape' acts st :
  let id := pmPSSID msg in
  let nid := Ids.ToNodeDetailsID sender in
  (forall pn1, P id (newPSS pn1 id)) ->
  (forall p p', P id p -> kg_frame (asKeygen p) (asKeygen p') -> P id p') ->
  (forall pn1 m p p' a s, same_node pn pn1 -> P id p -> pmMethod msg = "echo"%string ->
    Unmarshal (pmData msg) = Some m ->
    processEcho pn1 m p sender = (p', a, s) -> P id (setReceivedEcho nid p')) ->
  (forall pn1 m p p' a s, same_node pn pn1 -> P id p -> pmMethod msg = "ready"%string ->
    Unmarshal (pmData msg) = Some m ->
    processReady pn1 m p sender = (p', a, s) -> P id (setReceivedReady nid p')) ->
  stored_all P (pnPSSStore pn) ->
  ProcessMessage pn tape sender msg = ((pn', tape'), acts, st) ->
  same_node pn pn' /\ stored_all P (pnPSSStore pn').
Proof.
  cbv zeta. intros Hnew Hframe Hecho Hready Hstore [[[= -> ->] _]|(? & _ & Hrun)]%run_inv; [done|].
  revert Hrun. unfold routeMessage.
  destruct (GetOrSetIfNotComplete _ _ _) as [store r] eqn:E.
  assert (stored_all P store /\ forall p, r = Some p -> P (pmPSSID msg) p) as [Hst Hp].
  { revert E. unfold GetOrSetIfNotComplete. destruct (pnPSSStore pn !! pmPSSID msg) as [[p|]|] eqn:El;
      intros [= <- <-].
    - split; [done|]. intros ? [= <-]. by apply Hstore.
    - by split.
    - split; [by apply stored_all_set|by intros ? [= <-]]. }
  destruct r as [p|]; [|by intros [= <- _ _ _]].
  specialize (Hp p eq_refl). cbv zeta. set (pn1 := setPSSStore pn store).
  assert (forall r, P (pmPSSID msg) (fst (fst r)) ->
    forall t, pssResult pn1 t (pmPSSID msg) r = ((pn', tape'), acts, st) ->
    same_node pn pn' /\ stored_all P (pnPSSStore pn')) as Hres.
  { intros [[p' a'] s'] Hg t [= <- _ _ _]. split; [done|]. by apply stored_all_set. }
  destruct (String.eqb_spec (pmMethod msg) "share").
  { destruct (Unmarshal (A := PSSMsgShare) (pmData msg)) as [m|]; [|by intros [= <- _ _ _]].
    destruct (processShare pn1 m p tape) as [[[p' t'] a'] s'] eqn:Es. apply Hres, (Hframe p); [done|].
    by eapply pss_processShare_frame. }
  destruct (String.eqb_spec (pmMethod msg) "recover").
  { destruct (Unmarshal (A := PSSMsgRecover) (pmData msg)) as [m|]; [|by intros [= <- _ _ _]].
    destruct (processRecover pn1 sender m) as [[pn2 a'] s'] eqn:Es. intros [= <- _ _ _].
    apply processRecover_store in Es as [? ->]. done. }
  destruct (String.eqb_spec (pmMethod msg) "send").
  { destruct (Unmarshal (A := PSSMsgSend) (pmData msg)) as [m|]; [|by intros [= <- _ _ _]].
    destruct (processSend pn1 (pmPSSID msg) m p sender) as [[p' a'] s'] eqn:Es.
    apply Hres, (Hframe p); [done|]. by eapply pss_processSend_frame. }
  destruct (String.eqb_spec (pmMethod msg) "echo").
  { destruct (Unmarshal (A := PSSMsgEcho) (pmData msg)) as [m|] eqn:Em;
      [|apply Hres, (Hframe p), kg_frame_echo; done].
    destruct (processEcho pn1 m p sender) as [[p' a'] s'] eqn:Es. apply Hres.
    by apply (Hecho pn1 m p p' a' s'). }
  destruct (String.eqb_spec (pmMethod msg) "ready").
  { destruct (Unmarshal (A := PSSMsgReady) (pmData msg)) as [m|] eqn:Em;
      [|apply Hres, (Hframe p), kg_frame_ready; done].
    destruct (FromPSSID _ _) as [details [e'|]]; [apply Hres, (Hframe p), kg_frame_ready; done|].
    destruct (processReady pn1 m p sender) as [[p' a'] s'] eqn:Es. apply Hres.
    by apply (Hready pn1 m p p' a' s'). }
  destruct (String.eqb (pmMethod msg) "complete"); [|by intros [= <- _ _ _]].
  destruct (Unmarshal (A := PSSMsgComplete) (pmData msg)) as [m|]; [|by intros [= <- _ _ _]].
  destruct (processComplete pn1 sender m) as [[pn2 a'] s'] eqn:Es. intros [= <- _ _ _].
  apply processComplete_store in Es as [? ->]. done.
Qed.

Lemma pss_ProcessBroadcastMessage_all P pn msg pn' acts st :
  stored_all P (pnPSSStore pn) -> ProcessBroadcastMessage pn msg = (pn', acts, st) ->
  same_node pn pn' /\ stored_all P (pnPSSStore pn').
Proof.
  intros Hst [[-> _]|(? & _ & Hrun)]%run_inv; [done|]. revert Hrun. unfold processDecide, run, emit.
  repeat (case_match; try (by intros [= <- _ _]); simplify_eq); intros [= <- _ _];
    (split; [done|]); try done. intros i p' Hl%PSSStoreComplete_lookup. by apply Hst.
Qed.

End shapes.

(** ** Reachable states *)

Section reach.
Context {SO : Secp256k1} {SL : Secp256k1Laws} {PC : PSSCodecs} {TR : Transport} {DS : PSSDataSource}.

Local Abbreviation q := GeneratorOrder.

(** Echoes and readies come from nodes of the new network: the handlers trust
    the transport for that. *)
Definition from_member (net : NodeNetwork) (sender : Node) (msg : PSSMessage) : Prop :=
  pmMethod msg = "echo"%string \/ pmMethod msg = "ready"%string -> in_net (asNet net) sender.

(** Any sequence of direct and broadcast messages; [ok] restricts the direct ones. *)
Inductive pss_reachable (ok : Node -> PSSMessage -> Prop) (pn0 : PSSNode) : PSSNode -> Prop :=
  | pss_start : pss_reachable ok pn0 pn0
  | pss_direct (MR : MapRange) (ML : MapRangeLaws) pn tape sender msg pn' tape' acts st :
      pss_reachable ok pn0 pn -> from_member (pnNewNodes pn0) sender msg -> ok sender msg ->
      ProcessMessage pn tape sender msg = ((pn', tape'), acts, st) -> pss_reachable ok pn0 pn'
  | pss_broadcast (MR : MapRange) (ML : MapRangeLaws) pn msg pn' acts st :
      pss_reachable ok pn0 pn ->
      ProcessBroadcastMessage pn msg = (pn', acts, st) -> pss_reachable ok pn0 pn'.

Lemma pss_reachable_node ok pn0 pn : pss_reachable ok pn0 pn -> pnNodeDetails pn = pnNodeDetails pn0.
Proof.
  induction 1 as [|MR ML pn tape sender msg pn' tape' acts st _ IH _ _ H|MR ML pn msg pn' acts st _ IH H]; [done|..].
  - by destruct (pss_ProcessMessage_all (fun _ _ => True) pn tape sender msg pn' tape' acts st) as ((_ & _ & ->) & _).
  - by destruct (pss_ProcessBroadcastMessage_all (fun _ _ => True) pn msg pn' acts st) as ((_ & _ & ->) & _).
Qed.

(** The counters of a sharing, what it rests on once it has ended, and its id. *)
Record pss_good (net : NodeNetwork) (id : PSSID) (p : PSS) : Prop := {
  pg_ok : kg_ok (asNet net) (asKeygen p);
  pg_ended : ended_ok (asNet net) (asKeygen p);
  pg_id : psPSSID p = id;
}.

Lemma pss_good_new net pn id : pss_good net id (newPSS pn id).
Proof. constructor; [apply (kg_ok_new _ id)|by intros H|done]. Qed.

Lemma pss_good_frame net id p p' :
  kg_frame (asKeygen p) (asKeygen p') -> pss_good net id p -> pss_good net id p'.
Proof.
  intros Hf [H1 H2 H3]. pose proof Hf as (Hc & Hi & He & Hr & Hend). constructor.
  - by apply (kg_ok_mono _ (asKeygen p)).
  - intros (Hp & HC & Hs & Hs')%Hend. rewrite Hc, HC, Hs, Hs'. by apply H2.
  - simpl in Hi. congruence.
Qed.

Lemma echo_pss_good `{MapRange, !MapRangeLaws} net pn msg id p sender p' acts st :
  net_ok (asNet net) -> pnNewNodes pn = net -> in_net (asNet net) sender -> pss_good net id p ->
  processEcho pn msg p sender = (p', acts, st) ->
  pss_good net id (setReceivedEcho (Ids.ToNodeDetailsID sender) p').
Proof.
  intros Hnet <- Hs Hg Hp.
  apply pss_processEcho_stored in Hp as [->|(Hp & Hid & Hst)].
  { eapply pss_good_frame; [apply (kg_frame_echo (asKeygen p))|done]. }
  destruct Hg as [H1 H2 H3]. constructor.
  - by apply (echo_stored_ok _ (asKeygen p) (asEcho msg) sender (asKeygen p')).
  - destruct Hst as (c & Ep & _). intros He.
    assert (Phase (kgState (asKeygen p')) = Ended) as He' by exact He. by rewrite Ep in He'.
  - destruct Hst as (c & Ep & _). apply (f_equal kgKeygenID) in Ep. simpl in Ep. simpl. congruence.
Qed.

Lemma ready_pss_good `{MapRange, !MapRangeLaws} net pn msg id p sender p' acts st :
  net_ok (asNet net) -> pnNewNodes pn = net -> in_net (asNet net) sender -> pss_good net id p ->
  processReady pn msg p sender = (p', acts, st) ->
  pss_good net id (setReceivedReady (Ids.ToNodeDetailsID sender) p').
Proof.
  intros Hnet <- Hs Hg Hp.
  apply pss_processReady_stored in Hp as [->|(Hp & Hid & Hst)].
  { eapply pss_good_frame; [apply (kg_frame_ready (asKeygen p))|done]. }
  destruct Hg as [H1 H2 H3]. constructor.
  - by apply (ready_stored_ok _ (asKeygen p) (asReady msg) sender (asKeygen p')).
  - by apply (ready_stored_ended _ (asKeygen p) (asReady msg) sender (asKeygen p')).
  - destruct Hst as (c & _ & Ei & _). simpl in Ei. simpl. congruence.
Qed.

(** ** The dealer's values *)

(** What an echo or a ready of the sharing [id] says about the commitment [cid]
    at the node [i]: the betas are the dealer's. *)
Definition betas_dealt (f f' : list (list Z)) (i : Z) (cid : CID) (id : PSSID)
    (sender : Node) (msg : PSSMessage) : Prop :=
  pmPSSID msg = id ->
  (forall m, pmMethod msg = "echo"%string -> Unmarshal (pmData msg) = Some m ->
     GetCIDFromPointMatrix (pecC m) = cid ->
     pecBeta m ≡[q] beval f i (NodeIndex sender) /\ pecBetaprime m ≡[q] beval f' i (NodeIndex sender)) /\
  (forall m, pmMethod msg = "ready"%string -> Unmarshal (pmData msg) = Some m ->
     GetCIDFromPointMatrix (prdC m) = cid ->
     prdBeta m ≡[q] beval f i (NodeIndex sender) /\ prdBetaprime m ≡[q] beval f' i (NodeIndex sender)).

Lemma betas_reachable net k f f' i cid id (ok : Node -> PSSMessage -> Prop) pn0 pn :
  net_ok (asNet net) -> netK net = Z.of_nat k -> matrix_ok k f -> matrix_ok k f' ->
  (forall sender msg, ok sender msg -> betas_dealt f f' i cid id sender msg) ->
  pnNewNodes pn0 = net -> pnPSSStore pn0 = ∅ -> pss_reachable ok pn0 pn ->
  pnNewNodes pn = net /\ pnNodeDetails pn = pnNodeDetails pn0 /\
  stored_all (fun id' p => pss_good net id' p /\ (id' = id -> right_kg f f' i cid (asKeygen p))) (pnPSSStore pn).
Proof.
  intros Hnet Hk Hf Hf' Hokb Hpn0 He.
  induction 1 as [|MR ML pn tape sender msg pn' tape' acts st Hr (IHn & IHd & IH) Hs Hok H1
    |MR ML pn msg pn' acts st Hr (IHn & IHd & IH) H1].
  - split_and!; [done..|]. intros id' p. by rewrite He, lookup_empty.
  - rewrite Hpn0 in Hs. apply Hokb in Hok.
    destruct (pss_ProcessMessage_all (fun id' p => pss_good net id' p /\ (id' = id -> right_kg f f' i cid (asKeygen p)))
      pn tape sender msg pn' tape' acts st) as ((Hn & _ & Hd) & Hst); try done.
    + intros pn1. split; [apply pss_good_new|]. intros _ c. simpl. by rewrite lookup_empty.
    + intros p p' [Hg Hrk] Hfr. split; [by apply (pss_good_frame _ _ p)|].
      intros E c. destruct Hfr as [-> _]. by apply Hrk.
    + intros pn1 m p p' a s (Hk1 & _) [Hg Hrk] Hme Hu Hp. rewrite IHn in Hk1.
      assert (in_net (asNet net) sender) as Hin by (apply Hs; auto). split.
      { by apply (echo_pss_good net pn1 m _ p sender p' a s). }
      intros E. destruct (Hok E) as [Hb _]. apply pss_processEcho_stored in Hp as [->|(_ & Hid & Hst)]; [by apply Hrk|].
      rewrite Hk1 in Hst. refine (echo_stored_right (asNet net) k f f' i cid Hnet Hk Hf Hf' _ _ _ _ Hin (pg_ok _ _ _ Hg) (Hrk E) Hid _ Hst). by apply Hb.
    + intros pn1 m p p' a s (Hk1 & _) [Hg Hrk] Hme Hu Hp. rewrite IHn in Hk1.
      assert (in_net (asNet net) sender) as Hin by (apply Hs; auto). split.
      { by apply (ready_pss_good net pn1 m _ p sender p' a s). }
      intros E. destruct (Hok E) as [_ Hb]. apply pss_processReady_stored in Hp as [->|(_ & Hid & Hst)]; [by apply Hrk|].
      rewrite Hk1 in Hst.
      refine (ready_stored_right (asNet net) k f f' i cid Hnet Hk Hf Hf' _ _ _ _ Hin (pg_ok _ _ _ Hg) (Hrk E) Hid _ Hst). by apply Hb.
    + split_and!; [congruence..|done].
  - destruct (pss_ProcessBroadcastMessage_all _ pn msg pn' acts st IH H1) as [(Hn & _ & Hd) Hst].
    split_and!; [congruence..|done].
Qed.

(** A sharing that has ended on the dealer's commitment holds the dealer's values. *)
Lemma ended_sharing_dealt net k f f' i cid id (ok : Node -> PSSMessage -> Prop) pn0 pn p :
  net_ok (asNet net) -> netK net = Z.of_nat k -> matrix_ok k f -> matrix_ok k f' ->
  (forall sender msg, ok sender msg -> betas_dealt f f' i cid id sender msg) ->
  pnNewNodes pn0 = net -> pnPSSStore pn0 = ∅ -> pss_reachable ok pn0 pn ->
  pnPSSStore pn !! id = Some (Some p) -> stPhase (psState p) = Ended ->
  GetCIDFromPointMatrix (psCbar p) = cid ->
  psPSSID p = id /\ psSi p = beval f i 0 mod q /\ psSiprime p = beval f' i 0 mod q.
Proof.
  intros Hnet Hk Hf Hf' Hokb Hpn0 He Hr Hp Hend Hcid.
  destruct (betas_reachable net k f f' i cid id ok pn0 pn) as (_ & _ & Hst); try done.
  destruct (Hst id p Hp) as [[_ Hq Hid] Hrk]. destruct (Hq Hend) as (c & Hc & _ & _ & H1 & H2).
  change (kgCbar (asKeygen p)) with (psCbar p) in Hc. rewrite Hcid in Hc.
  destruct (Hrk eq_refl c Hc) as (_ & _ & B1 & B2).
  rewrite B1 in H1 by (by intros E; rewrite E in H1). rewrite B2 in H2 by (by intros E; rewrite E in H2).
  simpl in H1, H2. split_and!; congruence.
Qed.

End reach.
