(* ===== verification/PssRefresh.v ===== *)
(** What a refresh achieves: once the sharings of the decided dealers have ended
    with the dealers' values, every new node outputs a share of the same key, and
    the public polynomial it outputs commits to it. *)
From Stdlib Require Import Zdivisibility ZArith.
From stdpp Require Import gmap strings.
From S2P Require Import Prelude BigInt Field Curve Pvss Interpolate Avss Ecdsa Ids Effects Keygen KeygenInv KeygenReach PssTypes Pss PssReach.

Lemma zip_fmap_r {A B C} (g : B -> C) (k : list A) l :
  zip k (g <$> l) = (fun ab => (fst ab, g (snd ab))) <$> zip k l.
Proof. revert l. induction k as [|a k IH]; intros [|b l]; csimpl; [done..|]. by rewrite IH. Qed.

Lemma Forall2_forall_mem_l {A B} (P : A -> B -> Prop) l k :
  Forall2 P l k -> Forall2 (fun a b => a ∈ l /\ P a b) l k.
Proof.
  intros H. assert (forall l', l ⊆ l' -> Forall2 (fun a b => a ∈ l' /\ P a b) l k) as Hg; [|by apply Hg].
  induction H as [|a b l k Hab _ IH]; intros l' Hs; constructor; [|apply IH; set_solver]. split; [set_solver|done].
Qed.

Section refresh.
Context {SO : Secp256k1} {SL : Secp256k1Laws} {PC : PSSCodecs} {TR : Transport} {DS : PSSDataSource}.

Local Abbreviation q := GeneratorOrder.

(** ** Weighted sums *)

Lemma peval_weighted {A} (w : A -> Z) (g : A -> list Z) m ds x :
  Forall (fun d => length (g d) = m) ds ->
  peval ((fun l => sumZ (fun d => w d * g d !!! l) ds) <$> seq 0 m) x = sumZ (fun d => w d * peval (g d) x) ds.
Proof.
  induction 1 as [|d ds Hd _ IH].
  - generalize (seq 0 m). intros l. induction l as [|a l IH]; [done|].
    rewrite fmap_cons, peval_cons, IH. cbn. lia.
  - cbn [sumZ foldr] in *. fold (sumZ (fun d => w d * peval (g d) x) ds). rewrite <-IH, <-Hd.
    rewrite <-(fmap_lookup_total_seq (g d)) at 2. generalize (seq 0 (length (g d))). intros l.
    induction l as [|a l IHl]; [cbn; lia|]. rewrite !fmap_cons, !peval_cons, IHl. unfold sumZ. simpl. lia.
Qed.

(** Interpolating columns of commitments commits to the weighted sums. *)
Lemma LagrangePolys_columns {A} (idx : A -> Z) (a b : A -> list Z) m ds :
  ds <> [] -> Forall (fun d => length (a d) = m /\ length (b d) = m) ds ->
  let w d := lagrangeDelta (idx <$> ds) 0 (idx d) in
  LagrangePolys (idx <$> ds) ((fun d => zip_with ped (a d) (b d)) <$> ds) =
    Ok ((fun l => ped (sumZ (fun d => w d * a d !!! l) ds) (sumZ (fun d => w d * b d !!! l) ds)) <$> seq 0 m).
Proof.
  intros Hne Hl w. unfold LagrangePolys.
  destruct ((fun d => zip_with ped (a d) (b d)) <$> ds) as [|poly0 polys'] eqn:E; [by apply fmap_nil_inv in E|].
  assert (length poly0 = m) as ->.
  { destruct Hl as [|d ds' [H1 H2] _]; [done|]. rewrite fmap_cons in E. injection E as <- _.
    rewrite length_zip_with. lia. }
  rewrite <-E, !length_fmap, Nat.eqb_refl. cbn [negb]. apply mapM_Ok. intros l [_ Hlm]%elem_of_seq.
  rewrite zip_fmap_r, foldlM_fmap.
  rewrite (foldlM_Ok _ (fun sum jd => w (snd jd) ⊙ ped (a (snd jd) !!! l) (b (snd jd) !!! l) ⊕ sum)).
  - f_equal. rewrite foldl_sumP_l by auto with torus.
    rewrite (fmap_zip_seq (fun d => w d ⊙ ped (a d !!! l) (b d !!! l))).
    fold (sumP ((fun d => w d ⊙ ped (a d !!! l) (b d !!! l)) <$> ds)).
    setoid_rewrite smul_ped. by rewrite sumP_ped.
  - intros sum [j d] [_ Hj]%elem_of_zip_seq. rewrite Nat.sub_0_r in Hj. simpl.
    rewrite (index_fmap _ _ _ _ Hj). cbn [mbind res_bind].
    rewrite list.Forall_forall in Hl. destruct (Hl d) as [Ha Hb]; [by eapply list_elem_of_lookup_2|].
    rewrite (index_Some _ _ (ped (a d !!! l) (b d !!! l))).
    2:{ rewrite lookup_zip_with, !list_lookup_lookup_total_lt by lia. done. }
    cbn [mbind res_bind]. by rewrite ScalarMult_Bytes by auto using lagrangeDelta_nonneg, ped_on_curve.
Qed.

(** The shares of the old nodes, weighted. *)
Lemma LagrangeScalarCP_weighted {A} (idx si : A -> Z) ds t :
  Forall (fun d => in_int64 (idx d)) ds ->
  LagrangeScalarCP (zip_with mkPoint (idx <$> ds) (si <$> ds)) t ≡[q]
    sumZ (fun d => lagrangeDelta (idx <$> ds) t (idx d) * si d) ds.
Proof.
  intros Hi. unfold LagrangeScalarCP.
  assert ((fun pt => mkPrimaryShare (int64 (PX pt)) (PY pt)) <$> zip_with mkPoint (idx <$> ds) (si <$> ds) =
    (fun d => mkPrimaryShare (idx d) (si d)) <$> ds) as ->.
  { induction Hi as [|d ds Hd _ IH]; [done|]. csimpl. by rewrite IH, int64_id. }
  rewrite LagrangeScalar_sum, <-list_fmap_compose, sumZ_fmap. unfold compose. simpl.
  apply sumZ_ext. intros d _. by rewrite Z.mul_comm.
Qed.

(** ** The dealings of the decided set *)

Definition matrices : Type := list (list Z) * list (list Z).

(** A dealer's index, and the two matrices he drew. *)
Definition dealing : Type := Z * matrices.

(** What a new node [i] holds of one decided sharing that has ended. *)
Definition ended_with (k : nat) (i : Z) (d : dealing) (pss : PSS) : Prop :=
  snd (FromPSSID PSSIDDetailsZero (psPSSID pss)) = None /\
  pidDealerIndex (fst (FromPSSID PSSIDDetailsZero (psPSSID pss))) = fst d /\
  GetCommitmentMatrix (fst (snd d)) (snd (snd d)) = Ok (psCbar pss) /\
  psSi pss = beval (fst (snd d)) i 0 mod q /\ psSiprime pss = beval (snd (snd d)) i 0 mod q.

(** The dealers deal the shares of two polynomials [f] and [f'], which they
    determine. *)
Record dealers_ok (k : nat) (f f' : list Z) (ds : list dealing) : Prop := {
  dealers_some : ds <> [];
  dealers_index : Forall (fun d => in_int64 (fst d)) ds;
  dealers_distinct : distinct q (fst <$> ds);
  dealers_degree : (length f <= length ds)%nat /\ (length f' <= length ds)%nat;
  dealers_matrix : Forall (fun d : dealing => matrix_ok k (fst (snd d)) /\ matrix_ok k (snd (snd d))) ds;
  dealers_share : Forall (fun d : dealing =>
    beval (fst (snd d)) 0 0 ≡[q] peval f (fst d) /\ beval (snd (snd d)) 0 0 ≡[q] peval f' (fst d)) ds;
}.

Definition weight (ds : list dealing) (d : dealing) : Z := lagrangeDelta (fst <$> ds) 0 (fst d).

(** The polynomial the new nodes share. *)
Definition refreshedPoly (k : nat) (g : matrices -> list (list Z)) (ds : list dealing) : list Z :=
  (fun l => sumZ (fun d => weight ds d * column 0 (g (snd d)) !!! l) ds) <$> seq 0 k.

Lemma refreshedPoly_eval k (g : matrices -> list (list Z)) ds x :
  Forall (fun d => matrix_ok k (g (snd d))) ds ->
  peval (refreshedPoly k g ds) x = sumZ (fun d => weight ds d * beval (g (snd d)) x 0) ds.
Proof.
  intros Hm. unfold refreshedPoly. rewrite (peval_weighted (weight ds) (fun d => column 0 (g (snd d))) k).
  - apply sumZ_ext_eq. intros d Hd. rewrite list.Forall_forall in Hm. by rewrite (beval_0_r k) by auto.
  - eapply list.Forall_impl; [exact Hm|]. intros d (_ & Hl & _). by rewrite length_column.
Qed.

Lemma refreshedPoly_0 k (g : matrices -> list (list Z)) f ds :
  distinct q (fst <$> ds) -> (length f <= length ds)%nat ->
  Forall (fun d => matrix_ok k (g (snd d))) ds ->
  Forall (fun d => beval (g (snd d)) 0 0 ≡[q] peval f (fst d)) ds ->
  peval (refreshedPoly k g ds) 0 ≡[q] peval f 0.
Proof.
  intros Hd Hl Hm Hs. rewrite refreshedPoly_eval by done.
  rewrite <-(lagrange_delta f (fst <$> ds) 0) by (done || by rewrite length_fmap).
  rewrite sumZ_fmap. apply sumZ_ext. intros d Hin. rewrite list.Forall_forall in Hs.
  unfold weight. by rewrite (Hs d Hin).
Qed.

Lemma dealers_spec k i ds refs :
  Forall2 (ended_with k i) ds refs -> dealers refs = Ok (fst <$> ds).
Proof.
  unfold dealers. induction 1 as [|d p ds refs (E & Ei & _) _ IH]; [done|].
  rewrite mapM_cons_res, IH. destruct (FromPSSID _ _) as [details o]. simpl in *. subst o.
  csimpl. by rewrite Ei.
Qed.

Lemma columns_spec k i ds refs :
  Forall (fun d : dealing => matrix_ok k (fst (snd d)) /\ matrix_ok k (snd (snd d))) ds ->
  Forall2 (ended_with k i) ds refs ->
  mapM (fun pss => GetColumnPoint (psCbar pss) 0) refs =
    Ok ((fun d : dealing => zip_with ped (column 0 (fst (snd d))) (column 0 (snd (snd d)))) <$> ds).
Proof.
  intros Hm H. induction H as [|d p ds refs (_ & _ & HC & _) _ IH]; [done|].
  apply list.Forall_cons in Hm as [[Hf Hf'] Hm]. rewrite mapM_cons_res, IH by done.
  rewrite (GetCommitmentMatrix_spec k) in HC by done. injection HC as <-.
  by rewrite (GetColumnPoint_spec k).
Qed.

Lemma shares_spec k i (g : matrices -> list (list Z)) (si : PSS -> Z) ds refs :
  Forall (fun d => in_int64 (fst d)) ds -> Forall (fun d => matrix_ok k (g (snd d))) ds ->
  Forall2 (fun d p => si p = beval (g (snd d)) i 0 mod q) ds refs ->
  LagrangeScalarCP (zip_with mkPoint (fst <$> ds) (si <$> refs)) 0 = peval (refreshedPoly k g ds) i mod q.
Proof.
  intros Hi Hm H.
  assert (si <$> refs = (fun d => beval (g (snd d)) i 0 mod q) <$> ds) as ->
    by (clear -H; induction H as [|d p ds refs E _ IH]; [done|csimpl; by rewrite E, IH]).
  apply (eqm_small q); [apply mod_order_bound|apply mod_order_bound|].
  rewrite (LagrangeScalarCP_weighted fst) by done. rewrite eqm_mod, refreshedPoly_eval by done.
  apply sumZ_ext. intros d _. unfold weight. by rewrite eqm_mod.
Qed.

Lemma PSSStoreComplete_in net store sharingID nid n :
  netNodes net !! nid = Some n ->
  PSSStoreComplete net store sharingID !! ToPSSID (mkPSSIDDetails sharingID (NodeIndex n)) = Some None.
Proof.
  unfold PSSStoreComplete.
  refine (map_fold_weak_ind (fun (acc : gmap string (option PSS)) (m : gmap string Node) =>
    m !! nid = Some n -> acc !! ToPSSID (mkPSSIDDetails sharingID (NodeIndex n)) = Some None) _ _ _ _ (netNodes net)).
  - by rewrite lookup_empty.
  - intros j n' m acc _ IH. destruct (decide (j = nid)) as [->|Hne].
    + rewrite lookup_insert_eq. intros [= ->]. by rewrite lookup_insert_eq.
    + rewrite lookup_insert_ne by done. intros Hm.
      destruct (decide (ToPSSID (mkPSSIDDetails sharingID (NodeIndex n')) =
        ToPSSID (mkPSSIDDetails sharingID (NodeIndex n)))) as [->|Hk]; [by rewrite lookup_insert_eq|].
      rewrite lookup_insert_ne by done. by apply IH.
Qed.

(** Any output of the decide handler is the node's point. *)
Lemma processDecide_share k f f' ds pn msg r refs pn' text keyIndex Si si' Vbar :
  let i := NodeIndex (pnNodeDetails pn) in
  dealers_ok k f f' ds -> Forall2 (ended_with k i) ds refs ->
  processDecide pn msg r refs =
    (pn', [OutputText text; OutputRefresh (mkRefreshKeyStorage keyIndex Si si' Vbar)], Returned) ->
  Si = peval (refreshedPoly k fst ds) i mod q.
Proof.
  intros i [_ Hidx _ _ Hm _] Hrefs E. apply list.Forall_and in Hm as [Hm _].
  unfold processDecide, run, emit in E. rewrite (dealers_spec k i ds) in E by done.
  rewrite (shares_spec k i fst psSi) in E;
    [|done..|by eapply Forall2_impl; [|exact Hrefs]; intros d p (_ & _ & _ & ? & _)].
  repeat case_match; simplify_eq. simpl in *. by simplify_eq.
Qed.

(** The decided sharings, when the decision is processed. *)
Lemma collectPSS_ended pn ids refs :
  collectPSS pn ids = (refs, false, true) ->
  Forall2 (fun id p => pnPSSStore pn !! id = Some (Some p) /\ stPhase (psState p) = Ended) ids refs.
Proof.
  unfold collectPSS.
  assert (forall ids refs0 c0 e0 refs, foldl (fun '(refs, cleaned, ended) pssid =>
      match pnPSSStore pn !! pssid with
      | Some None => (refs, true, ended)
      | None => (refs, cleaned, false)
      | Some (Some pss) =>
          (refs ++ [pss], cleaned, if decide (stPhase (psState pss) = Ended) then ended else false)
      end) (refs0, c0, e0) ids = (refs, false, true) ->
    c0 = false /\ e0 = true /\ exists l, refs = refs0 ++ l /\
      Forall2 (fun id p => pnPSSStore pn !! id = Some (Some p) /\ stPhase (psState p) = Ended) ids l) as Hg.
  { clear. intros ids. induction ids as [|id ids IH]; intros refs0 c0 e0 refs; cbn [foldl].
    - intros [= <- -> ->]. split_and!; [done..|]. exists []. by rewrite app_nil_r.
    - destruct (pnPSSStore pn !! id) as [[p|]|] eqn:E; intros (Hc & He & l & -> & Hl)%IH; [|done..].
      case_decide as Hp; [|done]. split_and!; [done..|]. exists (p :: l). rewrite <-app_assoc. auto. }
  intros (_ & _ & l & -> & Hl)%Hg. done.
Qed.

(** The sharings of the dealers [ds]: their ids, and that the messages about one
    carry its dealer's values. *)
Definition sharingOf (sharingID : SharingID) (d : dealing) : PSSID :=
  ToPSSID (mkPSSIDDetails sharingID (fst d)).

Definition dealt_messages (sharingID : SharingID) (ds : list dealing) (i : Z) (sender : Node)
    (msg : PSSMessage) : Prop :=
  forall d C, d ∈ ds -> GetCommitmentMatrix (fst (snd d)) (snd (snd d)) = Ok C ->
    betas_dealt (fst (snd d)) (snd (snd d)) i (GetCIDFromPointMatrix C) (sharingOf sharingID d) sender msg.

(** The share that one node of the new network outputs: at the end of a run of
    its own it processes the decision of the sharings of [ds], each of which has
    the dealer's commitment. *)
Definition refreshed_share (nodes : list Node) (t : Z) (k : nat) (sharingID : SharingID)
    (ds : list dealing) (s : PrimaryShare) : Prop :=
  exists self oldEpoch oldNodes oldT oldK newEpoch idx isDealer delay pn msg m pn' text keyIndex si' Vbar,
    pss_reachable (dealt_messages sharingID ds (NodeIndex self))
      (NewPSSNode self oldEpoch oldNodes oldT oldK newEpoch nodes t (Z.of_nat k) idx isDealer true delay) pn /\
    Unmarshal (pmData msg) = Some m /\ pdcPSSs m = sharingOf sharingID <$> ds /\
    (forall d p, d ∈ ds -> pnPSSStore pn !! sharingOf sharingID d = Some (Some p) ->
       stPhase (psState p) = Ended -> GetCommitmentMatrix (fst (snd d)) (snd (snd d)) = Ok (psCbar p)) /\
    ProcessBroadcastMessage pn msg =
      (pn', [OutputText text; OutputRefresh (mkRefreshKeyStorage keyIndex (Value s) si' Vbar)], Returned) /\
    Index s = NodeIndex self.

Lemma refreshed_share_point nodes t k sharingID f f' ds s :
  nodes_ok nodes -> 0 <= t -> dealers_ok k f f' ds -> Delimiter1 ∉ chars sharingID ->
  refreshed_share nodes t k sharingID ds s ->
  Value s = peval (refreshedPoly k fst ds) (Index s) mod q.
Proof.
  intros Hn Ht Hds Hid (self & oe & on & ot & ok & ne & idx & isd & delay & pn & msg & m & pn' & text &
    keyIndex & si' & Vbar & Hr & Hu & Hids & HC & Hb & ->).
  pose proof Hds as [Hne Hidx _ _ Hm _].
  assert (0 < k)%nat as Hk by (destruct Hm as [|d ? [(? & _) _] _]; [done|lia]).
  set (pn0 := NewPSSNode _ _ _ _ _ _ _ _ _ _ _ _ _) in Hr.
  assert (net_ok (asNet (pnNewNodes pn0))) as Hnet by (apply (net_ok_list nodes t (Z.of_nat k)); [done|lia|done]).
  assert (pnNodeDetails pn = self) as Hself by (by eapply (pss_reachable_node _ pn0)).
  apply run_inv in Hb as [[_ [=]]|(? & _ & Hb)]. rewrite Hu in Hb.
  destruct (String.eqb _ _); [|done]. unfold checkAllPSSEnded in Hb.
  destruct (pnRecoverStore pn !! _) as [[r|]|]; [|done..].
  destruct (collectPSS pn (pdcPSSs m)) as [[refs []] []] eqn:Ec; [done..| |done].
  apply collectPSS_ended in Ec. rewrite Hids in Ec. apply Forall2_fmap_l in Ec.
  assert (Forall2 (ended_with k (NodeIndex (pnNodeDetails pn))) ds refs) as Hrefs.
  { rewrite Hself. apply Forall2_forall_mem_l in Ec. eapply Forall2_impl; [|exact Ec].
    intros d p (Hin & Hp & He). rewrite list.Forall_forall in Hidx, Hm.
    destruct (Hm d Hin) as [Hf Hf']. pose proof (HC d p Hin Hp He) as HCd.
    destruct (ended_sharing_dealt (pnNewNodes pn0) k (fst (snd d)) (snd (snd d)) (NodeIndex self)
      (GetCIDFromPointMatrix (psCbar p)) (sharingOf sharingID d)
      (dealt_messages sharingID ds (NodeIndex self)) pn0 pn p Hnet eq_refl Hf Hf') as (Eid & E1 & E2); try done.
    { intros sender msg' Hok. by apply Hok. }
    unfold ended_with. rewrite Eid. unfold sharingOf.
    rewrite FromPSSID_To; [|by apply Hidx|done]. by split_and!. }
  rewrite <-Hself. by eapply processDecide_share.
Qed.

(** ** Properties *)

(** C12: a decision refreshes the share: when every decided sharing has ended with
    the values of its dealer, and the dealers deal their shares of the key, the
    verification of the new share succeeds, the node outputs its point of the
    refreshed polynomial with a public polynomial that opens to it everywhere and
    to the old key at zero, and the sharing is cleaned up. *)
Theorem decide_refreshes_share k f f' ds pn msg r refs keyIndex :
  let i := NodeIndex (pnNodeDetails pn) in
  let g := refreshedPoly k fst ds in
  let g' := refreshedPoly k snd ds in
  dealers_ok k f f' ds -> Forall2 (ended_with k i) ds refs ->
  refreshedIndex (GetKeygenID (rcSharingID r)) = Ok keyIndex ->
  exists pn' Vbar,
    processDecide pn msg r refs =
      (pn', [OutputText (pdcSharingID msg ++ " refreshed");
             OutputRefresh (mkRefreshKeyStorage keyIndex (peval g i mod q) (peval g' i mod q) Vbar)], Returned) /\
    (forall x, RHS Vbar x = ped (peval g x) (peval g' x)) /\
    RHS Vbar 0 = ped (peval f 0) (peval f' 0) /\
    pnRecoverStore pn' !! rcSharingID r = Some None /\
    forall nid n, netNodes (pnNewNodes pn) !! nid = Some n ->
      pnPSSStore pn' !! ToPSSID (mkPSSIDDetails (rcSharingID r) (NodeIndex n)) = Some None.
Proof.
  intros i g g' [Hne Hidx Hdist [Hl Hl'] Hm Hs] Hrefs Hk. apply list.Forall_and in Hs as [Hs Hs'].
  pose proof Hm as Hm2. apply list.Forall_and in Hm2 as [Hmf Hmf'].
  assert (Forall (fun d : dealing => length (column 0 (fst (snd d))) = k /\ length (column 0 (snd (snd d))) = k) ds)
    as Hlen.
  { eapply list.Forall_impl; [exact Hm|]. intros d [(_ & H1 & _) (_ & H2 & _)]. by rewrite !length_column. }
  assert (exists Vbar, LagrangePolys (fst <$> ds)
      ((fun d : dealing => zip_with ped (column 0 (fst (snd d))) (column 0 (snd (snd d)))) <$> ds) = Ok Vbar /\
    forall x, RHS Vbar x = ped (peval g x) (peval g' x)) as (Vbar & EV & HV).
  { eexists. split; [by apply (LagrangePolys_columns fst _ _ k)|]. intros x.
    rewrite <-(zip_with_fmap_seq ped). rewrite RHS_ped by (by rewrite !length_fmap). done. }
  assert (LagrangeScalarCP (zip_with mkPoint (fst <$> ds) (psSi <$> refs)) 0 = peval g i mod q) as E1.
  { apply (shares_spec k i fst psSi); [done..|]. eapply Forall2_impl; [|exact Hrefs]. by intros d p (_ & _ & _ & ? & _). }
  assert (LagrangeScalarCP (zip_with mkPoint (fst <$> ds) (psSiprime <$> refs)) 0 = peval g' i mod q) as E2.
  { apply (shares_spec k i snd psSiprime); [done..|]. eapply Forall2_impl; [|exact Hrefs]. by intros d p (_ & _ & _ & _ & ?). }
  assert (VerifyShareCommitment (ped (peval g i mod q) (peval g' i mod q)) Vbar i = true) as Hv.
  { unfold VerifyShareCommitment. rewrite HV, !eqm_mod. apply Z.eqb_refl. }
  eexists _, Vbar. unfold processDecide, run, emit.
  rewrite (dealers_spec k i ds) by done. rewrite (columns_spec k i ds) by done. cbn [mbind res_bind].
  rewrite EV, E1, E2. rewrite ScalarBaseMult_Bytes, ScalarMult_Bytes by (apply mod_order_bound || auto with torus).
  fold (ped (peval g i mod q) (peval g' i mod q)). fold i. rewrite Hv. cbn [negb]. simpl. rewrite Hk.
  split; [reflexivity|]. split_and!.
  - exact HV.
  - rewrite HV. subst g g'. by rewrite (refreshedPoly_0 k fst f), (refreshedPoly_0 k snd f').
  - unfold pssCleanUp. simpl. by rewrite lookup_insert_eq.
  - intros nid n Hn. unfold pssCleanUp. simpl. by apply (PSSStoreComplete_in _ _ _ nid).
Qed.

(** C13: a refresh preserves the key: when the dealers deal their shares of a key, every
    message of every run about a dealing carries its dealer's values ([dealt_messages])
    and the sharings that have ended hold their dealers' commitments, neither of which the
    code checks, the shares that any [k] or more nodes of the new network output, each at
    the end of a run of its own, interpolate to the secret the old nodes shared. *)
Theorem refresh_preserves_key nodes t k sharingID f f' ds shares :
  nodes_ok nodes -> 0 <= t -> dealers_ok k f f' ds -> Delimiter1 ∉ chars sharingID ->
  Forall (refreshed_share nodes t k sharingID ds) shares ->
  distinct q (Index <$> shares) -> (k <= length shares)%nat ->
  LagrangeScalar shares 0 = peval f 0 mod q.
Proof.
  intros Hn Ht Hds Hid Hsh Hd Hk. pose proof Hds as [_ _ Hdist [Hl _] Hm Hs].
  apply list.Forall_and in Hs as [Hs _], Hm as [Hm _].
  rewrite (LagrangeScalar_spec (refreshedPoly k fst ds)); [|done| |].
  - pose proof order_ge_2. apply eqm_mod_iff; [lia|]. by apply refreshedPoly_0.
  - unfold refreshedPoly. by rewrite length_fmap, length_seq.
  - eapply list.Forall_impl; [exact Hsh|]. intros s Hss.
    rewrite (refreshed_share_point nodes t k sharingID f f' ds s) by done. apply eqm_mod.
Qed.

End refresh.
