(* ===== verification/PssToy.v ===== *)
(** A refresh on the toy curve: two old nodes hand a key over to three new ones;
    two of the new nodes run to the decision, and the witnesses of the refresh's
    properties evaluate what they output. *)
From Stdlib Require Import ZArith.
From stdpp Require Import gmap strings.
From S2P Require Import Prelude BigInt Field Curve Pvss Interpolate Avss Nizkpk Ecdsa Ids Effects Keygen KeygenInv KeygenReach KeygenToy PssTypes Pss PssReach PssRefresh.
Import ToyCodec.

(** ** The serialisation of the messages *)

#[global] Instance ser_pss_share : Ser PSSMsgShare := ser_iso pshSharingID mkPSSMsgShare ltac:(by intros []).

#[global] Instance ser_pss_recover : Ser PSSMsgRecover :=
  ser_iso (fun m => (prcSharingID m, prcV m)) (fun xy => mkPSSMsgRecover (fst xy) (snd xy)) ltac:(by intros []).

#[global] Instance ser_pss_send : Ser PSSMsgSend :=
  ser_iso (fun m => (psnPSSID m, psnC m, psnA m, psnAprime m, psnB m, psnBprime m))
    (fun '(a, b, c, d, e, g) => mkPSSMsgSend a b c d e g) ltac:(by intros []).

#[global] Instance ser_pss_echo : Ser PSSMsgEcho :=
  ser_iso (fun m => (pecPSSID m, pecC m, pecAlpha m, pecAlphaprime m, pecBeta m, pecBetaprime m))
    (fun '(a, b, c, d, e, g) => mkPSSMsgEcho a b c d e g) ltac:(by intros []).

#[global] Instance ser_pss_ready : Ser PSSMsgReady :=
  ser_iso (fun m => (prdPSSID m, prdC m, prdAlpha m, prdAlphaprime m, prdBeta m, prdBetaprime m, prdSignedText m))
    (fun '(a, b, c, d, e, g, h) => mkPSSMsgReady a b c d e g h) ltac:(by intros []).

#[global] Instance ser_pss_complete : Ser PSSMsgComplete :=
  ser_iso (fun m => (pcmPSSID m, pcmC00 m)) (fun xy => mkPSSMsgComplete (fst xy) (snd xy)) ltac:(by intros []).

#[global] Instance ser_pss_propose : Ser PSSMsgPropose :=
  ser_iso (fun m => (pprNodeDetailsID m, pprSharingID m, pprPSSs m, pprSignedTexts m))
    (fun '(a, b, c, d) => mkPSSMsgPropose a b c d) ltac:(by intros []).

#[global] Instance ser_pss_decide : Ser PSSMsgDecide :=
  ser_iso (fun m => (pdcSharingID m, pdcPSSs m)) (fun xy => mkPSSMsgDecide (fst xy) (snd xy)) ltac:(by intros []).

#[global] Instance pss_codecs : PSSCodecs := {|
  codec_pss_share := codec_ser;
  codec_pss_recover := codec_ser;
  codec_pss_send := codec_ser;
  codec_pss_echo := codec_ser;
  codec_pss_ready := codec_ser;
  codec_pss_complete := codec_ser;
  codec_pss_msg_propose := codec_ser;
  codec_pss_msg_decide := codec_ser;
|}.

#[global] Instance pss_no_sharing : PSSDataSource := {| GetSharing _ := Ok None |}.

#[global] Instance toy_Node_eq_dec : EqDecision Node.
Proof. solve_decision. Defined.

(** ** The key and its dealers *)

(** The polynomials of the key, and the dealings of the old nodes 1 and 2. *)
Definition old_f : list Z := [7; 5].
Definition old_f' : list Z := [3; 2].

Definition dealing1 : dealing := (1, ([[12; 3]; [4; 5]], [[5; 6]; [7; 8]])).
Definition dealing2 : dealing := (2, ([[17; 1]; [2; 9]], [[7; 30]; [11; 0]])).
Definition dealings : list dealing := [dealing1; dealing2].

Definition hand_over : SharingID :=
  GetSharingID (GenerateKeygenID 5) (mkEpochParams 1 2 2 0 2 3 2 1).

Lemma dealings_ok : dealers_ok 2 old_f old_f' dealings.
Proof.
  constructor.
  - discriminate.
  - repeat constructor; unfold in_int64; simpl; lia.
  - vm_compute. repeat constructor; set_solver.
  - simpl. lia.
  - repeat constructor; simpl; lia.
  - constructor; [|constructor; [|constructor]]; split; apply eqm31_check; vm_compute; reflexivity.
Qed.

(** ** A run of one new node *)

Definition matrix_of (d : dealing) : list (list Point) :=
  match GetCommitmentMatrix (fst (snd d)) (snd (snd d)) with Ok C => C | _ => [] end.

Definition pss_start_node (i : Z) : PSSNode :=
  NewPSSNode (toy_node i) 1 (toy_node <$> [1; 2]) 0 2 2 toy_net_nodes 1 2 0 false true 0.

Definition pss_echo (d : dealing) (i m : Z) : PSSMsgEcho :=
  let '(g, g') := snd d in
  mkPSSMsgEcho (sharingOf hand_over d) (matrix_of d) (toy_alpha g i m) (toy_alpha g' i m)
    (toy_beta g i m) (toy_beta g' i m).

Definition pss_ready (d : dealing) (i m : Z) : PSSMsgReady :=
  let '(g, g') := snd d in
  mkPSSMsgReady (sharingOf hand_over d) (matrix_of d) (toy_alpha g i m) (toy_alpha g' i m)
    (toy_beta g i m) (toy_beta g' i m)
    (default [] (ethSign (Keccak256 (stringBytes (Join [sharingOf hand_over d; "ready"] Delimiter1))) (toy_key m))).

Definition pss_messages (i : Z) : list (Node * PSSMessage) :=
  (toy_node 1, CreatePSSMessage NullPSSID "recover"
     (bytes_of (mkPSSMsgRecover hand_over (zip_with ped old_f old_f')))) ::
  concat ((fun d =>
    ((fun m => (toy_node m, CreatePSSMessage (sharingOf hand_over d) "echo" (bytes_of (pss_echo d i m)))) <$> [1; 2; 3]) ++
    ((fun m => (toy_node m, CreatePSSMessage (sharingOf hand_over d) "ready" (bytes_of (pss_ready d i m)))) <$> [1; 2; 3]))
    <$> dealings).

Fixpoint pss_deliver (pn : PSSNode) (tape : Tape) (msgs : list (Node * PSSMessage)) : PSSNode :=
  match msgs with
  | [] => pn
  | (sender, msg) :: msgs' =>
      let '((pn', tape'), _, _) := ProcessMessage pn tape sender msg in
      pss_deliver pn' tape' msgs'
  end.

Lemma pss_deliver_reachable ok pn0 pn tape msgs :
  pss_reachable ok pn0 pn ->
  Forall (fun sm => from_member (pnNewNodes pn0) (fst sm) (snd sm) /\ ok (fst sm) (snd sm)) msgs ->
  pss_reachable ok pn0 (pss_deliver pn tape msgs).
Proof.
  intros Hr Hm. revert pn tape Hr. induction Hm as [|[s m] msgs [H1 H2] _ IH]; intros pn tape Hr; [done|].
  simpl. destruct (ProcessMessage pn tape s m) as [[[pn' tape'] acts] st] eqn:E.
  apply IH. by eapply pss_direct; [..|exact E]; try apply _.
Qed.

Definition pss_end (i : Z) : PSSNode := pss_deliver (pss_start_node i) toy_tape (pss_messages i).

Definition pss_decision : PSSMessage :=
  CreatePSSMessage NullPSSID "decide" (bytes_of (mkPSSMsgDecide hand_over (sharingOf hand_over <$> dealings))).

(** What node [i] outputs when it processes the decision. *)
Definition pss_output (i : Z) : PSSNode * RefreshKeyStorage :=
  match ProcessBroadcastMessage (pss_end i) pss_decision with
  | (pn, [OutputText _; OutputRefresh key], Returned) => (pn, key)
  | (pn, _, _) => (pn, mkRefreshKeyStorage 0 0 0 [])
  end.

Example pss_run : rkKeyIndex (snd (pss_output 1)) = 5 /\
  LagrangeScalar [mkPrimaryShare 1 (rkSi (snd (pss_output 1))); mkPrimaryShare 3 (rkSi (snd (pss_output 3)))] 0 = 7.
Proof. vm_compute. split; reflexivity. Qed.

(** ** The run meets the hypotheses of the properties *)

(** The betas of a message about one of the dealings are its dealer's. *)
Definition dealt_check (i : Z) (sm : Node * PSSMessage) (d : dealing) : bool :=
  let m := NodeIndex (fst sm) in
  let ok b b' :=
    ((b - beval (fst (snd d)) i m) mod 31 =? 0) && ((b' - beval (snd (snd d)) i m) mod 31 =? 0) in
  if negb (String.eqb (pmPSSID (snd sm)) (sharingOf hand_over d)) then true
  else if String.eqb (pmMethod (snd sm)) "echo" then
    match Unmarshal (A := PSSMsgEcho) (pmData (snd sm)) with Some m => ok (pecBeta m) (pecBetaprime m) | None => true end
  else if String.eqb (pmMethod (snd sm)) "ready" then
    match Unmarshal (A := PSSMsgReady) (pmData (snd sm)) with Some m => ok (prdBeta m) (prdBetaprime m) | None => true end
  else true.

Lemma dealt_check_messages i sm :
  forallb (dealt_check i sm) dealings = true -> dealt_messages hand_over dealings i (fst sm) (snd sm).
Proof.
  intros H d C Hd _ Eid. apply list_elem_of_In in Hd. apply (proj1 (List.forallb_forall _ _) H) in Hd.
  unfold dealt_check in Hd. rewrite Eid, String.eqb_refl in Hd. cbn [negb] in Hd.
  split; intros m Hm E _; rewrite Hm in Hd; cbn [String.eqb Ascii.eqb Bool.eqb] in Hd; rewrite E in Hd;
    apply andb_true_iff in Hd as [H3 H4]; split; by apply eqm31_check.
Qed.

Lemma member_check (net : NodeNetwork) sm :
  bool_decide (netNodes net !! Ids.ToNodeDetailsID (fst sm) = Some (fst sm)) = true ->
  from_member net (fst sm) (snd sm).
Proof. intros H%bool_decide_eq_true _. exact H. Qed.

Definition messages_check (i : Z) : bool :=
  forallb (fun sm =>
    bool_decide (netNodes (pnNewNodes (pss_start_node i)) !! Ids.ToNodeDetailsID (fst sm) = Some (fst sm)) &&
    forallb (dealt_check i sm) dealings) (pss_messages i).

Lemma pss_end_reachable i :
  messages_check i = true ->
  pss_reachable (dealt_messages hand_over dealings i) (pss_start_node i) (pss_end i).
Proof.
  intros H. apply pss_deliver_reachable; [apply pss_start|]. apply list.Forall_forall.
  intros sm Hin%list_elem_of_In. apply (proj1 (List.forallb_forall _ _) H) in Hin.
  apply andb_true_iff in Hin as [H1 H2]. split; [by apply member_check|by apply dealt_check_messages].
Qed.

(** The share of node [i], when its run checks. *)
Definition pss_checks (i : Z) : bool :=
  forallb (fun d => match pnPSSStore (pss_end i) !! sharingOf hand_over d with
    | Some (Some p) => bool_decide (GetCommitmentMatrix (fst (snd d)) (snd (snd d)) = Ok (psCbar p))
    | _ => false
    end) dealings.

(** The decision is processed to its end; the node it leaves is not looked at. *)
Definition pss_decides (i : Z) : bool :=
  match ProcessBroadcastMessage (pss_end i) pss_decision with
  | (_, [OutputText _; OutputRefresh _], Returned) => true
  | _ => false
  end.

Lemma pss_decides_output i : pss_decides i = true -> exists pn text,
  ProcessBroadcastMessage (pss_end i) pss_decision = (pn, [OutputText text; OutputRefresh (snd (pss_output i))], Returned).
Proof.
  unfold pss_decides, pss_output. destruct (ProcessBroadcastMessage _ _) as [[pn acts] st].
  repeat case_match; try discriminate; subst; intros _; by eexists _, _.
Qed.

Lemma pss_share i :
  messages_check i = true ->
  pss_checks i = true ->
  pss_decides i = true ->
  refreshed_share toy_net_nodes 1 2 hand_over dealings (mkPrimaryShare i (rkSi (snd (pss_output i)))).
Proof.
  intros H1 H2 (pn & text & H3)%pss_decides_output.
  exists (toy_node i), 1, (toy_node <$> [1; 2]), 0, 2, 2, 0, false, 0, (pss_end i), pss_decision,
    (mkPSSMsgDecide hand_over (sharingOf hand_over <$> dealings)), pn, text, (rkKeyIndex (snd (pss_output i))),
    (rkSiprime (snd (pss_output i))), (rkCommitmentPoly (snd (pss_output i))).
  split_and!; [by apply pss_end_reachable|vm_compute; reflexivity|reflexivity| | |reflexivity].
  - intros d p Hd Hp _. apply list_elem_of_In in Hd.
    apply (proj1 (List.forallb_forall _ _) H2) in Hd. rewrite Hp in Hd.
    by apply bool_decide_eq_true in Hd.
  - rewrite H3. generalize (snd (pss_output i)). by intros [].
Qed.

(** ** Witnesses *)

Lemma hand_over_chars : Delimiter1 ∉ chars hand_over.
Proof. apply (bool_decide_unpack (Delimiter1 ∉ chars hand_over)). vm_compute. exact I. Qed.


Lemma pss_share1 : refreshed_share toy_net_nodes 1 2 hand_over dealings (mkPrimaryShare 1 (rkSi (snd (pss_output 1)))).
Proof. apply pss_share; vm_compute; reflexivity. Qed.

Lemma pss_share3 : refreshed_share toy_net_nodes 1 2 hand_over dealings (mkPrimaryShare 3 (rkSi (snd (pss_output 3)))).
Proof. apply pss_share; vm_compute; reflexivity. Qed.

Lemma refresh_preserves_key_witness :
  LagrangeScalar [mkPrimaryShare 1 (rkSi (snd (pss_output 1))); mkPrimaryShare 3 (rkSi (snd (pss_output 3)))] 0 = 7.
Proof.
  rewrite (refresh_preserves_key toy_net_nodes 1 2 hand_over old_f old_f' dealings);
    [vm_compute; reflexivity | apply toy_nodes_ok | lia | apply dealings_ok | | | |].
  - exact hand_over_chars.
  - constructor; [apply pss_share1|]. constructor; [apply pss_share3|constructor].
  - vm_compute. repeat constructor; set_solver.
  - simpl. lia.
Defined.

Definition pss_refs (i : Z) : list PSS :=
  match checkAllPSSEnded (pss_end i) hand_over (sharingOf hand_over <$> dealings) with
  | (_, refs, _, _) => refs
  end.

Definition ended_check (d : dealing) (p : PSS) : bool :=
  match FromPSSID PSSIDDetailsZero (psPSSID p) with
  | (details, None) => pidDealerIndex details =? fst d
  | _ => false
  end &&
  bool_decide (GetCommitmentMatrix (fst (snd d)) (snd (snd d)) = Ok (psCbar p)) &&
  (psSi p =? beval (fst (snd d)) 1 0 mod GeneratorOrder) &&
  (psSiprime p =? beval (snd (snd d)) 1 0 mod GeneratorOrder).

Lemma ended_check_spec d p : ended_check d p = true -> ended_with 2 1 d p.
Proof.
  unfold ended_check, ended_with. destruct (FromPSSID _ _) as [details [e|]]; [done|].
  rewrite !andb_true_iff, !Z.eqb_eq, bool_decide_eq_true. tauto.
Qed.

Lemma pss_refs_ended : Forall2 (ended_with 2 1) dealings (pss_refs 1).
Proof.
  assert (match pss_refs 1 with
    | [p1; p2] => ended_check dealing1 p1 && ended_check dealing2 p2
    | _ => false
    end = true) as H by (vm_compute; reflexivity).
  destruct (pss_refs 1) as [|p1 [|p2 []]]; try discriminate.
  apply andb_true_iff in H as [H1 H2]. constructor; [by apply ended_check_spec|].
  constructor; [by apply ended_check_spec|constructor].
Qed.

Lemma decide_refreshes_share_witness :
  exists pn Vbar, processDecide (pss_end 1) (mkPSSMsgDecide hand_over []) (newRecover hand_over) (pss_refs 1) =
      (pn, [OutputText (hand_over ++ " refreshed");
            OutputRefresh (mkRefreshKeyStorage 5 (rkSi (snd (pss_output 1))) (rkSiprime (snd (pss_output 1))) Vbar)], Returned) /\
    RHS Vbar 0 = ped 7 3 /\ pnRecoverStore pn !! hand_over = Some None.
Proof.
  destruct (decide_refreshes_share 2 old_f old_f' dealings (pss_end 1) (mkPSSMsgDecide hand_over [])
    (newRecover hand_over) (pss_refs 1) 5) as (pn & Vbar & E & _ & HV & Hr & _);
    [apply dealings_ok | exact pss_refs_ended | vm_compute; reflexivity |].
  exists pn, Vbar. split; [|split; [exact HV|exact Hr]].
  assert (rkSi (snd (pss_output 1)) = peval (refreshedPoly 2 fst dealings) 1 mod GeneratorOrder) as ->
    by (vm_compute; reflexivity).
  assert (rkSiprime (snd (pss_output 1)) = peval (refreshedPoly 2 snd dealings) 1 mod GeneratorOrder) as ->
    by (vm_compute; reflexivity).
  exact E.
Defined.
