(* ===== verification/Torusdb.v ===== *)
(** The node's own database (src/db/torus.go over level_db.go) and the service in
    front of it (src/dkgnode/db.go): the shares and commitments of completed keys,
    the index of public keys, and what is known of other nodes.

    LevelDB is a finite map from keys to bytes; its opening, failing and iterating
    calls are the library's.  Every table has a one-byte prefix.  The methods of
    the service are a type of requests, [Call] is its dispatch; an [ethCommon.Address]
    is its bytes. *)
From Stdlib Require Import ZArith.
From stdpp Require Import gmap strings sorting.
From S2P Require Import Prelude BigInt Curve Effects.

(** ** Data *)

Record completedShare := mkCompletedShare { csSi : Z; csSiPrime : Z }.
Record KeygenStarted := mkKeygenStarted { ksStarted : bool }.
Record ConnectionDetails := mkConnectionDetails { cdTMP2PConnection : string; cdP2PConnection : string }.

Class TorusDBCodecs := {
  codec_completed_share :: Codec completedShare;
  codec_keygen_started :: Codec KeygenStarted;
  codec_point :: Codec Point;
  codec_matrix :: Codec (list (list Point));
}.

(** ** Keys and the database *)

Definition completedKeygenShareBytes : list Z := stringBytes "a".
Definition completedPSSShareBytes : list Z := stringBytes "b".
Definition completedShareCountBytes : list Z := stringBytes "c".
Definition keygenCommitmentMatrixBytes : list Z := stringBytes "d".
Definition pssCommitmentMatrixBytes : list Z := stringBytes "e".
Definition pubkeyToKeyIndexBytes : list Z := stringBytes "f".
Definition keygenIDBytes : list Z := stringBytes "g".
Definition keyIndexToPubKeyBytes : list Z := stringBytes "h".
Definition connectionDetailsBytes : list Z := stringBytes "i".
Definition nodePubKeyBytes : list Z := stringBytes "j".

Abbreviation TorusLDB := (gmap (list Z) (list Z)).

(** [Get] gives nil for a key that is not there. *)
Definition dbGet (t : TorusLDB) (key : list Z) : option (list Z) := t !! key.
Definition dbHas (t : TorusLDB) (key : list Z) : bool :=
  match dbGet t key with Some _ => true | None => false end.
Definition dbSet (t : TorusLDB) (key value : list Z) : TorusLDB := <[key := value]> t.

(** [bytes.Compare(a, b) < 0]. *)
Fixpoint bytes_ltb (a b : list Z) : bool :=
  match a, b with
  | _, [] => false
  | [], _ :: _ => true
  | x :: a', y :: b' => if x <? y then true else if y <? x then false else bytes_ltb a' b'
  end.

Definition bytes_le (a b : list Z) : Prop := bytes_ltb b a = false.

#[global] Instance bytes_le_dec a b : Decision (bytes_le a b).
Proof. unfold bytes_le. apply _. Defined.

(** LevelDB's own iterator: the keys it has still to visit, in their order. *)
Definition NewIterator (t : TorusLDB) : list (list Z) := merge_sort bytes_le (map_to_list t).*1.

(** Move to the first key at or after [start]. *)
Fixpoint Seek (start : list Z) (source : list (list Z)) : list (list Z) :=
  match source with
  | [] => []
  | key :: rest => if bytes_ltb key start then Seek start rest else source
  end.

Record goLevelDBIterator := mkGoLevelDBIterator { itSource : list (list Z); itEnd : list Z }.

Definition dbIterator (t : TorusLDB) (start stop : list Z) : goLevelDBIterator :=
  mkGoLevelDBIterator (Seek start (NewIterator t)) stop.

Definition Valid (itr : goLevelDBIterator) : bool :=
  match itSource itr with
  | [] => false
  | key :: _ => bytes_ltb key (itEnd itr)
  end.

Definition Next (itr : goLevelDBIterator) : goLevelDBIterator :=
  mkGoLevelDBIterator (tail (itSource itr)) (itEnd itr).

(** The counting loop, which ends when the iterator is no longer valid. *)
Fixpoint countValid (fuel : nat) (itr : goLevelDBIterator) (count : Z) : Z :=
  match fuel with
  | O => count
  | S fuel => if Valid itr then countValid fuel (Next itr) (count + 1) else count
  end.

Section ldb.
Context {DC : TorusDBCodecs}.

Definition errUnmarshal : string := "bijson: could not unmarshal".

Definition unmarshal {A} `{Codec A} (data : list Z) : res A :=
  match Unmarshal data with Some a => Ok a | None => Err errUnmarshal end.

(** Store what a successful serialisation gives. *)
Definition store {A} `{Codec A} (t : TorusLDB) (a : A) (f : list Z -> TorusLDB) : TorusLDB * option string :=
  match Marshal a with
  | Some b => (f b, None)
  | None => (t, Some errMarshal)
  end.

(** ** Operations (torus.go) *)

Definition StoreNodePubKey (t : TorusLDB) (nodeAddress : list Z) (pubKey : Point) : TorusLDB * option string :=
  store t pubKey (fun data => dbSet t (nodePubKeyBytes ++ nodeAddress) data).

Definition RetrieveNodePubKey (t : TorusLDB) (nodeAddress : list Z) : res Point :=
  match dbGet t (nodePubKeyBytes ++ nodeAddress) with
  | None => Err "could not find pubkey for nodeAddress"
  | Some data => unmarshal data
  end.

Definition StoreConnectionDetails (t : TorusLDB) (nodeAddress : list Z) (tmP2PConnection p2pConnection : string)
    : TorusLDB * option string :=
  (dbSet t (connectionDetailsBytes ++ nodeAddress)
     (stringBytes (Join [tmP2PConnection; p2pConnection] Delimiter1)), None).

Definition RetrieveConnectionDetails (t : TorusLDB) (nodeAddress : list Z) : res (string * string) :=
  match dbGet t (connectionDetailsBytes ++ nodeAddress) with
  | None => Err "could not get data from db for connection details"
  | Some data =>
      match Split (bytesString data) Delimiter1 with
      | [s0; s1] => Ok (s0, s1)
      | _ => Err "unexpected number of substrs in connection details stored data"
      end
  end.

Definition StoreKeygenCommitmentMatrix (t : TorusLDB) (keyIndex : Z) (c : list (list Point))
    : TorusLDB * option string :=
  store t c (fun b => dbSet t (keygenCommitmentMatrixBytes ++ Bytes keyIndex) b).

Definition StorePSSCommitmentMatrix (t : TorusLDB) (keyIndex : Z) (c : list (list Point))
    : TorusLDB * option string :=
  store t c (fun b => dbSet t (pssCommitmentMatrixBytes ++ Bytes keyIndex) b).

Definition RetrieveCommitmentMatrix (t : TorusLDB) (keyIndex : Z) : res (list (list Point)) :=
  match dbGet t (pssCommitmentMatrixBytes ++ Bytes keyIndex) with
  | Some b => unmarshal b
  | None =>
      match dbGet t (keygenCommitmentMatrixBytes ++ Bytes keyIndex) with
      | Some b => unmarshal b
      | None => Ok []
      end
  end.

Definition StorePublicKeyToKeyIndex (t : TorusLDB) (publicKey : Point) (keyIndex : Z) : TorusLDB * option string :=
  store t publicKey (fun b =>
    dbSet (dbSet t (pubkeyToKeyIndexBytes ++ b) (Bytes keyIndex)) (keyIndexToPubKeyBytes ++ Bytes keyIndex) b).

(** A key that is not there has index zero. *)
Definition RetrievePublicKeyToKeyIndex (t : TorusLDB) (publicKey : Point) : res Z :=
  b ← marshal publicKey;
  Ok (SetBytes (default [] (dbGet t (pubkeyToKeyIndexBytes ++ b)))).

Definition RetrieveKeyIndexToPublicKey (t : TorusLDB) (keyIndex : Z) : res Point :=
  unmarshal (default [] (dbGet t (keyIndexToPubKeyBytes ++ Bytes keyIndex))).

Definition KeyIndexToPublicKeyExists (t : TorusLDB) (keyIndex : Z) : bool :=
  dbHas t (keyIndexToPubKeyBytes ++ Bytes keyIndex).

Definition StoreCompletedKeygenShare (t : TorusLDB) (keyIndex si siprime : Z) : TorusLDB * option string :=
  store t (mkCompletedShare si siprime) (fun b =>
    dbSet (dbSet t (completedKeygenShareBytes ++ Bytes keyIndex) b)
      (completedShareCountBytes ++ Bytes keyIndex) (stringBytes "1")).

Definition StoreCompletedPSSShare (t : TorusLDB) (keyIndex si siprime : Z) : TorusLDB * option string :=
  store t (mkCompletedShare si siprime) (fun b =>
    dbSet (dbSet t (completedPSSShareBytes ++ Bytes keyIndex) b)
      (completedShareCountBytes ++ Bytes keyIndex) (stringBytes "1")).

(** [None] is the nil shares of a key that has none. *)
Definition RetrieveCompletedShare (t : TorusLDB) (keyIndex : Z) : res (option completedShare) :=
  match dbGet t (completedPSSShareBytes ++ Bytes keyIndex) with
  | Some b => s ← unmarshal b; Ok (Some s)
  | None =>
      match dbGet t (completedKeygenShareBytes ++ Bytes keyIndex) with
      | Some b => s ← unmarshal b; Ok (Some s)
      | None => Ok None
      end
  end.

Definition GetShareCount (t : TorusLDB) : Z :=
  let endBytes := (fun x => x + 1) <$> completedShareCountBytes in
  let itr := dbIterator t completedShareCountBytes endBytes in
  countValid (length (itSource itr)) itr 0.

Definition SetKeygenStarted (t : TorusLDB) (keygenID : string) (started : bool) : TorusLDB :=
  dbSet t (keygenIDBytes ++ stringBytes keygenID) (default [] (Marshal (mkKeygenStarted started))).

Definition GetKeygenStarted (t : TorusLDB) (keygenID : string) : bool :=
  match dbGet t (keygenIDBytes ++ stringBytes keygenID) with
  | None => false
  | Some data => ksStarted (default (mkKeygenStarted false) (Unmarshal data))
  end.

(** ** The service (db.go) *)

Inductive dbRequest :=
  | store_node_pub_key (nodeAddress : list Z) (pubKey : Point)
  | retrieve_node_pub_key (nodeAddress : list Z)
  | store_connection_details (nodeAddress : list Z) (connectionDetails : ConnectionDetails)
  | retrieve_connection_details (nodeAddress : list Z)
  | store_keygen_commitment_matrix (keyIndex : Z) (c : list (list Point))
  | store_PSS_commitment_matrix (keyIndex : Z) (c : list (list Point))
  | store_completed_keygen_share (keyIndex si siprime : Z)
  | store_completed_PSS_share (keyIndex si siprime : Z)
  | store_public_key_to_index (publicKey : Point) (keyIndex : Z)
  | retrieve_commitment_matrix (keyIndex : Z)
  | retrieve_public_key_to_index (publicKey : Point)
  | retrieve_index_to_public_key (keyIndex : Z)
  | index_to_public_key_exists (keyIndex : Z)
  | retrieve_completed_share (keyIndex : Z)
  | get_share_count
  | get_keygen_started (keygenID : string)
  | set_keygen_started (keygenID : string) (started : bool).

Inductive dbData :=
  | NoData
  | DataPoint (P : Point)
  | DataConnection (d : ConnectionDetails)
  | DataMatrix (c : list (list Point))
  | DataInt (i : Z)
  | DataShare (Si Siprime : Z)
  | DataBool (b : bool).

Record MethodResponse := mkMethodResponse { mrData : dbData; mrError : option string }.

(** A value and an error, as Go returns them: the zero value comes with an error.
    Nothing panics here. *)
Definition respond {A} (r : res A) (zero : dbData) (f : A -> dbData) : MethodResponse :=
  match r with
  | Ok a => mkMethodResponse (f a) None
  | Err e => mkMethodResponse zero (Some e)
  | Panic => mkMethodResponse zero None
  end.

Definition stored (r : TorusLDB * option string) : TorusLDB * MethodResponse :=
  (fst r, mkMethodResponse NoData (snd r)).

Definition Call (t : TorusLDB) (req : dbRequest) : TorusLDB * MethodResponse :=
  match req with
  | store_node_pub_key a P => stored (StoreNodePubKey t a P)
  | retrieve_node_pub_key a => (t, respond (RetrieveNodePubKey t a) (DataPoint PointO) DataPoint)
  | store_connection_details a d =>
      stored (StoreConnectionDetails t a (cdTMP2PConnection d) (cdP2PConnection d))
  | retrieve_connection_details a =>
      (t, respond (RetrieveConnectionDetails t a) (DataConnection (mkConnectionDetails EmptyString EmptyString))
            (fun '(s0, s1) => DataConnection (mkConnectionDetails s0 s1)))
  | store_keygen_commitment_matrix i c => stored (StoreKeygenCommitmentMatrix t i c)
  | store_PSS_commitment_matrix i c => stored (StorePSSCommitmentMatrix t i c)
  | store_completed_keygen_share i si siprime => stored (StoreCompletedKeygenShare t i si siprime)
  | store_completed_PSS_share i si siprime => stored (StoreCompletedPSSShare t i si siprime)
  | store_public_key_to_index P i => stored (StorePublicKeyToKeyIndex t P i)
  | retrieve_commitment_matrix i => (t, respond (RetrieveCommitmentMatrix t i) NoData DataMatrix)
  | retrieve_public_key_to_index P => (t, respond (RetrievePublicKeyToKeyIndex t P) (DataInt (-1)) DataInt)
  | retrieve_index_to_public_key i => (t, respond (RetrieveKeyIndexToPublicKey t i) (DataPoint PointO) DataPoint)
  | index_to_public_key_exists i => (t, mkMethodResponse (DataBool (KeyIndexToPublicKeyExists t i)) None)
  | retrieve_completed_share i =>
      (t, respond (RetrieveCompletedShare t i) (DataShare 0 0) (fun o =>
            match o with Some s => DataShare (csSi s) (csSiPrime s) | None => DataShare 0 0 end))
  | get_share_count => (t, mkMethodResponse (DataInt (GetShareCount t)) None)
  | get_keygen_started id => (t, mkMethodResponse (DataBool (GetKeygenStarted t id)) None)
  | set_keygen_started id b => (SetKeygenStarted t id b, mkMethodResponse NoData None)
  end.

End ldb.
