(* ===== verification/TorusdbSpec.v ===== *)
(** What the database promises: a record of finite maps, one per table, and the
    theorem that the service of Torusdb answers every sequence of requests as
    those maps do.  [Table] relates one map to the keys with its prefix. *)
From Stdlib Require Import ZArith.
From stdpp Require Import gmap strings sorting.
From S2P Require Import Prelude BigInt Curve Effects Torusdb.

(** ** Sequences of requests *)

(** The answers of a server to a sequence of requests. *)
Fixpoint responses {S Q R} (f : S -> Q -> S * R) (s : S) (qs : list Q) : list R :=
  match qs with
  | [] => []
  | q :: qs => let '(s, r) := f s q in r :: responses f s qs
  end.

(** Related servers answer alike. *)
Lemma responses_simulation {S T Q R} (f : S -> Q -> S * R) (g : T -> Q -> T * R)
    (sim : S -> T -> Prop) (ok : Q -> Prop) :
  (forall s t q, sim s t -> ok q -> sim (fst (f s q)) (fst (g t q)) /\ snd (f s q) = snd (g t q)) ->
  forall qs s t, sim s t -> Forall ok qs -> responses f s qs = responses g t qs.
Proof.
  intros Hstep qs. induction qs as [|q qs IH]; intros s t Hs Hok; [done|].
  apply list.Forall_cons in Hok as [Hq Hqs]. specialize (Hstep s t q Hs Hq). simpl.
  destruct (f s q) as [s' r], (g t q) as [t' r']. destruct Hstep as [Hs' Hr].
  simpl in *. rewrite Hr. f_equal. by apply IH.
Qed.

(** ** The tables *)

#[global] Instance Point_countable : Countable Point.
Proof.
  apply (inj_countable' (fun P => (PX P, PY P)) (fun xy => mkPoint (fst xy) (snd xy))). by intros [].
Defined.

Record Tables := mkTables {
  tNodeKeys : gmap (list Z) Point;
  tConnections : gmap (list Z) ConnectionDetails;
  tKeygenMatrices : gmap Z (list (list Point));
  tPSSMatrices : gmap Z (list (list Point));
  tKeygenShares : gmap Z completedShare;
  tPSSShares : gmap Z completedShare;
  tIndexes : gmap Point Z;
  tKeys : gmap Z Point;
  tStarted : gmap string bool;
}.

Definition noTables : Tables := mkTables ∅ ∅ ∅ ∅ ∅ ∅ ∅ ∅ ∅.

(** The keys a node holds a share of, by key generation or by refresh. *)
Definition heldKeys (s : Tables) : gset Z := dom (tKeygenShares s) ∪ dom (tPSSShares s).

(** A refreshed value replaces the generated one. *)
Definition tableMatrix (s : Tables) (i : Z) : list (list Point) :=
  default [] (((tPSSMatrices s) ∪ (tKeygenMatrices s)) !! i).
Definition tableShare (s : Tables) (i : Z) : completedShare :=
  default (mkCompletedShare 0 0) ((tPSSShares s ∪ tKeygenShares s) !! i).

Definition acknowledge (s : Tables) : Tables * MethodResponse := (s, mkMethodResponse NoData None).
Definition answer (s : Tables) (d : dbData) : Tables * MethodResponse := (s, mkMethodResponse d None).
Definition found {A} (s : Tables) (o : option A) (f : A -> dbData) (zero : dbData) (e : string)
    : Tables * MethodResponse :=
  match o with
  | Some a => answer s (f a)
  | None => (s, mkMethodResponse zero (Some e))
  end.

Definition tablesCall (s : Tables) (req : dbRequest) : Tables * MethodResponse :=
  let '(mkTables nk cn km pm ks ps ix ky st) := s in
  match req with
  | store_node_pub_key a P => acknowledge (mkTables (<[a := P]> nk) cn km pm ks ps ix ky st)
  | retrieve_node_pub_key a =>
      found s (nk !! a) DataPoint (DataPoint PointO) "could not find pubkey for nodeAddress"
  | store_connection_details a d => acknowledge (mkTables nk (<[a := d]> cn) km pm ks ps ix ky st)
  | retrieve_connection_details a =>
      found s (cn !! a) DataConnection (DataConnection (mkConnectionDetails EmptyString EmptyString))
        "could not get data from db for connection details"
  | store_keygen_commitment_matrix i c => acknowledge (mkTables nk cn (<[i := c]> km) pm ks ps ix ky st)
  | store_PSS_commitment_matrix i c => acknowledge (mkTables nk cn km (<[i := c]> pm) ks ps ix ky st)
  | store_completed_keygen_share i si si' =>
      acknowledge (mkTables nk cn km pm (<[i := mkCompletedShare si si']> ks) ps ix ky st)
  | store_completed_PSS_share i si si' =>
      acknowledge (mkTables nk cn km pm ks (<[i := mkCompletedShare si si']> ps) ix ky st)
  | store_public_key_to_index P i => acknowledge (mkTables nk cn km pm ks ps (<[P := i]> ix) (<[i := P]> ky) st)
  | retrieve_commitment_matrix i => answer s (DataMatrix (tableMatrix s i))
  | retrieve_public_key_to_index P => answer s (DataInt (default 0 (ix !! P)))
  | retrieve_index_to_public_key i => found s (ky !! i) DataPoint (DataPoint PointO) errUnmarshal
  | index_to_public_key_exists i => answer s (DataBool (bool_decide (is_Some (ky !! i))))
  | retrieve_completed_share i =>
      answer s (DataShare (csSi (tableShare s i)) (csSiPrime (tableShare s i)))
  | get_share_count => answer s (DataInt (Z.of_nat (size (heldKeys s))))
  | get_keygen_started id => answer s (DataBool (default false (st !! id)))
  | set_keygen_started id b => acknowledge (mkTables nk cn km pm ks ps ix ky (<[id := b]> st))
  end.

Definition separated (d : ConnectionDetails) : Prop :=
  (Delimiter1 ∉ chars (cdTMP2PConnection d)) /\ (Delimiter1 ∉ chars (cdP2PConnection d)).

(** Requests of the node: key indexes are not negative, and connection strings do
    not hold the separator. *)
Definition dbOk (req : dbRequest) : Prop :=
  match req with
  | store_keygen_commitment_matrix i _ | store_PSS_commitment_matrix i _
  | store_completed_keygen_share i _ _ | store_completed_PSS_share i _ _
  | store_public_key_to_index _ i | retrieve_commitment_matrix i
  | retrieve_index_to_public_key i | index_to_public_key_exists i | retrieve_completed_share i => 0 <= i
  | store_connection_details _ d => separated d
  | _ => True
  end.

(** ** The representation of a table *)

Section table.
Context {K V : Type} `{Countable K}.
Context (pre : list Z) (enc : K -> list Z) (val : V -> option (list Z)) (ok : K -> Prop).

(** The keys with the prefix hold exactly the map's values. *)
Definition Table (m : gmap K V) (t : TorusLDB) : Prop :=
  forall k, ok k -> t !! (pre ++ enc k) = m !! k ≫= val.

Lemma Table_empty : Table ∅ ∅.
Proof. intros k _. by rewrite !lookup_empty. Qed.

Lemma Table_insert m t k v b :
  (forall k', ok k' -> enc k = enc k' -> k = k') -> val v = Some b ->
  Table m t -> Table (<[k := v]> m) (<[pre ++ enc k := b]> t).
Proof.
  intros Hinj Hv HT k' Hk'. destruct (decide (k = k')) as [<-|Hne].
  - rewrite (lookup_insert_eq m), (lookup_insert_eq t). simpl. by rewrite Hv.
  - rewrite (lookup_insert_ne m) by done. rewrite lookup_insert_ne; [by apply HT|].
    intros E%app_inv_head. by apply Hne, Hinj.
Qed.

Lemma Table_other m t pre' k b :
  length pre' = length pre -> pre' <> pre -> Table m t -> Table m (<[pre' ++ k := b]> t).
Proof.
  intros Hl Hne HT k' Hk'. rewrite lookup_insert_ne; [by apply HT|].
  intros E. by apply app_inj_1 in E as [E _].
Qed.

End table.

(** ** The tables of the database *)

Class TorusDBLaws {DC : TorusDBCodecs} := {
  share_laws :: CodecLaws completedShare;
  started_laws :: CodecLaws KeygenStarted;
  point_laws :: CodecLaws Point;
  matrix_laws :: CodecLaws (list (list Point));
  Marshal_share_total (s : completedShare) : is_Some (Marshal s);
  Marshal_started_total (s : KeygenStarted) : is_Some (Marshal s);
  Marshal_point_total (P : Point) : is_Some (Marshal P);
  Marshal_matrix_total (c : list (list Point)) : is_Some (Marshal c);
  (** No input is not a point. *)
  Unmarshal_no_point : Unmarshal (A := Point) [] = None;
}.

Section rep.
Context {DC : TorusDBCodecs} {DL : TorusDBLaws}.

Definition connectionBytes (d : ConnectionDetails) : option (list Z) :=
  Some (stringBytes (Join [cdTMP2PConnection d; cdP2PConnection d] Delimiter1)).
Definition indexBytes (i : Z) : option (list Z) := Some (Bytes i).
Definition pointBytes (P : Point) : list Z := default [] (Marshal P).
Definition startedBytes (b : bool) : option (list Z) := Marshal (mkKeygenStarted b).

Definition isIndex (i : Z) : Prop := 0 <= i.
Definition anyKey {K} (_ : K) : Prop := True.

(** One key of the counted range for every key held. *)
Definition Counted (hk : gset Z) (t : TorusLDB) : Prop :=
  forall k, is_Some (t !! (completedShareCountBytes ++ k)) <-> exists i, k = Bytes i /\ (i ∈ hk).

Record Rep (s : Tables) (t : TorusLDB) : Prop := {
  rep_node_keys : Table nodePubKeyBytes id Marshal anyKey (tNodeKeys s) t;
  rep_connections : Table connectionDetailsBytes id connectionBytes anyKey (tConnections s) t;
  rep_keygen_matrices : Table keygenCommitmentMatrixBytes Bytes Marshal isIndex (tKeygenMatrices s) t;
  rep_pss_matrices : Table pssCommitmentMatrixBytes Bytes Marshal isIndex (tPSSMatrices s) t;
  rep_keygen_shares : Table completedKeygenShareBytes Bytes Marshal isIndex (tKeygenShares s) t;
  rep_pss_shares : Table completedPSSShareBytes Bytes Marshal isIndex (tPSSShares s) t;
  rep_indexes : Table pubkeyToKeyIndexBytes pointBytes indexBytes anyKey (tIndexes s) t;
  rep_keys : Table keyIndexToPubKeyBytes Bytes Marshal isIndex (tKeys s) t;
  rep_started : Table keygenIDBytes stringBytes startedBytes anyKey (tStarted s) t;
  rep_separated : map_Forall (fun _ d => separated d) (tConnections s);
  rep_is_index : map_Forall (fun _ i => isIndex i) (tIndexes s);
  rep_held_index i : i ∈ heldKeys s -> isIndex i;
  rep_count : Counted (heldKeys s) t;
}.

Lemma Rep_empty : Rep noTables ∅.
Proof.
  split; try apply Table_empty; try done.
  intros k. rewrite lookup_empty. split; [by intros []|]. intros (i & _ & Hi). set_solver.
Qed.

(** ** Stores *)

Lemma store_Ok {A} `{Codec A} t (a : A) b f : Marshal a = Some b -> store t a f = (f b, None).
Proof. unfold store. by intros ->. Qed.

Lemma pointBytes_Marshal P : Marshal P = Some (pointBytes P).
Proof. unfold pointBytes. by destruct (Marshal_point_total P) as [b ->]. Qed.

Lemma pointBytes_inj P Q : pointBytes P = pointBytes Q -> P = Q.
Proof.
  intros E. pose proof (Unmarshal_Marshal _ _ (pointBytes_Marshal P)) as HP.
  rewrite E, (Unmarshal_Marshal _ _ (pointBytes_Marshal Q)) in HP. congruence.
Qed.

(** A key outside the counted range changes no count. *)
Lemma Counted_other hk t pre k b :
  length pre = 1%nat -> pre <> completedShareCountBytes ->
  Counted hk t -> Counted hk (<[pre ++ k := b]> t).
Proof.
  intros Hl Hne HC k'. rewrite lookup_insert_ne; [apply HC|].
  intros E. by apply app_inj_1 in E as [E _].
Qed.

(** The count of a share stored under [i]. *)
Lemma Counted_insert hk t i b :
  Counted hk t -> Counted ({[i]} ∪ hk) (<[completedShareCountBytes ++ Bytes i := b]> t).
Proof.
  intros HC k'. destruct (decide (Bytes i = k')) as [<-|Hne].
  - rewrite lookup_insert_eq. split; [|done]. intros _. exists i. set_solver.
  - rewrite lookup_insert_ne by (intros E%app_inv_head; done). etransitivity; [apply HC|]. split.
    + intros (j & -> & Hj). exists j. set_solver.
    + intros (j & -> & Hj). exists j. split; [done|]. set_solver.
Qed.

Lemma bytes_ltb_nil k : bytes_ltb k [] = false.
Proof. by destruct k. Qed.

(** ** The iterator *)

Lemma bytes_ltb_asym a : forall b, bytes_ltb a b = true -> bytes_ltb b a = false.
Proof.
  induction a as [|x a IH]; intros [|y b]; simpl; try done.
  destruct (Z.ltb_spec x y), (Z.ltb_spec y x); try done; try lia. apply IH.
Qed.

Lemma bytes_ltb_trans a : forall b c, bytes_ltb a b = true -> bytes_ltb b c = true -> bytes_ltb a c = true.
Proof.
  induction a as [|x a IH]; intros [|y b] [|z c]; simpl; try done.
  destruct (Z.ltb_spec x y), (Z.ltb_spec y x), (Z.ltb_spec y z), (Z.ltb_spec z y), (Z.ltb_spec x z),
    (Z.ltb_spec z x); try done; try lia. apply IH.
Qed.

Lemma bytes_ltb_eq a : forall b, bytes_ltb a b = false -> bytes_ltb b a = false -> a = b.
Proof.
  induction a as [|x a IH]; intros [|y b]; simpl; try done.
  destruct (Z.ltb_spec x y), (Z.ltb_spec y x); try done. intros H1 H2.
  assert (x = y) as -> by lia. f_equal. by apply IH.
Qed.

#[local] Instance bytes_le_total : Total bytes_le.
Proof.
  intros a b. unfold bytes_le. destruct (bytes_ltb b a) eqn:E; [|by left]. right. by apply bytes_ltb_asym.
Qed.

#[local] Instance bytes_le_trans : Transitive bytes_le.
Proof.
  unfold bytes_le. intros a b c Hab Hbc. destruct (bytes_ltb c a) eqn:E; [|done].
  destruct (bytes_ltb a b) eqn:Eab.
  - by rewrite (bytes_ltb_trans c a b E Eab) in Hbc.
  - by rewrite (bytes_ltb_eq a b Eab Hab), Hbc in E.
Qed.

Definition in_range (start stop key : list Z) : Prop :=
  bytes_ltb key start = false /\ bytes_ltb key stop = true.

#[local] Instance in_range_dec start stop key : Decision (in_range start stop key).
Proof. unfold in_range. apply _. Defined.

(** Past the end of the range no key is in it. *)
Lemma filter_past start stop key l :
  bytes_ltb key stop = false -> Forall (bytes_le key) l -> filter (in_range start stop) l = [].
Proof.
  intros Hk Hle. induction Hle as [|key' l Hle _ IH]; [done|]. rewrite filter_cons, decide_False; [done|].
  intros [_ H]. assert (bytes_ltb key' key = false) as Hle' by done.
  destruct (bytes_ltb key key') eqn:E; [by rewrite (bytes_ltb_trans _ _ _ E H) in Hk|].
  by rewrite (bytes_ltb_eq _ _ E Hle'), H in Hk.
Qed.

(** On sorted keys the iterator counts the keys of its range. *)
Lemma countValid_sorted start stop l c :
  StronglySorted bytes_le l ->
  let itr := mkGoLevelDBIterator (Seek start l) stop in
  countValid (length (itSource itr)) itr c = c + Z.of_nat (length (filter (in_range start stop) l)).
Proof.
  intros Hs. revert c. induction Hs as [|key l Hs IH Hle]; intros c; simpl; [lia|].
  rewrite filter_cons. destruct (bytes_ltb key start) eqn:E1.
  - rewrite decide_False by (unfold in_range; by rewrite E1; intros []). apply IH.
  - simpl. unfold Valid at 1. simpl. destruct (bytes_ltb key stop) eqn:E2.
    + rewrite decide_True by done. unfold Next. simpl.
      assert (Seek start l = l) as Hl.
      { destruct Hle as [|key' l Hle]; [done|]. simpl. destruct (bytes_ltb key' start) eqn:E; [|done].
        destruct (bytes_ltb key key') eqn:E'; [by rewrite (bytes_ltb_trans _ _ _ E' E) in E1|].
        by rewrite (bytes_ltb_eq _ _ E' Hle), E in E1. }
      rewrite <-Hl at 1 2. rewrite IH. lia.
    + rewrite decide_False by (unfold in_range; by rewrite E2; intros []).
      rewrite (filter_past start stop key l); [simpl; lia|done|done].
Qed.

Lemma GetShareCount_filter t :
  GetShareCount t = Z.of_nat (length (filter (in_range completedShareCountBytes [100]) (map_to_list t).*1)).
Proof.
  unfold GetShareCount, dbIterator. rewrite countValid_sorted by apply (Sorted_StronglySorted _ _ (Sorted_merge_sort _ _)).
  change ((fun x => x + 1) <$> completedShareCountBytes) with [100].
  unfold NewIterator. by rewrite merge_sort_Permutation.
Qed.

(** The keys the iterator counts are those that start with the byte of the range. *)
Lemma in_count_range k : in_range completedShareCountBytes [100] k <-> exists k', k = completedShareCountBytes ++ k'.
Proof.
  change completedShareCountBytes with [99]. unfold in_range. destruct k as [|x k]; simpl.
  - split; [by intros []|]. by intros [].
  - rewrite (bytes_ltb_nil k). destruct (decide (x = 99)) as [->|Hne].
    + split; [|done]. by eexists.
    + split; [|intros [k' [= Hx _]]; lia].
      destruct (Z.ltb_spec x 99), (Z.ltb_spec 99 x), (Z.ltb_spec x 100), (Z.ltb_spec 100 x);
        intros []; try done; lia.
Qed.

Lemma GetShareCount_size hk t :
  (forall i, i ∈ hk -> 0 <= i) -> Counted hk t -> GetShareCount t = Z.of_nat (size hk).
Proof.
  intros Hpos HC. rewrite GetShareCount_filter. unfold size, set_size. f_equal.
  simpl. rewrite <-(length_fmap (fun i => completedShareCountBytes ++ Bytes i) (elements hk)).
  apply Permutation_length, NoDup_Permutation.
  - apply list.NoDup_filter, NoDup_fst_map_to_list.
  - apply NoDup_fmap_2_strong; [|apply NoDup_elements]. intros i j Hi Hj E%app_inv_head.
    apply Bytes_inj; [apply Hpos; set_solver..|done].
  - intros k. rewrite list_elem_of_filter, 2!list_elem_of_fmap, in_count_range. split.
    + intros [[k' ->] ([k0 b] & E & Hk)]. simpl in E. subst k0.
      apply elem_of_map_to_list in Hk. assert (is_Some (t !! (completedShareCountBytes ++ k'))) as Hs by eauto.
      apply HC in Hs as (i & -> & Hi). exists i. set_solver.
    + intros (i & -> & Hi). split; [by eexists|].
      assert (is_Some (t !! (completedShareCountBytes ++ Bytes i))) as [b Hb] by (apply HC; set_solver).
      exists (completedShareCountBytes ++ Bytes i, b). split; [done|].
      by apply elem_of_map_to_list.
Qed.

Ltac other_prefix := let E := fresh in intros E; vm_compute in E; discriminate E.

(** The tables a store does not write. *)
Ltac other_tables :=
  try (repeat (apply Table_other; [done|other_prefix|]); assumption);
  try (repeat (apply Counted_other; [done|other_prefix|]); assumption);
  try assumption.

(** Split a representation into its tables, and leave those a store writes. *)
Ltac split_rep HR :=
  destruct HR; split;
  cbn [tablesCall acknowledge fst tNodeKeys tConnections tKeygenMatrices tPSSMatrices tKeygenShares
       tPSSShares tIndexes tKeys tStarted] in *;
  unfold dbSet in *; other_tables.

Lemma id_inj {K} (ok : K -> Prop) k : forall k', ok k' -> id k = id k' -> k = k'.
Proof. by intros k' _. Qed.

Lemma index_inj i : isIndex i -> forall i', isIndex i' -> Bytes i = Bytes i' -> i = i'.
Proof. intros Hi i' Hi'. by apply Bytes_inj. Qed.

Lemma held_insert_l {A B} (m : gmap Z A) (m' : gmap Z B) i a :
  dom (<[i := a]> m) ∪ dom m' = {[i]} ∪ (dom m ∪ dom m').
Proof. set_solver. Qed.

Lemma held_insert_r {A B} (m : gmap Z A) (m' : gmap Z B) i b :
  dom m ∪ dom (<[i := b]> m') = {[i]} ∪ (dom m ∪ dom m').
Proof. set_solver. Qed.

(** The request changes the tables and the database alike. *)
Definition agrees (s : Tables) (t : TorusLDB) (req : dbRequest) : Prop :=
  Rep (fst (tablesCall s req)) (fst (Call t req)) /\ snd (tablesCall s req) = snd (Call t req).

Lemma store_agrees {A} `{Codec A} s t req (a : A) b f :
  Marshal a = Some b -> Call t req = stored (store t a f) ->
  snd (tablesCall s req) = mkMethodResponse NoData None ->
  Rep (fst (tablesCall s req)) (f b) -> agrees s t req.
Proof. intros Hb Hc Hr HR. unfold agrees. by rewrite Hc, (store_Ok t a b f Hb), Hr. Qed.

Lemma node_key_agrees s t a P : Rep s t -> agrees s t (store_node_pub_key a P).
Proof.
  intros HR. destruct s. eapply (store_agrees _ _ _ P); [apply pointBytes_Marshal|done|done|].
  split_rep HR. apply (Table_insert _ id _ _ _ t a P); [apply id_inj|apply pointBytes_Marshal|done].
Qed.

Lemma connection_agrees s t a d : separated d -> Rep s t -> agrees s t (store_connection_details a d).
Proof.
  intros Hd HR. destruct s. split; [|done]. split_rep HR.
  - by apply (Table_insert _ id _ _ _ t a d); [apply id_inj| |].
  - by apply map_Forall_insert_2.
Qed.

Lemma keygen_matrix_agrees s t i c : isIndex i -> Rep s t -> agrees s t (store_keygen_commitment_matrix i c).
Proof.
  intros Hi HR. destruct s, (Marshal_matrix_total c) as [b Hb]. eapply (store_agrees _ _ _ c); [exact Hb|done|done|].
  split_rep HR. apply Table_insert; [by apply index_inj|done|done].
Qed.

Lemma pss_matrix_agrees s t i c : isIndex i -> Rep s t -> agrees s t (store_PSS_commitment_matrix i c).
Proof.
  intros Hi HR. destruct s, (Marshal_matrix_total c) as [b Hb]. eapply (store_agrees _ _ _ c); [exact Hb|done|done|].
  split_rep HR. apply Table_insert; [by apply index_inj|done|done].
Qed.

Lemma keygen_share_agrees s t i si si' :
  isIndex i -> Rep s t -> agrees s t (store_completed_keygen_share i si si').
Proof.
  intros Hi HR. destruct s, (Marshal_share_total (mkCompletedShare si si')) as [b Hb].
  eapply (store_agrees _ _ _ (mkCompletedShare si si')); [exact Hb|done|done|]. split_rep HR.
  - apply Table_other; [done|other_prefix|]. apply Table_insert; [by apply index_inj|done|done].
  - unfold heldKeys in *. cbn [tKeygenShares tPSSShares] in *. rewrite held_insert_l. set_solver.
  - unfold heldKeys in *. cbn [tKeygenShares tPSSShares] in *. rewrite held_insert_l. apply Counted_insert. other_tables.
Qed.

Lemma pss_share_agrees s t i si si' :
  isIndex i -> Rep s t -> agrees s t (store_completed_PSS_share i si si').
Proof.
  intros Hi HR. destruct s, (Marshal_share_total (mkCompletedShare si si')) as [b Hb].
  eapply (store_agrees _ _ _ (mkCompletedShare si si')); [exact Hb|done|done|]. split_rep HR.
  - apply Table_other; [done|other_prefix|]. apply Table_insert; [by apply index_inj|done|done].
  - unfold heldKeys in *. cbn [tKeygenShares tPSSShares] in *. rewrite held_insert_r. set_solver.
  - unfold heldKeys in *. cbn [tKeygenShares tPSSShares] in *. rewrite held_insert_r. apply Counted_insert. other_tables.
Qed.

Lemma public_key_agrees s t P i : isIndex i -> Rep s t -> agrees s t (store_public_key_to_index P i).
Proof.
  intros Hi HR. destruct s. eapply (store_agrees _ _ _ P); [apply pointBytes_Marshal|done|done|]. split_rep HR.
  - apply Table_other; [done|other_prefix|]. apply Table_insert; [|done|done].
    intros Q _. apply pointBytes_inj.
  - apply Table_insert; [by apply index_inj|apply pointBytes_Marshal|]. other_tables.
  - by apply map_Forall_insert_2.
Qed.

Lemma started_agrees s t id b : Rep s t -> agrees s t (set_keygen_started id b).
Proof.
  intros HR. destruct s. split; [|done]. cbn [Call fst]. unfold SetKeygenStarted.
  destruct (Marshal_started_total (mkKeygenStarted b)) as [d Hd]. rewrite Hd. cbn [default from_option]. split_rep HR.
  apply Table_insert; [|done|done]. intros id' _. apply stringBytes_inj.
Qed.

(** ** Answers *)

(** A value read back through its table. *)
Lemma Table_read {K V} `{Countable K} pre enc (val : V -> option (list Z)) ok (m : gmap K V) t k :
  Table pre enc val ok m t -> ok k -> dbGet t (pre ++ enc k) = m !! k ≫= val.
Proof. intros HT Hk. apply (HT k Hk). Qed.

Lemma unmarshal_Ok {A} `{CodecLaws A} (a : A) b : Marshal a = Some b -> unmarshal b = Ok a.
Proof. unfold unmarshal. by intros ->%Unmarshal_Marshal. Qed.

Lemma found_fst {A} s (o : option A) f zero e : fst (found s o f zero e) = s.
Proof. by destruct o. Qed.

(** A request that writes nothing: what is left is its answer. *)
Ltac reads HR :=
  split;
  [match type of HR with
   | Rep ?s _ => destruct s; cbn [tablesCall Call fst answer]; rewrite ?found_fst; exact HR
   end|].

Lemma node_key_answer s t a : Rep s t -> agrees s t (retrieve_node_pub_key a).
Proof.
  intros HR. reads HR. destruct s as [nk]. cbn [Call snd]. unfold RetrieveNodePubKey.
  pose proof (rep_node_keys _ _ HR a I) as E. unfold dbGet, id in *. rewrite E. clear E. simpl.
  destruct (nk !! a) as [P|]; [|done]. simpl. rewrite pointBytes_Marshal.
  by rewrite (unmarshal_Ok _ _ (pointBytes_Marshal P)).
Qed.

Lemma connection_answer s t a : Rep s t -> agrees s t (retrieve_connection_details a).
Proof.
  intros HR. reads HR. pose proof (rep_separated _ _ HR) as Hsep.
  destruct s as [nk cn]. cbn [Call snd]. unfold RetrieveConnectionDetails.
  pose proof (rep_connections _ _ HR a I) as E. unfold dbGet, id in *. rewrite E. clear E. simpl in *.
  destruct (cn !! a) as [[x y]|] eqn:E; [|done]. destruct (Hsep _ _ E) as [Hx Hy]. simpl in *.
  by rewrite bytesString_stringBytes, Split_Join by first [done|by repeat constructor].
Qed.

Lemma matrix_answer s t i : isIndex i -> Rep s t -> agrees s t (retrieve_commitment_matrix i).
Proof.
  intros Hi HR. reads HR. cbn [Call snd]. unfold RetrieveCommitmentMatrix.
  rewrite (Table_read _ Bytes _ _ _ _ i (rep_pss_matrices _ _ HR)) by done.
  rewrite (Table_read _ Bytes _ _ _ _ i (rep_keygen_matrices _ _ HR)) by done.
  destruct s as [? ? km pm]. simpl. unfold tableMatrix. simpl. rewrite lookup_union.
  destruct (pm !! i) as [c|], (km !! i) as [c'|]; try done; simpl.
  1,2: by destruct (Marshal_matrix_total c) as [b Hb]; rewrite Hb, (unmarshal_Ok _ _ Hb).
  by destruct (Marshal_matrix_total c') as [b Hb]; rewrite Hb, (unmarshal_Ok _ _ Hb).
Qed.

Lemma share_answer s t i : isIndex i -> Rep s t -> agrees s t (retrieve_completed_share i).
Proof.
  intros Hi HR. reads HR. cbn [Call snd]. unfold RetrieveCompletedShare.
  rewrite (Table_read _ Bytes _ _ _ _ i (rep_pss_shares _ _ HR)) by done.
  rewrite (Table_read _ Bytes _ _ _ _ i (rep_keygen_shares _ _ HR)) by done.
  destruct s as [? ? ? ? ks ps]. simpl. unfold tableShare. simpl. rewrite lookup_union.
  destruct (ps !! i) as [c|], (ks !! i) as [c'|]; try done; simpl.
  1,2: by destruct (Marshal_share_total c) as [b Hb]; rewrite Hb, (unmarshal_Ok _ _ Hb).
  by destruct (Marshal_share_total c') as [b Hb]; rewrite Hb, (unmarshal_Ok _ _ Hb).
Qed.

Lemma index_answer s t P : Rep s t -> agrees s t (retrieve_public_key_to_index P).
Proof.
  intros HR. reads HR. pose proof (rep_is_index _ _ HR) as Hpos. cbn [Call snd].
  unfold RetrievePublicKeyToKeyIndex, marshal. rewrite pointBytes_Marshal. cbn [mbind res_bind].
  rewrite (Table_read _ pointBytes _ _ _ _ P (rep_indexes _ _ HR)) by done.
  destruct s as [? ? ? ? ? ? ix]. simpl in *. destruct (ix !! P) as [i|] eqn:E; simpl; [|done].
  rewrite SetBytes_Bytes, Z.abs_eq by apply (Hpos _ _ E). done.
Qed.

Lemma key_answer s t i : isIndex i -> Rep s t -> agrees s t (retrieve_index_to_public_key i).
Proof.
  intros Hi HR. reads HR. cbn [Call snd]. unfold RetrieveKeyIndexToPublicKey.
  rewrite (Table_read _ Bytes _ _ _ _ i (rep_keys _ _ HR)) by done.
  destruct s as [? ? ? ? ? ? ? ky]. simpl. destruct (ky !! i) as [P|]; simpl.
  - rewrite pointBytes_Marshal. simpl. by rewrite (unmarshal_Ok _ _ (pointBytes_Marshal P)).
  - unfold unmarshal. by rewrite Unmarshal_no_point.
Qed.

Lemma key_exists_answer s t i : isIndex i -> Rep s t -> agrees s t (index_to_public_key_exists i).
Proof.
  intros Hi HR. reads HR. cbn [Call snd]. unfold KeyIndexToPublicKeyExists, dbHas.
  rewrite (Table_read _ Bytes _ _ _ _ i (rep_keys _ _ HR)) by done.
  destruct s as [? ? ? ? ? ? ? ky]. simpl. destruct (ky !! i) as [P|]; simpl; [|done].
  by rewrite pointBytes_Marshal.
Qed.

Lemma count_answer s t : Rep s t -> agrees s t get_share_count.
Proof.
  intros HR. reads HR. cbn [Call snd].
  rewrite (GetShareCount_size _ _ (rep_held_index _ _ HR) (rep_count _ _ HR)). by destruct s.
Qed.

Lemma started_answer s t id : Rep s t -> agrees s t (get_keygen_started id).
Proof.
  intros HR. reads HR. cbn [Call snd]. unfold GetKeygenStarted.
  rewrite (Table_read _ stringBytes _ _ _ _ id (rep_started _ _ HR)) by done.
  destruct s as [? ? ? ? ? ? ? ? st]. simpl. destruct (st !! id) as [b|]; simpl; [|done].
  unfold startedBytes. destruct (Marshal_started_total (mkKeygenStarted b)) as [d Hd]. rewrite Hd.
  by rewrite (Unmarshal_Marshal _ _ Hd).
Qed.

Lemma Call_agrees s t req : Rep s t -> dbOk req -> agrees s t req.
Proof.
  intros HR Hok. destruct req; simpl in Hok;
    auto using node_key_agrees, connection_agrees, keygen_matrix_agrees, pss_matrix_agrees,
      keygen_share_agrees, pss_share_agrees, public_key_agrees, started_agrees, node_key_answer,
      connection_answer, matrix_answer, share_answer, index_answer, key_answer, key_exists_answer,
      count_answer, started_answer.
Qed.

(** C19: The database service refines one finite map per table: it answers every
    sequence of requests to an empty database (requests of the node: key indexes that are
    not negative, connection strings without the separator) as those maps do, so what is stored is
    read back unchanged whatever was stored under other keys or in other tables, a
    refreshed share and its commitments replace the generated ones, and the share
    count is the number of keys with a share of either kind. *)
Theorem database_refines_tables reqs :
  Forall dbOk reqs -> responses Call ∅ reqs = responses tablesCall noTables reqs.
Proof.
  intros Hok. symmetry. apply (responses_simulation tablesCall Call Rep dbOk); [|apply Rep_empty|done].
  intros s t q HR Hq. by apply Call_agrees.
Qed.

End rep.
