(* ===== verification/Library.v ===== *)
(** The database methods of the service library (src/dkgnode/service_library.go):
    what the services and handlers of a node call instead of the database.  Each
    sends one request to the database service and reads its response; a response
    of another shape does not cast. *)
From Stdlib Require Import ZArith.
From stdpp Require Import gmap strings.
From S2P Require Import Prelude Curve Effects Torusdb.

Section library.
Context {DC : TorusDBCodecs}.

Definition errCast : string := "could not cast in castOrUnmarshal".

(** [castOrUnmarshal] of the data of a response. *)
Definition castData {A : Type} (f : dbData -> option A) (d : dbData) : res A :=
  match f d with
  | Some a => Ok a
  | None => Err errCast
  end.

(** A request whose error is returned before its data is read. *)
Definition dbQuery {A : Type} (t : TorusLDB) (req : dbRequest) (f : dbData -> option A) : res A :=
  let r := snd (Call t req) in
  match mrError r with
  | Some e => Err e
  | None => castData f (mrData r)
  end.

(** A request that is repeated until it succeeds and ends the process when it
    does not: the database gives the same answer every time. *)
Definition dbRetry {A : Type} (t : TorusLDB) (req : dbRequest) (f : dbData -> option A) : res A :=
  match dbQuery t req f with
  | Ok a => Ok a
  | _ => Panic
  end.

(** A request that stores. *)
Definition dbStore (t : TorusLDB) (req : dbRequest) : TorusLDB * option string :=
  let '(t, r) := Call t req in (t, mrError r).

Definition asPoint (d : dbData) : option Point := match d with DataPoint P => Some P | _ => None end.
Definition asConnection (d : dbData) : option ConnectionDetails :=
  match d with DataConnection c => Some c | _ => None end.
Definition asMatrix (d : dbData) : option (list (list Point)) := match d with DataMatrix c => Some c | _ => None end.
Definition asInt (d : dbData) : option Z := match d with DataInt i => Some i | _ => None end.
Definition asBool (d : dbData) : option bool := match d with DataBool b => Some b | _ => None end.
Definition asShare (d : dbData) : option (Z * Z) := match d with DataShare s s' => Some (s, s') | _ => None end.

Definition Database_StoreNodePubKey (t : TorusLDB) (nodeAddress : list Z) (pubKey : Point) :=
  dbStore t (store_node_pub_key nodeAddress pubKey).

(** An error of the database is not returned: the key is then the zero key. *)
Definition Database_RetrieveNodePubKey (t : TorusLDB) (nodeAddress : list Z) : res Point :=
  let r := snd (Call t (retrieve_node_pub_key nodeAddress)) in
  match mrError r with
  | Some _ => Ok PointO
  | None => castData asPoint (mrData r)
  end.

Definition Database_StoreConnectionDetails (t : TorusLDB) (nodeAddress : list Z) (d : ConnectionDetails) :=
  dbStore t (store_connection_details nodeAddress d).

Definition Database_RetrieveConnectionDetails (t : TorusLDB) (nodeAddress : list Z) : res ConnectionDetails :=
  dbQuery t (retrieve_connection_details nodeAddress) asConnection.

Definition Database_StoreKeygenCommitmentMatrix (t : TorusLDB) (keyIndex : Z) (c : list (list Point)) :=
  dbStore t (store_keygen_commitment_matrix keyIndex c).

Definition Database_StorePSSCommitmentMatrix (t : TorusLDB) (keyIndex : Z) (c : list (list Point)) :=
  dbStore t (store_PSS_commitment_matrix keyIndex c).

Definition Database_StoreCompletedKeygenShare (t : TorusLDB) (keyIndex si siprime : Z) :=
  dbStore t (store_completed_keygen_share keyIndex si siprime).

Definition Database_StoreCompletedPSSShare (t : TorusLDB) (keyIndex si siprime : Z) :=
  dbStore t (store_completed_PSS_share keyIndex si siprime).

Definition Database_StorePublicKeyToIndex (t : TorusLDB) (publicKey : Point) (keyIndex : Z) :=
  dbStore t (store_public_key_to_index publicKey keyIndex).

Definition Database_RetrieveCommitmentMatrix (t : TorusLDB) (keyIndex : Z) : res (list (list Point)) :=
  dbQuery t (retrieve_commitment_matrix keyIndex) asMatrix.

Definition Database_RetrievePublicKeyToIndex (t : TorusLDB) (publicKey : Point) : res Z :=
  dbQuery t (retrieve_public_key_to_index publicKey) asInt.

Definition Database_RetrieveIndexToPublicKey (t : TorusLDB) (keyIndex : Z) : res Point :=
  dbQuery t (retrieve_index_to_public_key keyIndex) asPoint.

Definition Database_IndexToPublicKeyExists (t : TorusLDB) (keyIndex : Z) : res bool :=
  dbRetry t (index_to_public_key_exists keyIndex) asBool.

Definition Database_RetrieveCompletedShare (t : TorusLDB) (keyIndex : Z) : res (Z * Z) :=
  dbQuery t (retrieve_completed_share keyIndex) asShare.

Definition Database_GetShareCount (t : TorusLDB) : res Z := dbRetry t get_share_count asInt.

Definition Database_GetKeygenStarted (t : TorusLDB) (keygenID : string) : res bool :=
  dbRetry t (get_keygen_started keygenID) asBool.

Definition Database_SetKeygenStarted (t : TorusLDB) (keygenID : string) (started : bool) :=
  dbStore t (set_keygen_started keygenID started).

End library.
