(* ===== verification/Ethereum.v ===== *)
(** The Ethereum service (src/dkgnode/ethereum.go, node_auth.go): the node's own
    key and index, the register of the nodes of every epoch it has connected to,
    and the epochs as the node list contract has them.

    The contract, the other services and the libraries are parameters; the answers
    of the contract are those of the moment a step reads them.  A monitor is a loop
    on a ticker: one tick is one step, which ends the loop or is tried again.  The
    service's lock is part of its state, because one of its methods can return
    while holding it. *)
From Stdlib Require Import ZArith.
From stdpp Require Import gmap strings.
From S2P Require Import Prelude BigInt Field Curve Pvss Ids Effects Dealer Torusdb Library P2p.

(** ** Data *)

Record epochInfo := mkEpochInfo {
  eiId : Z; eiN : Z; eiK : Z; eiT : Z; eiPrevEpoch : Z; eiNextEpoch : Z
}.

(** The pointers of a reference may be nil. *)
Record NodeReference := mkNodeReference {
  nrAddress : option (list Z);
  nrIndex : option Z;
  nrPeerID : string;
  nrPublicKey : option Point;
  nrTMP2PConnection : string;
  nrP2PConnection : string;
}.

Record SerializedNodeReference := mkSerializedNodeReference {
  srAddress : list Z;
  srIndex : Z;
  srPeerID : string;
  srPublicKey : Point;
  srTMP2PConnection : string;
  srP2PConnection : string;
}.

Record NodeRegister := mkNodeRegister {
  AllConnected : bool;
  PSSSending : bool;
  NodeList : list NodeReference;
}.

(** The details the contract has of a node. *)
Record contractDetails := mkContractDetails {
  ctDeclaredIp : string;
  ctPosition : Z;
  ctPubKx : Z;
  ctPubKy : Z;
  ctTmP2PListenAddress : string;
  ctP2pListenAddress : string;
}.

Record EthereumService := mkEthereumService {
  esLocked : bool;
  esNodePubK : option Point;
  esNodePrivK : option Z;
  esNodeAddr : option (list Z);
  esTmp2pConnection : string;
  esP2pConnection : string;
  esNodeRegisterMap : gmap Z NodeRegister;
  esCachedEpochInfo : gmap Z epochInfo;
  esNodeList : bool;
  esNodeIndex : Z;
  esCurrentEpoch : Z;
  esIsWhitelisted : bool;
  esIsRegistered : bool;
}.

(** ** Parameters *)

(** The node list contract. *)
Class NodeListContract := {
  contractNodeDetails : list Z -> res contractDetails;
  contractGetNodes : Z -> res (list (list Z));
  contractGetEpochInfo : Z -> res epochInfo;
  contractGetPssStatus : Z -> Z -> res Z;
  contractNodeRegistered : Z -> list Z -> res bool;
  contractIsWhitelisted : Z -> list Z -> res bool;
}.

(** What the service asks of the other services: the details another node answers
    with, the peer id of the host and whether a peer can be connected to. *)
Class EthPeers := {
  RequestConnectionDetails : string -> res ConnectionDetails;
  hostPeerID : string;
  connects : string -> string -> bool;
}.

(** The order in which a loop visits the registers. *)
Class RegisterRange := { rangeRegisters : nat -> gmap Z NodeRegister -> list (Z * NodeRegister) }.
Class RegisterRangeLaws `{RegisterRange} := {
  rangeRegisters_perm site m : rangeRegisters site m ≡ₚ map_to_list m;
}.

(** torus-common's signature on raw data. *)
Class TorusSign := { SignDataRaw : list Z -> Z -> list Z }.

Class TorusSignLaws `{Secp256k1, TorusCrypto, TorusSign} := {
  VerifyPtFromRaw_SignDataRaw data d :
    0 < d < GeneratorOrder -> VerifyPtFromRaw data (d ⊙ secp_G) (SignDataRaw data d) = true;
}.

(** The configuration. *)
Class EthConfig := {
  ShouldRegister : bool;
  ProvidedIPAddress : string;
  TMP2PListenAddress : string;
  PublicURL : string;
  HttpServerPort : string;
}.

(** What registering asks of the chain's client and the other services. *)
Class EthClient := {
  PendingNonceAt : res Z;
  SuggestGasPrice : res Z;
  listNodeFails : option string;
  tmNodeID : string;
  IDAddressString : string -> string -> string;
  hostAddress : string;
}.

(** The transaction that lists the node: nonce, gas price, epoch, endpoint and
    key; the connections are not published. *)
Record ListNodeTx := mkListNodeTx {
  lnNonce : Z;
  lnGasPrice : Z;
  lnEpoch : Z;
  lnDeclaredIp : string;
  lnPubKey : Point;
}.

(** ** Field updates *)

Definition setLocked (e : EthereumService) (b : bool) : EthereumService :=
  mkEthereumService b (esNodePubK e) (esNodePrivK e) (esNodeAddr e) (esTmp2pConnection e) (esP2pConnection e)
    (esNodeRegisterMap e) (esCachedEpochInfo e) (esNodeList e) (esNodeIndex e) (esCurrentEpoch e)
    (esIsWhitelisted e) (esIsRegistered e).
Definition setRegisters (e : EthereumService) (m : gmap Z NodeRegister) : EthereumService :=
  mkEthereumService (esLocked e) (esNodePubK e) (esNodePrivK e) (esNodeAddr e) (esTmp2pConnection e)
    (esP2pConnection e) m (esCachedEpochInfo e) (esNodeList e) (esNodeIndex e) (esCurrentEpoch e)
    (esIsWhitelisted e) (esIsRegistered e).
Definition setCached (e : EthereumService) (m : gmap Z epochInfo) : EthereumService :=
  mkEthereumService (esLocked e) (esNodePubK e) (esNodePrivK e) (esNodeAddr e) (esTmp2pConnection e)
    (esP2pConnection e) (esNodeRegisterMap e) m (esNodeList e) (esNodeIndex e) (esCurrentEpoch e)
    (esIsWhitelisted e) (esIsRegistered e).
Definition setNodeIndex (e : EthereumService) (i : Z) : EthereumService :=
  mkEthereumService (esLocked e) (esNodePubK e) (esNodePrivK e) (esNodeAddr e) (esTmp2pConnection e)
    (esP2pConnection e) (esNodeRegisterMap e) (esCachedEpochInfo e) (esNodeList e) i (esCurrentEpoch e)
    (esIsWhitelisted e) (esIsRegistered e).
Definition setWhitelisted (e : EthereumService) : EthereumService :=
  mkEthereumService (esLocked e) (esNodePubK e) (esNodePrivK e) (esNodeAddr e) (esTmp2pConnection e)
    (esP2pConnection e) (esNodeRegisterMap e) (esCachedEpochInfo e) (esNodeList e) (esNodeIndex e)
    (esCurrentEpoch e) true (esIsRegistered e).
Definition setConnections (e : EthereumService) (tm p2p : string) : EthereumService :=
  mkEthereumService (esLocked e) (esNodePubK e) (esNodePrivK e) (esNodeAddr e) tm p2p
    (esNodeRegisterMap e) (esCachedEpochInfo e) (esNodeList e) (esNodeIndex e) (esCurrentEpoch e)
    (esIsWhitelisted e) (esIsRegistered e).
Definition setRegistered (e : EthereumService) : EthereumService :=
  mkEthereumService (esLocked e) (esNodePubK e) (esNodePrivK e) (esNodeAddr e) (esTmp2pConnection e)
    (esP2pConnection e) (esNodeRegisterMap e) (esCachedEpochInfo e) (esNodeList e) (esNodeIndex e)
    (esCurrentEpoch e) (esIsWhitelisted e) true.

(** ** Node references *)

Definition Serialize (nodeRef : NodeReference) : SerializedNodeReference :=
  mkSerializedNodeReference (default (replicate 20 0) (nrAddress nodeRef)) (default 0 (nrIndex nodeRef))
    (nrPeerID nodeRef) (default PointO (nrPublicKey nodeRef)) (nrTMP2PConnection nodeRef)
    (nrP2PConnection nodeRef).

Definition Deserialize (s : SerializedNodeReference) : NodeReference :=
  mkNodeReference (Some (srAddress s)) (Some (srIndex s)) (srPeerID s) (Some (srPublicKey s))
    (srTMP2PConnection s) (srP2PConnection s).

(** The first reference of a list with a property whose test may dereference nil. *)
Fixpoint findRef (p : NodeReference -> res bool) (l : list NodeReference) : res (option NodeReference) :=
  match l with
  | [] => Ok None
  | r :: l => b ← p r; if (b : bool) then Ok (Some r) else findRef p l
  end.

Definition hasIndex (index : Z) (r : NodeReference) : res bool :=
  i ← deref (nrIndex r); Ok (int64 i =? index).

Definition hasAddress (address : list Z) (r : NodeReference) : res bool :=
  a ← deref (nrAddress r); Ok (bool_decide (a = address)).

Definition GetNodeByIndex (nr : NodeRegister) (index : Z) : res (option NodeReference) :=
  findRef (hasIndex index) (NodeList nr).

Section ethereum.
Context {SO : Secp256k1} {TC : TorusCrypto} {TS : TorusSign} {DC : TorusDBCodecs} {LP : LibP2P}.
Context {NL : NodeListContract} {EP : EthPeers} {RR : RegisterRange}.

(** ** The register of nodes *)

(** The connections of a node: those of the contract, or, when they are hidden,
    what the node answers, or what it once answered. *)
Definition nodeConnections (t : TorusLDB) (nodeAddress : list Z) (details : contractDetails)
    : TorusLDB * res ConnectionDetails :=
  let stored t := match Database_RetrieveConnectionDetails t nodeAddress with
                  | Ok c => Ok c
                  | _ => Err "unable to get connection details for nodeAddress"
                  end in
  if negb (ctDeclaredIp details =? EmptyString)%string && (ctP2pListenAddress details =? EmptyString)%string
     || (ctTmP2PListenAddress details =? EmptyString)%string then
    match RequestConnectionDetails (ctDeclaredIp details) with
    | Ok c =>
        match Database_StoreConnectionDetails t nodeAddress c with
        | (t, None) => (t, Ok c)
        | (t, Some _) => (t, stored t)
        end
    | _ => (t, stored t)
    end
  else (t, Ok (mkConnectionDetails (ctTmP2PListenAddress details) (ctP2pListenAddress details))).

Definition GetNodeRef (t : TorusLDB) (nodeAddress : list Z) : TorusLDB * res NodeReference :=
  match contractNodeDetails nodeAddress with
  | Ok details =>
      match nodeConnections t nodeAddress details with
      | (t, Ok c) =>
          (t, peerid ← GetPeerIDFromP2pListenAddress (cdP2PConnection c);
              Ok (mkNodeReference (Some nodeAddress) (Some (ctPosition details)) peerid
                    (Some (mkPoint (ctPubKx details) (ctPubKy details)))
                    (cdTMP2PConnection c) (cdP2PConnection c)))
      | (t, Err e) => (t, Err e)
      | (t, Panic) => (t, Panic)
      end
  | Err e => (t, Err e)
  | Panic => (t, Panic)
  end.

(** The two loops of [getNodeRefsByEpoch]. *)
Fixpoint storeNodePubKeys (t : TorusLDB) (ethList : list (list Z)) : TorusLDB * res unit :=
  match ethList with
  | [] => (t, Ok tt)
  | a :: ethList =>
      match contractNodeDetails a with
      | Ok details =>
          match Database_StoreNodePubKey t a (mkPoint (ctPubKx details) (ctPubKy details)) with
          | (t, None) => storeNodePubKeys t ethList
          | (t, Some e) => (t, Err ("could not store node details with pub key " +:+ e))
          end
      | Err e => (t, Err ("could not get node details with pub key " +:+ e))
      | Panic => (t, Panic)
      end
  end.

Fixpoint collectNodeRefs (t : TorusLDB) (ethList : list (list Z)) : TorusLDB * res (list NodeReference) :=
  match ethList with
  | [] => (t, Ok [])
  | a :: ethList =>
      match GetNodeRef t a with
      | (t, Ok nodeRef) =>
          match collectNodeRefs t ethList with
          | (t, Ok l) => (t, Ok (nodeRef :: l))
          | r => r
          end
      | (t, Err e) => (t, Err ("Could not get node refs " +:+ e))
      | (t, Panic) => (t, Panic)
      end
  end.

Definition getNodeRefsByEpoch (t : TorusLDB) (epoch : Z) : TorusLDB * res (list NodeReference) :=
  match contractGetNodes epoch with
  | Ok ethList =>
      match storeNodePubKeys t ethList with
      | (t, Ok _) => collectNodeRefs t ethList
      | (t, Err e) => (t, Err e)
      | (t, Panic) => (t, Panic)
      end
  | Err e => (t, Err ("Could not get node list " +:+ e))
  | Panic => (t, Panic)
  end.

(** ** Epochs *)

Definition epochInfoZero : epochInfo := mkEpochInfo 0 0 0 0 0 0.

Definition GetEpochInfo (e : EthereumService) (epoch : Z) (skipCache : bool) : EthereumService * res epochInfo :=
  match (if skipCache then None else esCachedEpochInfo e !! epoch) with
  | Some eInfo => (e, Ok eInfo)
  | None =>
      match esNodeAddr e with
      | None => (e, Panic)
      | Some _ =>
          if epoch =? 0 then (e, Err "Epoch is invalid")
          else
            match contractGetEpochInfo epoch with
            | Ok result =>
                if eiId result =? 0 then (e, Err "Epoch has not been initialized")
                else (setCached e (<[epoch := result]> (esCachedEpochInfo e)), Ok result)
            | r => (e, r)
            end
      end
  end.

(** ** Authentication (node_auth.go) *)

Definition NodeDetailsZero : Node := NodeZero.

(** The last reference with the key. *)
Definition findKey (pk : Point) (l : list NodeReference) : res (option NodeReference) :=
  foldlM (fun found r =>
    key ← deref (nrPublicKey r); Ok (if samePoint key pk then Some r else found)) None l.

(** The details of the node that was found, when the signature is valid. *)
Definition checkSignature (foundNode : option NodeReference) (pk : Point) (sig data : list Z)
    : res (Node * option string) :=
  match foundNode with
  | None => Ok (NodeZero, Some "node doesnt exist in node register map"%string)
  | Some r =>
      if negb (VerifyPtFromRaw data pk sig) then Ok (NodeZero, Some "invalid ecdsa sig for data"%string)
      else
        i ← deref (nrIndex r);
        key ← deref (nrPublicKey r);
        Ok (mkNode (int64 i) key, None)
  end.

Definition verifyDataWithNodelist (e : EthereumService) (pk : Point) (sig data : list Z)
    : res (Node * option string) :=
  foundNode ← findKey pk ((rangeRegisters 0 (esNodeRegisterMap e)) ≫= fun r => NodeList (snd r));
  checkSignature foundNode pk sig data.

(** An epoch that is not in the register is answered with the lock held. *)
Definition verifyDataWithEpoch (e : EthereumService) (pk : Point) (sig data : list Z) (epoch : Z)
    : EthereumService * res (Node * option string) :=
  match esNodeRegisterMap e !! epoch with
  | None => (setLocked e true,
             Ok (NodeZero, Some "epoch doesnt exist in node register map, verifyDataWithEpoch"%string))
  | Some nodeRegister =>
      (e, foundNode ← findKey pk (NodeList nodeRegister); checkSignature foundNode pk sig data)
  end.

Definition selfSignData (e : EthereumService) (data : list Z) : res (list Z) :=
  k ← deref (esNodePrivK e); Ok (SignDataRaw data k).

(** ** The service *)

Inductive ethRequest :=
  | get_current_epoch
  | get_previous_epoch
  | get_next_epoch
  | get_epoch_info (epoch : Z) (skipCache : bool)
  | get_self_index
  | get_self_private_key
  | get_self_public_key
  | get_self_address
  | set_self_index (index : Z)
  | self_sign_data (data : list Z)
  | await_complete_node_list (epoch : Z)
  | get_node_list (epoch : Z)
  | get_node_details_by_address (address : list Z)
  | get_node_details_by_epoch_and_index (epoch index : Z)
  | await_nodes_connected (epoch : Z)
  | get_PSS_status (oldEpoch newEpoch : Z)
  | verify_data_with_nodelist (pk : Point) (sig data : list Z)
  | verify_data_with_epoch (pk : Point) (sig data : list Z) (epoch : Z)
  | start_PSS_monitor
  | get_tm_p2p_connection
  | get_p2p_connection
  | validate_epoch_pub_key (address : list Z) (pubK : Point).

Inductive ethData :=
  | EthNil
  | EthInt (i : Z)
  | EthBool (b : bool)
  | EthString (s : string)
  | EthBytes (b : list Z)
  | EthPoint (P : Point)
  | EthEpoch (i : epochInfo)
  | EthNode (n : Node)
  | EthRef (r : SerializedNodeReference)
  | EthRefs (l : list SerializedNodeReference).

(** A response carries data and an error; a call may have to poll, or to wait for
    the lock. *)
Inductive ethResponse :=
  | Responds (data : ethData) (error : option string)
  | Polls.

(** The router turns a panic into an error without data. *)
Definition ethRes {A} (m : res A) (f : A -> ethData) : ethResponse :=
  match m with
  | Ok a => Responds (f a) None
  | Err e => Responds EthNil (Some e)
  | Panic => Responds EthNil (Some "panic"%string)
  end.

Definition ethBoth (m : res (Node * option string)) : ethResponse :=
  match m with
  | Ok (n, e) => Responds (EthNode n) e
  | Err e => Responds EthNil (Some e)
  | Panic => Responds EthNil (Some "panic"%string)
  end.

Definition orErr {A} (o : option A) (e : string) : res A :=
  match o with Some a => Ok a | None => Err e end.

Definition locking (e : EthereumService) (k : EthereumService * ethResponse) : EthereumService * ethResponse :=
  if esLocked e then (e, Polls) else k.

Definition epochField (e : EthereumService) (f : epochInfo -> Z) : EthereumService * ethResponse :=
  let '(e, r) := GetEpochInfo e (esCurrentEpoch e) false in
  (e, ethRes r (fun i => EthInt (int64 (f i)))).

(** The list is complete when it has as many nodes as the epoch. *)
Definition awaitComplete (e : EthereumService) (epoch : Z) : EthereumService * ethResponse :=
  if negb (esNodeList e) then (e, Responds EthNil (Some "nodelist contract is undefined"%string))
  else
    match esNodeRegisterMap e !! epoch with
    | None => (e, Polls)
    | Some register =>
        match GetEpochInfo e epoch true with
        | (e, Ok i) =>
            if eiN i =? Z.of_nat (length (NodeList register))
            then (e, Responds (EthRefs (Serialize <$> NodeList register)) None)
            else (e, Polls)
        | (e, Err _) => (e, Polls)
        | (e, Panic) => (e, Responds EthNil (Some "panic"%string))
        end
    end.

Definition nodeConnected (e : EthereumService) (epoch : Z) : bool :=
  match esNodeRegisterMap e !! epoch with
  | Some register => negb (Nat.eqb (length (NodeList register)) 0)
  | None => false
  end.

Definition validateEpochPubKey (t : TorusLDB) (address : list Z) (pubK : Point) : ethResponse :=
  match Database_RetrieveNodePubKey t address with
  | Ok pubKey =>
      if samePoint pubKey pubK then Responds (EthBool true) None
      else Responds EthNil (Some "incorrect pubkey"%string)
  | Err e => Responds (EthBool false) (Some e)
  | Panic => Responds EthNil (Some "panic"%string)
  end.

(** The dispatch of [EthereumService.Call]; the goroutine that
    [start_PSS_monitor] starts is the reader's. *)
Definition EthereumService_Call (t : TorusLDB) (e : EthereumService) (req : ethRequest)
    : EthereumService * ethResponse :=
  match req with
  | get_current_epoch => locking e (e, Responds (EthInt (esCurrentEpoch e)) None)
  | get_previous_epoch => epochField e eiPrevEpoch
  | get_next_epoch => epochField e eiNextEpoch
  | get_epoch_info epoch skipCache =>
      let '(e, r) := GetEpochInfo e epoch skipCache in
      (e, match r with Err m => Responds (EthEpoch epochInfoZero) (Some m) | _ => ethRes r EthEpoch end)
  | get_self_index =>
      locking e (e, if esNodeIndex e =? 0 then Polls else Responds (EthInt (esNodeIndex e)) None)
  | get_self_private_key =>
      locking e (e, ethRes (orErr (esNodePrivK e) "Ethereum private key has not been initialized") EthInt)
  | get_self_public_key =>
      locking e (e, ethRes (orErr (esNodePubK e) "Ethereum public key has not been initialized") EthPoint)
  | get_self_address =>
      locking e (e, ethRes (orErr (esNodeAddr e) "Ethereum node address has not been initialized") EthBytes)
  | set_self_index index => locking e (setNodeIndex e index, Responds EthNil None)
  | self_sign_data data => (e, ethRes (selfSignData e data) EthBytes)
  | await_complete_node_list epoch => awaitComplete e epoch
  | get_node_list epoch =>
      locking e (e, ethRes (orErr (esNodeRegisterMap e !! epoch) "Could not get node list")
                           (fun register => EthRefs (Serialize <$> NodeList register)))
  | get_node_details_by_address address =>
      locking e (e, ethRes (r ← findRef (hasAddress address)
                                  ((rangeRegisters 1 (esNodeRegisterMap e)) ≫= fun r => NodeList (snd r));
                            orErr r "node could not be found for address")
                           (fun r => EthRef (Serialize r)))
  | get_node_details_by_epoch_and_index epoch index =>
      locking e (e, ethRes (register ← deref (esNodeRegisterMap e !! epoch);
                            r ← GetNodeByIndex register index;
                            orErr r "node could not be found")
                           (fun r => EthRef (Serialize r)))
  | await_nodes_connected epoch => (e, if nodeConnected e epoch then Responds EthNil None else Polls)
  | get_PSS_status oldEpoch newEpoch =>
      (e, ethRes (contractGetPssStatus oldEpoch newEpoch) (fun s => EthInt (int64 s)))
  | verify_data_with_nodelist pk sig data => locking e (e, ethBoth (verifyDataWithNodelist e pk sig data))
  | verify_data_with_epoch pk sig data epoch =>
      locking e (let '(e, r) := verifyDataWithEpoch e pk sig data epoch in (e, ethBoth r))
  | start_PSS_monitor => (e, Responds EthNil None)
  | get_tm_p2p_connection => (e, Responds (EthString (esTmp2pConnection e)) None)
  | get_p2p_connection => (e, Responds (EthString (esP2pConnection e)) None)
  | validate_epoch_pub_key address pubK => (e, validateEpochPubKey t address pubK)
  end.

(** ** Monitors: one tick each *)

(** Whether the loop goes on; a panic or a fatal error ends the process. *)
Inductive tick := Continue | Break | Crash.

(** The tick of a step that failed. *)
Definition failed {A} (r : res A) : tick := match r with Panic => Crash | _ => Continue end.

(** An epoch gets an empty register before its nodes are read. *)
Definition ensureRegister (e : EthereumService) (epoch : Z) : EthereumService :=
  match esNodeRegisterMap e !! epoch with
  | Some _ => e
  | None => setRegisters e (<[epoch := mkNodeRegister false false []]> (esNodeRegisterMap e))
  end.

Definition setNodeList (e : EthereumService) (epoch : Z) (l : list NodeReference) : EthereumService :=
  setRegisters e (alter (fun r => mkNodeRegister (AllConnected r) (PSSSending r) l) epoch (esNodeRegisterMap e)).

Definition reach (nodeRef : NodeReference) : bool := connects (nrP2PConnection nodeRef) (nrPeerID nodeRef).

(** What a monitor reads from the service of its own node; it waits for the lock. *)
Definition askInt (t : TorusLDB) (e : EthereumService) (req : ethRequest) : EthereumService * option Z :=
  match EthereumService_Call t e req with
  | (e, Responds (EthInt i) None) => (e, Some i)
  | (e, _) => (e, None)
  end.

Definition whitelistMonitor (e : EthereumService) : EthereumService * tick :=
  match (nodeAddr ← deref (esNodeAddr e); contractIsWhitelisted (esCurrentEpoch e) nodeAddr) with
  | Ok true => (setWhitelisted e, Break)
  | r => (e, failed r)
  end.

(** The previous epoch's nodes are taken whether or not they can be connected to. *)
Definition previousNodesMonitor (t : TorusLDB) (e : EthereumService) : TorusLDB * EthereumService * tick :=
  match askInt t e get_previous_epoch with
  | (e, Some previousEpoch) =>
      if previousEpoch =? 0 then (t, e, Continue)
      else
        let e := ensureRegister e previousEpoch in
        match getNodeRefsByEpoch t previousEpoch with
        | (t, Ok prevNodeList) => (t, setNodeList e previousEpoch prevNodeList, Break)
        | (t, r) => (t, e, failed r)
        end
  | (e, None) => (t, e, Continue)
  end.

(** The node with the host's peer id is the node itself.  References of the
    register have an index. *)
Definition learnSelfIndex (e : EthereumService) (l : list NodeReference) : EthereumService :=
  foldl (fun e nodeRef =>
    if (nrPeerID nodeRef =? hostPeerID)%string
    then match nrIndex nodeRef with Some i => setNodeIndex e (int64 i) | None => e end
    else e) e l.

Definition currentNodesMonitor (t : TorusLDB) (e : EthereumService) : TorusLDB * EthereumService * tick :=
  match askInt t e get_current_epoch with
  | (e, Some currEpoch) =>
      if currEpoch =? 0 then (t, e, Crash)
      else match GetEpochInfo e currEpoch true with
      | (e, Ok currEpochInfo) =>
          let e := ensureRegister e currEpoch in
          match getNodeRefsByEpoch t currEpoch with
          | (t, Ok currNodeList) =>
              if negb (eiN currEpochInfo =? Z.of_nat (length currNodeList)) then (t, e, Continue)
              else
                let e := learnSelfIndex e currNodeList in
                if forallb reach currNodeList then (t, setNodeList e currEpoch currNodeList, Break)
                else (t, e, Continue)
          | (t, r) => (t, e, failed r)
          end
      | (e, r) => (t, e, failed r)
      end
  | (e, None) => (t, e, Continue)
  end.

Definition nextNodesMonitor (t : TorusLDB) (e : EthereumService) : TorusLDB * EthereumService * tick :=
  match askInt t e get_next_epoch with
  | (e, Some nextEpoch) =>
      if nextEpoch =? 0 then (t, e, Continue)
      else
        match GetEpochInfo e nextEpoch true with
        | (e, Ok nextEpochInfo) =>
            let e := ensureRegister e nextEpoch in
            if match esNodeRegisterMap e !! nextEpoch with Some r => PSSSending r | None => false end
            then (t, e, Break)
            else
              match getNodeRefsByEpoch t nextEpoch with
              | (t, Ok nextNodeList) =>
                  if negb (eiN nextEpochInfo =? Z.of_nat (length nextNodeList)) then (t, e, Continue)
                  else if forallb reach nextNodeList then (t, setNodeList e nextEpoch nextNodeList, Break)
                  else (t, e, Continue)
              | (t, r) => (t, e, failed r)
              end
        | (e, r) => (t, e, failed r)
        end
  | (e, None) => (t, e, Continue)
  end.

(** ** Registration *)

Context {EC : EthConfig} {ECL : EthClient}.

(** The gas price is multiplied before its error is looked at. *)
Definition RegisterNode (e : EthereumService) (epoch : Z) (declaredIP : string) : res ListNodeTx :=
  nodePubK ← deref (esNodePubK e);
  nonce ← PendingNonceAt;
  gasPrice ← match SuggestGasPrice with Ok p => Ok (p + p + (p + p)) | _ => Panic end;
  match listNodeFails with
  | Some m => Err m
  | None => Ok (mkListNodeTx nonce gasPrice epoch declaredIP nodePubK)
  end.

Definition colon : ascii := ascii_of_nat 58.
Definition slash : ascii := ascii_of_nat 47.

(** The addresses at which other nodes reach this one. *)
Definition ownConnections : res (string * string) :=
  port ← index (Split TMP2PListenAddress colon) 2;
  let splitP2PHostAddr := Split hostAddress slash in
  _ ← index splitP2PHostAddr 2;
  Ok (IDAddressString tmNodeID ("tcp://" +:+ ProvidedIPAddress +:+ ":" +:+ port),
      Join (<[2%nat := ProvidedIPAddress]> splitP2PHostAddr) slash).

Definition registeredEndpoint : string :=
  (if negb (PublicURL =? EmptyString)%string then PublicURL else ProvidedIPAddress) +:+ ":" +:+ HttpServerPort.

(** It waits until the node is whitelisted; an error ends the process. *)
Definition registerNode (e : EthereumService) : EthereumService * list ListNodeTx * tick :=
  if negb ShouldRegister then (e, [], Break)
  else if negb (esIsWhitelisted e) then (e, [], Continue)
  else
    match (nodeAddr ← deref (esNodeAddr e);
           registered ← contractNodeRegistered (esCurrentEpoch e) nodeAddr;
           connections ← ownConnections;
           Ok (registered, connections)) with
    | Ok (registered, (tm, p2p)) =>
        let e := setConnections e tm p2p in
        if registered : bool then (setRegistered e, [], Break)
        else
          match RegisterNode e (esCurrentEpoch e) registeredEndpoint with
          | Ok tx => (setRegistered e, [tx], Break)
          | _ => (e, [], Crash)
          end
    | _ => (e, [], Crash)
    end.

(** The service as it starts. *)
Definition EthereumService_OnStart (privKey : Z) (address : list Z) (initEpoch : Z) : EthereumService :=
  mkEthereumService false (Some (privKey ⊙ secp_G)) (Some privKey) (Some address) EmptyString EmptyString
    ∅ ∅ true 0 initEpoch false false.

End ethereum.
