(* ===== verification/EthereumLibrary.v ===== *)
(** The Ethereum methods of the service library (src/dkgnode/service_library.go):
    what the other services call instead of the Ethereum service.  Most of them
    repeat a request until it succeeds and end the process when it does not. *)
From Stdlib Require Import ZArith.
From stdpp Require Import gmap strings.
From S2P Require Import Prelude BigInt Field Curve Pvss Ids Effects Dealer Torusdb Library P2p Ethereum.

(** How a call ends: the process may end instead, or the response may not come. *)
Inductive answer (A : Type) :=
  | Got (a : A)
  | Failed (e : string)
  | Died
  | Blocks.
Arguments Got {A} a.
Arguments Failed {A} e.
Arguments Died {A}.
Arguments Blocks {A}.

(** The data of a response. *)
Definition asEthInt (d : ethData) : option Z := match d with EthInt i => Some i | _ => None end.
Definition asEthBool (d : ethData) : option bool := match d with EthBool b => Some b | _ => None end.
Definition asEthString (d : ethData) : option string := match d with EthString s => Some s | _ => None end.
Definition asEthBytes (d : ethData) : option (list Z) := match d with EthBytes b => Some b | _ => None end.
Definition asEthPoint (d : ethData) : option Point := match d with EthPoint P => Some P | _ => None end.
Definition asEthEpoch (d : ethData) : option epochInfo := match d with EthEpoch i => Some i | _ => None end.
Definition asEthNode (d : ethData) : option Node := match d with EthNode n => Some n | _ => None end.
Definition asEthRef (d : ethData) : option NodeReference :=
  match d with EthRef r => Some (Deserialize r) | _ => None end.
Definition asEthRefs (d : ethData) : option (list NodeReference) :=
  match d with EthRefs l => Some (Deserialize <$> l) | _ => None end.

(** A request whose error is returned. *)
Definition ethQuery {A} (f : ethData -> option A) (r : ethResponse) : answer A :=
  match r with
  | Polls => Blocks
  | Responds _ (Some e) => Failed e
  | Responds d None => match f d with Some a => Got a | None => Failed errCast end
  end.

(** A request that is repeated and ends the process when it keeps failing. *)
Definition ethRetry {A} (f : ethData -> option A) (r : ethResponse) : answer A :=
  match ethQuery f r with
  | Failed _ => Died
  | a => a
  end.

(** A request whose error is not looked at. *)
Definition ethDataOnly {A} (f : ethData -> option A) (r : ethResponse) : answer A :=
  match r with
  | Polls => Blocks
  | Responds d _ => match f d with Some a => Got a | None => Failed errCast end
  end.

Section ethereum_library.
Context {SO : Secp256k1} {TC : TorusCrypto} {TS : TorusSign} {DC : TorusDBCodecs} {LP : LibP2P}.
Context {NL : NodeListContract} {RR : RegisterRange}.

Definition ask {A} (k : ethResponse -> answer A) (t : TorusLDB) (e : EthereumService) (req : ethRequest)
    : EthereumService * answer A :=
  let '(e, r) := EthereumService_Call t e req in (e, k r).

(** Epoch zero is no epoch. *)
Definition Ethereum_GetCurrentEpoch (t : TorusLDB) (e : EthereumService) : EthereumService * answer Z :=
  ask (ethRetry (fun d => match asEthInt d with Some 0 => None | o => o end)) t e get_current_epoch.

Definition Ethereum_GetPreviousEpoch (t : TorusLDB) (e : EthereumService) : EthereumService * answer Z :=
  ask (ethQuery asEthInt) t e get_previous_epoch.

Definition Ethereum_GetNextEpoch (t : TorusLDB) (e : EthereumService) : EthereumService * answer Z :=
  ask (ethQuery asEthInt) t e get_next_epoch.

Definition Ethereum_GetEpochInfo (t : TorusLDB) (e : EthereumService) (epoch : Z) (skipCache : bool)
    : EthereumService * answer epochInfo :=
  let '(e, a) := ask (ethQuery asEthEpoch) t e (get_epoch_info epoch skipCache) in
  (e, match a with
      | Got data => if eiId data =? 0 then Failed "data is invalid, epochID is 0" else Got data
      | a => a
      end).

(** The index is zero when the data does not cast. *)
Definition Ethereum_GetSelfIndex (t : TorusLDB) (e : EthereumService) : EthereumService * answer Z :=
  ask (fun r => match r with
                | Polls => Blocks
                | Responds _ (Some _) => Died
                | Responds d None => Got (default 0 (asEthInt d))
                end) t e get_self_index.

Definition Ethereum_GetSelfPrivateKey (t : TorusLDB) (e : EthereumService) : EthereumService * answer Z :=
  ask (ethRetry asEthInt) t e get_self_private_key.

Definition Ethereum_GetSelfPublicKey (t : TorusLDB) (e : EthereumService) : EthereumService * answer Point :=
  ask (ethRetry asEthPoint) t e get_self_public_key.

Definition Ethereum_GetSelfAddress (t : TorusLDB) (e : EthereumService) : EthereumService * answer (list Z) :=
  ask (ethRetry asEthBytes) t e get_self_address.

Definition Ethereum_SetSelfIndex (t : TorusLDB) (e : EthereumService) (index : Z) : EthereumService * answer unit :=
  ask (ethRetry (fun _ => Some tt)) t e (set_self_index index).

Definition Ethereum_SelfSignData (t : TorusLDB) (e : EthereumService) (input : list Z)
    : EthereumService * answer (list Z) :=
  ask (ethRetry asEthBytes) t e (self_sign_data input).

Definition Ethereum_AwaitCompleteNodeList (t : TorusLDB) (e : EthereumService) (epoch : Z)
    : EthereumService * answer (list NodeReference) :=
  ask (ethRetry asEthRefs) t e (await_complete_node_list epoch).

Definition Ethereum_GetNodeList (t : TorusLDB) (e : EthereumService) (epoch : Z)
    : EthereumService * answer (list NodeReference) :=
  ask (ethRetry asEthRefs) t e (get_node_list epoch).

Definition Ethereum_GetNodeDetailsByAddress (t : TorusLDB) (e : EthereumService) (address : list Z)
    : EthereumService * answer NodeReference :=
  ask (ethRetry asEthRef) t e (get_node_details_by_address address).

Definition Ethereum_GetNodeDetailsByEpochAndIndex (t : TorusLDB) (e : EthereumService) (epoch index : Z)
    : EthereumService * answer NodeReference :=
  ask (ethRetry asEthRef) t e (get_node_details_by_epoch_and_index epoch index).

Definition Ethereum_AwaitNodesConnected (t : TorusLDB) (e : EthereumService) (epoch : Z)
    : EthereumService * answer unit :=
  ask (ethRetry (fun _ => Some tt)) t e (await_nodes_connected epoch).

Definition Ethereum_GetPSSStatus (t : TorusLDB) (e : EthereumService) (oldEpoch newEpoch : Z)
    : EthereumService * answer Z :=
  ask (ethQuery asEthInt) t e (get_PSS_status oldEpoch newEpoch).

Definition Ethereum_VerifyDataWithNodelist (t : TorusLDB) (e : EthereumService) (pk : Point) (sig input : list Z)
    : EthereumService * answer Node :=
  ask (ethDataOnly asEthNode) t e (verify_data_with_nodelist pk sig input).

Definition Ethereum_VerifyDataWithEpoch (t : TorusLDB) (e : EthereumService) (pk : Point) (sig input : list Z)
    (epoch : Z) : EthereumService * answer Node :=
  ask (ethDataOnly asEthNode) t e (verify_data_with_epoch pk sig input epoch).

Definition Ethereum_StartPSSMonitor (t : TorusLDB) (e : EthereumService) : EthereumService * answer unit :=
  ask (ethQuery (fun _ => Some tt)) t e start_PSS_monitor.

Definition Ethereum_GetTMP2PConnection (t : TorusLDB) (e : EthereumService) : EthereumService * answer string :=
  ask (ethRetry asEthString) t e get_tm_p2p_connection.

Definition Ethereum_GetP2PConnection (t : TorusLDB) (e : EthereumService) : EthereumService * answer string :=
  ask (ethRetry asEthString) t e get_p2p_connection.

Definition Ethereum_ValidateEpochPubKey (t : TorusLDB) (e : EthereumService) (nodeAddress : list Z) (pubK : Point)
    : EthereumService * bool :=
  let '(e, a) := ask (ethQuery asEthBool) t e (validate_epoch_pub_key nodeAddress pubK) in
  (e, match a with Got b => b | _ => false end).

End ethereum_library.
