(* ===== verification/EthereumProps.v ===== *)
(** The register of nodes over every history of the Ethereum service: which
    references it holds, which signatures it accepts, and what happens to the
    service's lock. *)
From Stdlib Require Import ZArith.
From stdpp Require Import gmap strings.
From S2P Require Import Prelude BigInt Field Curve Pvss Ids Effects Dealer Torusdb TorusdbSpec Library P2p.
From S2P Require Import Ethereum EthereumLibrary.

(** A reference survives the event bus when its pointers are set. *)
Lemma Deserialize_Serialize r :
  is_Some (nrAddress r) -> is_Some (nrIndex r) -> is_Some (nrPublicKey r) -> Deserialize (Serialize r) = r.
Proof. destruct r; simpl. by intros [? ->] [? ->] [? ->]. Qed.

Section props.
Context {SO : Secp256k1} {TC : TorusCrypto} {TS : TorusSign} {DC : TorusDBCodecs} {LP : LibP2P}.
Context {RR : RegisterRange} {EC : EthConfig}.

(** ** Histories *)

Inductive ethEvent :=
  | Requested (req : ethRequest)
  | WhitelistTick
  | RegisterTick
  | PreviousTick
  | CurrentTick
  | NextTick.

(** What the outside is when an event happens. *)
Record outside := mkOutside {
  outContract : NodeListContract;
  outPeers : EthPeers;
  outClient : EthClient;
  outDB : TorusLDB;
}.

Definition ethStep (o : outside) (e : EthereumService) (ev : ethEvent) : EthereumService :=
  let '(mkOutside NL EP EL t) := o in
  match ev with
  | Requested req => fst (EthereumService_Call t e req)
  | WhitelistTick => fst (whitelistMonitor e)
  | RegisterTick => fst (fst (registerNode e))
  | PreviousTick => snd (fst (previousNodesMonitor t e))
  | CurrentTick => snd (fst (currentNodesMonitor t e))
  | NextTick => snd (fst (nextNodesMonitor t e))
  end.

Inductive ethReach (privKey : Z) (address : list Z) (initEpoch : Z) : EthereumService -> Prop :=
  | ethStart : ethReach privKey address initEpoch (EthereumService_OnStart privKey address initEpoch)
  | ethNext e o ev : ethReach privKey address initEpoch e -> ethReach privKey address initEpoch (ethStep o e ev).

(** ** The references of the register *)

(** A reference has an address, an index and a key, and the peer id that its
    connection names. *)
Definition refOk (r : NodeReference) : Prop :=
  is_Some (nrAddress r) /\ is_Some (nrIndex r) /\ is_Some (nrPublicKey r) /\
  GetPeerIDFromP2pListenAddress (nrP2PConnection r) = Ok (nrPeerID r).

Definition registersOk (e : EthereumService) : Prop :=
  forall epoch reg, esNodeRegisterMap e !! epoch = Some reg -> Forall refOk (NodeList reg).

Lemma GetNodeRef_ok {NL : NodeListContract} {EP : EthPeers} t a t' r :
  GetNodeRef t a = (t', Ok r) ->
  refOk r /\ nrAddress r = Some a /\
  exists d, contractNodeDetails a = Ok d /\ nrIndex r = Some (ctPosition d)
    /\ nrPublicKey r = Some (mkPoint (ctPubKx d) (ctPubKy d)).
Proof.
  unfold GetNodeRef. destruct (contractNodeDetails a) as [d| |]; [|done..].
  destruct (nodeConnections t a d) as [t1 [c| |]]; [|done..]. intros E. injection E as <- E.
  apply bind_Ok in E as (pid & Hp & E). injection E as <-.
  split; [|split; [done|by exists d]]. unfold refOk; simpl. eauto.
Qed.

Lemma collectNodeRefs_ok {NL : NodeListContract} {EP : EthPeers} l : forall t t' refs,
  collectNodeRefs t l = (t', Ok refs) ->
  Forall refOk refs /\
  Forall2 (fun a r => nrAddress r = Some a /\
    exists d, contractNodeDetails a = Ok d /\ nrIndex r = Some (ctPosition d)
      /\ nrPublicKey r = Some (mkPoint (ctPubKx d) (ctPubKy d))) l refs.
Proof.
  induction l as [|a l IH]; intros t t' refs; simpl.
  - intros E. injection E as <- <-. by split; constructor.
  - destruct (GetNodeRef t a) as [t1 [r| |]] eqn:Er; [|done..].
    destruct (collectNodeRefs t1 l) as [t2 [rs| |]] eqn:El; [|done..].
    intros E. injection E as <- <-. apply GetNodeRef_ok in Er as (? & ? & ?).
    destruct (IH _ _ _ El). split; constructor; auto.
Qed.

(** The list is the contract's, in its order. *)
Lemma getNodeRefsByEpoch_ok {NL : NodeListContract} {EP : EthPeers} t epoch t' refs :
  getNodeRefsByEpoch t epoch = (t', Ok refs) ->
  Forall refOk refs /\
  exists l, contractGetNodes epoch = Ok l /\
  Forall2 (fun a r => nrAddress r = Some a /\
    exists d, contractNodeDetails a = Ok d /\ nrIndex r = Some (ctPosition d)
      /\ nrPublicKey r = Some (mkPoint (ctPubKx d) (ctPubKy d))) l refs.
Proof.
  unfold getNodeRefsByEpoch. destruct (contractGetNodes epoch) as [l| |]; [|done..].
  destruct (storeNodePubKeys t l) as [t1 [[]| |]]; [|done..].
  intros [? ?]%collectNodeRefs_ok. eauto.
Qed.

(** Reading an epoch does not touch the register. *)
Lemma GetEpochInfo_registers {NL : NodeListContract} e epoch b :
  esNodeRegisterMap (fst (GetEpochInfo e epoch b)) = esNodeRegisterMap e.
Proof.
  unfold GetEpochInfo. destruct (if b then None else _); [done|].
  destruct (esNodeAddr e); [|done]. destruct (epoch =? 0); [done|].
  destruct (contractGetEpochInfo epoch) as [i| |]; [|done..]. by destruct (eiId i =? 0).
Qed.

Lemma Call_registers {NL : NodeListContract} t e req :
  esNodeRegisterMap (fst (EthereumService_Call t e req)) = esNodeRegisterMap e.
Proof.
  assert (forall b epoch, exists e' r, GetEpochInfo e epoch b = (e', r)
    /\ esNodeRegisterMap e' = esNodeRegisterMap e) as HG.
  { intros b epoch. pose proof (GetEpochInfo_registers e epoch b). destruct (GetEpochInfo e epoch b); eauto. }
  destruct req; simpl; unfold locking, epochField, awaitComplete, verifyDataWithEpoch;
    repeat match goal with
    | |- context [GetEpochInfo e ?i ?b] => destruct (HG b i) as (? & [] & -> & ?)
    | |- context [esNodeRegisterMap e !! ?i] => destruct (esNodeRegisterMap e !! i)
    | |- context [match ?x with _ => _ end] => destruct x
    end; simpl; congruence.
Qed.

Lemma askInt_registers {NL : NodeListContract} t e req e' o :
  askInt t e req = (e', o) -> esNodeRegisterMap e' = esNodeRegisterMap e.
Proof.
  unfold askInt. pose proof (Call_registers t e req).
  destruct (EthereumService_Call t e req) as [e1 [[] []|]]; naive_solver.
Qed.

Lemma learnSelfIndex_registers {EP : EthPeers} l : forall e,
  esNodeRegisterMap (learnSelfIndex e l) = esNodeRegisterMap e.
Proof.
  unfold learnSelfIndex. induction l as [|r l IH]; intros e; simpl; [done|].
  rewrite IH. by destruct (String.eqb _ _), (nrIndex r).
Qed.

Lemma ensureRegister_ok e epoch : registersOk e -> registersOk (ensureRegister e epoch).
Proof.
  intros H. unfold ensureRegister. destruct (esNodeRegisterMap e !! epoch); [done|].
  intros i reg. simpl. rewrite lookup_insert_Some. intros [[_ <-]|[_ ?]]; [constructor|by apply (H i)].
Qed.

Lemma setNodeList_ok e epoch l : registersOk e -> Forall refOk l -> registersOk (setNodeList e epoch l).
Proof.
  intros H Hl i reg. simpl. rewrite lookup_alter_Some. intros [(_ & r & _ & ->)|[_ ?]]; [done|by apply (H i)].
Qed.

Lemma registersOk_same e e' : esNodeRegisterMap e' = esNodeRegisterMap e -> registersOk e -> registersOk e'.
Proof. unfold registersOk. by intros ->. Qed.

Lemma previous_ok {NL : NodeListContract} {EP : EthPeers} t e :
  registersOk e -> registersOk (snd (fst (previousNodesMonitor t e))).
Proof.
  intros H. unfold previousNodesMonitor. destruct (askInt t e _) as [e1 [i|]] eqn:E1.
  - apply askInt_registers in E1. destruct (i =? 0); [by apply (registersOk_same e)|].
    assert (registersOk (ensureRegister e1 i)) by (apply ensureRegister_ok, (registersOk_same e); done).
    destruct (getNodeRefsByEpoch t i) as [t2 [l| |]] eqn:El; [|done..]. simpl.
    apply setNodeList_ok; [done|]. by apply getNodeRefsByEpoch_ok in El as [? _].
  - apply askInt_registers in E1. by apply (registersOk_same e).
Qed.

Lemma current_ok {NL : NodeListContract} {EP : EthPeers} t e :
  registersOk e -> registersOk (snd (fst (currentNodesMonitor t e))).
Proof.
  intros H. unfold currentNodesMonitor. destruct (askInt t e _) as [e1 [i|]] eqn:E1;
    apply askInt_registers in E1; [|by apply (registersOk_same e)].
  destruct (i =? 0); [by apply (registersOk_same e)|].
  pose proof (GetEpochInfo_registers e1 i true) as Eg.
  destruct (GetEpochInfo e1 i true) as [e2 [inf| |]]; simpl in *; [|apply (registersOk_same e); [congruence|done]..].
  assert (registersOk (ensureRegister e2 i)) as He by (apply ensureRegister_ok, (registersOk_same e); [congruence|done]).
  destruct (getNodeRefsByEpoch t i) as [t2 [l| |]] eqn:El; [|done..].
  destruct (negb _); [done|].
  assert (registersOk (learnSelfIndex (ensureRegister e2 i) l)) as Hl
    by (apply (registersOk_same (ensureRegister e2 i)); [apply learnSelfIndex_registers|done]).
  destruct (forallb reach l); [|done]. simpl. apply setNodeList_ok; [done|].
  by apply getNodeRefsByEpoch_ok in El as [? _].
Qed.

Lemma next_ok {NL : NodeListContract} {EP : EthPeers} t e :
  registersOk e -> registersOk (snd (fst (nextNodesMonitor t e))).
Proof.
  intros H. unfold nextNodesMonitor. destruct (askInt t e _) as [e1 [i|]] eqn:E1;
    apply askInt_registers in E1; [|by apply (registersOk_same e)].
  destruct (i =? 0); [by apply (registersOk_same e)|].
  pose proof (GetEpochInfo_registers e1 i true) as Eg.
  destruct (GetEpochInfo e1 i true) as [e2 [inf| |]]; simpl in *; [|apply (registersOk_same e); [congruence|done]..].
  assert (registersOk (ensureRegister e2 i)) as He by (apply ensureRegister_ok, (registersOk_same e); [congruence|done]).
  destruct (match esNodeRegisterMap (ensureRegister e2 i) !! i with Some r => _ | None => _ end); [done|].
  destruct (getNodeRefsByEpoch t i) as [t2 [l| |]] eqn:El; [|done..].
  destruct (negb _); [done|]. destruct (forallb reach l); [|done]. simpl. apply setNodeList_ok; [done|].
  by apply getNodeRefsByEpoch_ok in El as [? _].
Qed.

Lemma registerNode_registers {NL : NodeListContract} {ECL : EthClient} e :
  esNodeRegisterMap (fst (fst (registerNode e))) = esNodeRegisterMap e.
Proof.
  unfold registerNode. repeat match goal with |- context [if ?b then _ else _] => destruct b; [done|] end.
  destruct (_ ≫= _) as [[b [tm p2p]]| |]; [|done..]. destruct b; [done|]. by destruct (RegisterNode _ _ _).
Qed.

Lemma registers_reach k a i e : ethReach k a i e -> registersOk e.
Proof.
  induction 1 as [|e [NL EP EL t] ev _ IH]; [by intros j reg|]. destruct ev; simpl.
  - apply (registersOk_same e); [apply Call_registers|done].
  - apply (registersOk_same e); [|done]. unfold whitelistMonitor.
    destruct (_ ≫= _) as [[]| |]; done.
  - apply (registersOk_same e); [apply registerNode_registers|done].
  - by apply previous_ok.
  - by apply current_ok.
  - by apply next_ok.
Qed.

(** ** Authentication *)

Lemma findKey_spec pk l :
  Forall refOk l ->
  exists o, findKey pk l = Ok o /\
    match o with
    | Some r => r ∈ l /\ nrPublicKey r = Some pk
    | None => forall r, r ∈ l -> nrPublicKey r <> Some pk
    end.
Proof.
  induction l as [|r l IH] using rev_ind; intros H; [exists None; split; [done|]; set_solver|].
  apply Forall_app in H as [Hl [(_ & _ & [key Hk] & _) _]%list.Forall_cons].
  destruct (IH Hl) as (o & Eo & Ho). unfold findKey in *. rewrite foldlM_app, Eo. simpl. rewrite Hk. simpl.
  eexists. split; [done|]. destruct (samePoint key pk) eqn:Es.
  - apply samePoint_true in Es as ->. split; [set_solver|done].
  - assert (key <> pk) as Hne by (intros ->; by rewrite (proj2 (samePoint_true pk pk) eq_refl) in Es).
    destruct o as [r'|]; [set_solver|]. intros r'. rewrite elem_of_app, list_elem_of_singleton.
    intros [?| ->]; [by apply Ho|congruence].
Qed.

Definition registered (e : EthereumService) (pk : Point) (r : NodeReference) : Prop :=
  exists epoch reg, esNodeRegisterMap e !! epoch = Some reg /\ r ∈ NodeList reg /\ nrPublicKey r = Some pk.

Lemma elem_of_registers `{!RegisterRangeLaws} site e r :
  r ∈ (rangeRegisters site (esNodeRegisterMap e) ≫= fun r => NodeList (snd r)) <->
  exists epoch reg, esNodeRegisterMap e !! epoch = Some reg /\ r ∈ NodeList reg.
Proof.
  rewrite list_elem_of_bind. split.
  - intros ([epoch reg] & Hr & Hm). rewrite rangeRegisters_perm in Hm.
    apply elem_of_map_to_list in Hm. simpl in *. eauto.
  - intros (epoch & reg & Hm & Hr). exists (epoch, reg). split; [done|].
    rewrite rangeRegisters_perm. by apply elem_of_map_to_list.
Qed.

(** In every reachable state the service accepts a signature exactly when it
    verifies under the key of a registered node, and then names such a node. *)
Lemma verify_registered `{!RegisterRangeLaws} k a i e pk sig data :
  ethReach k a i e ->
  match verifyDataWithNodelist e pk sig data with
  | Ok (n, None) =>
      VerifyPtFromRaw data pk sig = true /\ PubKey n = pk /\
      exists r idx, registered e pk r /\ nrIndex r = Some idx /\ NodeIndex n = int64 idx
  | Ok (n, Some _) => n = NodeZero /\ ((forall r, ~ registered e pk r) \/ VerifyPtFromRaw data pk sig = false)
  | _ => False
  end.
Proof.
  intros He%registers_reach. unfold verifyDataWithNodelist.
  set (l := rangeRegisters 0 (esNodeRegisterMap e) ≫= fun r => NodeList (snd r)).
  assert (Forall refOk l) as Hl.
  { apply list.Forall_forall. intros r (epoch & reg & Hm & Hr)%elem_of_registers.
    by apply (proj1 (list.Forall_forall _ _) (He _ _ Hm)). }
  destruct (findKey_spec pk l Hl) as ([r|] & -> & Ho); simpl.
  - destruct Ho as [Hr Hk]. apply elem_of_registers in Hr as (epoch & reg & Hm & Hr).
    destruct (VerifyPtFromRaw data pk sig) eqn:Ev; simpl; [|by eauto].
    destruct (proj1 (list.Forall_forall _ _) (He _ _ Hm) r Hr) as (_ & [idx Hi] & _). rewrite Hi, Hk. simpl.
    split_and!; [done|done|]. exists r, idx. split_and!; [|done|done]. by exists epoch, reg.
  - split; [done|]. left. intros r (epoch & reg & Hm & Hr & Hk). apply (Ho r); [|done].
    apply elem_of_registers. eauto.
Qed.

(** ** The lock *)

(** The requests that take the lock. *)
Definition takesLock (req : ethRequest) : bool :=
  match req with
  | get_current_epoch | get_self_index | get_self_private_key | get_self_public_key | get_self_address
  | set_self_index _ | get_node_list _ | get_node_details_by_address _
  | get_node_details_by_epoch_and_index _ _ | verify_data_with_nodelist _ _ _
  | verify_data_with_epoch _ _ _ _ => true
  | _ => false
  end.

Lemma locked_polls {NL : NodeListContract} t e req :
  esLocked e = true -> takesLock req = true -> EthereumService_Call t e req = (e, Polls).
Proof. intros Hl. by destruct req; simpl; unfold locking; rewrite ?Hl. Qed.

(** A signature that names an epoch without a register is the last request that
    takes the lock. *)
Lemma unknown_epoch_locks {NL : NodeListContract} t e pk sig data epoch :
  esLocked e = false -> esNodeRegisterMap e !! epoch = None ->
  let e' := fst (EthereumService_Call t e (verify_data_with_epoch pk sig data epoch)) in
  forall req, takesLock req = true -> EthereumService_Call t e' req = (e', Polls).
Proof.
  intros Hl Hr e' req. apply locked_polls. subst e'. simpl. unfold locking, verifyDataWithEpoch.
  by rewrite Hl, Hr.
Qed.

(** ** The keys of listed nodes *)

Section keys.
Context {DL : TorusDBLaws} {NL : NodeListContract} {EP : EthPeers}.

Definition keyEntry (t : TorusLDB) (a : list Z) : option (list Z) := t !! (nodePubKeyBytes ++ a).

Lemma StoreNodePubKey_eq t a P :
  Database_StoreNodePubKey t a P = (<[nodePubKeyBytes ++ a := pointBytes P]> t, None).
Proof.
  unfold Database_StoreNodePubKey, dbStore. simpl. unfold StoreNodePubKey.
  by rewrite (store_Ok _ _ _ _ (pointBytes_Marshal P)).
Qed.

Lemma nodeConnections_keyEntry t a d a' :
  keyEntry (fst (nodeConnections t a d)) a' = keyEntry t a'.
Proof.
  unfold nodeConnections. destruct (_ || _); [|done].
  destruct (RequestConnectionDetails _) as [c| |]; [|done..]. simpl.
  unfold keyEntry, dbSet. rewrite lookup_insert_ne; [done|].
  intros E. by vm_compute in E.
Qed.

Lemma GetNodeRef_keyEntry t a a' : keyEntry (fst (GetNodeRef t a)) a' = keyEntry t a'.
Proof.
  unfold GetNodeRef. destruct (contractNodeDetails a) as [d| |]; [|done..].
  rewrite <-(nodeConnections_keyEntry t a d a'). by destruct (nodeConnections t a d) as [t1 []].
Qed.

Lemma collectNodeRefs_keyEntry l : forall t a', keyEntry (fst (collectNodeRefs t l)) a' = keyEntry t a'.
Proof.
  induction l as [|a l IH]; intros t a'; simpl; [done|].
  rewrite <-(GetNodeRef_keyEntry t a a'). destruct (GetNodeRef t a) as [t1 [r| |]]; [|done..]. simpl.
  rewrite <-(IH t1 a'). by destruct (collectNodeRefs t1 l) as [t2 []].
Qed.

Lemma storeNodePubKeys_keyEntry l : forall t t',
  storeNodePubKeys t l = (t', Ok tt) ->
  forall a, keyEntry t' a =
    if decide (a ∈ l) then
      match contractNodeDetails a with Ok d => Marshal (mkPoint (ctPubKx d) (ctPubKy d)) | _ => None end
    else keyEntry t a.
Proof.
  induction l as [|a l IH]; intros t t'; cbn [storeNodePubKeys].
  - intros E a. injection E as <-. by rewrite decide_False by set_solver.
  - destruct (contractNodeDetails a) as [d| |] eqn:Ed; [|done..].
    rewrite StoreNodePubKey_eq. intros E a'. rewrite (IH _ _ E a').
    destruct (decide (a' ∈ l)); [by rewrite decide_True by set_solver|].
    unfold keyEntry. destruct (decide (a' = a)) as [->|Hne].
    + rewrite lookup_insert_eq, decide_True, Ed by set_solver. by rewrite pointBytes_Marshal.
    + rewrite lookup_insert_ne by (intros ?%app_inv_head; congruence). by rewrite decide_False by set_solver.
Qed.

(** After the nodes of an epoch have been read, the check of a connection request
    accepts exactly the listed key of each of them. *)
Lemma listed_node_validates t epoch t' refs e r a P Q :
  getNodeRefsByEpoch t epoch = (t', Ok refs) -> r ∈ refs -> nrAddress r = Some a -> nrPublicKey r = Some P ->
  EthereumService_Call t' e (validate_epoch_pub_key a Q) = (e, Responds (EthBool true) None) <-> Q = P.
Proof.
  intros E Hr Ha HP. pose proof (getNodeRefsByEpoch_ok _ _ _ _ E) as (_ & l & El & HF).
  apply list_elem_of_lookup in Hr as [i Hi]. destruct (Forall2_lookup_r _ _ _ _ _ HF Hi) as (a' & Hl & Ha' & d & Hd & _ & HP').
  assert (a' = a) as -> by congruence. assert (P = mkPoint (ctPubKx d) (ctPubKy d)) as -> by congruence.
  unfold getNodeRefsByEpoch in E. rewrite El in E.
  destruct (storeNodePubKeys t l) as [t1 [[]| |]] eqn:Es; [|done..].
  pose proof (collectNodeRefs_keyEntry l t1 a) as Ek. rewrite E in Ek. simpl in Ek.
  rewrite (storeNodePubKeys_keyEntry _ _ _ Es), decide_True, Hd in Ek by (by eapply list_elem_of_lookup_2).
  simpl. unfold validateEpochPubKey, Database_RetrieveNodePubKey. simpl. unfold RetrieveNodePubKey, dbGet.
  unfold keyEntry in Ek. rewrite Ek. destruct (Marshal_point_total (mkPoint (ctPubKx d) (ctPubKy d))) as [b Hb].
  rewrite Hb, (unmarshal_Ok _ _ Hb). simpl.
  destruct (samePoint _ Q) eqn:Eq; [by apply samePoint_true in Eq as <-|].
  split; [done|]. intros ->. by rewrite (proj2 (samePoint_true _ _) eq_refl) in Eq.
Qed.

End keys.

End props.
