(* ===== verification/Transport.v ===== *)
(** The transports of the protocols (the [Send], [streamHandler] and [Receive]
    methods of src/dkgnode/keygen_nofsm.go, pss.go and mapping.go, which are the
    same code for three types of messages) on the P2P service and the Ethereum
    service of a node, and the theorem that a message reaches the node it is sent
    to under the name of its sender. *)
From Stdlib Require Import ZArith.
From stdpp Require Import gmap strings.
From S2P Require Import Prelude BigInt Field Curve Pvss Ids Effects Dealer Torusdb TorusdbSpec Library P2p Ethereum EthereumLibrary EthereumProps.

(** go-ethereum's address of a public key. *)
Class EthAddress := { PointToEthAddress : Point -> list Z }.

(** What a transport sees of its node when it is called. *)
Record Net `{LibP2P} := mkNet {
  netDB : TorusLDB;
  netEth : EthereumService;
  netP2P : P2PService;
  netNow : Z * Z;
  netFails : string -> string -> option string;
}.

(** How sending ends: a node hands its own message to itself. *)
Inductive sent (M : Type) :=
  | ToSelf (from : Node) (m : M)
  | OnWire (acts : list P2pAction)
  | SendFailed (e : string)
  | SendDied.
Arguments ToSelf {M} from m.
Arguments OnWire {M} acts.
Arguments SendFailed {M} e.
Arguments SendDied {M}.

(** What a stream handler does with a message. *)
Inductive received (M : Type) :=
  | Delivered (sender : Node) (m : M)
  | Dropped
  | HandlerDied.
Arguments Delivered {M} sender m.
Arguments Dropped {M}.
Arguments HandlerDied {M}.

(** An answer as the value of a call; a call that does not return gives none. *)
Definition toRes {A} (a : answer A) : res A :=
  match a with
  | Got a => Ok a
  | Failed e => Err e
  | Died | Blocks => Panic
  end.

Section transport.
Context {SO : Secp256k1} {TC : TorusCrypto} {TS : TorusSign} {DC : TorusDBCodecs} {LP : LibP2P}.
Context {NL : NodeListContract} {RR : RegisterRange} {PCD : P2pCodecs} {EA : EthAddress}.

(** What the P2P service asks of the Ethereum service. *)
Definition ethNode (n : Net) : P2pNode := {|
  GetSelfPublicKey := toRes (snd (Ethereum_GetSelfPublicKey (netDB n) (netEth n)));
  SelfSignData data := toRes (snd (Ethereum_SelfSignData (netDB n) (netEth n) data));
  VerifyDataWithNodelist pk sig data :=
    toRes (snd (Ethereum_VerifyDataWithNodelist (netDB n) (netEth n) pk sig data));
  streamFails := netFails n;
|}.

Definition nodeByAddress (n : Net) (pubKey : Point) : answer NodeReference :=
  snd (Ethereum_GetNodeDetailsByAddress (netDB n) (netEth n) (PointToEthAddress pubKey)).

Section messages.
Context {M : Type} {CM : Codec M}.

(** [Send]: the recipient's connection is that of the register. *)
Definition transportSend (n : Net) (prefix msgType : string) (nodeDetails : Node) (m : M) : sent M :=
  match (ref ← toRes (nodeByAddress n (PubKey nodeDetails));
         pubKey ← toRes (snd (Ethereum_GetSelfPublicKey (netDB n) (netEth n)));
         Ok (ref, pubKey)) with
  | Ok (ref, pubKey) =>
      if samePoint (PubKey nodeDetails) pubKey then ToSelf nodeDetails m
      else
        match (byt ← marshal m;
               p2pMsg ← NewP2PMessage (PN := ethNode n) (netNow n) (netP2P n) (HashToString byt) false byt msgType;
               peerID ← GetPeerIDFromP2pListenAddress (nrP2PConnection ref);
               signature ← signP2PMessage (PN := ethNode n) p2pMsg;
               Ok (peerID, SetSign p2pMsg signature)) with
        | Ok (peerID, p2pMsg) =>
            match sendP2PMessage (PN := ethNode n) peerID prefix p2pMsg with
            | (acts, None) => OnWire acts
            | (_, Some e) => SendFailed e
            end
        | Err e => SendFailed e
        | Panic => SendDied
        end
  | _ => SendDied
  end.

(** [streamHandler]: the sender is who the register has for the key in the
    message. *)
Definition streamHandler (n : Net) (p2pBasicMsg : P2PBasicMsg) : received M :=
  match authenticateMessage (PN := ethNode n) p2pBasicMsg with
  | Ok _ =>
      match Unmarshal (A := M) (bmPayload p2pBasicMsg), Unmarshal (A := Point) (bmNodePubKey p2pBasicMsg) with
      | Some m, Some pubKey =>
          match (ref ← toRes (nodeByAddress n pubKey); deref (nrIndex ref)) with
          | Ok index => Delivered (mkNode (int64 index) pubKey) m
          | _ => HandlerDied
          end
      | _, _ => Dropped
      end
  | _ => Dropped
  end.

(** A stream of a peer: it is forwarded to the handler of its protocol. *)
Definition onStream (n : Net) (proto : string) (buf : res (list Z)) : list (received M) :=
  (fun a => match a with
            | Publish _ p2pBasicMsg => streamHandler n p2pBasicMsg
            | WriteStream _ _ _ => Dropped
            end) <$> incomingStream (PN := ethNode n) (netP2P n) proto buf.

End messages.
End transport.

(** ** Delivery *)

Section delivery.
Context {SO : Secp256k1} {TC : TorusCrypto} {TS : TorusSign} {DC : TorusDBCodecs} {LP : LibP2P}.
Context {NL : NodeListContract} {RR : RegisterRange} {PCD : P2pCodecs} {EA : EthAddress}.
Context {EC : EthConfig} {TSL : TorusSignLaws} {DL : TorusDBLaws} {RRL : RegisterRangeLaws} {CLB : CodecLaws P2PBasicMsg}.

Lemma SelfPublicKey_answer n pk :
  snd (Ethereum_GetSelfPublicKey (netDB n) (netEth n)) = Got pk -> esNodePubK (netEth n) = Some pk.
Proof.
  unfold Ethereum_GetSelfPublicKey, ask. simpl. unfold locking.
  destruct (esLocked _); [done|]. unfold ethRetry, ethQuery, ethRes, orErr. by destruct (esNodePubK _) as [P|]; simpl; [intros [= ->]|].
Qed.

Lemma SelfSignData_answer n d data sig :
  esNodePrivK (netEth n) = Some d ->
  toRes (snd (Ethereum_SelfSignData (netDB n) (netEth n) data)) = Ok sig -> sig = SignDataRaw data d.
Proof.
  unfold Ethereum_SelfSignData, ask. simpl. unfold selfSignData. intros ->. simpl. by intros [= <-].
Qed.

(** The check of the node list returns the details of a node whatever it finds. *)
Lemma VerifyDataWithNodelist_answers k a i n pk sig data :
  ethReach k a i (netEth n) -> esLocked (netEth n) = false ->
  exists nd, toRes (snd (Ethereum_VerifyDataWithNodelist (netDB n) (netEth n) pk sig data)) = Ok nd.
Proof.
  intros Hr Hl. pose proof (verify_registered _ _ _ _ pk sig data Hr) as Hv.
  unfold Ethereum_VerifyDataWithNodelist, ask. simpl. unfold locking. rewrite Hl. simpl.
  destruct (verifyDataWithNodelist _ _ _ _) as [[nd e]| |]; simpl; [by exists nd|done..].
Qed.

Section codec.
Context {M : Type} {CM : Codec M}.

(** A message is handed over when its stream arrives, its parts can be read and
    the register has an index for its key; nothing else is asked of it. *)
Lemma onStream_Delivered k a i n prefix data msg (m : M) pk ref idx :
  ethReach k a i (netEth n) -> esLocked (netEth n) = false -> prefix ∈ p2pHandlers (netP2P n) ->
  Unmarshal data = Some msg -> Unmarshal (bmPayload msg) = Some m -> Unmarshal (bmNodePubKey msg) = Some pk ->
  nodeByAddress n pk = Got ref -> nrIndex ref = Some idx ->
  onStream n prefix (Ok data) = [Delivered (mkNode (int64 idx) pk) m].
Proof.
  intros Hr Hl Hp Hd Hm Hk Href Hidx.
  assert (authenticateMessage (PN := ethNode n) msg = Ok tt) as Ha.
  { unfold authenticateMessage, p2pUnmarshal. rewrite Hk. simpl.
    destruct (VerifyDataWithNodelist_answers k a i n pk (bmSign msg) (GetSerializedBody msg) Hr Hl) as [nd ->].
    done. }
  unfold onStream, incomingStream. rewrite decide_True by done. unfold forwardStream.
  unfold p2pUnmarshal at 1. rewrite Hd, Ha. simpl.
  unfold streamHandler. rewrite Ha, Hm, Hk, Href. simpl. by rewrite Hidx.
Qed.

Context {CML : CodecLaws M}.

(** C29: A message between nodes arrives as it was sent and under the name of its
    sender: what a transport puts on the wire goes to the peer that the register
    names for the recipient, and at every node that serves the protocol, and whose
    register has the sender's key, the transport hands exactly the message to the
    protocol, with the sender's key and its index in the register, and its
    signature is one that the check of the node list accepts. *)
Theorem transport_delivers ns prefix msgType dst (m : M) acts d :
  transportSend ns prefix msgType dst m = OnWire acts ->
  0 < d < GeneratorOrder -> esNodePrivK (netEth ns) = Some d -> esNodePubK (netEth ns) = Some (d ⊙ secp_G) ->
  exists peerID data msg,
    acts = [WriteStream peerID prefix data] /\ Unmarshal data = Some msg /\
    (exists ref, nodeByAddress ns (PubKey dst) = Got ref /\
       GetPeerIDFromP2pListenAddress (nrP2PConnection ref) = Ok peerID) /\
    forall k a i nr ref idx r,
      ethReach k a i (netEth nr) -> esLocked (netEth nr) = false -> prefix ∈ p2pHandlers (netP2P nr) ->
      nodeByAddress nr (d ⊙ secp_G) = Got ref -> nrIndex ref = Some idx -> registered (netEth nr) (d ⊙ secp_G) r ->
      onStream nr prefix (Ok data) = [Delivered (mkNode (int64 idx) (d ⊙ secp_G)) m] /\
      exists n, verifyDataWithNodelist (netEth nr) (d ⊙ secp_G) (bmSign msg) (GetSerializedBody msg) = Ok (n, None).
Proof.
  intros Hs Hd Hpriv Hpub. unfold transportSend in Hs.
  destruct (nodeByAddress ns (PubKey dst)) as [ref| | |]; [|done..]. simpl in Hs.
  destruct (snd (Ethereum_GetSelfPublicKey _ _)) as [pk| | |] eqn:Epk; [|done..]. simpl in Hs.
  pose proof (SelfPublicKey_answer ns pk Epk) as E. rewrite Hpub in E. injection E as <-.
  destruct (samePoint _ _); [done|]. destruct (marshal m) as [byt| |] eqn:Em; [|done..]. simpl in Hs.
  unfold NewP2PMessage in Hs. simpl in Hs. rewrite Epk in Hs. simpl in Hs.
  set (p := CreateP2PBasicMsg _) in Hs.
  destruct (GetPeerIDFromP2pListenAddress _) as [peerID| |] eqn:Ep; [|done..]. simpl in Hs.
  unfold signP2PMessage, marshal in Hs. destruct (Marshal p) as [body|] eqn:Eb; [|done]. simpl in Hs.
  destruct (toRes _) as [sig| |] eqn:Esig; [|done..]. simpl in Hs.
  apply (SelfSignData_answer ns d) in Esig as ->; [|done].
  unfold sendP2PMessage in Hs. destruct (Marshal (SetSign p _)) as [data|] eqn:Edata; [|done].
  destruct (streamFails _ _); [done|]. injection Hs as <-.
  apply Unmarshal_Marshal in Edata.
  exists peerID, data, (SetSign p (SignDataRaw body d)). split_and!; [done|done|by eauto|].
  assert (Unmarshal (bmNodePubKey p) = Some (d ⊙ secp_G)) as Hkey.
  { simpl. apply Unmarshal_Marshal, pointBytes_Marshal. }
  assert (Unmarshal (bmPayload p) = Some m) as Hpay.
  { simpl. unfold marshal in Em. destruct (Marshal m) eqn:Em'; [|done]. injection Em as ->.
    by apply Unmarshal_Marshal. }
  intros k a i nr ref' idx r Hr Hl Hp Href Hidx Hreg.
  split; [by eapply onStream_Delivered|].
  assert (GetSerializedBody (SetSign p (SignDataRaw body d)) = body) as ->.
  { unfold GetSerializedBody. change (SetSign (SetSign p _) []) with p. by rewrite Eb. }
  pose proof (verify_registered k a i _ (d ⊙ secp_G) (SignDataRaw body d) body Hr) as Hv. simpl.
  destruct (verifyDataWithNodelist _ _ _ _) as [[n [e|]]| |]; [|by eauto|done..].
  destruct Hv as [_ [Hno|Hno]]; [by destruct (Hno r)|].
  by rewrite VerifyPtFromRaw_SignDataRaw in Hno.
Qed.

End codec.
End delivery.
