(* ===== verification/KeygenService.v ===== *)
(** The key generation service (src/dkgnode/keygen_nofsm.go): it starts every key
    generation once, hands the messages of the chain and of the other nodes to the
    protocol of Keygen, carries out the actions the protocol leaves, and stores
    what it puts out in the node's database. *)
From Stdlib Require Import ZArith.
From stdpp Require Import gmap strings.
From S2P Require Import Prelude BigInt Field Curve Pvss Ecdsa Ids Effects Dealer Torusdb Library Keygen P2p Ethereum.
From S2P Require Import EthereumLibrary Transport.

(** The state of the service: the node of the protocol and its randomness. *)
Record KeygennofsmService := mkKeygennofsmService { ksKeygenNode : KeygenNode; ksTape : Tape }.

(** What an action of a protocol comes to once its transport has taken it. *)
Inductive effect (M : Type) :=
  | Wire (a : P2pAction)
  | SelfMessage (from : Node) (m : M)
  | BroadcastTx (m : M)
  | Fatal.
Arguments Wire {M} a.
Arguments SelfMessage {M} from m.
Arguments BroadcastTx {M} m.
Arguments Fatal {M}.

Definition sentEffects {M} (r : sent M) : list (effect M) :=
  match r with
  | ToSelf from m => [SelfMessage from m]
  | OnWire acts => Wire <$> acts
  | SendFailed _ => []
  | SendDied => [Fatal]
  end.

(** The node list as the protocols take it; a nil index or key panics. *)
Definition getCommonNodesFromNodeRefArray (nodeRefs : list NodeReference) : res (list Node) :=
  mapM (fun nodeRef => index ← deref (nrIndex nodeRef); key ← deref (nrPublicKey nodeRef); Ok (mkNode (int64 index) key))
    nodeRefs.

(** The matrix stored for a commitment polynomial: the polynomial is its first
    column, the other entries are zero points. *)
Definition fakeCommitmentMatrix (commitmentPoly : list Point) : list (list Point) :=
  (fun pt => pt :: replicate (length commitmentPoly - 1) PointO) <$> commitmentPoly.

Definition keygenProtocolPrefix (currEpoch : Z) : string := "keygen" +:+ "-" +:+ Itoa currEpoch +:+ "/".

Definition setNetDB `{LibP2P} (n : Net) (t : TorusLDB) : Net :=
  mkNet _ t (netEth n) (netP2P n) (netNow n) (netFails n).

Section service.
Context {SO : Secp256k1} {TC : TorusCrypto} {TS : TorusSign} {EC : EthCrypto} {DC : TorusDBCodecs} {LP : LibP2P}.
Context {NL : NodeListContract} {RR : RegisterRange} {PCD : P2pCodecs} {EA : EthAddress}.

(** The node itself, as the Ethereum service knows it. *)
Definition selfNode (n : Net) : answer Node :=
  match snd (Ethereum_GetSelfPublicKey (netDB n) (netEth n)), snd (Ethereum_GetSelfIndex (netDB n) (netEth n)) with
  | Got pubKey, Got index => Got (mkNode index pubKey)
  | Blocks, _ | _, Blocks => Blocks
  | _, _ => Died
  end.

(** The transports sign with the node's key. *)
Definition transportSign (n : Net) : Transport := {|
  Sign s := match snd (Ethereum_GetSelfPrivateKey (netDB n) (netEth n)) with
            | Got k => match ECDSASignBytes s k with Ok sig => Some sig | _ => None end
            | _ => None
            end;
|}.

Context {KC : KeygenCodecs} {CM : Codec KeygenMessage} {MR : MapRange}.

Definition KeygennofsmService_OnStart (n : Net) (initEpoch staggerDelay : Z) (tape : Tape)
    : res KeygennofsmService :=
  self ← toRes (selfNode n);
  currNodeList ← toRes (snd (Ethereum_AwaitCompleteNodeList (netDB n) (netEth n) initEpoch));
  currEpoch ← toRes (snd (Ethereum_GetCurrentEpoch (netDB n) (netEth n)));
  currEpochInfo ← toRes (snd (Ethereum_GetEpochInfo (netDB n) (netEth n) currEpoch true));
  nodes ← getCommonNodesFromNodeRefArray currNodeList;
  Ok (mkKeygennofsmService
        (NewKeygenNode self nodes (int64 (eiT currEpochInfo)) (int64 (eiK currEpochInfo)) (NodeIndex self) staggerDelay)
        tape).

Definition keygenStep (s : KeygennofsmService) (n : Net)
    (r : (KeygenNode * Tape) * list Action * status) : KeygennofsmService * Net * list Action * status :=
  let '((kn, tape), acts, st) := r in (mkKeygennofsmService kn tape, n, acts, st).

(** [Receive]: a message of another node, or of the node itself. *)
Definition Receive (n : Net) (s : KeygennofsmService) (senderDetails : Node) (keygenMessage : KeygenMessage) :=
  keygenStep s n (ProcessMessage (TR := transportSign n) (ksKeygenNode s) (ksTape s) senderDetails keygenMessage).

(** The case of [Call] for a message of the node itself: a key generation is
    started once, even when the share message comes several times. *)
Definition receive_message (n : Net) (s : KeygennofsmService) (keygenMessage : KeygenMessage)
    : KeygennofsmService * Net * list Action * status :=
  let receive n :=
    match selfNode n with
    | Got self => Receive n s self keygenMessage
    | Blocks => (s, n, [], Waiting)
    | _ => (s, n, [], Panicked)
    end in
  if String.eqb (kmMethod keygenMessage) "share" then
    match Database_GetKeygenStarted (netDB n) (kmKeygenID keygenMessage) with
    | Ok true => (s, n, [], Returned)
    | Ok false =>
        match Database_SetKeygenStarted (netDB n) (kmKeygenID keygenMessage) true with
        | (t, None) => receive (setNetDB n t)
        | (t, Some e) => (s, setNetDB n t, [], Errored e)
        end
    | _ => (s, n, [], Panicked)
    end
  else receive n.

(** The case of [Call] for a decision of the chain. *)
Definition receive_BFT_message (n : Net) (s : KeygennofsmService) (keygenMessage : KeygenMessage)
    : KeygennofsmService * Net * list Action * status :=
  keygenStep s n (ProcessBroadcastMessage (ksKeygenNode s) (ksTape s) keygenMessage).

(** A message that a stream brought. *)
Definition keygenStream (n : Net) (s : KeygennofsmService) (p2pBasicMsg : P2PBasicMsg)
    : KeygennofsmService * Net * list Action * status :=
  match streamHandler n p2pBasicMsg with
  | Delivered sender m => Receive n s sender m
  | Dropped => (s, n, [], Returned)
  | HandlerDied => (s, n, [], Panicked)
  end.

(** ** The transport *)

(** [Output] of a completed key: a polynomial that is empty or starts with the zero
    abscissa is not stored; a store that fails is only logged. *)
Definition storeKey (t : TorusLDB) (keyStorage : KeyStorage) : TorusLDB :=
  match ksCommitmentPoly keyStorage with
  | [] => t
  | c0 :: _ =>
      if PX c0 =? 0 then t
      else
        let t := fst (Database_StoreKeygenCommitmentMatrix t (ksKeyIndex keyStorage)
                        (fakeCommitmentMatrix (ksCommitmentPoly keyStorage))) in
        fst (Database_StoreCompletedKeygenShare t (ksKeyIndex keyStorage) (ksSi keyStorage) (ksSiprime keyStorage))
  end.

Definition CheckIfNIZKPProcessed (t : TorusLDB) (keyIndex : Z) : bool :=
  match Database_IndexToPublicKeyExists t keyIndex with Ok b => b | _ => false end.

(** A staggered broadcast that wakes up.  The dkg of a proposal has been decided
    when its store entry is gone. *)
Definition wakeUp (n : Net) (s : KeygennofsmService) (a : Action) : list Action :=
  match a with
  | GoPropose msg _ dkgID =>
      match knDKGStore (ksKeygenNode s) !! dkgID with
      | Some (Some dkg) => proposeGoroutine dkg msg
      | _ => []
      end
  | GoPubKey msg keyIndex => pubKeyGoroutine (CheckIfNIZKPProcessed (netDB n) keyIndex) msg
  | _ => []
  end.

(** What the transport does with an action; a staggered broadcast first sleeps. *)
Definition keygenTransport (n : Net) (prefix : string) (a : Action) : Net * list (effect KeygenMessage) :=
  match a with
  | Send dst msg => (n, sentEffects (transportSend n prefix "transportKeygenMessage" dst msg))
  | SendBroadcast msg => (n, [BroadcastTx msg])
  | OutputText _ => (n, [])
  | OutputKey key => (setNetDB n (storeKey (netDB n) key), [])
  | GoPropose _ _ _ | GoPubKey _ _ => (n, [])
  end.

End service.
