(* ===== verification/LibrarySpec.v ===== *)
(** The database methods of the service library over the tables of TorusdbSpec:
    what they return and how they change the tables, and how the services that
    store keys use them. *)
From Stdlib Require Import ZArith.
From stdpp Require Import gmap strings.
From S2P Require Import Prelude BigInt Field Curve Pvss Ids Effects Torusdb TorusdbSpec Library Keygen P2p Ethereum.
From S2P Require Import EthereumLibrary Transport KeygenService.

(** The database after a sequence of requests. *)
Definition requests {DC : TorusDBCodecs} (t : TorusLDB) (reqs : list dbRequest) : TorusLDB :=
  foldl (fun t req => fst (Call t req)) t reqs.

Definition tablesAfter (s : Tables) (reqs : list dbRequest) : Tables :=
  foldl (fun s req => fst (tablesCall s req)) s reqs.

Section spec.
Context {DC : TorusDBCodecs} {DL : TorusDBLaws}.

Lemma requests_Rep s t reqs : Rep s t -> Forall dbOk reqs -> Rep (tablesAfter s reqs) (requests t reqs).
Proof.
  intros HR Hok. revert s t HR. induction Hok as [|req reqs Hq _ IH]; intros s t HR; [done|].
  simpl. apply IH. by apply Call_agrees.
Qed.

Lemma Call_answer s t req : Rep s t -> dbOk req -> snd (Call t req) = snd (tablesCall s req).
Proof. intros HR Hok. symmetry. by apply (Call_agrees s t req HR Hok). Qed.

Lemma RetrieveCommitmentMatrix_spec s t i :
  Rep s t -> 0 <= i -> Database_RetrieveCommitmentMatrix t i = Ok (tableMatrix s i).
Proof.
  intros HR Hi. unfold Database_RetrieveCommitmentMatrix, dbQuery.
  rewrite (Call_answer s) by done. by destruct s.
Qed.

Lemma RetrieveCompletedShare_spec s t i :
  Rep s t -> 0 <= i -> Database_RetrieveCompletedShare t i = Ok (csSi (tableShare s i), csSiPrime (tableShare s i)).
Proof.
  intros HR Hi. unfold Database_RetrieveCompletedShare, dbQuery.
  rewrite (Call_answer s) by done. by destruct s.
Qed.

Lemma GetKeygenStarted_spec s t id :
  Rep s t -> Database_GetKeygenStarted t id = Ok (default false (tStarted s !! id)).
Proof.
  intros HR. unfold Database_GetKeygenStarted, dbRetry, dbQuery.
  rewrite (Call_answer s) by done. by destruct s.
Qed.

Lemma SetKeygenStarted_spec t id b :
  Database_SetKeygenStarted t id b = (requests t [set_keygen_started id b], None).
Proof. done. Qed.

(** ** The output of a key generation as requests *)

Definition storeKeyRequests (ks : KeyStorage) : list dbRequest :=
  match ksCommitmentPoly ks with
  | [] => []
  | c0 :: _ =>
      if PX c0 =? 0 then []
      else [store_keygen_commitment_matrix (ksKeyIndex ks) (fakeCommitmentMatrix (ksCommitmentPoly ks));
            store_completed_keygen_share (ksKeyIndex ks) (ksSi ks) (ksSiprime ks)]
  end.

Lemma fst_dbStore t req : fst (dbStore t req) = fst (Call t req).
Proof. unfold dbStore. by destruct (Call t req). Qed.

Lemma storeKey_requests t ks : storeKey t ks = requests t (storeKeyRequests ks).
Proof.
  unfold storeKey, storeKeyRequests. destruct (ksCommitmentPoly ks); [done|].
  destruct (PX p =? 0); [done|]. unfold requests. cbn [foldl].
  unfold Database_StoreCompletedKeygenShare, Database_StoreKeygenCommitmentMatrix. by rewrite !fst_dbStore.
Qed.

(** Only an explicit reset takes back that a key generation has been started. *)
Lemma tStarted_after s reqs id :
  tStarted s !! id = Some true -> set_keygen_started id false ∉ reqs ->
  tStarted (tablesAfter s reqs) !! id = Some true.
Proof.
  revert s. induction reqs as [|req reqs IH]; intros s Hs Hno; [done|]. simpl. apply IH; [|set_solver].
  destruct s as [nk cn km pm ks ps ix ky st]. simpl in Hs.
  destruct req; simpl; rewrite ?found_fst; try done.
  destruct (decide (keygenID = id)) as [->|Hne]; [|by rewrite lookup_insert_ne].
  destruct started; [by rewrite lookup_insert_eq|]. set_solver.
Qed.

End spec.

(** ** Key generations are started once *)

Section started.
Context {SO : Secp256k1} {TC : TorusCrypto} {TS : TorusSign} {EC : Ecdsa.EthCrypto} {DC : TorusDBCodecs} {LP : LibP2P}.
Context {NL : NodeListContract} {RR : RegisterRange} {PCD : P2pCodecs} {EA : EthAddress}.
Context {KC : KeygenCodecs} {CM : Codec KeygenMessage} {MR : MapRange} {DL : TorusDBLaws}.

(** A share message of a key generation that has been started does nothing. *)
Lemma started_ignored n s m tb :
  Rep tb (netDB n) -> kmMethod m = "share"%string -> tStarted tb !! kmKeygenID m = Some true ->
  receive_message n s m = (s, n, [], Returned).
Proof.
  intros HR Hm Hs. unfold receive_message. rewrite Hm, String.eqb_refl.
  rewrite (GetKeygenStarted_spec tb) by done. by rewrite Hs.
Qed.

Lemma keygenStep_net s n r : snd (fst (fst (keygenStep s n r))) = n.
Proof. by destruct r as [[[kn tape] acts] st]. Qed.

(** What a share message leaves in the database. *)
Lemma receive_share_started n s m tb s' n' acts st :
  Rep tb (netDB n) -> kmMethod m = "share"%string -> receive_message n s m = (s', n', acts, st) ->
  exists tb', Rep tb' (netDB n') /\ tStarted tb' !! kmKeygenID m = Some true.
Proof.
  intros HR Hm. unfold receive_message. rewrite Hm, String.eqb_refl, (GetKeygenStarted_spec tb) by done.
  destruct (tStarted tb !! kmKeygenID m) as [[]|] eqn:Hs; cbn [default id]; [intros [= <- <- _ _]; by exists tb|..].
  all: rewrite SetKeygenStarted_spec.
  all: set (reqs := [set_keygen_started (kmKeygenID m) true]).
  all: assert (Rep (tablesAfter tb reqs) (requests (netDB n) reqs)
               /\ tStarted (tablesAfter tb reqs) !! kmKeygenID m = Some true) as [HR' Hs']
         by (split; [apply requests_Rep; [done|by constructor]|destruct tb; apply lookup_insert_eq]).
  all: set (n1 := setNetDB n (requests (netDB n) reqs)).
  all: destruct (selfNode n1) as [self| | |];
    [intros E; pose proof (keygenStep_net s n1
       (ProcessMessage (TR := transportSign n1) (ksKeygenNode s) (ksTape s) self m)) as En;
     unfold Receive in E; rewrite E in En; simpl in En; subst n'|intros [= <- <- _ _]..].
  all: by exists (tablesAfter tb reqs).
Qed.

(** C30: A key generation is started at most once by the calls of [receive_message] (the
    messages of the node's own application, not those of the peers' streams): once the
    service has received a share message for it, every later share message for it changes nothing and
    sends nothing, whatever else the database has stored in between and even when
    the service has been restarted from it. *)
Theorem keygen_started_once n s m tb s1 n1 acts st :
  Rep tb (netDB n) -> kmMethod m = "share"%string -> receive_message n s m = (s1, n1, acts, st) ->
  forall reqs n2 s2 m',
    Forall dbOk reqs -> set_keygen_started (kmKeygenID m) false ∉ reqs ->
    netDB n2 = requests (netDB n1) reqs ->
    kmMethod m' = "share"%string -> kmKeygenID m' = kmKeygenID m ->
    receive_message n2 s2 m' = (s2, n2, [], Returned).
Proof.
  intros HR Hm E reqs n2 s2 m' Hok Hno Hn2 Hm' Hid.
  destruct (receive_share_started n s m tb s1 n1 acts st HR Hm E) as (tb1 & HR1 & Hs1).
  apply (started_ignored n2 s2 m' (tablesAfter tb1 reqs)); [|done|].
  - rewrite Hn2. by apply requests_Rep.
  - rewrite Hid. by apply tStarted_after.
Qed.

End started.
