(* ===== verification/PssService.v ===== *)
(** The refresh service (src/dkgnode/pss.go): one node of the protocol of Pss per
    pair of epochs, whose data source reads the shares that are dealt from the
    node's database and whose output goes back there. *)
From Stdlib Require Import ZArith.
From stdpp Require Import gmap strings.
From S2P Require Import Prelude BigInt Field Curve Pvss Ecdsa Ids Effects Dealer Torusdb Library P2p Ethereum.
From S2P Require Import EthereumLibrary Transport KeygenService PssTypes Pss.

Definition GetPSSProtocolPrefix (oldEpoch newEpoch : Z) : string :=
  "pss" +:+ "-" +:+ Itoa oldEpoch +:+ "-" +:+ Itoa newEpoch +:+ "/".

Record PSSStartData := mkPSSStartData {
  sdMessage : string;
  sdOldEpoch : Z; sdOldEpochN : Z; sdOldEpochK : Z; sdOldEpochT : Z;
  sdNewEpoch : Z; sdNewEpochN : Z; sdNewEpochK : Z; sdNewEpochT : Z;
}.

(** A middleware changes a message, may end the chain, and may fail. *)
Definition Middleware : Type := PSSMessage -> PSSMessage * bool * option string.

(** A node of the protocol with its transport. *)
Record PSSInstance := mkPSSInstance {
  piNode : PSSNode;
  piPrefix : string;
  piSendMiddleware : list Middleware;
  piReceiveMiddleware : list Middleware;
}.

Record PSSService := mkPSSService {
  psVersion : string;
  psEndIndex : Z;
  psInstances : gmap string PSSInstance;
  psTape : Tape;
}.

Definition PSSService_OnStart (tape : Tape) : PSSService := mkPSSService "0.0.2" 10 ∅ tape.

Definition PSSInstanceExists (s : PSSService) (prefix : string) : bool :=
  match psInstances s !! prefix with Some _ => true | None => false end.

Definition setInstances (s : PSSService) (m : gmap string PSSInstance) (tape : Tape) : PSSService :=
  mkPSSService (psVersion s) (psEndIndex s) m tape.

Definition setNode (i : PSSInstance) (pn : PSSNode) : PSSInstance :=
  mkPSSInstance pn (piPrefix i) (piSendMiddleware i) (piReceiveMiddleware i).

(** [runSendMiddleware] and [runReceiveMiddleware]: a middleware that ends the
    chain does so before its error is looked at. *)
Fixpoint runMiddleware (l : list Middleware) (pssMessage : PSSMessage) : res PSSMessage :=
  match l with
  | [] => Ok pssMessage
  | middleware :: l =>
      match middleware pssMessage with
      | (modifiedMessage, true, _) => Ok modifiedMessage
      | (_, false, Some e) => Err e
      | (modifiedMessage, false, None) => runMiddleware l modifiedMessage
      end
  end.

Section service.
Context {SO : Secp256k1} {TC : TorusCrypto} {TS : TorusSign} {EC : EthCrypto} {DC : TorusDBCodecs} {LP : LibP2P}.
Context {NL : NodeListContract} {RR : RegisterRange} {PCD : P2pCodecs} {EA : EthAddress}.
Context {PC : PSSCodecs} {CM : Codec PSSMessage} {MR : MapRange}.

(** ** The data source *)

(** The first column of a stored matrix; an empty row panics. *)
Definition firstColumn (matrix : list (list Point)) : res (list Point) := mapM (fun arr => index arr 0) matrix.

(** An error of the database is logged and leaves the zero values. *)
Definition dbOr {A} (zero : A) (m : res A) : res A :=
  match m with Err _ => Ok zero | m => m end.

Definition pssGetSharing (n : Net) (pn : PSSNode) (keygenID : PSSKeygenID) : res (option Sharing) :=
  index ← KeygenID_GetIndex keygenID;
  matrix ← dbOr [] (Database_RetrieveCommitmentMatrix (netDB n) index);
  c ← firstColumn matrix;
  share ← dbOr (0, 0) (Database_RetrieveCompletedShare (netDB n) index);
  nodeRefArray ← toRes (snd (Ethereum_GetNodeList (netDB n) (netEth n) (netEpochID (pnOldNodes pn))));
  oldNodeList ← getCommonNodesFromNodeRefArray nodeRefArray;
  selfIndex ← toRes (snd (Ethereum_GetSelfIndex (netDB n) (netEth n)));
  Ok (Some (mkSharing keygenID oldNodeList (netEpochID (pnOldNodes pn)) selfIndex (fst share) (snd share) c)).

Definition dataSource (n : Net) (pn : PSSNode) : PSSDataSource := {| GetSharing := pssGetSharing n pn |}.

(** ** The transport *)

(** [Receive], a message of another node or of the node itself. *)
Definition pssReceive (n : Net) (s : PSSService) (prefix : string) (senderDetails : Node) (m : PSSMessage)
    : PSSService * list Action * status :=
  match psInstances s !! prefix with
  | None => (s, [], Panicked)
  | Some i =>
      match runMiddleware (piReceiveMiddleware i) m with
      | Ok pssMessage =>
          let '((pn, tape), acts, st) :=
            ProcessMessage (TR := transportSign n) (DS := dataSource n (piNode i))
              (piNode i) (psTape s) senderDetails pssMessage in
          (setInstances s (<[prefix := setNode i pn]> (psInstances s)) tape, acts, st)
      | Err e => (s, [], Errored e)
      | Panic => (s, [], Panicked)
      end
  end.

(** [ReceiveBroadcast], a decision of the chain. *)
Definition pssReceiveBroadcast (s : PSSService) (prefix : string) (m : PSSMessage)
    : PSSService * list Action * status :=
  match psInstances s !! prefix with
  | None => (s, [], Errored ("PSS instance not available " +:+ prefix))
  | Some i =>
      match runMiddleware (piReceiveMiddleware i) m with
      | Ok pssMessage =>
          let '(pn, acts, st) := ProcessBroadcastMessage (piNode i) pssMessage in
          (setInstances s (<[prefix := setNode i pn]> (psInstances s)) (psTape s), acts, st)
      | Err e => (s, [], Errored e)
      | Panic => (s, [], Panicked)
      end
  end.

Definition pssSend (n : Net) (i : PSSInstance) (nodeDetails : Node) (m : PSSMessage) : sent PSSMessage :=
  match runMiddleware (piSendMiddleware i) m with
  | Ok pssMessage => transportSend n (piPrefix i) "transportPSSMessage" nodeDetails pssMessage
  | Err e => SendFailed e
  | Panic => SendDied
  end.

(** A stream of a prefix whose instance has been made once. *)
Definition pssStream (n : Net) (s : PSSService) (prefix : string) (p2pBasicMsg : P2PBasicMsg)
    : PSSService * list Action * status :=
  match streamHandler n p2pBasicMsg with
  | Delivered sender m => pssReceive n s prefix sender m
  | Dropped => (s, [], Returned)
  | HandlerDied => (s, [], Panicked)
  end.

(** [Output] of a refreshed key. *)
Definition storeRefresh (t : TorusLDB) (rks : RefreshKeyStorage) : TorusLDB :=
  let t := fst (Database_StorePSSCommitmentMatrix t (rkKeyIndex rks) (fakeCommitmentMatrix (rkCommitmentPoly rks))) in
  fst (Database_StoreCompletedPSSShare t (rkKeyIndex rks) (rkSi rks) (rkSiprime rks)).

(** What the transport of an instance does with an action. *)
Definition pssTransport (n : Net) (i : PSSInstance) (a : Action) : Net * list (effect PSSMessage) :=
  match a with
  | Send dst msg => (n, sentEffects (pssSend n i dst msg))
  | SendBroadcast msg =>
      (n, match runMiddleware (piSendMiddleware i) msg with
          | Ok m => [BroadcastTx m]
          | Err _ => []
          | Panic => [Fatal]
          end)
  | OutputText _ => (n, [])
  | OutputRefresh key => (setNetDB n (storeRefresh (netDB n) key), [])
  | GoPropose _ _ _ => (n, [])
  end.

(** A staggered proposal that wakes up; its sharing has been decided when its
    store entry is gone. *)
Definition pssWakeUp (i : PSSInstance) (a : Action) : list Action :=
  match a with
  | GoPropose msg _ sharingID =>
      match pnRecoverStore (piNode i) !! sharingID with
      | Some (Some r) => proposeGoroutine r msg
      | _ => []
      end
  | _ => []
  end.

(** ** The service *)

Inductive pssRequest :=
  | PSS_instance_exists (prefix : string)
  | get_PSS_protocol_prefix (oldEpoch newEpoch : Z)
  | PSS_receive_BFT_message (prefix : string) (m : PSSMessage)
  | get_new_nodes_n (prefix : string)
  | get_new_nodes_k (prefix : string)
  | get_new_nodes_t (prefix : string)
  | get_old_nodes_n (prefix : string)
  | get_old_nodes_k (prefix : string)
  | get_old_nodes_t (prefix : string)
  | new_PSS_node (pssSendMsg : PSSStartData) (isDealer isPlayer : bool)
  | send_PSS_message_to_node (prefix : string) (nodeDetails : Node) (m : PSSMessage).

Inductive pssData :=
  | PssNil
  | PssBool (b : bool)
  | PssPrefix (s : string)
  | PssInt (i : Z).

(** What a call leaves: the service, the actions of the protocol, what has been
    sent at once, the data and how it ended. *)
Record pssOutcome := mkPssOutcome {
  poService : PSSService;
  poActions : list Action;
  poEffects : list (effect PSSMessage);
  poData : pssData;
  poStatus : status;
}.

Definition pssAnswer (s : PSSService) (d : pssData) : pssOutcome := mkPssOutcome s [] [] d Returned.
Definition pssStop (s : PSSService) (st : status) : pssOutcome := mkPssOutcome s [] [] PssNil st.

Definition nodesField (s : PSSService) (prefix : string) (f : PSSNode -> Z) : pssOutcome :=
  match psInstances s !! prefix with
  | Some i => pssAnswer s (PssInt (f (piNode i)))
  | None => pssStop s (Errored ("PSS instance not available " +:+ prefix))
  end.

(** The nodes of an epoch, once its register is complete. *)
Definition awaitNodes (n : Net) (epoch : Z) : answer (list Node) :=
  match snd (Ethereum_AwaitCompleteNodeList (netDB n) (netEth n) epoch) with
  | Got l => match getCommonNodesFromNodeRefArray l with Ok nodes => Got nodes | _ => Died end
  | Failed e => Failed e
  | Died => Died
  | Blocks => Blocks
  end.

(** An instance that exists already is replaced; the handler of its streams, which can be
    set once (ServiceLibrary.stream_reaches_owner), is then still that of the first. *)
Definition newPSSNode (n : Net) (staggerDelay : Z) (s : PSSService) (d : PSSStartData) (isDealer isPlayer : bool)
    : pssOutcome :=
  let protocolPrefix := GetPSSProtocolPrefix (sdOldEpoch d) (sdNewEpoch d) in
  match awaitNodes n (sdOldEpoch d), awaitNodes n (sdNewEpoch d), selfNode n with
  | Got oldNodeList, Got newNodeList, Got self =>
      let pn := NewPSSNode self (sdOldEpoch d) oldNodeList (sdOldEpochT d) (sdOldEpochK d)
                  (sdNewEpoch d) newNodeList (sdNewEpochT d) (sdNewEpochK d) (NodeIndex self)
                  isDealer isPlayer staggerDelay in
      pssAnswer (setInstances s (<[protocolPrefix := mkPSSInstance pn protocolPrefix [] []]> (psInstances s)) (psTape s))
        PssNil
  | Blocks, _, _ | _, Blocks, _ | _, _, Blocks => pssStop s Waiting
  | _, _, _ => pssStop s Panicked
  end.

Definition PSSService_Call (n : Net) (staggerDelay : Z) (s : PSSService) (req : pssRequest) : pssOutcome :=
  match req with
  | PSS_instance_exists prefix => pssAnswer s (PssBool (PSSInstanceExists s prefix))
  | get_PSS_protocol_prefix oldEpoch newEpoch => pssAnswer s (PssPrefix (GetPSSProtocolPrefix oldEpoch newEpoch))
  | PSS_receive_BFT_message prefix m =>
      let '(s, acts, st) := pssReceiveBroadcast s prefix m in mkPssOutcome s acts [] PssNil st
  | get_new_nodes_n prefix => nodesField s prefix (fun pn => netN (pnNewNodes pn))
  | get_new_nodes_k prefix => nodesField s prefix (fun pn => netK (pnNewNodes pn))
  | get_new_nodes_t prefix => nodesField s prefix (fun pn => netT (pnNewNodes pn))
  | get_old_nodes_n prefix => nodesField s prefix (fun pn => netN (pnOldNodes pn))
  | get_old_nodes_k prefix => nodesField s prefix (fun pn => netK (pnOldNodes pn))
  | get_old_nodes_t prefix => nodesField s prefix (fun pn => netT (pnOldNodes pn))
  | new_PSS_node d isDealer isPlayer => newPSSNode n staggerDelay s d isDealer isPlayer
  | send_PSS_message_to_node prefix nodeDetails m =>
      match psInstances s !! prefix with
      | None => pssStop s (Errored ("Could not get pssNode for prefix " +:+ prefix))
      | Some i =>
          match pssSend n i nodeDetails m with
          | ToSelf from m => let '(s, acts, st) := pssReceive n s prefix from m in mkPssOutcome s acts [] PssNil st
          | OnWire acts => mkPssOutcome s [] (Wire <$> acts) PssNil Returned
          | SendFailed e => pssStop s (Errored e)
          | SendDied => pssStop s Panicked
          end
      end
  end.

End service.
