(* ===== verification/TorusdbToy.v ===== *)
(** A run of the database service on concrete requests. *)
From Stdlib Require Import ZArith.
From stdpp Require Import gmap strings.
From S2P Require Import Prelude BigInt Curve Effects KeygenToy Torusdb TorusdbSpec.
Import ToyCodec.

#[global] Instance ser_completed : Ser completedShare :=
  ser_iso (fun s => (csSi s, csSiPrime s)) (fun xy => mkCompletedShare (fst xy) (snd xy)) ltac:(by intros []).

#[global] Instance ser_started : Ser KeygenStarted :=
  ser_iso (fun s => if ksStarted s then 1 else 0) (fun z => mkKeygenStarted (z =? 1)) ltac:(by intros [[]]).

#[global] Instance db_codecs : TorusDBCodecs := {|
  codec_completed_share := codec_ser;
  codec_keygen_started := codec_ser;
  codec_point := codec_ser;
  codec_matrix := codec_ser;
|}.

#[global] Instance db_laws : TorusDBLaws.
Proof. split; try apply _; try done; by eexists. Qed.

(** Key 256 is generated and then refreshed, key 0 is only generated. *)
Definition db_requests : list dbRequest := [
  get_share_count;
  store_completed_keygen_share 256 5 6;
  store_public_key_to_index (mkPoint 3 4) 256;
  store_completed_keygen_share 0 7 8;
  store_completed_PSS_share 256 9 10;
  store_connection_details [1; 2] (mkConnectionDetails "tm://a" "p2p://b");
  retrieve_completed_share 256;
  retrieve_completed_share 0;
  retrieve_public_key_to_index (mkPoint 3 4);
  retrieve_public_key_to_index (mkPoint 4 3);
  retrieve_index_to_public_key 1;
  retrieve_connection_details [1; 2];
  get_share_count ].

Definition ok_response (d : dbData) : MethodResponse := mkMethodResponse d None.

Lemma database_refines_tables_witness :
  Forall dbOk db_requests /\
  responses Call ∅ db_requests =
    [ ok_response (DataInt 0); ok_response NoData; ok_response NoData; ok_response NoData;
      ok_response NoData; ok_response NoData; ok_response (DataShare 9 10); ok_response (DataShare 7 8);
      ok_response (DataInt 256); ok_response (DataInt 0);
      mkMethodResponse (DataPoint PointO) (Some errUnmarshal);
      ok_response (DataConnection (mkConnectionDetails "tm://a" "p2p://b")); ok_response (DataInt 2) ].
Proof.
  assert (Forall dbOk db_requests) as Hok.
  { unfold db_requests. repeat (apply list.Forall_cons; split; [simpl; try done; try lia|]); [|by apply list.Forall_nil].
    split; by apply (bool_decide_unpack _). }
  split; [exact Hok|]. rewrite (database_refines_tables db_requests Hok). by vm_compute.
Defined.
