(* ===== verification/Bft.v ===== *)
(** The state of the replicated application and the rules of its transactions
    (src/dkgnode/abci_app.go, bftruleset.go, node_auth.go).

    A rule maps the application to the new application, the actions it leaves to
    other services and how it ended.  State changed before a rejection stays
    changed, as in the source.  [Crashed] is a panic or a [logging.Fatal], which
    ends the process.  The key-value database of the application is a finite map
    from keys to bytes; the other services (Ethereum's epochs and node lists, the
    node's own database), the serialisation and the iteration order of maps are
    parameters. *)
From Stdlib Require Import ZArith.
From stdpp Require Import gmap strings.
From S2P Require Import Prelude BigInt Field Curve Pvss Avss Nizkpk Ecdsa Ids Effects Keygen Mapping Dealer PssTypes.

(** ** Outcomes of a rule *)

(** A Go function that returns whether a transaction is correct, and an error:
    a rejection may come without one. *)
Inductive outcome (A : Type) : Type :=
  | Passed (a : A)
  | Rejected (e : option string)
  | Crashed.

Arguments Passed {A} a.
Arguments Rejected {A} e.
Arguments Crashed {A}.

#[global] Instance outcome_bind : MBind outcome := fun A B f m =>
  match m with
  | Passed a => f a
  | Rejected e => Rejected e
  | Crashed => Crashed
  end.

(** A call whose error is returned. *)
Definition ofRes {A} (m : res A) : outcome A :=
  match m with
  | Ok a => Passed a
  | Err e => Rejected (Some e)
  | Panic => Crashed
  end.

(** Reject with an error, or without. *)
Definition require (b : bool) (e : option string) : outcome unit := if b then Passed tt else Rejected e.

(** A loop whose body may reject. *)
Fixpoint foldOut {A B} (f : B -> A -> outcome B) (b : B) (l : list A) : outcome B :=
  match l with
  | [] => Passed b
  | a :: l' => b' ← f b a; foldOut f b' l'
  end.

(** ** Data (abci_app.go, bft_tx.go) *)

Record KeyAssignmentPublic := mkKeyAssignmentPublic {
  kaIndex : Z;
  kaPublicKey : Point;
  kaThreshold : Z;
  kaVerifiers : option (gmap string (option (list string)));
}.

Record KeygenPubKey := mkKeygenPubKey {
  kpDKGID : string;
  kpDecided : bool;
  kpGSHSprime : Point;
  kpGS : Point;
}.

Definition KeygenPubKeyZero : KeygenPubKey := mkKeygenPubKey EmptyString false PointO PointO.

Record MappingCounter := mkMappingCounter { RequiredCount : Z; KeyCount : Z }.

Abbreviation voters := (gmap NodeDetailsID bool) (only parsing).

(** [BlockTime] is never read and not serialised; zero is the zero time.  A nil slice of
    assignments is [None]. *)
Record State := mkState {
  sLastUnassignedIndex : Z;
  sLastCreatedIndex : Z;
  sBlockTime : Z;
  sNewKeyAssignments : option (list KeyAssignmentPublic);
  sPSSDecisions : gmap string bool;
  sKeygenDecisions : gmap string bool;
  sKeygenPubKeys : gmap string KeygenPubKey;
  sMappingProposeFreezes : gmap MappingID voters;
  sMappingProposeSummarys : gmap MappingID (gmap TransferSummaryID voters);
  sMappingProposeKeys : gmap MappingID (gmap MappingKeyID voters);
  sMappingCounters : gmap MappingID MappingCounter;
  sMappingThawed : gmap MappingID bool;
  sConsecutiveFailedPubKeyAssigns : Z;
}.

Record AppInfo := mkAppInfo { Height : Z; AppHash : list Z }.

Record App := mkApp {
  appInfo : AppInfo;
  appState : State;
  appLaggingState : State;
  appDb : gmap string (list Z);
}.

Record AssignmentBFTTx := mkAssignmentBFTTx { atVerifier : string; atVerifierID : string }.

(** The fields of a node reference the rules read. *)
Record NodeReference := mkNodeReference { nrIndex : Z; nrPublicKey : Point }.

(** What the rules leave to other services.  [SetFreezeState] reads the last
    unassigned index when its goroutine runs. *)
Inductive Action :=
  | DecideKeygen (msg : KeygenMessage)
  | DecidePSS (prefix : string) (msg : PSSMessage)
  | SetFreezeState (mappingID : MappingID) (freezeState : Z)
  | StorePublicKeyToIndex (publicKey : Point) (keyIndex : Z)
  | SetKeygenStarted (dkgID : string)
  | ShareKeygen (msg : KeygenMessage).

(** The services the rules call. *)
Class Services := {
  GetCurrentEpoch : Z;
  GetEpochInfo : Z -> option (Z * Z);
  nodeRegisterMap : Z -> option (list NodeReference);
  StorePublicKeyToIndexFails : Point -> Z -> option string;
  GetKeygenStarted : string -> bool;
  GetSelfIndex : Z;
}.

Class BftCodecs := {
  codec_assignment_tx :: Codec AssignmentBFTTx;
  codec_keygen_message :: Codec KeygenMessage;
  codec_pss_message :: Codec PSSMessage;
  codec_pss_propose :: Codec PSSMsgPropose;
  codec_pss_decide :: Codec PSSMsgDecide;
  codec_mapping_message :: Codec MappingMessage;
  codec_dealer_message :: Codec Message;
  codec_update_public_key :: Codec MsgUpdatePublicKey;
  codec_assignment :: Codec KeyAssignmentPublic;
  codec_indexes :: Codec (list Z);
}.

(** ** Field updates *)

Definition setIndexes (s : State) (lui lci : Z) : State :=
  mkState lui lci (sBlockTime s) (sNewKeyAssignments s) (sPSSDecisions s) (sKeygenDecisions s)
    (sKeygenPubKeys s) (sMappingProposeFreezes s) (sMappingProposeSummarys s) (sMappingProposeKeys s)
    (sMappingCounters s) (sMappingThawed s) (sConsecutiveFailedPubKeyAssigns s).

Definition setFailed (s : State) (n : Z) : State :=
  mkState (sLastUnassignedIndex s) (sLastCreatedIndex s) (sBlockTime s) (sNewKeyAssignments s)
    (sPSSDecisions s) (sKeygenDecisions s) (sKeygenPubKeys s) (sMappingProposeFreezes s)
    (sMappingProposeSummarys s) (sMappingProposeKeys s) (sMappingCounters s) (sMappingThawed s) n.

Definition setBlock (s : State) (time : Z) (assignments : option (list KeyAssignmentPublic)) : State :=
  mkState (sLastUnassignedIndex s) (sLastCreatedIndex s) time assignments
    (sPSSDecisions s) (sKeygenDecisions s) (sKeygenPubKeys s) (sMappingProposeFreezes s)
    (sMappingProposeSummarys s) (sMappingProposeKeys s) (sMappingCounters s) (sMappingThawed s)
    (sConsecutiveFailedPubKeyAssigns s).

Definition setPSSDecisions (s : State) (d : gmap string bool) : State :=
  mkState (sLastUnassignedIndex s) (sLastCreatedIndex s) (sBlockTime s) (sNewKeyAssignments s)
    d (sKeygenDecisions s) (sKeygenPubKeys s) (sMappingProposeFreezes s)
    (sMappingProposeSummarys s) (sMappingProposeKeys s) (sMappingCounters s) (sMappingThawed s)
    (sConsecutiveFailedPubKeyAssigns s).

Definition setKeygen (s : State) (d : gmap string bool) (k : gmap string KeygenPubKey) : State :=
  mkState (sLastUnassignedIndex s) (sLastCreatedIndex s) (sBlockTime s) (sNewKeyAssignments s)
    (sPSSDecisions s) d k (sMappingProposeFreezes s)
    (sMappingProposeSummarys s) (sMappingProposeKeys s) (sMappingCounters s) (sMappingThawed s)
    (sConsecutiveFailedPubKeyAssigns s).

Definition setFreezes (s : State) (f : gmap MappingID voters) : State :=
  mkState (sLastUnassignedIndex s) (sLastCreatedIndex s) (sBlockTime s) (sNewKeyAssignments s)
    (sPSSDecisions s) (sKeygenDecisions s) (sKeygenPubKeys s) f
    (sMappingProposeSummarys s) (sMappingProposeKeys s) (sMappingCounters s) (sMappingThawed s)
    (sConsecutiveFailedPubKeyAssigns s).

Definition setSummarys (s : State) (m : gmap MappingID (gmap TransferSummaryID voters)) : State :=
  mkState (sLastUnassignedIndex s) (sLastCreatedIndex s) (sBlockTime s) (sNewKeyAssignments s)
    (sPSSDecisions s) (sKeygenDecisions s) (sKeygenPubKeys s) (sMappingProposeFreezes s)
    m (sMappingProposeKeys s) (sMappingCounters s) (sMappingThawed s) (sConsecutiveFailedPubKeyAssigns s).

Definition setProposeKeys (s : State) (m : gmap MappingID (gmap MappingKeyID voters)) : State :=
  mkState (sLastUnassignedIndex s) (sLastCreatedIndex s) (sBlockTime s) (sNewKeyAssignments s)
    (sPSSDecisions s) (sKeygenDecisions s) (sKeygenPubKeys s) (sMappingProposeFreezes s)
    (sMappingProposeSummarys s) m (sMappingCounters s) (sMappingThawed s) (sConsecutiveFailedPubKeyAssigns s).

Definition setCounters (s : State) (m : gmap MappingID MappingCounter) : State :=
  mkState (sLastUnassignedIndex s) (sLastCreatedIndex s) (sBlockTime s) (sNewKeyAssignments s)
    (sPSSDecisions s) (sKeygenDecisions s) (sKeygenPubKeys s) (sMappingProposeFreezes s)
    (sMappingProposeSummarys s) (sMappingProposeKeys s) m (sMappingThawed s)
    (sConsecutiveFailedPubKeyAssigns s).

Definition setThawed (s : State) (m : gmap MappingID bool) : State :=
  mkState (sLastUnassignedIndex s) (sLastCreatedIndex s) (sBlockTime s) (sNewKeyAssignments s)
    (sPSSDecisions s) (sKeygenDecisions s) (sKeygenPubKeys s) (sMappingProposeFreezes s)
    (sMappingProposeSummarys s) (sMappingProposeKeys s) (sMappingCounters s) m
    (sConsecutiveFailedPubKeyAssigns s).

Definition setState (app : App) (s : State) : App := mkApp (appInfo app) s (appLaggingState app) (appDb app).
Definition setDb (app : App) (db : gmap string (list Z)) : App :=
  mkApp (appInfo app) (appState app) (appLaggingState app) db.

(** ** Database keys *)

Definition stateKey : string := "sk".
Definition keyMappingPrefixKey : string := "km".
Definition verifierToKeyIndexPrefixKey : string := "vt".
Definition appInfoKey : string := "ai".

Definition formVerifierKey (verifier verifierID : string) : string :=
  (verifierToKeyIndexPrefixKey ++ Join [verifier; verifierID] Delimiter1)%string.

(** [key[len(prefix):]] panics on a shorter key. *)
Definition deconstructVerifierKey (key : string) : res (string * string) :=
  if (String.length key <? 2)%nat then Panic
  else v ← FromVerifierDetailsID (String.substring 2 (String.length key - 2) key);
       Ok (vdVerifier v, vdVerifierID v).

Definition prefixKeyMapping (key : string) : string := (keyMappingPrefixKey ++ key)%string.

(** Ascending order of the key indexes ([sort.Slice]). *)
Fixpoint insertIndex (x : Z) (l : list Z) : list Z :=
  match l with
  | [] => [x]
  | y :: l' => if x <=? y then x :: l else y :: insertIndex x l'
  end.

Definition sortIndexes (l : list Z) : list Z := foldr insertIndex [] l.

Definition errUnmarshalTx : string := "bijson: unmarshal".

Definition unmarshal {A} `{Codec A} (b : list Z) : outcome A :=
  match Unmarshal b with
  | Some a => Passed a
  | None => Rejected (Some errUnmarshalTx)
  end.

Section rules.
Context {SO : Secp256k1} {TC : TorusCrypto} {NC : NodeConfig} {SV : Services} {MR : MapRange}.
Context {KC : KeygenCodecs} {MC : MappingCodecs} {BC : BftCodecs}.

(** ** The application's database *)

Definition retrieveKeyMapping (app : App) (keyIndex : Z) : res KeyAssignmentPublic :=
  match appDb app !! prefixKeyMapping (Text16 keyIndex) with
  | None => Err "retrieveKeyMapping, KeyMapping do not exist for index"
  | Some b => match Unmarshal b with Some a => Ok a | None => Err errUnmarshalTx end
  end.

Definition retrieveVerifierToKeyIndex (app : App) (verifier verifierID : string) : res (list Z) :=
  match appDb app !! formVerifierKey verifier verifierID with
  | None => Err "retrieveVerifierToKeyIndex keyIndexes do not exist for verifier, and verifierID"
  | Some b => match Unmarshal b with Some l => Ok l | None => Err errUnmarshalTx end
  end.

Definition storeKeyMapping (app : App) (keyIndex : Z) (assignment : KeyAssignmentPublic) : res App :=
  b ← marshal assignment; Ok (setDb app (<[prefixKeyMapping (Text16 keyIndex) := b]> (appDb app))).

Definition storeVerifierToKeyIndex (app : App) (verifier verifierID : string) (keyIndexes : list Z)
    : res App :=
  b ← marshal keyIndexes; Ok (setDb app (<[formVerifierKey verifier verifierID := b]> (appDb app))).

(** ** Node lists (ethereum.go, service_library.go, bftruleset.go) *)

Definition GetNodeByIndex (nodeList : list NodeReference) (index : Z) : option NodeReference :=
  find (fun nodeRef => int64 (nrIndex nodeRef) =? index) nodeList.

(** The service's error is retried and then fatal. *)
Definition GetNodeDetailsByEpochAndIndex (epoch index : Z) : res NodeReference :=
  match nodeRegisterMap epoch with
  | None => Panic
  | Some nodeList => deref (GetNodeByIndex nodeList index)
  end.

(** Checks if status update is from a valid node in a particular epoch. *)
Definition validateNode (x y index epoch : Z) : res Node :=
  nodeRef ← GetNodeDetailsByEpochAndIndex epoch index;
  if negb (PX (nrPublicKey nodeRef) =? x) || negb (PY (nrPublicKey nodeRef) =? y)
  then Err "could not find node"
  else Ok (mkNode index (nrPublicKey nodeRef)).

(** The number of threshold nodes and of malicious nodes in the current epoch. *)
Definition thresholds : outcome (Z * Z) :=
  match GetEpochInfo GetCurrentEpoch with
  | None => Rejected (Some "could not get current epoch with err"%string)
  | Some (k, t) => Passed (int64 k, int64 t)
  end.

(** ** Assignments (case 1) *)

Definition MaxFailedPubKeyAssigns : Z := 100.

Definition anySize {V} (n : Z) (m : gmap string (gmap string V)) : bool :=
  existsb (fun kv => n <=? Z.of_nat (size (snd kv))) (map_to_list m).

(** The checks before the transaction is parsed: no freeze is confirmed, and
    after the first epoch some summary is. *)
Definition assignmentOpen (K T : Z) (s : State) : outcome unit :=
  _ ← require (negb (anySize (K + T) (sMappingProposeFreezes s)))
        (Some "could not key assign since mapping propose freeze is already confirmed"%string);
  if negb IgnoreEpochForKeyAssign && negb (GetCurrentEpoch =? 1) then
    require (existsb (fun kv => anySize K (snd kv)) (map_to_list (sMappingProposeSummarys s)))
      (Some "could not key assign since no mapping summary has been confirmed"%string)
  else Passed tt.

(** The key the next assignment hands out. *)
Definition nextKeyIndex (s : State) : Z := int64 (sLastUnassignedIndex s).
Definition nextDKGID (s : State) : string := GenerateDKGID (nextKeyIndex s).
Definition pubKeyOf (s : State) (dkgID : string) : KeygenPubKey :=
  default KeygenPubKeyZero (sKeygenPubKeys s !! dkgID).

Definition keyIndexesAfter (app : App) (tx : AssignmentBFTTx) (assignedKeyIndex : Z) : list Z :=
  sortIndexes (match retrieveVerifierToKeyIndex app (atVerifier tx) (atVerifierID tx) with
    | Ok keyIndexes => keyIndexes ++ [assignedKeyIndex]
    | _ => [assignedKeyIndex]
    end).

Definition assignKey (app : App) (tx : AssignmentBFTTx) : App * outcome (list (string * string)) :=
  let s := appState app in
  let assignedKeyIndex := nextKeyIndex s in
  let keyIndexes := keyIndexesAfter app tx assignedKeyIndex in
  let pk := kpGS (pubKeyOf s (nextDKGID s)) in
  if sConsecutiveFailedPubKeyAssigns s =? MaxFailedPubKeyAssigns then
    (setState app (setIndexes (setFailed s 0) (sLastCreatedIndex s) (sLastCreatedIndex s)), Passed [])
  else if (PX pk =? 0) || (PY pk =? 0) then
    (setState app (setFailed s (uint64 (sConsecutiveFailedPubKeyAssigns s + 1))),
     Rejected (Some "pubkey not found"%string))
  else
    let app := setState app (setFailed s 0) in
    let newKeyMapping := mkKeyAssignmentPublic assignedKeyIndex pk 1
      (Some {[atVerifier tx := Some [atVerifierID tx]]}) in
    match storeKeyMapping app assignedKeyIndex newKeyMapping with
    | Ok app =>
        match storeVerifierToKeyIndex app (atVerifier tx) (atVerifierID tx) keyIndexes with
        | Ok app =>
            let s := appState app in
            let s := setIndexes s (uint64 (sLastUnassignedIndex s + 1)) (sLastCreatedIndex s) in
            let s := setBlock s (sBlockTime s) (Some (default [] (sNewKeyAssignments s) ++ [newKeyMapping])) in
            let s := setKeygen s (sKeygenDecisions s)
              (delete (GenerateDKGID assignedKeyIndex) (sKeygenPubKeys s)) in
            (setState app s, Passed [("assignment", "1")]%string)
        | Err e => (app, Rejected (Some e))
        | Panic => (app, Crashed)
        end
    | Err e => (app, Rejected (Some e))
    | Panic => (app, Crashed)
    end.

Definition assignmentRule (K T : Z) (app : App) (bftTx : list Z)
    : App * list Action * outcome (list (string * string)) :=
  match (_ ← assignmentOpen K T (appState app); unmarshal (A := AssignmentBFTTx) bftTx) with
  | Passed tx =>
      if sLastCreatedIndex (appState app) <=? sLastUnassignedIndex (appState app) then
        (app, [], Rejected (Some "Last assigned index is exceeding last created index"%string))
      else let '(app', r) := assignKey app tx in (app', [], r)
  | Rejected e => (app, [], Rejected e)
  | Crashed => (app, [], Crashed)
  end.

(** ** Key generation (case 2) *)

(** One signature on the ready text of a keygen: the counts of the commitments
    seen so far, and the sum of those that K nodes have signed. *)
Definition proofStep (K : Z) (keygenid : KeygenID) (acc : gmap string Z * Point)
    (entry : NodeDetailsID * ProposeProof) : outcome (gmap string Z * Point) :=
  let '(C00Map, GSHSprime) := acc in
  let '(nodeDetailsID, proposeProof) := entry in
  let nodeDetails := Ids.FromNodeDetailsID NodeZero nodeDetailsID in
  foundNode ← ofRes (validateNode (PX (PubKey nodeDetails)) (PY (PubKey nodeDetails))
                       (NodeIndex nodeDetails) GetCurrentEpoch);
  verified ← ofRes (ECDSAVerifyBytes
                      (ToBytes (mkSignedTextDetails (Join [keygenid; "ready"] Delimiter1) (ppC00 proposeProof)))
                      (PubKey foundNode) (ppSignedTextDetails proposeProof));
  _ ← require verified None;
  let c00Hex := PointToEthAddressHex (ppC00 proposeProof) in
  let count := getInt C00Map c00Hex + 1 in
  Passed (<[c00Hex := count]> C00Map,
          if count =? K then SumPoints [GSHSprime; ppC00 proposeProof] else GSHSprime).

(** One keygen of the proposal. *)
Definition keygenStep (K : Z) (dkgID : DKGID) (GSHSprime : Point)
    (entry : nat * (KeygenID * gmap NodeDetailsID ProposeProof)) : outcome Point :=
  let '(site, (keygenid, proofs)) := entry in
  match FromKeygenID KeygenIDDetailsZero keygenid with
  | (_, Some _) => Rejected None
  | (details, None) =>
      _ ← require (kidDKGID details =? dkgID)%string None;
      acc ← foldOut (proofStep K keygenid) (∅, GSHSprime) (mapRange site proofs);
      Passed (snd acc)
  end.

(** The checks of a proposal; [site] numbers the loops over its proofs. *)
Definition checkPropose (site : nat) (K : Z) (s : State) (msg : KeygenMsgPropose) : outcome Point :=
  _ ← require (negb (default false (sKeygenDecisions s !! prDKGID msg))) None;
  _ ← require (K <=? Z.of_nat (length (prKeygens msg))) None;
  _ ← require (length (prKeygens msg) =? length (prProposeProofs msg))%nat None;
  foldOut (keygenStep K (prDKGID msg)) PointO
    (zip (seq site (length (prKeygens msg))) (zip (prKeygens msg) (prProposeProofs msg))).

(** The decision handed to the key generation; a failed serialisation is logged. *)
Definition decideKeygen (msg : KeygenMsgPropose) : list Action :=
  match Marshal (mkKeygenMsgDecide (prDKGID msg) (prKeygens msg)) with
  | Some data => [DecideKeygen (CreateKeygenMessage NullKeygenID "decide" data)]
  | None => []
  end.

Definition proposeRule (K : Z) (app : App) (data : list Z)
    : App * list Action * outcome (list (string * string)) :=
  let s := appState app in
  match (msg ← unmarshal (A := KeygenMsgPropose) data; p ← checkPropose 0 K s msg; Passed (msg, p)) with
  | Passed (msg, GSHSprime) =>
      (setState app (setKeygen s (<[prDKGID msg := true]> (sKeygenDecisions s))
         (<[prDKGID msg := mkKeygenPubKey (prDKGID msg) true GSHSprime PointO]> (sKeygenPubKeys s))),
       decideKeygen msg, Passed [])
  | Rejected e => (app, [], Rejected e)
  | Crashed => (app, [], Crashed)
  end.

Definition verifyProof (u : unit) (nizkp : NIZKP) : outcome unit :=
  ok ← ofRes (VerifyNIZKPK (nzC nizkp) (nzU1 nizkp) (nzU2 nizkp) (nzGSi nizkp) (nzGSiHSiprime nizkp));
  require ok (Some "Could not verify NIZKP"%string).

Definition checkPubKey (K : Z) (s : State) (msg : KeygenMsgPubKey) : outcome unit :=
  let proofs := pkPubKeyProofs msg in
  let decision := pubKeyOf s (pkDKGID msg) in
  _ ← require (Z.of_nat (length proofs) =? K) (Some "Invalid pubkey proofs length"%string);
  _ ← require (kpDecided decision) (Some "Undecided keygen"%string);
  _ ← require ((PX (kpGS decision) =? 0) && (PY (kpGS decision) =? 0)) (Some "Already decided on pubkey"%string);
  GSHSprime ← ofRes (LagrangeCurvePts (nzNodeIndex <$> proofs) (nzGSiHSiprime <$> proofs));
  _ ← require (pointEqb GSHSprime (kpGSHSprime decision))
        (Some "Lagranged pedersen commitment does not match"%string);
  foldOut verifyProof tt proofs.

(** The public key is stored before the two errors that reject the transaction. *)
Definition pubKeyRule (K : Z) (app : App) (data : list Z)
    : App * list Action * outcome (list (string * string)) :=
  let s := appState app in
  match (msg ← unmarshal (A := KeygenMsgPubKey) data;
         _ ← checkPubKey K s msg;
         GS ← ofRes (LagrangeCurvePts (nzNodeIndex <$> pkPubKeyProofs msg) (nzGSi <$> pkPubKeyProofs msg));
         Passed (msg, GS)) with
  | Rejected e => (app, [], Rejected e)
  | Crashed => (app, [], Crashed)
  | Passed (msg, GS) =>
      let decision := pubKeyOf s (pkDKGID msg) in
      let s := setKeygen s (sKeygenDecisions s)
        (<[pkDKGID msg := mkKeygenPubKey (kpDKGID decision) (kpDecided decision) (kpGSHSprime decision) GS]>
           (sKeygenPubKeys s)) in
      let app := setState app s in
      match GetIndex (pkDKGID msg) with
      | Err e => (app, [], Rejected (Some e))
      | Panic => (app, [], Crashed)
      | Ok keyIndex =>
          match StorePublicKeyToIndexFails GS keyIndex with
          | Some e => (app, [StorePublicKeyToIndex GS keyIndex], Rejected (Some e))
          | None =>
              (setState app (setIndexes s (sLastUnassignedIndex s) (uint64 (sLastCreatedIndex s + 1))),
               [StorePublicKeyToIndex GS keyIndex], Passed [])
          end
      end
  end.

Definition keygenRule (K : Z) (app : App) (bftTx : list Z)
    : App * list Action * outcome (list (string * string)) :=
  match unmarshal (A := KeygenMessage) bftTx with
  | Rejected e => (app, [], Rejected e)
  | Crashed => (app, [], Crashed)
  | Passed keygenMessage =>
      if (kmMethod keygenMessage =? "propose")%string then proposeRule K app (kmData keygenMessage)
      else if (kmMethod keygenMessage =? "pubkey")%string then pubKeyRule K app (kmData keygenMessage)
      else (app, [], Rejected (Some "tendermint received keygenMessage with unimplemented method"%string))
  end.

(** ** Proactive secret sharing (case 3) *)

Definition signedTextStep (pssid : PSSID) (u : unit) (entry : NodeDetailsID * list Z) : outcome unit :=
  let '(nodeDetailsID, signedText) := entry in
  let nodeDetails := PssTypes.FromNodeDetailsID NodeZero nodeDetailsID in
  foundNode ← ofRes (validateNode (PX (PubKey nodeDetails)) (PY (PubKey nodeDetails))
                       (NodeIndex nodeDetails) GetCurrentEpoch);
  verified ← ofRes (ECDSAVerify (stringBytes (Join [pssid; "ready"] Delimiter1)) (PubKey foundNode) signedText);
  require verified (Some "Could not verify signed text"%string).

Definition pssStep (p : EpochParams) (sharingID : SharingID) (u : unit)
    (entry : nat * (PSSID * gmap NodeDetailsID (list Z))) : outcome unit :=
  let '(site, (pssid, signedTexts)) := entry in
  match FromPSSID PSSIDDetailsZero pssid with
  | (_, Some e) => Rejected (Some e)
  | (details, None) =>
      _ ← require (pidSharingID details =? sharingID)%string
            (Some "SharingID for pssMsgPropose did not match pssids"%string);
      _ ← require (int64 (tNew p + kNew p) <=? Z.of_nat (size signedTexts))
            (Some "Not enough signed ready texts in proof"%string);
      foldOut (signedTextStep pssid) tt (mapRange site signedTexts)
  end.

Definition checkPSSPropose (site : nat) (s : State) (msg : PSSMsgPropose) : outcome EpochParams :=
  _ ← require (negb (default false (sPSSDecisions s !! pprSharingID msg))) None;
  p ← ofRes (GetEpochParams (pprSharingID msg));
  _ ← require (negb ((kOld p =? 0) || (kNew p =? 0))) (Some "k cannot be 0"%string);
  _ ← require (kOld p <=? Z.of_nat (length (pprPSSs msg))) (Some "propose message had not enough PSSs"%string);
  _ ← require (length (pprPSSs msg) =? length (pprSignedTexts msg))%nat
        (Some "Propose message had different lengths for pssids and signedTexts"%string);
  _ ← foldOut (pssStep p (pprSharingID msg)) tt
        (zip (seq site (length (pprPSSs msg))) (zip (pprPSSs msg) (pprSignedTexts msg)));
  Passed p.

Definition PSSProtocolPrefix (p : EpochParams) : string :=
  ("pss" ++ "-" ++ Itoa (epochOld p) ++ "-" ++ Itoa (epochNew p) ++ "/")%string.

(** The decision is stored before it is serialised. *)
Definition pssRule (app : App) (bftTx : list Z) : App * list Action * outcome (list (string * string)) :=
  let s := appState app in
  match unmarshal (A := PSSMessage) bftTx with
  | Rejected e => (app, [], Rejected e)
  | Crashed => (app, [], Crashed)
  | Passed pssMessage =>
      if (pmMethod pssMessage =? "propose")%string then
        match (msg ← unmarshal (A := PSSMsgPropose) (pmData pssMessage);
               p ← checkPSSPropose 0 s msg; Passed (msg, p)) with
        | Rejected e => (app, [], Rejected e)
        | Crashed => (app, [], Crashed)
        | Passed (msg, p) =>
            let app := setState app (setPSSDecisions s (<[pprSharingID msg := true]> (sPSSDecisions s))) in
            match Marshal (mkPSSMsgDecide (pprSharingID msg) (pprPSSs msg)) with
            | None => (app, [], Rejected (Some "could not marshal pssMsgDecide"%string))
            | Some byt =>
                (app, [DecidePSS (PSSProtocolPrefix p) (CreatePSSMessage NullPSSID "decide" byt)],
                 Passed [("psspropose", "1")]%string)
            end
        end
      else (app, [], Rejected (Some "tendermint received pssMessage with unimplemented method"%string))
  end.

(** ** Key mapping (case 4) *)

(** An inner map that is created when it is first looked at. *)
Definition created {V} (m : gmap string (gmap string V)) (id : string) : gmap string (gmap string V) :=
  match m !! id with Some _ => m | None => <[id := ∅]> m end.

Definition votersOf {V} (m : gmap string (gmap string V)) (id : string) : gmap string V :=
  default ∅ (m !! id).

Definition voted (m : gmap NodeDetailsID bool) (sender : Node) : bool :=
  default false (m !! Ids.ToNodeDetailsID sender).

Definition counterOf (s : State) (mappingID : MappingID) : MappingCounter :=
  default (mkMappingCounter 0 0) (sMappingCounters s !! mappingID).

(** Whether the mapping is complete, and the state after the clean-up. *)
Definition isThawed (s : State) (mappingID : MappingID) : bool * State :=
  let c := counterOf s mappingID in
  if RequiredCount c =? 0 then (false, s)
  else if negb (RequiredCount c =? KeyCount c) then (false, s)
  else (true, setCounters (setProposeKeys s (delete mappingID (sMappingProposeKeys s)))
                (delete mappingID (sMappingCounters s))).

Definition thaw (s : State) (mappingID : MappingID) : State :=
  let '(b, s') := isThawed s mappingID in
  if b then setThawed s' (<[mappingID := true]> (sMappingThawed s')) else s'.

Definition freezeRule (K T : Z) (app : App) (sender : Node) (data : list Z)
    : App * list Action * outcome (list (string * string)) :=
  let s := appState app in
  match unmarshal (A := MappingProposeFreezeBroadcastMessage) data with
  | Rejected e => (app, [], Rejected e)
  | Crashed => (app, [], Crashed)
  | Passed m =>
      let id := pfbMappingID m in
      let freezes := created (sMappingProposeFreezes s) id in
      if voted (votersOf freezes id) sender then
        (setState app (setFreezes s freezes), [],
         Rejected (Some "already set to true for incoming mapping propose freeze"%string))
      else
        let v := <[Ids.ToNodeDetailsID sender := true]> (votersOf freezes id) in
        (setState app (setFreezes s (<[id := v]> freezes)),
         if Z.of_nat (size v) =? K + T then [SetFreezeState id 2] else [], Passed [])
  end.

(** Keygens that are not started yet and have been handed over are marked. *)
Definition markKeygens (n : Z) : list Action :=
  omap (fun i => if GetKeygenStarted (GenerateDKGID i) then None
                 else Some (SetKeygenStarted (GenerateDKGID i))) (seqZ 0 (int64 n)).

(** The K-th vote for a summary. *)
Definition confirmSummary (s : State) (mappingID : MappingID) (n : Z) : State :=
  let s := setCounters s
    (<[mappingID := mkMappingCounter (int64 n) (KeyCount (counterOf s mappingID))]> (sMappingCounters s)) in
  let s := setIndexes s n (if sLastCreatedIndex s <? n then n else sLastCreatedIndex s) in
  thaw s mappingID.

Definition summaryRule (K : Z) (app : App) (sender : Node) (mappingID : MappingID) (data : list Z)
    : App * list Action * outcome (list (string * string)) :=
  let s := appState app in
  match unmarshal (A := MappingSummaryBroadcastMessage) data with
  | Rejected e => (app, [], Rejected e)
  | Crashed => (app, [], Crashed)
  | Passed m =>
      let id := TransferSummary_ID (sbTransferSummary m) in
      let n := LastUnassignedIndex (sbTransferSummary m) in
      let inner := created (votersOf (sMappingProposeSummarys s) mappingID) id in
      if voted (votersOf inner id) sender then
        (setState app (setSummarys s (<[mappingID := inner]> (sMappingProposeSummarys s))), [],
         Rejected (Some "already set to true for incoming mapping propose summary"%string))
      else
        let v := <[Ids.ToNodeDetailsID sender := true]> (votersOf inner id) in
        let s := setSummarys s (<[mappingID := <[id := v]> inner]> (sMappingProposeSummarys s)) in
        if Z.of_nat (size v) =? K then
          (setState app (confirmSummary s mappingID n), markKeygens n, Passed [])
        else (setState app s, [], Passed [])
  end.

(** One identity of the mapped key; a failed serialisation is only logged. *)
Definition addVerifierIndex (keyIndex : Z) (app : App) (user : string * string) : App :=
  let '(verifier, verifierID) := user in
  let keyIndexes := match retrieveVerifierToKeyIndex app verifier verifierID with Ok l => l | _ => [] end in
  if existsb (Z.eqb keyIndex) keyIndexes then app
  else match storeVerifierToKeyIndex app verifier verifierID (sortIndexes (keyIndexes ++ [keyIndex])) with
       | Ok app' => app'
       | _ => app
       end.

(** The identities of a key, in the order of the two loops. *)
Definition verifierUsers (site : nat) (key : MappingKey) : list (string * string) :=
  match mkVerifiers key with
  | None => []
  | Some m =>
      concat ((fun kv => (fun id => (fst kv, id)) <$> default [] (snd kv)) <$> mapRange site m)
  end.

(** The K-th vote for a key. *)
Definition confirmKey (app : App) (mappingID : MappingID) (key : MappingKey) : App :=
  let s := appState app in
  let c := counterOf s mappingID in
  let s := setCounters s
    (<[mappingID := mkMappingCounter (RequiredCount c) (int64 (KeyCount c + 1))]> (sMappingCounters s)) in
  let app := setState app s in
  let assignment := mkKeyAssignmentPublic (mkIndex key) (mkPublicKey key) (mkThreshold key) (mkVerifiers key) in
  let app := match storeKeyMapping app (mkIndex key) assignment with Ok app' => app' | _ => app end in
  let app := foldl (addVerifierIndex (mkIndex key)) app (verifierUsers 0 key) in
  setState app (thaw (appState app) mappingID).

Definition keyRule (K : Z) (app : App) (sender : Node) (mappingID : MappingID) (data : list Z)
    : App * list Action * outcome (list (string * string)) :=
  let s := appState app in
  match unmarshal (A := MappingKeyBroadcastMessage) data with
  | Rejected e => (app, [], Rejected e)
  | Crashed => (app, [], Crashed)
  | Passed m =>
      let key := kbMappingKey m in
      let id := MappingKey_ID key in
      let inner := created (votersOf (sMappingProposeKeys s) mappingID) id in
      if voted (votersOf inner id) sender then
        (setState app (setProposeKeys s (<[mappingID := inner]> (sMappingProposeKeys s))), [],
         Rejected (Some "already set to true for incoming mapping propose message"%string))
      else
        let v := <[Ids.ToNodeDetailsID sender := true]> (votersOf inner id) in
        let app := setState app (setProposeKeys s (<[mappingID := <[id := v]> inner]> (sMappingProposeKeys s))) in
        if Z.of_nat (size v) =? K then
          (confirmKey app mappingID key, [StorePublicKeyToIndex (mkPublicKey key) (mkIndex key)], Passed [])
        else (app, [], Passed [])
  end.

Definition mappingRule (K T : Z) (app : App) (sender : Node) (bftTx : list Z)
    : App * list Action * outcome (list (string * string)) :=
  match unmarshal (A := MappingMessage) bftTx with
  | Rejected e => (app, [], Rejected e)
  | Crashed => (app, [], Crashed)
  | Passed m =>
      let mappingID := mmMappingID m in
      if default false (sMappingThawed (appState app) !! mappingID) then
        (app, [], Rejected (Some "mapping is already thawed"%string))
      else if (mmMethod m =? "mapping_propose_freeze")%string then freezeRule K T app sender (mmData m)
      else if (mmMethod m =? "mapping_summary_broadcast")%string then
        summaryRule K app sender mappingID (mmData m)
      else if (mmMethod m =? "mapping_key_broadcast")%string then keyRule K app sender mappingID (mmData m)
      else (app, [], Rejected (Some "tendermint received mappingMessage with unimplemented method"%string))
  end.

(** ** Dealers (case 5) *)

Definition checkDealer (now : Z * Z) (app : App) (bftTx : list Z)
    : outcome (KeyAssignmentPublic * MsgUpdatePublicKey) :=
  match Unmarshal (A := Message) bftTx with
  | None => Rejected (Some "could not unmarshal dealerMessage"%string)
  | Some dealerMessage =>
      match retrieveKeyMapping app (dmKeyIndex dealerMessage) with
      | Ok keyAssignmentPublic =>
          _ ← require (Message_Validate dealerMessage (kaPublicKey keyAssignmentPublic))
                (Some "could not validate dealer message"%string);
          _ ← require (dmMethod dealerMessage =? "updatePubKey")%string
                (Some "tendermint received dealerMessage with unimplemented method"%string);
          match Unmarshal (A := MsgUpdatePublicKey) (dmData dealerMessage) with
          | None => Rejected (Some "could not unmarshal dealerMsgUpdatePublicKey"%string)
          | Some update =>
              _ ← require (MsgUpdatePublicKey_Validate now update (kaPublicKey keyAssignmentPublic))
                    (Some "could not validate dealerMsgUpdatePublicKey"%string);
              Passed (keyAssignmentPublic, update)
          end
      | Err _ => Rejected (Some "could not get keyAssignmentPublic"%string)
      | Panic => Crashed
      end
  end.

Definition dealerRule (now : Z * Z) (app : App) (bftTx : list Z)
    : App * list Action * outcome (list (string * string)) :=
  match checkDealer now app bftTx with
  | Rejected e => (app, [], Rejected e)
  | Crashed => (app, [], Crashed)
  | Passed (a, update) =>
      let a' := mkKeyAssignmentPublic (kaIndex a) (upNewPubKey update) (kaThreshold a) (kaVerifiers a) in
      match storeKeyMapping app (kaIndex a') a' with
      | Ok app =>
          match StorePublicKeyToIndexFails (kaPublicKey a') (kaIndex a') with
          | Some _ => (app, [StorePublicKeyToIndex (kaPublicKey a') (kaIndex a')],
                       Rejected (Some "could not store public key to index"%string))
          | None => (app, [StorePublicKeyToIndex (kaPublicKey a') (kaIndex a')], Passed [])
          end
      | Err _ => (app, [], Rejected (Some "could not store key mapping"%string))
      | Panic => (app, [], Crashed)
      end
  end.

(** ** The master switch *)

(** Validates transactions to be delivered to the BFT. is the master switch for all tx *)
Definition ValidateAndUpdateAndTagBFTTx (now : Z * Z) (app : App) (bftTx : list Z) (msgType : Z)
    (senderDetails : Node) : App * list Action * outcome (list (string * string)) :=
  match thresholds with
  | Rejected e => (app, [], Rejected e)
  | Crashed => (app, [], Crashed)
  | Passed (K, T) =>
      if msgType =? 1 then assignmentRule K T app bftTx
      else if msgType =? 2 then keygenRule K app bftTx
      else if msgType =? 3 then pssRule app bftTx
      else if msgType =? 4 then mappingRule K T app senderDetails bftTx
      else if msgType =? 5 then dealerRule now app bftTx
      else (app, [], Rejected (Some "Tx type not recognized"%string))
  end.

(** ** The same checks against the lagging state (validateTx) *)

(** Freezes and summaries are read from the state of the application, not from
    the state that is passed. *)
Definition validateAssignment (K T : Z) (app : App) (state : State) (bftTx : list Z) : outcome unit :=
  _ ← assignmentOpen K T (appState app);
  _ ← unmarshal (A := AssignmentBFTTx) bftTx;
  require (negb (sLastCreatedIndex state <=? sLastUnassignedIndex state))
    (Some "Last assigned index is exceeding last created index"%string).

Definition validateKeygen (site : nat) (K : Z) (state : State) (bftTx : list Z) : outcome unit :=
  keygenMessage ← unmarshal (A := KeygenMessage) bftTx;
  if (kmMethod keygenMessage =? "propose")%string then
    msg ← unmarshal (A := KeygenMsgPropose) (kmData keygenMessage);
    _ ← checkPropose site K state msg; Passed tt
  else if (kmMethod keygenMessage =? "pubkey")%string then
    msg ← unmarshal (A := KeygenMsgPubKey) (kmData keygenMessage); checkPubKey K state msg
  else Rejected (Some "tendermint received keygenMessage with unimplemented method"%string).

Definition validatePSS (site : nat) (state : State) (bftTx : list Z) : outcome unit :=
  pssMessage ← unmarshal (A := PSSMessage) bftTx;
  if (pmMethod pssMessage =? "propose")%string then
    msg ← unmarshal (A := PSSMsgPropose) (pmData pssMessage);
    _ ← checkPSSPropose site state msg; Passed tt
  else Rejected (Some "tendermint received pssMessage with unimplemented method"%string).

Definition validateMapping (state : State) (sender : Node) (bftTx : list Z) : outcome unit :=
  m ← unmarshal (A := MappingMessage) bftTx;
  _ ← require (negb (default false (sMappingThawed state !! mmMappingID m)))
        (Some "mapping is already thawed"%string);
  if (mmMethod m =? "mapping_propose_freeze")%string then
    d ← unmarshal (A := MappingProposeFreezeBroadcastMessage) (mmData m);
    require (negb (voted (votersOf (sMappingProposeFreezes state) (pfbMappingID d)) sender))
      (Some "already set to true for incoming mapping propose freeze"%string)
  else if (mmMethod m =? "mapping_summary_broadcast")%string then
    d ← unmarshal (A := MappingSummaryBroadcastMessage) (mmData m);
    require (negb (voted (votersOf (votersOf (sMappingProposeSummarys state) (mmMappingID m))
                            (TransferSummary_ID (sbTransferSummary d))) sender))
      (Some "already set to true for incoming mapping propose summary"%string)
  else if (mmMethod m =? "mapping_key_broadcast")%string then
    d ← unmarshal (A := MappingKeyBroadcastMessage) (mmData m);
    require (negb (voted (votersOf (votersOf (sMappingProposeKeys state) (mmMappingID m))
                            (MappingKey_ID (kbMappingKey d))) sender))
      (Some "already set to true for incoming mapping propose message"%string)
  else Rejected (Some "tendermint received mappingMessage with unimplemented method"%string).

Definition validateTx (now : Z * Z) (app : App) (bftTx : list Z) (msgType : Z) (senderDetails : Node)
    (state : State) : outcome unit :=
  KT ← thresholds;
  let '(K, T) := KT in
  if msgType =? 1 then validateAssignment K T app state bftTx
  else if msgType =? 2 then validateKeygen 100 K state bftTx
  else if msgType =? 3 then validatePSS 100 state bftTx
  else if msgType =? 4 then validateMapping state senderDetails bftTx
  else if msgType =? 5 then _ ← checkDealer now app bftTx; Passed tt
  else Rejected (Some "Tx type not recognized"%string).

End rules.
