(* ===== verification/BftProps.v ===== *)
(** Lemmas on the rules of the transactions: what each rule may do to the index
    counters and to the votes, the database lookups, and the checks that do not
    depend on the iteration order of maps. *)
From Stdlib Require Import ZArith.
From stdpp Require Import gmap strings sorting.
From S2P Require Import Prelude BigInt Field Curve Pvss Avss Nizkpk Ecdsa Ids Effects Keygen Mapping Dealer PssTypes Bft.

(** Documented behaviour of the serialisation of what the rules store, and of a
    [uint] field. *)
Class BftCodecLaws `{MappingCodecs, BftCodecs} := {
  law_assignment :: CodecLaws KeyAssignmentPublic;
  law_indexes :: CodecLaws (list Z);
  Marshal_assignment_total (a : KeyAssignmentPublic) : exists b, Marshal a = Some b;
  Marshal_indexes_total (l : list Z) : exists b, Marshal l = Some b;
  Unmarshal_broadcast_uint b (m : MappingSummaryBroadcastMessage) :
    Unmarshal b = Some m -> in_uint64 (LastUnassignedIndex (sbTransferSummary m));
}.

(** ** Outcomes *)

Definition passed {A} (m : outcome A) : Prop := exists a, m = Passed a.

Lemma passed_Passed {A} (a : A) : passed (Passed a).
Proof. by eexists. Qed.

Lemma passed_require b e : passed (require b e) <-> b = true.
Proof. unfold passed, require. destruct b; split; intros; naive_solver. Qed.

Lemma passed_bind {A B} (m : outcome A) (f : A -> outcome B) :
  passed (m ≫= f) <-> exists a, m = Passed a /\ passed (f a).
Proof. destruct m; unfold passed; naive_solver. Qed.

Lemma passed_bind_iff {A B C} (m : outcome A) (f : A -> outcome B) (g : A -> outcome C) :
  (forall a, m = Passed a -> passed (f a) <-> passed (g a)) -> passed (m ≫= f) <-> passed (m ≫= g).
Proof. intros H. rewrite !passed_bind. split; intros (a & E & Ha); exists a; split; try done; by apply H. Qed.

Lemma passed_bind_ret {A B} (m : outcome A) (h : A -> B) : passed (m ≫= fun a => Passed (h a)) <-> passed m.
Proof. destruct m; unfold passed; simpl; naive_solver. Qed.

Lemma bind_Passed {A B} (m : outcome A) (f : A -> outcome B) b :
  m ≫= f = Passed b <-> exists a, m = Passed a /\ f a = Passed b.
Proof. destruct m; naive_solver. Qed.

(** Whether a loop passes does not depend on what it accumulates when no step's
    verdict does. *)
Lemma passed_foldOut {A B} (P : A -> Prop) (f : B -> A -> outcome B) l b :
  (forall b a, passed (f b a) <-> P a) -> passed (foldOut f b l) <-> Forall P l.
Proof.
  intros Hf. revert b. induction l as [|a l IH]; intros b; simpl.
  - split; [constructor|intros; apply passed_Passed].
  - rewrite passed_bind, list.Forall_cons, <- (Hf b a). split.
    + intros (b' & E & H). apply IH in H. split; [by eexists|done].
    + intros [[b' E] H]. exists b'. by rewrite IH.
Qed.

(** ** Sorting *)

Lemma insertIndex_perm x l : insertIndex x l ≡ₚ x :: l.
Proof.
  induction l as [|y l IH]; simpl; [done|]. case_match; [done|]. rewrite IH. constructor.
Qed.

Lemma sortIndexes_perm l : sortIndexes l ≡ₚ l.
Proof. induction l as [|x l IH]; simpl; [done|]. by rewrite insertIndex_perm, IH. Qed.

Lemma insertIndex_sorted x l : Sorted Z.le l -> Sorted Z.le (insertIndex x l).
Proof.
  induction 1 as [|y l Hl IH Hy]; simpl; [by repeat constructor|].
  destruct (Z.leb_spec x y); [by repeat constructor|]. constructor; [done|].
  destruct Hy; simpl; [constructor; lia|]. case_match; constructor; lia.
Qed.

Lemma sortIndexes_sorted l : Sorted Z.le (sortIndexes l).
Proof. induction l as [|x l IH]; simpl; [constructor|by apply insertIndex_sorted]. Qed.

(** ** Database keys *)

Lemma Text16_inj x y : Text16 x = Text16 y -> x = y.
Proof. intros E. apply (f_equal SetString16) in E. rewrite !SetString16_Text16 in E. congruence. Qed.

Lemma prefixKeyMapping_inj k k' : prefixKeyMapping k = prefixKeyMapping k' -> k = k'.
Proof. unfold prefixKeyMapping. intros E. by injection E. Qed.

Lemma formVerifierKey_prefix v vid k : formVerifierKey v vid <> prefixKeyMapping k.
Proof. done. Qed.

(** Two identities share a key only if a separator stands in one of them. *)
Lemma formVerifierKey_inj v vid v' vid' :
  Delimiter1 ∉ chars v -> Delimiter1 ∉ chars vid -> Delimiter1 ∉ chars v' -> Delimiter1 ∉ chars vid' ->
  formVerifierKey v vid = formVerifierKey v' vid' -> v = v' /\ vid = vid'.
Proof.
  intros H1 H2 H3 H4 E. unfold formVerifierKey in E.
  apply (inj (String.append verifierToKeyIndexPrefixKey)) in E.
  apply (f_equal (fun s => Split s Delimiter1)) in E. cbv beta in E.
  rewrite !Split_Join in E by first [done|by repeat constructor]. by injection E.
Qed.

(** ** The index counters as a machine of their own *)

(** The last unassigned and the last created index: the least index that is not
    assigned yet, and the least that has no key. *)
Inductive indexStep : Z * Z -> Z * Z -> Prop :=
  | step_keep lui lci : indexStep (lui, lci) (lui, lci)
  | step_assign lui lci : lui < lci -> indexStep (lui, lci) (uint64 (lui + 1), lci)
  | step_drop lui lci : lui < lci -> indexStep (lui, lci) (lci, lci)
  | step_create lui lci : indexStep (lui, lci) (lui, uint64 (lci + 1))
  | step_handover lui lci n : in_uint64 n -> indexStep (lui, lci) (n, Z.max lci n).

Definition indexes (app : App) : Z * Z :=
  (sLastUnassignedIndex (appState app), sLastCreatedIndex (appState app)).

Definition ordered (i : Z * Z) : Prop := 0 <= fst i <= snd i /\ snd i < 2 ^ 64.

Lemma indexStep_ordered i j : indexStep i j -> ordered i -> snd i < 2 ^ 64 - 1 -> ordered j.
Proof.
  destruct 1; unfold ordered, in_uint64 in *; simpl in *; intros;
    rewrite ?uint64_id by (unfold in_uint64; lia); lia.
Qed.

(** ** The freezes only gain votes *)

Definition freezesGrow (a b : App) : Prop := forall id v,
  sMappingProposeFreezes (appState a) !! id = Some v ->
  exists v', sMappingProposeFreezes (appState b) !! id = Some v' /\ (size v <= size v')%nat.

Lemma freezesGrow_refl a b :
  sMappingProposeFreezes (appState a) = sMappingProposeFreezes (appState b) -> freezesGrow a b.
Proof. intros E id v H. rewrite <- E. eauto. Qed.

#[global] Instance freezesGrow_preorder : PreOrder freezesGrow.
Proof.
  split; [by intros a; apply freezesGrow_refl|].
  intros a b c H1 H2 id v Hv. destruct (H1 _ _ Hv) as (v' & Hv' & ?).
  destruct (H2 _ _ Hv') as (v'' & Hv'' & ?). exists v''. split; [done|lia].
Qed.

Lemma anySize_spec {V} n (m : gmap string (gmap string V)) :
  anySize n m = true <-> exists id v, m !! id = Some v /\ n <= Z.of_nat (size v).
Proof.
  unfold anySize. rewrite existsb_exists. split.
  - intros ([id v] & Hi & Hn%Z.leb_le). apply list_elem_of_In, elem_of_map_to_list in Hi. eauto.
  - intros (id & v & Hi & Hn). exists (id, v). rewrite <- list_elem_of_In, elem_of_map_to_list.
    split; [done|by apply Z.leb_le].
Qed.

Lemma anySize_grow n a b :
  freezesGrow a b -> anySize n (sMappingProposeFreezes (appState a)) = true ->
  anySize n (sMappingProposeFreezes (appState b)) = true.
Proof.
  rewrite !anySize_spec. intros H (id & v & Hv & Hn). destruct (H _ _ Hv) as (v' & Hv' & Hl).
  exists id, v'. split; [done|lia].
Qed.

Lemma created_grow {V} (m : gmap string (gmap string V)) id id' v :
  m !! id' = Some v -> created m id !! id' = Some v.
Proof.
  unfold created. intros H. destruct (m !! id) eqn:E; [done|].
  rewrite lookup_insert_ne; [done|congruence].
Qed.

Lemma created_lookup {V} (m : gmap string (gmap string V)) id :
  created m id !! id = Some (votersOf (created m id) id).
Proof.
  unfold votersOf, created. destruct (m !! id) eqn:E; [by rewrite E|by rewrite lookup_insert_eq].
Qed.

(** ** What is saved at a commit is left alone *)

Definition saved (a b : App) : Prop :=
  appInfo b = appInfo a /\ appLaggingState b = appLaggingState a /\
  appDb b !! stateKey = appDb a !! stateKey /\ appDb b !! appInfoKey = appDb a !! appInfoKey.

#[global] Instance saved_preorder : PreOrder saved.
Proof.
  split; [by intros a|]. intros a b c (E1 & E2 & E3 & E4) (F1 & F2 & F3 & F4).
  split_and!; etrans; eassumption.
Qed.

Lemma saved_setState a b s : saved a b -> saved a (setState b s).
Proof. done. Qed.

(** What every rule does: the motive of the lemmas below. *)
Definition okStep (a b : App) : Prop := indexStep (indexes a) (indexes b) /\ freezesGrow a b /\ saved a b.

Lemma okStep_same a b :
  indexes a = indexes b ->
  sMappingProposeFreezes (appState a) = sMappingProposeFreezes (appState b) -> saved a b -> okStep a b.
Proof.
  intros E F S. split_and!; [rewrite <- E; destruct (indexes a); constructor|by apply freezesGrow_refl|done].
Qed.

Lemma okStep_set a s :
  indexes a = indexes (setState a s) ->
  sMappingProposeFreezes (appState a) = sMappingProposeFreezes s -> okStep a (setState a s).
Proof. intros. by apply okStep_same. Qed.

Lemma okStep_refl a : okStep a a.
Proof. by apply okStep_same. Qed.

Section rules.
Context {SO : Secp256k1} {TC : TorusCrypto} {NC : NodeConfig} {SV : Services} {MR : MapRange}.
Context {KC : KeygenCodecs} {MC : MappingCodecs} {BC : BftCodecs} {BL : BftCodecLaws}.

(** ** The database *)

Lemma storeKeyMapping_Ok app i a : exists app',
  storeKeyMapping app i a = Ok app' /\ appState app' = appState app /\ saved app app' /\
  retrieveKeyMapping app' i = Ok a /\
  (forall j, j <> i -> retrieveKeyMapping app' j = retrieveKeyMapping app j) /\
  (forall v vid, retrieveVerifierToKeyIndex app' v vid = retrieveVerifierToKeyIndex app v vid).
Proof.
  destruct (Marshal_assignment_total a) as [b E].
  exists (setDb app (<[prefixKeyMapping (Text16 i) := b]> (appDb app))).
  unfold storeKeyMapping, marshal, retrieveKeyMapping, retrieveVerifierToKeyIndex. rewrite E. simpl.
  split_and!; [done|done|by split_and!; simpl; rewrite ?lookup_insert_ne|..].
  - by rewrite lookup_insert_eq, (Unmarshal_Marshal _ _ E).
  - intros j Hj. rewrite lookup_insert_ne; [done|].
    by intros ->%eq_sym%prefixKeyMapping_inj%Text16_inj.
  - intros v vid. by rewrite lookup_insert_ne.
Qed.

Lemma storeVerifierToKeyIndex_Ok app v vid l : exists app',
  storeVerifierToKeyIndex app v vid l = Ok app' /\ appState app' = appState app /\ saved app app' /\
  retrieveVerifierToKeyIndex app' v vid = Ok l /\
  (forall j, retrieveKeyMapping app' j = retrieveKeyMapping app j) /\
  (forall v' vid', formVerifierKey v' vid' <> formVerifierKey v vid ->
     retrieveVerifierToKeyIndex app' v' vid' = retrieveVerifierToKeyIndex app v' vid').
Proof.
  destruct (Marshal_indexes_total l) as [b E].
  exists (setDb app (<[formVerifierKey v vid := b]> (appDb app))).
  unfold storeVerifierToKeyIndex, marshal, retrieveKeyMapping, retrieveVerifierToKeyIndex. rewrite E. simpl.
  split_and!; [done|done|by split_and!; simpl; rewrite ?lookup_insert_ne|..].
  - by rewrite lookup_insert_eq, (Unmarshal_Marshal _ _ E).
  - intros j. by rewrite lookup_insert_ne.
  - intros v' vid' Hk. by rewrite lookup_insert_ne.
Qed.

Lemma addVerifierIndex_frame i app u :
  appState (addVerifierIndex i app u) = appState app /\ saved app (addVerifierIndex i app u).
Proof.
  unfold addVerifierIndex. destruct u as [v vid]. case_match; [done|].
  match goal with |- context [storeVerifierToKeyIndex ?x ?y ?z ?w] =>
    by destruct (storeVerifierToKeyIndex_Ok x y z w) as (app' & -> & ? & ? & _) end.
Qed.

Lemma foldl_addVerifierIndex_frame i us app :
  appState (foldl (addVerifierIndex i) app us) = appState app /\
  saved app (foldl (addVerifierIndex i) app us).
Proof.
  revert app. induction us as [|u us IH]; intros app; simpl; [done|].
  destruct (IH (addVerifierIndex i app u)) as [-> S], (addVerifierIndex_frame i app u) as [-> S'].
  split; [done|]. by transitivity (addVerifierIndex i app u).
Qed.

(** ** The rules one by one *)

Lemma thaw_frame s id :
  sLastUnassignedIndex (thaw s id) = sLastUnassignedIndex s /\
  sLastCreatedIndex (thaw s id) = sLastCreatedIndex s /\
  sMappingProposeFreezes (thaw s id) = sMappingProposeFreezes s.
Proof. unfold thaw, isThawed. by repeat case_match; simplify_eq. Qed.

Lemma assignmentRule_ok K T app tx : okStep app (fst (fst (assignmentRule K T app tx))).
Proof.
  unfold assignmentRule, assignKey. case_match; [|apply okStep_refl..].
  destruct (Z.leb_spec (sLastCreatedIndex (appState app)) (sLastUnassignedIndex (appState app))) as [|Hlt];
    [apply okStep_refl|].
  destruct (_ =? MaxFailedPubKeyAssigns); [split_and!; [by apply step_drop|by apply freezesGrow_refl|done]|].
  destruct (_ || _); [by apply okStep_set|].
  match goal with |- context [storeKeyMapping ?x ?y ?z] =>
    destruct (storeKeyMapping_Ok x y z) as (app1 & -> & Hs1 & S1 & _) end.
  match goal with |- context [storeVerifierToKeyIndex ?x ?y ?z ?w] =>
    destruct (storeVerifierToKeyIndex_Ok x y z w) as (app2 & -> & Hs2 & S2 & _) end.
  rewrite Hs2, Hs1. split_and!; [by apply step_assign|by apply freezesGrow_refl|].
  apply saved_setState. etrans; [exact S1|exact S2].
Qed.

Lemma keygenRule_ok K app tx : okStep app (fst (fst (keygenRule K app tx))).
Proof.
  unfold keygenRule, proposeRule, pubKeyRule.
  repeat case_match; simplify_eq; simpl; try apply okStep_refl; try by apply okStep_set.
  split_and!; [apply step_create|by apply freezesGrow_refl|done].
Qed.

Lemma pssRule_ok app tx : okStep app (fst (fst (pssRule app tx))).
Proof. unfold pssRule. repeat case_match; simplify_eq; simpl; by apply okStep_set. Qed.

Lemma dealerRule_ok now app tx : okStep app (fst (fst (dealerRule now app tx))).
Proof.
  unfold dealerRule. destruct (checkDealer now app tx) as [[a u]| |]; [|apply okStep_refl..].
  match goal with |- context [storeKeyMapping ?x ?y ?z] =>
    destruct (storeKeyMapping_Ok x y z) as (app1 & -> & Hs1 & S1 & _) end.
  case_match; (apply okStep_same; [unfold indexes; simpl; by rewrite Hs1|simpl; by rewrite Hs1|exact S1]).
Qed.

Lemma freezeRule_ok K T app sender data : okStep app (fst (fst (freezeRule K T app sender data))).
Proof.
  unfold freezeRule. destruct (unmarshal data) as [m| |]; [|apply okStep_refl..].
  case_match; simpl; (split_and!; [apply step_keep| |done]); intros id v Hv; simpl.
  - exists v. split; [by apply created_grow|done].
  - apply (created_grow _ (pfbMappingID m)) in Hv. destruct (decide (id = pfbMappingID m)) as [->|].
    + rewrite lookup_insert_eq. eexists; split; [done|]. rewrite created_lookup in Hv. injection Hv as <-.
      rewrite map_size_insert. case_match; unfold id; simpl; lia.
    + rewrite lookup_insert_ne by done. eauto.
Qed.

Lemma summaryRule_ok K app sender id data : okStep app (fst (fst (summaryRule K app sender id data))).
Proof.
  unfold summaryRule. destruct (unmarshal data) as [m| |] eqn:E; [|apply okStep_refl..].
  assert (in_uint64 (LastUnassignedIndex (sbTransferSummary m))) as Hu.
  { unfold unmarshal in E. case_match eqn:E'; [|done]. injection E as ->.
    by apply (Unmarshal_broadcast_uint data). }
  case_match; [by apply okStep_set|]. case_match; [|by apply okStep_set]. simpl.
  unfold confirmSummary. split_and!.
  - unfold indexes. simpl. rewrite !(proj1 (thaw_frame _ _)), !(proj1 (proj2 (thaw_frame _ _))). simpl.
    set (n := LastUnassignedIndex (sbTransferSummary m)) in *.
    replace (if _ <? n then n else _) with (Z.max (sLastCreatedIndex (appState app)) n)
      by (destruct (Z.ltb_spec (sLastCreatedIndex (appState app)) n); lia).
    by apply step_handover.
  - apply freezesGrow_refl. simpl. by rewrite !(proj2 (proj2 (thaw_frame _ _))).
  - done.
Qed.

Lemma keyRule_ok K app sender id data : okStep app (fst (fst (keyRule K app sender id data))).
Proof.
  unfold keyRule. destruct (unmarshal data) as [m| |]; [|apply okStep_refl..].
  case_match; [by apply okStep_set|]. case_match; [|by apply okStep_set]. simpl.
  unfold confirmKey.
  match goal with |- context [storeKeyMapping ?x ?y ?z] =>
    destruct (storeKeyMapping_Ok x y z) as (app2 & -> & Hs & S & _) end.
  destruct (foldl_addVerifierIndex_frame (mkIndex (kbMappingKey m)) (verifierUsers 0 (kbMappingKey m)) app2)
    as [Es S2].
  apply okStep_same; [|simpl|by apply saved_setState; etrans; [exact S|exact S2]]; unfold indexes; simpl;
    by rewrite ?(proj1 (thaw_frame _ _)), ?(proj1 (proj2 (thaw_frame _ _))), ?(proj2 (proj2 (thaw_frame _ _))),
      !Es, ?Hs.
Qed.

Lemma mappingRule_ok K T app sender tx : okStep app (fst (fst (mappingRule K T app sender tx))).
Proof.
  unfold mappingRule. destruct (unmarshal tx); [|apply okStep_refl..].
  repeat (case_match; [auto using okStep_refl, freezeRule_ok, summaryRule_ok, keyRule_ok|]).
  apply okStep_refl.
Qed.

(** Whatever a transaction does, it is a step of the counters and takes no vote
    for a freeze away. *)
Lemma rules_ok now app tx msgType sender :
  okStep app (fst (fst (ValidateAndUpdateAndTagBFTTx now app tx msgType sender))).
Proof.
  unfold ValidateAndUpdateAndTagBFTTx. destruct thresholds as [[K T]| |]; [|apply okStep_refl..].
  repeat (case_match; [auto using assignmentRule_ok, keygenRule_ok, pssRule_ok, mappingRule_ok, dealerRule_ok|]).
  apply okStep_refl.
Qed.

(** ** The verdict on a proposal does not depend on the order of its proofs *)

Context {ML : MapRangeLaws}.

Lemma proofStep_passed K k acc acc' e : passed (proofStep K k acc e) <-> passed (proofStep K k acc' e).
Proof.
  unfold proofStep. destruct acc, acc', e. rewrite !passed_bind.
  split; intros (n & En & (v & Ev & (u & Eu & _)%passed_bind)%passed_bind);
    (exists n; split; [done|]; rewrite passed_bind; exists v; split; [done|]; rewrite passed_bind;
     exists u; split; [done|apply passed_Passed]).
Qed.

Lemma Forall_zip_seq {A} (P : A -> Prop) (l : list A) n k k' :
  Forall (fun x => P (snd x)) (zip (seq k n) l) <-> Forall (fun x => P (snd x)) (zip (seq k' n) l).
Proof.
  revert k k' l. induction n as [|n IH]; intros k k' [|a l]; try done. simpl.
  by rewrite !list.Forall_cons, (IH (S k) (S k')).
Qed.

(** A loop over numbered elements, each of which is judged by itself. *)
Lemma passed_foldOut_zip {A B} (P : A -> Prop) (f : B -> nat * A -> outcome B) l n k k' b :
  (forall b s a, passed (f b (s, a)) <-> P a) ->
  passed (foldOut f b (zip (seq k n) l)) <-> passed (foldOut f b (zip (seq k' n) l)).
Proof.
  intros Hf. rewrite !(passed_foldOut (fun x => P (snd x))) by (intros ? []; apply Hf).
  apply Forall_zip_seq.
Qed.

Lemma passed_foldOut_range {A B} (P : string * A -> Prop) (f : B -> string * A -> outcome B) m site b :
  (forall b a, passed (f b a) <-> P a) ->
  passed (foldOut f b (mapRange site m)) <-> Forall P (map_to_list m).
Proof. intros Hf. by rewrite (passed_foldOut P f _ _ Hf), mapRange_perm. Qed.

Lemma keygenStep_passed K d acc site e :
  passed (keygenStep K d acc (site, e)) <-> passed (keygenStep K d PointO (0%nat, e)).
Proof.
  unfold keygenStep. destruct e as [k proofs]. destruct (FromKeygenID _ k) as [details [|]]; [done|].
  apply passed_bind_iff. intros u _. rewrite !passed_bind_ret.
  rewrite !(passed_foldOut_range (fun e => passed (proofStep K k (∅, PointO) e)))
    by (intros; apply proofStep_passed). done.
Qed.

Lemma checkPropose_passed K s msg site site' :
  passed (checkPropose site K s msg) <-> passed (checkPropose site' K s msg).
Proof.
  unfold checkPropose. do 3 (apply passed_bind_iff; intros ? _).
  apply (passed_foldOut_zip (fun e => passed (keygenStep K (prDKGID msg) PointO (0%nat, e)))).
  intros. apply keygenStep_passed.
Qed.

Lemma pssStep_passed p id site e u :
  passed (pssStep p id u (site, e)) <-> passed (pssStep p id tt (0%nat, e)).
Proof.
  unfold pssStep. destruct e as [k texts], u. destruct (FromPSSID _ k) as [details [|]]; [done|].
  do 2 (apply passed_bind_iff; intros ? _).
  by rewrite !(passed_foldOut_range (fun e => passed (signedTextStep k tt e))) by (intros []; done).
Qed.

Lemma checkPSSPropose_passed s msg site site' :
  passed (checkPSSPropose site s msg) <-> passed (checkPSSPropose site' s msg).
Proof.
  unfold checkPSSPropose.
  apply passed_bind_iff; intros _ _. apply passed_bind_iff; intros p _.
  do 3 (apply passed_bind_iff; intros _ _). rewrite !passed_bind_ret.
  apply (passed_foldOut_zip (fun e => passed (pssStep p (pprSharingID msg) tt (0%nat, e)))).
  intros. apply pssStep_passed.
Qed.

End rules.
