(* ===== verification/MappingService.v ===== *)
(** The mapping service (src/dkgnode/mapping.go): one node of the protocol of
    Mapping per pair of epochs, whose data source is the application of the old
    chain, and how far the freeze of each pair has come. *)
From Stdlib Require Import ZArith.
From stdpp Require Import gmap strings.
From S2P Require Import Prelude BigInt Field Curve Pvss Ecdsa Ids Effects Dealer Torusdb Library Bft.
From S2P Require Import P2p Ethereum EthereumLibrary Transport KeygenService PssService Mapping.

Definition GetMappingProtocolPrefix (oldEpoch newEpoch : Z) : string :=
  "mapping" +:+ "-" +:+ Itoa oldEpoch +:+ "-" +:+ Itoa newEpoch +:+ "/".

Definition GetMappingID (oldEpoch newEpoch : Z) : MappingID := ToMappingID (mkMappingIDDetails oldEpoch newEpoch).

Record MappingStartData := mkMappingStartData {
  msOldEpoch : Z; msOldEpochN : Z; msOldEpochK : Z; msOldEpochT : Z;
  msNewEpoch : Z; msNewEpochN : Z; msNewEpochK : Z; msNewEpochT : Z;
}.

Record FreezeStateData := mkFreezeStateData { FreezeState : Z; fsLastUnassignedIndex : Z }.

(** A node of the protocol with the prefix of its transport. *)
Record MappingInstance := mkMappingInstance { miNode : MappingNode; miPrefix : string }.

Record MappingService := mkMappingService {
  mpInstances : gmap MappingID MappingInstance;
  mpFreezeState : gmap MappingID FreezeStateData;
}.

Definition NewMappingService : MappingService := mkMappingService ∅ ∅.

Definition MappingInstanceExists (s : MappingService) (mappingID : MappingID) : bool :=
  match mpInstances s !! mappingID with Some _ => true | None => false end.

(** A pair of epochs without an entry has the zero state. *)
Definition FreezeState_Get (s : MappingService) (mappingID : MappingID) : FreezeStateData :=
  default (mkFreezeStateData 0 0) (mpFreezeState s !! mappingID).

Definition FreezeState_Set (s : MappingService) (mappingID : MappingID) (d : FreezeStateData) : MappingService :=
  mkMappingService (mpInstances s) (<[mappingID := d]> (mpFreezeState s)).

Definition setMappingInstance (s : MappingService) (mappingID : MappingID) (i : MappingInstance) : MappingService :=
  mkMappingService (<[mappingID := i]> (mpInstances s)) (mpFreezeState s).

Section service.
Context {SO : Secp256k1} {TC : TorusCrypto} {TS : TorusSign} {EC : EthCrypto} {DC : TorusDBCodecs} {LP : LibP2P}.
Context {NL : NodeListContract} {RR : RegisterRange} {PCD : P2pCodecs} {EA : EthAddress}.
Context {MC : MappingCodecs} {CM : Codec MappingMessage} {BC : BftCodecs} {MR : MapRange}.

(** [DKGMappingDataSource.RetrieveKeyMapping] asks the application. *)
Definition mappingKeyOf (keyDetails : KeyAssignmentPublic) : MappingKey :=
  mkMappingKey (kaIndex keyDetails) (kaPublicKey keyDetails) (kaThreshold keyDetails) (kaVerifiers keyDetails).

Definition mappingDataSource (app : App) : MappingDataSource := {|
  RetrieveKeyMapping i := match retrieveKeyMapping app i with Ok a => Some (mappingKeyOf a) | _ => None end;
|}.

(** ** The transport *)

Definition mappingResult (s : MappingService) (mappingID : MappingID) (i : MappingInstance)
    (r : MappingNode * list Action * status) : MappingService * list Action * status :=
  let '(mn, acts, st) := r in
  (setMappingInstance s mappingID (mkMappingInstance mn (miPrefix i)), acts, st).

(** [Receive] and [ReceiveBroadcast] of the transport of an instance. *)
Definition mappingReceive (s : MappingService) (mappingID : MappingID) (nodeDetails : Node) (m : MappingMessage)
    : MappingService * list Action * status :=
  match mpInstances s !! mappingID with
  | Some i => mappingResult s mappingID i (ProcessMessage (miNode i) nodeDetails m)
  | None => (s, [], Panicked)
  end.

Definition mappingReceiveBroadcast (app : App) (s : MappingService) (mappingID : MappingID) (m : MappingMessage)
    : MappingService * list Action * status :=
  match mpInstances s !! mappingID with
  | Some i => mappingResult s mappingID i (ProcessBroadcastMessage (DS := mappingDataSource app) (miNode i) m)
  | None => (s, [], Panicked)
  end.

(** A stream of an instance that has been made once. *)
Definition mappingStream (n : Net) (s : MappingService) (mappingID : MappingID) (p2pBasicMsg : P2PBasicMsg)
    : MappingService * list Action * status :=
  match streamHandler n p2pBasicMsg with
  | Delivered sender m => mappingReceive s mappingID sender m
  | Dropped => (s, [], Returned)
  | HandlerDied => (s, [], Panicked)
  end.

Definition mappingTransport (n : Net) (i : MappingInstance) (a : Action) : list (effect MappingMessage) :=
  match a with
  | Send dst msg => sentEffects (transportSend n (miPrefix i) "transportMappingMessage" dst msg)
  | SendBroadcast msg => [BroadcastTx msg]
  end.

(** ** The service *)

Inductive mappingRequest :=
  | new_mapping_node (mappingStartData : MappingStartData) (isOldNode isNewNode : bool)
  | mapping_receive_BFT_message (mappingID : MappingID) (m : MappingMessage)
  | mapping_instance_exists (mappingID : MappingID)
  | get_mapping_ID (oldEpoch newEpoch : Z)
  | get_freeze_state (mappingID : MappingID)
  | set_freeze_state (mappingID : MappingID) (freezeState lastUnassignedIndex : Z)
  | propose_freeze (mappingID : MappingID)
  | mapping_summary_frozen (mappingID : MappingID) (m : MappingSummaryMessage)
  | get_mapping_protocol_prefix (oldEpoch newEpoch : Z).

(** The outcome of the protocol is handed back as data by one of the methods. *)
Inductive mappingData :=
  | MapNil
  | MapBool (b : bool)
  | MapString (s : string)
  | MapFreeze (d : FreezeStateData)
  | MapOutcome (st : status).

Record mappingOutcome := mkMappingOutcome {
  moService : MappingService;
  moActions : list Action;
  moData : mappingData;
  moStatus : status;
}.

Definition mapAnswer (s : MappingService) (d : mappingData) : mappingOutcome := mkMappingOutcome s [] d Returned.
Definition mapStop (s : MappingService) (st : status) : mappingOutcome := mkMappingOutcome s [] MapNil st.

Definition newMappingNode (n : Net) (s : MappingService) (d : MappingStartData) (isOldNode isNewNode : bool)
    : mappingOutcome :=
  match awaitNodes n (msOldEpoch d), awaitNodes n (msNewEpoch d), selfNode n with
  | Got oldNodeList, Got newNodeList, Got self =>
      let mn := NewMappingNode self (msOldEpoch d) oldNodeList (msOldEpochT d) (msOldEpochK d)
                  (msNewEpoch d) newNodeList (msNewEpochT d) (msNewEpochK d) (NodeIndex self) isOldNode isNewNode in
      mapAnswer (setMappingInstance s (GetMappingID (msOldEpoch d) (msNewEpoch d))
                   (mkMappingInstance mn (GetMappingProtocolPrefix (msOldEpoch d) (msNewEpoch d)))) MapNil
  | Blocks, _, _ | _, Blocks, _ | _, _, Blocks => mapStop s Waiting
  | _, _, _ => mapStop s Panicked
  end.

(** The node tells itself to vote for the freeze. *)
Definition proposeFreeze (n : Net) (s : MappingService) (mappingID : MappingID) : mappingOutcome :=
  if negb (MappingInstanceExists s mappingID) then
    mapStop s (Errored ("could not find mappingInstance for mappingID " +:+ mappingID))
  else
    match Marshal (mkMappingProposeFreezeMessage mappingID) with
    | None => mapStop s (Errored "could not marshal mapping propose freeze message")
    | Some byt =>
        match selfNode n with
        | Got self =>
            let '(s, acts, st) :=
              mappingReceive s mappingID self (CreateMappingMessage mappingID "mapping_propose_freeze" byt) in
            mkMappingOutcome s acts MapNil st
        | Blocks => mapStop s Waiting
        | _ => mapStop s Panicked
        end
    end.

(** The message is built without a version. *)
Definition summaryFrozen (app : App) (s : MappingService) (mappingID : MappingID) (m : MappingSummaryMessage)
    : mappingOutcome :=
  if negb (MappingInstanceExists s mappingID) then
    mapStop s (Errored ("could not find mappingInstance for mappingID " +:+ mappingID))
  else
    match Marshal m with
    | None => mapStop s (Errored errMarshal)
    | Some byt =>
        let '(s, acts, st) :=
          mappingReceiveBroadcast app s mappingID
            (mkMappingMessage EmptyString mappingID "mapping_summary_frozen" byt) in
        mkMappingOutcome s acts MapNil st
    end.

Definition MappingService_Call (n : Net) (app : App) (s : MappingService) (req : mappingRequest) : mappingOutcome :=
  match req with
  | new_mapping_node d isOldNode isNewNode => newMappingNode n s d isOldNode isNewNode
  | mapping_receive_BFT_message mappingID m =>
      if negb (MappingInstanceExists s mappingID) then
        mapStop s (Errored ("Mapping instance not available " +:+ mappingID))
      else
        let '(s, acts, st) := mappingReceiveBroadcast app s mappingID m in
        mkMappingOutcome s acts (MapOutcome st) Returned
  | mapping_instance_exists mappingID => mapAnswer s (MapBool (MappingInstanceExists s mappingID))
  | get_mapping_ID oldEpoch newEpoch => mapAnswer s (MapString (GetMappingID oldEpoch newEpoch))
  | get_freeze_state mappingID => mapAnswer s (MapFreeze (FreezeState_Get s mappingID))
  | set_freeze_state mappingID freezeState lastUnassignedIndex =>
      mapAnswer (FreezeState_Set s mappingID (mkFreezeStateData freezeState lastUnassignedIndex)) MapNil
  | propose_freeze mappingID => proposeFreeze n s mappingID
  | mapping_summary_frozen mappingID m => summaryFrozen app s mappingID m
  | get_mapping_protocol_prefix oldEpoch newEpoch => mapAnswer s (MapString (GetMappingProtocolPrefix oldEpoch newEpoch))
  end.

End service.
