(* ===== verification/ServiceLibrary.v ===== *)
(** The methods of the service library (src/dkgnode/service_library.go) for the caches, the
    verifiers of user identities, the P2P service and the protocol services, with the
    requests of the first two services (src/dkgnode/cache.go and verifier.go), and the
    theorem that the streams of a protocol reach the one handler that was set for it.

    What routing a request adds (Services) is an argument of the methods that change the
    event bus, and left out elsewhere. *)
From Stdlib Require Import ZArith.
From stdpp Require Import gmap strings.
From S2P Require Import Prelude BigInt Field Curve Pvss Ecdsa Ids Effects EventBus Dealer GoTime Auth Cache P2p Torusdb Library Bft.
From S2P Require Import Ethereum EthereumLibrary Transport Keygen KeygenService PssTypes Pss PssService Mapping MappingService.

(** ** How a method answers *)

(** A service that panics answers with the error its panic is recovered as, when the
    process is still there. *)
Definition panicAnswer {B} (recovered : option string) : answer B :=
  match recovered with Some e => Failed e | None => Died end.

(** A method that returns the error of the response, and then that of the cast. *)
Definition replyQuery {A B} (recovered : option string) (cast : A -> option B) (r : res A) : answer B :=
  match r with
  | Ok d => match cast d with Some b => Got b | None => Failed errCast end
  | Err e => Failed e
  | Panic => panicAnswer recovered
  end.

(** A method that repeats its request, which is answered alike every time, and ends the
    process when it has no answer. *)
Definition replyRetry {A B} (recovered : option string) (cast : A -> option B) (r : res A) : answer B :=
  match replyQuery recovered cast r with
  | Failed _ => Died
  | a => a
  end.

(** A method that ends the process on an error, but only logs a cast that fails. *)
Definition replyFatal {A B} (recovered : option string) (zero : B) (cast : A -> option B) (r : res A) : answer B :=
  match replyQuery recovered Some r with
  | Got d => Got (default zero (cast d))
  | Failed _ => Died
  | Died => Died
  | Blocks => Blocks
  end.

(** A method whose failures are only logged. *)
Definition replyLogged {A B} (recovered : option string) (zero : B) (cast : A -> option B) (r : res A) : answer B :=
  match replyQuery recovered cast r with
  | Failed _ => Got zero
  | a => a
  end.

(** The error alone. *)
Definition replyError {A} (recovered : option string) (r : res A) : answer unit :=
  replyQuery recovered (fun _ => Some tt) r.

(** How a handler of a protocol service ended, as its response; one that does not return
    does not answer. *)
Definition replyStatus {A B} (recovered : option string) (reply : res A -> answer B) (d : A) (st : status) : answer B :=
  match st with
  | Returned => reply (Ok d)
  | Errored e => reply (Err e)
  | Panicked => reply Panic
  | Waiting => Blocks
  end.

(** ** The caches (cache.go) *)

Inductive cacheRequest :=
  | token_commit_exists (verifier tokenCommitment : string)
  | get_token_commit_key (verifier tokenCommitment : string)
  | record_token_commit (verifier tokenCommitment : string) (pubKey : Point)
  | signer_sig_exists (signature : string)
  | record_signer_sig (signature : string)
  | cache_other (method : string).

Inductive cacheData := CacheNil | CacheBool (b : bool) | CachePoint (P : Point).

Definition asCacheBool (d : cacheData) : option bool := match d with CacheBool b => Some b | _ => None end.
Definition asCachePoint (d : cacheData) : option Point := match d with CachePoint P => Some P | _ => None end.

Section cache.
Context {GC : GoCache}.

Definition CacheService_Call (now : Z) (c : CacheService) (req : cacheRequest) : CacheService * res cacheData :=
  match req with
  | token_commit_exists v k => let '(c, b) := tokenCommitExists now c v k in (c, Ok (CacheBool b))
  | get_token_commit_key v k => let '(c, P) := getTokenCommitKey now c v k in (c, Ok (CachePoint P))
  | record_token_commit v k P => (recordTokenCommit now c v k P, Ok CacheNil)
  | signer_sig_exists sig => (c, Ok (CacheBool (signerSigExists now c sig)))
  | record_signer_sig sig =>
      match recordSignerSig now c sig with
      | (c, Some e) => (c, Err e)
      | (c, None) => (c, Ok CacheNil)
      end
  | cache_other method => (c, Err ("cache service method " +:+ method +:+ " not found"))
  end.

Definition cacheAsk {B} (reply : res cacheData -> answer B) (now : Z) (c : CacheService) (req : cacheRequest)
    : CacheService * answer B :=
  let '(c, r) := CacheService_Call now c req in (c, reply r).

Definition Cache_TokenCommitExists (now : Z) (c : CacheService) (verifier tokenCommitment : string) :=
  cacheAsk (replyRetry None asCacheBool) now c (token_commit_exists verifier tokenCommitment).
Definition Cache_GetTokenCommitKey (now : Z) (c : CacheService) (verifier tokenCommitment : string) :=
  cacheAsk (replyRetry None asCachePoint) now c (get_token_commit_key verifier tokenCommitment).
Definition Cache_RecordTokenCommit (now : Z) (c : CacheService) (verifier tokenCommitment : string) (pubKey : Point) :=
  cacheAsk (replyLogged None tt (fun _ => Some tt)) now c (record_token_commit verifier tokenCommitment pubKey).
Definition Cache_SignerSigExists (now : Z) (c : CacheService) (signature : string) :=
  cacheAsk (replyRetry None asCacheBool) now c (signer_sig_exists signature).
Definition Cache_RecordSignerSig (now : Z) (c : CacheService) (signature : string) :=
  cacheAsk (replyLogged None tt (fun _ => Some tt)) now c (record_signer_sig signature).

End cache.

(** ** The verifiers of user identities (verifier.go) *)

Inductive verifierRequest :=
  | verify (rawMessage : list Z)
  | clean_token (verifierIdentifier idtoken : string)
  | list_verifiers
  | verifier_other (method : string).

Inductive verifierData := VerifierResult (valid : bool) (verifierID : string) | VerifierToken (s : string) | VerifierNames (l : list string).

Definition asVerifierResult (d : verifierData) : option (bool * string) :=
  match d with VerifierResult b s => Some (b, s) | _ => None end.
Definition asVerifierToken (d : verifierData) : option string := match d with VerifierToken s => Some s | _ => None end.
Definition asVerifierNames (d : verifierData) : option (list string) := match d with VerifierNames l => Some l | _ => None end.

Section verifier.
Context {AC : AuthCodecs} {MR : MapRange}.

Definition VerifierService_Call (now : Z * Z) (tgv : DefaultGeneralVerifier) (req : verifierRequest) : res verifierData :=
  match req with
  | verify rawMessage => r ← Verify tgv now rawMessage; Ok (VerifierResult r.1 r.2)
  | clean_token verifierIdentifier idtoken => s ← cleanToken tgv verifierIdentifier idtoken; Ok (VerifierToken s)
  | list_verifiers => Ok (VerifierNames (ListVerifiers tgv))
  | verifier_other method => Err ("verifier service method " +:+ method +:+ " not found")
  end.

Definition Verifier_Verify (recovered : option string) (now : Z * Z) (tgv : DefaultGeneralVerifier) (rawMessage : list Z)
    : answer (bool * string) :=
  replyQuery recovered asVerifierResult (VerifierService_Call now tgv (verify rawMessage)).
Definition Verifier_CleanToken (recovered : option string) (now : Z * Z) (tgv : DefaultGeneralVerifier)
    (verifierIdentifier idtoken : string) : answer string :=
  replyQuery recovered asVerifierToken (VerifierService_Call now tgv (clean_token verifierIdentifier idtoken)).
Definition Verifier_ListVerifiers (now : Z * Z) (tgv : DefaultGeneralVerifier) : answer (list string) :=
  replyRetry None asVerifierNames (VerifierService_Call now tgv list_verifiers).

End verifier.

(** ** The P2P service *)

Definition asP2pID (d : p2pData) : option string := match d with P2pID s => Some s | _ => None end.
Definition asP2pMsg (d : p2pData) : option P2PBasicMsg := match d with P2pMsg m => Some m | _ => None end.
Definition asP2pBytes (d : p2pData) : option (list Z) := match d with P2pBytes b => Some b | _ => None end.
Definition asP2pAddress (d : p2pData) : option string := match d with P2pAddress s => Some s | _ => None end.

Record StreamMessage := mkStreamMessage { smProtocol : string; smMessage : P2PBasicMsg }.

Definition forwardTopic (proto : string) : string := "p2p:forward:" +:+ proto.

(** The function [SetStreamHandler] subscribes: what is published without being a message
    of a peer reaches the handler as the zero message. *)
Definition streamCallback {Event R} (asMsg : Event -> option P2PBasicMsg) (proto : string) (handler : StreamMessage -> R)
    (inter : Event) : R :=
  handler (mkStreamMessage proto (default P2PBasicMsgZero (asMsg inter))).

Section p2p.
Context {SO : Secp256k1} {TC : TorusCrypto} {LP : LibP2P} {PN : P2pNode} {PCD : P2pCodecs}.
Context {CP : Codec Point}.

Section requests.
(** The time and the number drawn when the request is served, and a panic's error. *)
Variables (now : Z * Z) (uuid : string) (recovered : option string).

Definition p2pAsk {B} (reply : res p2pData -> answer B) (p : P2PService) (req : p2pRequest)
    : P2PService * list P2pAction * answer B :=
  let '(p, acts, r) := P2PService_Call now uuid p req in (p, acts, reply r).

Definition P2P_ID (p : P2PService) := p2pAsk (replyRetry recovered asP2pID) p p2p_id.
Definition P2P_AuthenticateMessage (p : P2PService) (msg : P2PBasicMsg) :=
  p2pAsk (replyError recovered) p (authenticate_message msg).
Definition P2P_AuthenticateMessageInEpoch (p : P2PService) (msg : P2PBasicMsg) (epoch : Z) :=
  p2pAsk (replyError recovered) p (authenticate_message_in_epoch msg epoch).
Definition P2P_NewP2PMessage (p : P2PService) (messageId : string) (gossip : bool) (payload : list Z) (msgType : string) :=
  p2pAsk (replyFatal recovered P2PBasicMsgZero asP2pMsg) p (new_p2p_message messageId gossip payload msgType).
Definition P2P_SignP2PMessage (p : P2PService) (message : P2PBasicMsg) :=
  p2pAsk (replyQuery recovered asP2pBytes) p (sign_p2p_message message).
Definition P2P_SendP2PMessage (p : P2PService) (id protocol : string) (msg : P2PBasicMsg) :=
  p2pAsk (replyError recovered) p (send_p2p_message id protocol msg).
Definition P2P_ConnectToP2PNode (p : P2PService) (nodeP2PConnection nodePeerID : string) :=
  p2pAsk (replyError recovered) p (connect_to_p2p_node nodeP2PConnection nodePeerID).
Definition P2P_GetHostAddress (p : P2PService) := p2pAsk (replyRetry recovered asP2pAddress) p get_host_address.

(** The service may not be asked: [down] is then the error of the routing. *)
Definition p2pSet (down : option string) (p : P2PService) (req : p2pRequest) : P2PService * option string :=
  match down with
  | Some e => (p, Some e)
  | None =>
      match p2pAsk (replyError recovered) p req with
      | (p, _, Failed e) => (p, Some e)
      | (p, _, _) => (p, None)
      end
  end.

Section bus.
Context {Event : Type}.
Implicit Types bus : EventBus Event.

Definition P2P_SetStreamHandler (down : option string) bus (p : P2PService) (proto : string) (handler : nat)
    : EventBus Event * P2PService * option string :=
  if HasCallback bus (forwardTopic proto) then
    (bus, p, Some ("Cannot call setStreamHandler on proto " +:+ proto +:+ " as it already has a handler"))
  else
    let bus := SubscribeAsync bus (forwardTopic proto) handler false in
    let '(p, e) := p2pSet down p (set_stream_handler proto) in (bus, p, e).

Definition P2P_RemoveStreamHandler (down : option string) bus (p : P2PService) (proto : string)
    : EventBus Event * P2PService * option string :=
  match UnsubscribeAll bus (forwardTopic proto) with
  | Ok bus => let '(p, e) := p2pSet down p (remove_stream_handler proto) in (bus, p, e)
  | Err e => (bus, p, Some e)
  | Panic => (bus, p, None)
  end.

End bus.
End requests.
End p2p.

(** ** The protocol services *)

Definition asPssBool (d : pssData) : option bool := match d with PssBool b => Some b | _ => None end.
Definition asPssPrefix (d : pssData) : option string := match d with PssPrefix s => Some s | _ => None end.
Definition asPssInt (d : pssData) : option Z := match d with PssInt i => Some i | _ => None end.
Definition asMapBool (d : mappingData) : option bool := match d with MapBool b => Some b | _ => None end.
Definition asMapString (d : mappingData) : option string := match d with MapString s => Some s | _ => None end.
Definition asMapFreeze (d : mappingData) : option FreezeStateData := match d with MapFreeze d => Some d | _ => None end.

Section protocols.
Context {SO : Secp256k1} {TC : TorusCrypto} {TS : TorusSign} {EC : EthCrypto} {DC : TorusDBCodecs} {LP : LibP2P}.
Context {NL : NodeListContract} {RR : RegisterRange} {PCD : P2pCodecs} {EA : EthAddress} {MR : MapRange}.
Context {KC : KeygenCodecs} {CK : Codec KeygenMessage} {PC : PSSCodecs} {CM : Codec PSSMessage}.
Context {MC : MappingCodecs} {CMM : Codec MappingMessage} {BC : BftCodecs}.
Variables (recovered : option string) (n : Net).

(** A method that returns the error of the response. *)
Definition statusAnswer (st : status) : answer unit := replyStatus recovered (replyError (A := unit) recovered) tt st.

Definition keygenAnswer (r : KeygennofsmService * Net * list Keygen.Action * status)
    : KeygennofsmService * Net * list Keygen.Action * answer unit :=
  let '(s, n, acts, st) := r in (s, n, acts, statusAnswer st).

Definition Keygennofsm_ReceiveMessage (s : KeygennofsmService) (keygenMessage : KeygenMessage) :=
  keygenAnswer (receive_message n s keygenMessage).
Definition Keygennofsm_ReceiveBFTMessage (s : KeygennofsmService) (keygenMessage : KeygenMessage) :=
  keygenAnswer (receive_BFT_message n s keygenMessage).

(** What a method leaves and how it answers. *)
Definition pssAsk {B} (staggerDelay : Z) (reply : res pssData -> answer B) (s : PSSService) (req : pssRequest)
    : pssOutcome * answer B :=
  let o := PSSService_Call n staggerDelay s req in (o, replyStatus recovered reply (poData o) (poStatus o)).

Definition PSS_InstanceExists (s : PSSService) (prefix : string) :=
  pssAsk 0 (replyRetry recovered asPssBool) s (PSS_instance_exists prefix).
Definition PSS_GetPSSProtocolPrefix (s : PSSService) (oldEpoch newEpoch : Z) :=
  pssAsk 0 (replyFatal recovered EmptyString asPssPrefix) s (get_PSS_protocol_prefix oldEpoch newEpoch).
Definition PSS_ReceiveBFTMessage (s : PSSService) (prefix : string) (m : PSSMessage) :=
  pssAsk 0 (replyError recovered) s (PSS_receive_BFT_message prefix m).
Definition PSS_GetNewNodesN (s : PSSService) (prefix : string) :=
  pssAsk 0 (replyRetry recovered asPssInt) s (get_new_nodes_n prefix).
Definition PSS_GetNewNodesK (s : PSSService) (prefix : string) :=
  pssAsk 0 (replyRetry recovered asPssInt) s (get_new_nodes_k prefix).
Definition PSS_GetNewNodesT (s : PSSService) (prefix : string) :=
  pssAsk 0 (replyRetry recovered asPssInt) s (get_new_nodes_t prefix).
Definition PSS_GetOldNodesN (s : PSSService) (prefix : string) :=
  pssAsk 0 (replyRetry recovered asPssInt) s (get_old_nodes_n prefix).
Definition PSS_GetOldNodesK (s : PSSService) (prefix : string) :=
  pssAsk 0 (replyRetry recovered asPssInt) s (get_old_nodes_k prefix).
(** Here a cast that fails is not repeated, and leaves the zero. *)
Definition PSS_GetOldNodesT (s : PSSService) (prefix : string) :=
  pssAsk 0 (replyFatal recovered 0 asPssInt) s (get_old_nodes_t prefix).
Definition PSS_NewPSSNode (staggerDelay : Z) (s : PSSService) (d : PSSStartData) (isDealer isPlayer : bool) :=
  pssAsk staggerDelay (replyError recovered) s (new_PSS_node d isDealer isPlayer).
Definition PSS_SendPSSMessageToNode (s : PSSService) (prefix : string) (nodeDetails : Node) (m : PSSMessage) :=
  pssAsk 0 (replyError recovered) s (send_PSS_message_to_node prefix nodeDetails m).

(** The refresh service has no request for its end index. *)
Definition PSS_GetEndIndex : answer Z :=
  replyFatal (A := pssData) recovered 0 asPssInt (Err "PSS service method get_end_index not found").

Variable app : App.

Definition mapAsk {B} (reply : res mappingData -> answer B) (s : MappingService) (req : mappingRequest)
    : mappingOutcome * answer B :=
  let o := MappingService_Call n app s req in (o, replyStatus recovered reply (moData o) (moStatus o)).

Definition Mapping_NewMappingNode (s : MappingService) (d : MappingStartData) (isOldNode isNewNode : bool) :=
  mapAsk (replyError recovered) s (new_mapping_node d isOldNode isNewNode).
(** How the protocol ended is in the data, which is not looked at. *)
Definition Mapping_ReceiveBFTMessage (s : MappingService) (mappingID : MappingID) (m : MappingMessage) :=
  mapAsk (replyError recovered) s (mapping_receive_BFT_message mappingID m).
Definition Mapping_GetMappingID (s : MappingService) (oldEpoch newEpoch : Z) :=
  mapAsk (replyRetry recovered asMapString) s (get_mapping_ID oldEpoch newEpoch).
Definition Mapping_InstanceExists (s : MappingService) (mappingID : MappingID) :=
  mapAsk (replyRetry recovered asMapBool) s (mapping_instance_exists mappingID).
Definition Mapping_GetFreezeState (s : MappingService) (mappingID : MappingID) :=
  mapAsk (replyLogged recovered (mkFreezeStateData 0 0) asMapFreeze) s (get_freeze_state mappingID).
Definition Mapping_SetFreezeState (s : MappingService) (mappingID : MappingID) (freezeState lastUnassignedIndex : Z) :=
  mapAsk (replyLogged recovered tt (fun _ => Some tt)) s (set_freeze_state mappingID freezeState lastUnassignedIndex).
Definition Mapping_ProposeFreeze (s : MappingService) (mappingID : MappingID) :=
  mapAsk (replyError recovered) s (propose_freeze mappingID).
Definition Mapping_MappingSummaryFrozen (s : MappingService) (mappingID : MappingID) (m : MappingSummaryMessage) :=
  mapAsk (replyError recovered) s (mapping_summary_frozen mappingID m).
Definition Mapping_GetMappingProtocolPrefix (s : MappingService) (oldEpoch newEpoch : Z) :=
  mapAsk (replyRetry recovered asMapString) s (get_mapping_protocol_prefix oldEpoch newEpoch).

(** ** What the methods promise *)

(** Asking for the bounds of an unknown instance ends the process; a known one gives
    them and nothing else happens. *)
Lemma nodes_known s prefix i : psInstances s !! prefix = Some i ->
  (PSS_GetNewNodesN s prefix).2 = Got (Pss.netN (pnNewNodes (piNode i))) /\
  (PSS_GetNewNodesK s prefix).2 = Got (Pss.netK (pnNewNodes (piNode i))) /\
  (PSS_GetNewNodesT s prefix).2 = Got (Pss.netT (pnNewNodes (piNode i))) /\
  (PSS_GetOldNodesN s prefix).2 = Got (Pss.netN (pnOldNodes (piNode i))) /\
  (PSS_GetOldNodesK s prefix).2 = Got (Pss.netK (pnOldNodes (piNode i))) /\
  (PSS_GetOldNodesT s prefix).2 = Got (Pss.netT (pnOldNodes (piNode i))).
Proof.
  intros E.
  unfold PSS_GetNewNodesN, PSS_GetNewNodesK, PSS_GetNewNodesT, PSS_GetOldNodesN, PSS_GetOldNodesK, PSS_GetOldNodesT.
  unfold pssAsk, PSSService_Call, nodesField. by rewrite E.
Qed.

Lemma nodes_unknown s prefix : psInstances s !! prefix = None ->
  (PSS_GetNewNodesN s prefix).2 = Died /\ (PSS_GetOldNodesT s prefix).2 = Died.
Proof.
  intros E. unfold PSS_GetNewNodesN, PSS_GetOldNodesT, pssAsk, PSSService_Call, nodesField. by rewrite E.
Qed.

Lemma end_index_dies : PSS_GetEndIndex = Died.
Proof. done. Qed.

(** What was set for a pair of epochs is read back, and the other pairs are not
    touched. *)
Lemma freeze_state_kept s mappingID i last mappingID' :
  (Mapping_GetFreezeState (moService (Mapping_SetFreezeState s mappingID i last).1) mappingID').2 =
  if decide (mappingID = mappingID') then Got (mkFreezeStateData i last) else (Mapping_GetFreezeState s mappingID').2.
Proof.
  unfold Mapping_GetFreezeState, Mapping_SetFreezeState, mapAsk, MappingService_Call. simpl. unfold FreezeState_Get.
  simpl. destruct (decide _) as [->|H]; [by rewrite lookup_insert_eq|by rewrite lookup_insert_ne].
Qed.

End protocols.

(** ** Streams and their handlers *)

Section streams.
Context {SO : Secp256k1} {TC : TorusCrypto} {LP : LibP2P} {PCD : P2pCodecs} {CP : Codec Point}.
Context {Event : Type}.
Implicit Types bus : EventBus Event.

Lemma forwardTopic_inj proto proto' : forwardTopic proto = forwardTopic proto' -> proto = proto'.
Proof. apply (inj (String.append "p2p:forward:")). Qed.

Lemma unsubscribeLoop_frame topic topic' : topic <> topic' -> forall fuel bus i,
  handlersOf (unsubscribeLoop fuel bus topic i) topic' = handlersOf bus topic'.
Proof.
  intros Hne. induction fuel as [|fuel IH]; intros bus i; [done|]. simpl. destruct (Nat.ltb _ _); [|done].
  by rewrite IH, handlersOf_removeHandler, decide_False.
Qed.

(** The only handler of a topic is taken out, and no other topic changes. *)
Lemma UnsubscribeAll_single bus topic h : handlersOf bus topic = [h] ->
  exists bus', UnsubscribeAll bus topic = Ok bus' /\
    forall topic', handlersOf bus' topic' = if decide (topic = topic') then [] else handlersOf bus topic'.
Proof.
  intros E. assert (HasCallback bus topic = true) as Hc by (apply HasCallback_spec; by rewrite E).
  destruct (UnsubscribeAll bus topic) as [bus'|e|] eqn:Eu; unfold UnsubscribeAll in Eu; rewrite Hc in Eu; try done.
  exists bus'. split; [done|]. intros topic'. destruct (decide (topic = topic')) as [<-|Hne].
  - rewrite (UnsubscribeAll_spec bus topic); [by rewrite E|]. unfold UnsubscribeAll. by rewrite Hc.
  - injection Eu as <-. by apply unsubscribeLoop_frame.
Qed.

Lemma UnsubscribeAll_none bus topic : handlersOf bus topic = [] -> UnsubscribeAll bus topic = Err (noTopic topic).
Proof.
  intros E. unfold UnsubscribeAll. destruct (HasCallback bus topic) eqn:Hc; [|done].
  apply HasCallback_spec in Hc. done.
Qed.

(** The bus and the P2P service of a node, with the handler that was last set for each
    protocol and not removed since. *)
Record Streams := mkStreams { stBus : EventBus Event; stP2P : P2PService; stOwners : gmap string nat }.

(** While the P2P service answers its requests. *)
Inductive streamsStep (s : Streams) : Streams -> Prop :=
  | streams_set PN now uuid recovered proto handler bus p e :
      P2P_SetStreamHandler (PN := PN) now uuid recovered None (stBus s) (stP2P s) proto handler = (bus, p, e) ->
      streamsStep s (mkStreams bus p (match e with None => <[proto := handler]> (stOwners s) | Some _ => stOwners s end))
  | streams_remove PN now uuid recovered proto bus p e :
      P2P_RemoveStreamHandler (PN := PN) now uuid recovered None (stBus s) (stP2P s) proto = (bus, p, e) ->
      streamsStep s (mkStreams bus p (match e with None => delete proto (stOwners s) | Some _ => stOwners s end))
  (** A message is published, by the P2P service or by another. *)
  | streams_publish topic ev :
      streamsStep s (mkStreams (EventBus.Publish (stBus s) topic ev).1 (stP2P s) (stOwners s))
  | streams_response buf :
      streamsStep s (mkStreams (stBus s) (onPingResponse (stP2P s) buf) (stOwners s))
  | streams_request PN now uuid req :
      (forall proto, req <> set_stream_handler proto /\ req <> remove_stream_handler proto) ->
      streamsStep s (mkStreams (stBus s) (P2PService_Call (PN := PN) now uuid (stP2P s) req).1.1 (stOwners s))
  (** The bus is used for other topics. *)
  | streams_bus bus :
      (forall proto, handlersOf bus (forwardTopic proto) = handlersOf (stBus s) (forwardTopic proto)) ->
      streamsStep s (mkStreams bus (stP2P s) (stOwners s)).

Definition streamsStart (s : Streams) : Prop :=
  (forall proto, handlersOf (stBus s) (forwardTopic proto) = []) /\ p2pHandlers (stP2P s) = ∅ /\ stOwners s = ∅.

Inductive streamed : Streams -> Prop :=
  | streamed_start s : streamsStart s -> streamed s
  | streamed_step s s' : streamed s -> streamsStep s s' -> streamed s'.

Definition handlerOf (fn : nat) : eventHandler := mkEventHandler fn false true false.

(** The bus and the P2P service are in step. *)
Definition inStep (s : Streams) : Prop := forall proto,
  handlersOf (stBus s) (forwardTopic proto) = option_list (handlerOf <$> stOwners s !! proto) /\
  (proto ∈ p2pHandlers (stP2P s) <-> is_Some (stOwners s !! proto)).

Lemma request_handlers PN now uuid (p : P2PService) req :
  (forall proto, req <> set_stream_handler proto /\ req <> remove_stream_handler proto) ->
  p2pHandlers (P2PService_Call (PN := PN) now uuid p req).1.1 = p2pHandlers p.
Proof.
  intros Hr. destruct req; simpl; try done.
  - by destruct (Hr proto) as [[] _].
  - by destruct (Hr proto) as [_ []].
  - by destruct (sendP2PMessage id protocol msg).
  - unfold ConnectToP2PNode. destruct (_ && _); [|done]. destruct (NewMultiaddr _); [|done..].
    unfold Ping. destruct (Marshal _); [|done]. destruct (signedMessage _ _ _ _ _); [|done..].
    destruct (sendP2PMessage _ _ _) as [acts [e|]]; done.
Qed.

Lemma response_handlers (p : P2PService) buf : p2pHandlers (onPingResponse p buf) = p2pHandlers p.
Proof.
  unfold onPingResponse. destruct (_ : res P2PBasicMsg) as [d|e|]; [|done..]. by destruct (p2pRequests p !! bmId d).
Qed.

Lemma Set_free PN now uuid recovered s proto handler : inStep s -> stOwners s !! proto = None ->
  P2P_SetStreamHandler (PN := PN) now uuid recovered None (stBus s) (stP2P s) proto handler =
  (SubscribeAsync (stBus s) (forwardTopic proto) handler false, ForwardP2PToEventBus (stP2P s) proto, None).
Proof.
  intros Hs E. destruct (Hs proto) as [Hb _]. rewrite E in Hb. unfold P2P_SetStreamHandler.
  destruct (HasCallback _ _) eqn:Hc; [by apply HasCallback_spec in Hc|done].
Qed.

Lemma Set_taken PN now uuid recovered s proto handler fn : inStep s -> stOwners s !! proto = Some fn ->
  P2P_SetStreamHandler (PN := PN) now uuid recovered None (stBus s) (stP2P s) proto handler =
  (stBus s, stP2P s, Some ("Cannot call setStreamHandler on proto " +:+ proto +:+ " as it already has a handler")).
Proof.
  intros Hs E. destruct (Hs proto) as [Hb _]. rewrite E in Hb. unfold P2P_SetStreamHandler.
  destruct (HasCallback _ _) eqn:Hc; [done|]. apply not_true_iff_false in Hc. rewrite HasCallback_spec in Hc.
  destruct Hc. by rewrite Hb.
Qed.

Lemma Remove_free PN now uuid recovered s proto : inStep s -> stOwners s !! proto = None ->
  P2P_RemoveStreamHandler (PN := PN) now uuid recovered None (stBus s) (stP2P s) proto =
  (stBus s, stP2P s, Some (noTopic (forwardTopic proto))).
Proof.
  intros Hs E. destruct (Hs proto) as [Hb _]. rewrite E in Hb. unfold P2P_RemoveStreamHandler.
  by rewrite (UnsubscribeAll_none _ _ Hb).
Qed.

Lemma Remove_taken PN now uuid recovered s proto fn : inStep s -> stOwners s !! proto = Some fn ->
  exists bus, P2P_RemoveStreamHandler (PN := PN) now uuid recovered None (stBus s) (stP2P s) proto =
    (bus, StopForwardP2PToEventBus (stP2P s) proto, None) /\
  forall topic', handlersOf bus topic' = if decide (forwardTopic proto = topic') then [] else handlersOf (stBus s) topic'.
Proof.
  intros Hs E. destruct (Hs proto) as [Hb _]. rewrite E in Hb.
  destruct (UnsubscribeAll_single _ _ _ Hb) as (bus & Eu & Hbus). exists bus. split; [|done].
  unfold P2P_RemoveStreamHandler. by rewrite Eu.
Qed.

Lemma inStep_frame s bus p : inStep s ->
  (forall proto, handlersOf bus (forwardTopic proto) = handlersOf (stBus s) (forwardTopic proto)) ->
  p2pHandlers p = p2pHandlers (stP2P s) -> inStep (mkStreams bus p (stOwners s)).
Proof. intros Hs Hb Hp proto. simpl. rewrite Hb, Hp. apply Hs. Qed.

Lemma inStep_publish s topic ev : inStep s -> forall proto,
  handlersOf (EventBus.Publish (stBus s) topic ev).1 (forwardTopic proto) = handlersOf (stBus s) (forwardTopic proto).
Proof.
  intros Hs proto. destruct (decide (forwardTopic proto = topic)) as [<-|Hne].
  - rewrite Publish_persistent; [done|]. rewrite (proj1 (Hs proto)).
    destruct (stOwners s !! proto); simpl; by repeat constructor.
  - by apply Publish_frame.
Qed.

Lemma inStep_preserved s s' : inStep s -> streamsStep s s' -> inStep s'.
Proof.
  intros Hs [PN now uuid rec proto fn bus p e E|PN now uuid rec proto bus p e E|topic ev|buf|PN now uuid req Hr|bus Hb].
  - destruct (stOwners s !! proto) as [fn'|] eqn:Eo.
    + rewrite (Set_taken _ _ _ _ _ _ _ fn') in E by done. injection E as <- <- <-. exact Hs.
    + rewrite Set_free in E by done. injection E as <- <- <-. intros proto'. simpl.
      unfold SubscribeAsync. rewrite handlersOf_doSubscribe. destruct (Hs proto') as [Hb Hp].
      destruct (decide (proto = proto')) as [<-|Hne].
      * rewrite Hb, Eo, lookup_insert_eq, decide_True by done. split; [done|]. split; [by eexists|set_solver].
      * rewrite lookup_insert_ne by done. rewrite decide_False by (by intros H%forwardTopic_inj).
        rewrite app_nil_r, Hb. split; [done|]. rewrite <- Hp. set_solver.
  - destruct (stOwners s !! proto) as [fn'|] eqn:Eo.
    + destruct (Remove_taken PN now uuid rec s proto fn' Hs Eo) as (bus' & E' & Hb).
      rewrite E' in E. injection E as <- <- <-. intros proto'. simpl. rewrite Hb. destruct (Hs proto') as [Hb' Hp].
      destruct (decide (proto = proto')) as [<-|Hne].
      * rewrite decide_True, lookup_delete_eq by done. split; [done|]. split; [set_solver|by intros []].
      * rewrite decide_False by (by intros H%forwardTopic_inj). rewrite lookup_delete_ne by done.
        split; [done|]. rewrite <- Hp. set_solver.
    + rewrite Remove_free in E by done. injection E as <- <- <-. exact Hs.
  - apply inStep_frame; [done| |done]. by apply inStep_publish.
  - apply inStep_frame; [done..|]. apply response_handlers.
  - apply inStep_frame; [done..|]. by apply request_handlers.
  - by apply inStep_frame.
Qed.

Lemma streamed_inStep s : streamed s -> inStep s.
Proof.
  induction 1 as [s (Hb & Hp & Ho)|s s' _ IH Hstep]; [|by eapply inStep_preserved].
  intros proto. rewrite Hb, Hp, Ho, lookup_empty. split; [done|]. split; [set_solver|by intros []].
Qed.

(** However the handlers of the protocols have been set and removed, a stream of a
    protocol is read when a handler is set for the protocol and only then; a message
    published for it is delivered once, to the handler that was set last, which stays; and
    setting a handler succeeds when there is none, removing one when there is one. *)
Theorem stream_reaches_owner s : streamed s -> forall proto,
  (forall PN buf, incomingStream (PN := PN) (stP2P s) proto buf =
     match stOwners s !! proto with Some _ => forwardStream (PN := PN) proto buf | None => [] end) /\
  (forall ev, EventBus.Publish (stBus s) (forwardTopic proto) ev =
     (stBus s, match stOwners s !! proto with Some fn => [(handlerOf fn, ev)] | None => [] end)) /\
  (forall PN now uuid recovered handler,
     (P2P_SetStreamHandler (PN := PN) now uuid recovered None (stBus s) (stP2P s) proto handler).2 = None <->
     stOwners s !! proto = None) /\
  (forall PN now uuid recovered,
     (P2P_RemoveStreamHandler (PN := PN) now uuid recovered None (stBus s) (stP2P s) proto).2 = None <->
     is_Some (stOwners s !! proto)).
Proof.
  intros Hs%streamed_inStep proto. destruct (Hs proto) as [Hb Hp]. split_and!.
  - intros PN buf. unfold incomingStream. destruct (stOwners s !! proto) as [fn|].
    + rewrite decide_True by (by apply Hp). done.
    + rewrite decide_False; [done|]. by intros [? ?]%Hp.
  - intros ev. rewrite (surjective_pairing (EventBus.Publish _ _ _)), Publish_deliveries, Hb.
    rewrite Publish_persistent by (rewrite Hb; destruct (stOwners s !! proto); simpl; by repeat constructor).
    by destruct (stOwners s !! proto).
  - intros PN now uuid rec handler. destruct (stOwners s !! proto) as [fn|] eqn:E.
    + by rewrite (Set_taken _ _ _ _ _ _ _ fn).
    + by rewrite Set_free.
  - intros PN now uuid rec. destruct (stOwners s !! proto) as [fn|] eqn:E.
    + destruct (Remove_taken PN now uuid rec s proto fn Hs E) as (bus & -> & _). simpl. split; [by eexists|done].
    + rewrite Remove_free by done. simpl. split; [done|by intros []].
Qed.

(** When the P2P service cannot be asked, the call that failed has still subscribed its
    handler: no stream is forwarded, and the call cannot be made again. *)
Lemma failed_set_leaves_handler PN now uuid recovered bus (p : P2PService) proto fn down :
  handlersOf bus (forwardTopic proto) = [] ->
  exists bus', P2P_SetStreamHandler (PN := PN) now uuid recovered (Some down) bus p proto fn = (bus', p, Some down) /\
  forall PN' now' uuid' recovered' down' fn',
    (P2P_SetStreamHandler (PN := PN') now' uuid' recovered' down' bus' p proto fn').2 =
    Some ("Cannot call setStreamHandler on proto " +:+ proto +:+ " as it already has a handler").
Proof.
  intros Hb. unfold P2P_SetStreamHandler at 1. destruct (HasCallback _ _) eqn:Hc; [by apply HasCallback_spec in Hc|].
  eexists. split; [done|]. intros. unfold P2P_SetStreamHandler.
  destruct (HasCallback (SubscribeAsync _ _ _ _) _) eqn:Hc'; [done|].
  apply not_true_iff_false in Hc'. rewrite HasCallback_spec in Hc'. destruct Hc'.
  unfold SubscribeAsync. rewrite handlersOf_doSubscribe, decide_True, Hb by done. done.
Qed.

End streams.
