(* ===== verification/Handover.v ===== *)
(** The hand-over between epochs (the monitors [outgoingPSSMonitor],
    [incomingPSSMonitor], [triggerMapping] and [triggerPSS] of
    src/dkgnode/ethereum.go): an old node proposes to freeze the assignments,
    waits for the chain to confirm the freeze, and then hands over the table of
    owners and refreshes every key below the frozen index; a new node joins both
    protocols.

    A monitor is a program with a position; one step is one tick of its loop. *)
From Stdlib Require Import ZArith.
From stdpp Require Import gmap strings.
From S2P Require Import Prelude BigInt Field Curve Pvss Ecdsa Ids Effects Dealer Torusdb Library PssTypes Pss Bft P2p.
From S2P Require Import Ethereum EthereumLibrary Transport KeygenService PssService Mapping MappingService.

(** The services of a node that the monitors call. *)
Record hoNode `{LibP2P} := mkHoNode {
  hoNet : Net;
  hoPss : PSSService;
  hoMapping : MappingService;
}.

(** What a monitor leaves: actions of the two protocols and the start of the two
    triggers. *)
Inductive hoAction :=
  | PssActions (prefix : string) (acts : list Pss.Action)
  | MappingActions (mappingID : MappingID) (acts : list Mapping.Action)
  | TriggerMapping (endIndex : Z) (mappingID : MappingID)
  | TriggerPSS (endIndex : Z) (currEpochInfo nextEpochInfo : epochInfo).

(** Where the monitor of the outgoing nodes is. *)
Inductive outgoing :=
  | OutStart
  | OutEpoch (currEpoch : Z)
  | OutNext (currEpoch : Z)
  | OutConnect (currEpoch nextEpoch : Z)
  | OutStatus (currEpoch nextEpoch : Z)
  | OutFreeze (mappingID : MappingID) (currEpochInfo nextEpochInfo : epochInfo)
  | OutSetFreeze (mappingID : MappingID) (currEpochInfo nextEpochInfo : epochInfo)
  | OutAwait (mappingID : MappingID) (currEpochInfo nextEpochInfo : epochInfo)
  | OutDone.

Inductive incoming :=
  | InStart
  | InEpoch (currEpoch : Z)
  | InConnect (currEpoch prevEpoch : Z)
  | InNodes (currEpoch prevEpoch : Z)
  | InDone.

Definition setEth `{LibP2P} (n : Net) (e : EthereumService) : Net :=
  mkNet _ (netDB n) e (netP2P n) (netNow n) (netFails n).
Definition hoSetEth `{LibP2P} (h : hoNode) (e : EthereumService) : hoNode :=
  mkHoNode _ (setEth (hoNet h) e) (hoPss h) (hoMapping h).
Definition hoSetPss `{LibP2P} (h : hoNode) (s : PSSService) : hoNode := mkHoNode _ (hoNet h) s (hoMapping h).
Definition hoSetMapping `{LibP2P} (h : hoNode) (s : MappingService) : hoNode := mkHoNode _ (hoNet h) (hoPss h) s.

(** What the two protocols are started with. *)
Definition pssStartData (old new : epochInfo) : PSSStartData :=
  mkPSSStartData "start" (int64 (eiId old)) (int64 (eiN old)) (int64 (eiK old)) (int64 (eiT old))
    (int64 (eiId new)) (int64 (eiN new)) (int64 (eiK new)) (int64 (eiT new)).

Definition mappingStartData (old new : epochInfo) : MappingStartData :=
  mkMappingStartData (int64 (eiId old)) (int64 (eiN old)) (int64 (eiK old)) (int64 (eiT old))
    (int64 (eiId new)) (int64 (eiN new)) (int64 (eiK new)) (int64 (eiT new)).

(** The parameters of the two epochs as a sharing id carries them. *)
Definition epochParams (old new : epochInfo) : EpochParams :=
  mkEpochParams (int64 (eiId old)) (int64 (eiN old)) (int64 (eiK old)) (int64 (eiT old))
    (int64 (eiId new)) (int64 (eiN new)) (int64 (eiK new)) (int64 (eiT new)).

Section handover.
Context {SO : Secp256k1} {TC : TorusCrypto} {TS : TorusSign} {EC : EthCrypto} {DC : TorusDBCodecs} {LP : LibP2P}.
Context {NL : NodeListContract} {RR : RegisterRange} {PCD : P2pCodecs} {EA : EthAddress}.
Context {PC : PSSCodecs} {CM : Codec PSSMessage} {MC : MappingCodecs} {CMM : Codec MappingMessage}.
Context {BC : BftCodecs} {MR : MapRange}.

(** A call of the Ethereum service. *)
Definition askEth {A} (h : hoNode) (f : TorusLDB -> EthereumService -> EthereumService * answer A)
    : hoNode * answer A :=
  let '(e, a) := f (netDB (hoNet h)) (netEth (hoNet h)) in (hoSetEth h e, a).

(** Both protocols are started; an error is only logged. *)
Definition startProtocols (staggerDelay : Z) (app : App) (h : hoNode) (old new : epochInfo) (isOld isNew : bool)
    : hoNode * status :=
  let po := PSSService_Call (hoNet h) staggerDelay (hoPss h) (new_PSS_node (pssStartData old new) isOld isNew) in
  match poStatus po with
  | Waiting => (h, Waiting)
  | _ =>
      let h := hoSetPss h (poService po) in
      let mo := MappingService_Call (hoNet h) app (hoMapping h) (new_mapping_node (mappingStartData old new) isOld isNew) in
      match moStatus mo with
      | Waiting => (h, Waiting)
      | _ => (hoSetMapping h (moService mo), Returned)
      end
  end.

(** ** Outgoing nodes *)

Definition outgoingStep (staggerDelay : Z) (app : App) (h : hoNode) (pc : outgoing)
    : hoNode * outgoing * list hoAction :=
  match pc with
  | OutStart =>
      match askEth h Ethereum_GetCurrentEpoch with
      | (h, Got currEpoch) => (h, OutEpoch currEpoch, [])
      | (h, _) => (h, OutStart, [])
      end
  | OutEpoch currEpoch =>
      match askEth h (fun t e => Ethereum_GetEpochInfo t e currEpoch true) with
      | (h, Got currEpochInfo) =>
          if int64 (eiNextEpoch currEpochInfo) =? 0 then (h, OutEpoch currEpoch, []) else (h, OutNext currEpoch, [])
      | (h, _) => (h, OutEpoch currEpoch, [])
      end
  | OutNext currEpoch =>
      match askEth h Ethereum_GetNextEpoch with
      | (h, Got nextEpoch) =>
          if nextEpoch =? 0 then (h, OutNext currEpoch, []) else (h, OutConnect currEpoch nextEpoch, [])
      | (h, _) => (h, OutNext currEpoch, [])
      end
  | OutConnect currEpoch nextEpoch =>
      match askEth h (fun t e => Ethereum_AwaitNodesConnected t e nextEpoch) with
      | (h, Got _) => (h, OutStatus currEpoch nextEpoch, [])
      | (h, _) => (h, pc, [])
      end
  | OutStatus currEpoch nextEpoch =>
      match askEth h (fun t e => Ethereum_GetEpochInfo t e currEpoch true) with
      | (h, Got currEpochInfo) =>
          match askEth h (fun t e => Ethereum_GetEpochInfo t e nextEpoch true) with
          | (h, Got nextEpochInfo) =>
              match askEth h (fun t e => Ethereum_GetPSSStatus t e currEpoch nextEpoch) with
              | (h, Got pssStatus) =>
                  if pssStatus =? 1 then
                    match startProtocols staggerDelay app h currEpochInfo nextEpochInfo true false with
                    | (h, Waiting) => (h, pc, [])
                    | (h, _) => (h, OutFreeze (GetMappingID currEpoch nextEpoch) currEpochInfo nextEpochInfo, [])
                    end
                  else (h, pc, [])
              | (h, _) => (h, pc, [])
              end
          | (h, _) => (h, pc, [])
          end
      | (h, _) => (h, pc, [])
      end
  | OutFreeze mappingID currEpochInfo nextEpochInfo =>
      if FreezeState (FreezeState_Get (hoMapping h) mappingID) =? 0 then
        let mo := MappingService_Call (hoNet h) app (hoMapping h) (propose_freeze mappingID) in
        match moStatus mo with
        | Waiting => (h, pc, [])
        | _ => (hoSetMapping h (moService mo), OutSetFreeze mappingID currEpochInfo nextEpochInfo,
                [MappingActions mappingID (moActions mo)])
        end
      else (h, OutAwait mappingID currEpochInfo nextEpochInfo, [])
  | OutSetFreeze mappingID currEpochInfo nextEpochInfo =>
      (hoSetMapping h (FreezeState_Set (hoMapping h) mappingID (mkFreezeStateData 1 0)),
       OutAwait mappingID currEpochInfo nextEpochInfo, [])
  | OutAwait mappingID currEpochInfo nextEpochInfo =>
      let d := FreezeState_Get (hoMapping h) mappingID in
      if FreezeState d =? 2 then
        (hoSetMapping h (FreezeState_Set (hoMapping h) mappingID (mkFreezeStateData 3 (fsLastUnassignedIndex d))),
         OutDone,
         [TriggerMapping (fsLastUnassignedIndex d) mappingID;
          TriggerPSS (fsLastUnassignedIndex d) currEpochInfo nextEpochInfo])
      else (h, pc, [])
  | OutDone => (h, OutDone, [])
  end.

(** ** Incoming nodes *)

Definition incomingStep (staggerDelay : Z) (app : App) (h : hoNode) (pc : incoming) : hoNode * incoming :=
  match pc with
  | InStart =>
      match askEth h Ethereum_GetCurrentEpoch with
      | (h, Got currEpoch) => (h, InEpoch currEpoch)
      | (h, _) => (h, InStart)
      end
  | InEpoch currEpoch =>
      match askEth h (fun t e => Ethereum_GetEpochInfo t e currEpoch true) with
      | (h, Got currEpochInfo) =>
          if int64 (eiPrevEpoch currEpochInfo) =? 0 then (h, pc)
          else (h, InConnect currEpoch (int64 (eiPrevEpoch currEpochInfo)))
      | (h, _) => (h, pc)
      end
  | InConnect currEpoch prevEpoch =>
      match askEth h (fun t e => Ethereum_AwaitNodesConnected t e prevEpoch) with
      | (h, Got _) => (h, InNodes currEpoch prevEpoch)
      | (h, _) => (h, pc)
      end
  | InNodes currEpoch prevEpoch =>
      match askEth h (fun t e => Ethereum_GetEpochInfo t e prevEpoch true) with
      | (h, Got prevEpochInfo) =>
          match askEth h (fun t e => Ethereum_GetEpochInfo t e currEpoch true) with
          | (h, Got currEpochInfo) =>
              match startProtocols staggerDelay app h prevEpochInfo currEpochInfo false true with
              | (h, Waiting) => (h, pc)
              | (h, _) => (h, InDone)
              end
          | (h, _) => (h, pc)
          end
      | (h, _) => (h, pc)
      end
  | InDone => (h, InDone)
  end.

(** ** The triggers *)

(** A summary that does not serialise is sent as nil. *)
Definition triggerMapping (app : App) (h : hoNode) (endIndex : Z) (mappingID : MappingID) : mappingOutcome :=
  MappingService_Call (hoNet h) app (hoMapping h)
    (mapping_receive_BFT_message mappingID
       (CreateMappingMessage mappingID "mapping_summary_frozen"
          (default [] (Marshal (mkMappingSummaryMessage (mkTransferSummary endIndex)))))).

(** The message with which a node deals its share of key [i]. *)
Definition shareMessage (old new : epochInfo) (selfIndex i : Z) : PSSMessage :=
  let sharingID := GetSharingID (GenerateKeygenID i) (epochParams old new) in
  CreatePSSMessage (ToPSSID (mkPSSIDDetails sharingID selfIndex)) "share"
    (default [] (Marshal (mkPSSMsgShare sharingID))).

(** One round of the loop: the node sends itself the message of key [i].  An error
    is only logged. *)
Definition triggerKey (staggerDelay : Z) (h : hoNode) (old new : epochInfo) (i : Z) : hoNode * list hoAction * status :=
  match selfNode (hoNet h) with
  | Got self =>
      let prefix := GetPSSProtocolPrefix (int64 (eiId old)) (int64 (eiId new)) in
      let po := PSSService_Call (hoNet h) staggerDelay (hoPss h)
                  (send_PSS_message_to_node prefix self (shareMessage old new (NodeIndex self) i)) in
      (hoSetPss h (poService po), [PssActions prefix (poActions po)], poStatus po)
  | Blocks => (h, [], Waiting)
  | _ => (h, [], Panicked)
  end.

(** The keys the loop goes through. *)
Definition triggerKeys (endIndex : Z) : list Z := seqZ 0 (int64 endIndex).

(** The loop; the keys left over are those before which it waits or dies. *)
Fixpoint triggerLoop (staggerDelay : Z) (h : hoNode) (old new : epochInfo) (keys : list Z)
    : hoNode * list hoAction * list Z :=
  match keys with
  | [] => (h, [], [])
  | i :: keys' =>
      match triggerKey staggerDelay h old new i with
      | (h, acts, Waiting) | (h, acts, Panicked) => (h, acts, keys)
      | (h, acts, _) =>
          let '(h, acts', rest) := triggerLoop staggerDelay h old new keys' in
          (h, acts ++ acts', rest)
      end
  end.

Definition triggerPSS (staggerDelay : Z) (h : hoNode) (endIndex : Z) (old new : epochInfo)
    : hoNode * list hoAction * list Z :=
  triggerLoop staggerDelay h old new (triggerKeys endIndex).

End handover.
