(* ===== verification/HandoverProps.v ===== *)
(** The hand-over between epochs: what one epoch has stored is what it deals to the
    next, every key below the frozen index is dealt, and nothing is handed over
    before the chain has confirmed the freeze. *)
From Stdlib Require Import ZArith.
From stdpp Require Import gmap strings.
From S2P Require Import Prelude BigInt Field Curve Pvss Avss Ecdsa Ids Effects Keygen Dealer Torusdb TorusdbSpec Library P2p.
From S2P Require Import Ethereum EthereumLibrary Transport KeygenService LibrarySpec Bft Mapping MappingService PssTypes Pss PssService Handover.

(** ** Identifiers of the messages *)

Lemma KeygenID_GetIndex_Generate i : in_int64 i -> KeygenID_GetIndex (GenerateKeygenID i) = Ok i.
Proof.
  intros Hi. unfold KeygenID_GetIndex, GenerateKeygenID. rewrite Split_Join; [|done|].
  - rewrite SetString16_Text16. simpl. by rewrite int64_id.
  - repeat constructor; [vm_compute; set_solver|]. apply Text16_no_sep. by vm_compute.
Qed.

Lemma GenerateKeygenID_no_sep i sep : (N_of_ascii sep <= 31)%N -> sep <> Delimiter3 -> sep ∉ chars (GenerateKeygenID i).
Proof.
  intros Hs Hne. unfold GenerateKeygenID, Join. rewrite chars_unchars.
  change (join_chars _ _) with (chars "SHARING" ++ Delimiter3 :: chars (Text16 i)).
  rewrite elem_of_app, elem_of_cons. intros [H|[H|H]]; [|done|by revert H; apply Text16_no_sep].
  assert (forall c, c ∈ chars "SHARING" -> (31 < N_of_ascii c)%N) as Hc.
  { apply (proj1 (list.Forall_forall _ _)). repeat constructor. }
  apply Hc in H. lia.
Qed.

Section props.
Context {SO : Secp256k1} {TC : TorusCrypto} {TS : TorusSign} {EC : EthCrypto} {DC : TorusDBCodecs} {LP : LibP2P}.
Context {NL : NodeListContract} {RR : RegisterRange} {PCD : P2pCodecs} {EA : EthAddress}.
Context {PC : PSSCodecs} {CM : Codec PSSMessage} {MC : MappingCodecs} {CMM : Codec MappingMessage}.
Context {BC : BftCodecs} {MR : MapRange} {DL : TorusDBLaws}.

(** ** What is stored is what is dealt *)

(** The node list of the old epoch is there, and the node has an index. *)
Definition pssReady (n : Net) (pn : PSSNode) (nodes : list Node) (self : Z) : Prop :=
  (refs ← toRes (snd (Ethereum_GetNodeList (netDB n) (netEth n) (Pss.netEpochID (pnOldNodes pn))));
   getCommonNodesFromNodeRefArray refs) = Ok nodes /\
  snd (Ethereum_GetSelfIndex (netDB n) (netEth n)) = Got self.

Lemma firstColumn_fake c : firstColumn (fakeCommitmentMatrix c) = Ok c.
Proof.
  unfold firstColumn, fakeCommitmentMatrix. generalize (length c - 1)%nat as k. intros k.
  induction c as [|P c IH]; [done|]. rewrite fmap_cons, mapM_cons_res. simpl. by rewrite IH.
Qed.

Lemma pssGetSharing_spec n pn nodes self s i c :
  Rep s (netDB n) -> pssReady n pn nodes self -> 0 <= i -> in_int64 i -> firstColumn (tableMatrix s i) = Ok c ->
  pssGetSharing n pn (GenerateKeygenID i) =
    Ok (Some (mkSharing (GenerateKeygenID i) nodes (Pss.netEpochID (pnOldNodes pn)) self
                (csSi (tableShare s i)) (csSiPrime (tableShare s i)) c)).
Proof.
  intros HR [Hrefs Hself] H0 Hi Hc. unfold pssGetSharing. rewrite KeygenID_GetIndex_Generate by done.
  cbn [mbind res_bind]. rewrite (RetrieveCommitmentMatrix_spec s) by done. cbn [dbOr mbind res_bind].
  rewrite Hc. cbn [mbind res_bind]. rewrite (RetrieveCompletedShare_spec s) by done. cbn [dbOr mbind res_bind].
  destruct (toRes (snd (Ethereum_GetNodeList _ _ _))) as [refs| |]; [|done..].
  cbn [mbind res_bind] in *. rewrite Hrefs, Hself. done.
Qed.

(** The answers of the Ethereum service do not depend on the database here. *)
Lemma pssReady_db n pn nodes self t : pssReady n pn nodes self -> pssReady (setNetDB n t) pn nodes self.
Proof. done. Qed.

Definition storeRefreshRequests (rks : RefreshKeyStorage) : list dbRequest :=
  [store_PSS_commitment_matrix (rkKeyIndex rks) (fakeCommitmentMatrix (rkCommitmentPoly rks));
   store_completed_PSS_share (rkKeyIndex rks) (rkSi rks) (rkSiprime rks)].

Lemma storeRefresh_requests t rks : storeRefresh t rks = requests t (storeRefreshRequests rks).
Proof.
  unfold storeRefresh, Database_StoreCompletedPSSShare, Database_StorePSSCommitmentMatrix. by rewrite !fst_dbStore.
Qed.

(** C28: What one epoch puts out is what it deals to the next: after a key
    generation has put out a key that has not been refreshed, and after every
    refresh, the data source of the following refresh deals for this key exactly
    the share, the blinding share and the commitments that were put out. *)
Theorem stored_key_is_dealt n pn nodes self s :
  Rep s (netDB n) -> pssReady n pn nodes self ->
  (forall ks c0 poly,
     0 <= Keygen.ksKeyIndex ks -> in_int64 (Keygen.ksKeyIndex ks) ->
     Keygen.ksCommitmentPoly ks = c0 :: poly -> PX c0 <> 0 ->
     tPSSMatrices s !! Keygen.ksKeyIndex ks = None -> tPSSShares s !! Keygen.ksKeyIndex ks = None ->
     pssGetSharing (setNetDB n (storeKey (netDB n) ks)) pn (GenerateKeygenID (Keygen.ksKeyIndex ks)) =
       Ok (Some (mkSharing (GenerateKeygenID (Keygen.ksKeyIndex ks)) nodes (Pss.netEpochID (pnOldNodes pn)) self
                   (Keygen.ksSi ks) (Keygen.ksSiprime ks) (Keygen.ksCommitmentPoly ks)))) /\
  (forall rks,
     0 <= rkKeyIndex rks -> in_int64 (rkKeyIndex rks) ->
     pssGetSharing (setNetDB n (storeRefresh (netDB n) rks)) pn (GenerateKeygenID (rkKeyIndex rks)) =
       Ok (Some (mkSharing (GenerateKeygenID (rkKeyIndex rks)) nodes (Pss.netEpochID (pnOldNodes pn)) self
                   (rkSi rks) (rkSiprime rks) (rkCommitmentPoly rks)))).
Proof.
  intros HR Hready. split.
  - intros ks c0 poly H0 Hi Hpoly Hc0 Hm Hs. rewrite storeKey_requests.
    assert (Forall dbOk (storeKeyRequests ks)) as Hok.
    { unfold storeKeyRequests. rewrite Hpoly, (proj2 (Z.eqb_neq _ _) Hc0). by repeat constructor. }
    pose proof (requests_Rep _ _ _ HR Hok) as HR'.
    rewrite (pssGetSharing_spec (setNetDB n (requests (netDB n) (storeKeyRequests ks))) pn nodes self _ _
               (Keygen.ksCommitmentPoly ks) HR' Hready H0 Hi).
    + unfold tablesAfter, storeKeyRequests. rewrite Hpoly, (proj2 (Z.eqb_neq _ _) Hc0).
      destruct s. simpl in *. unfold tableShare. simpl. by rewrite lookup_union_r, lookup_insert_eq.
    + unfold tablesAfter, storeKeyRequests. rewrite Hpoly, (proj2 (Z.eqb_neq _ _) Hc0).
      destruct s. simpl in *. unfold tableMatrix. simpl. rewrite lookup_union_r, lookup_insert_eq by done.
      apply firstColumn_fake.
  - intros rks H0 Hi. rewrite storeRefresh_requests.
    assert (Forall dbOk (storeRefreshRequests rks)) as Hok by (by repeat constructor).
    pose proof (requests_Rep _ _ _ HR Hok) as HR'.
    rewrite (pssGetSharing_spec (setNetDB n (requests (netDB n) (storeRefreshRequests rks))) pn nodes self _ _
               (rkCommitmentPoly rks) HR' Hready H0 Hi).
    + destruct s. simpl. unfold tableShare. simpl.
      by rewrite (lookup_union_Some_l _ _ _ _ (lookup_insert_eq _ _ _)).
    + destruct s. simpl. unfold tableMatrix. simpl.
      rewrite (lookup_union_Some_l _ _ _ _ (lookup_insert_eq _ _ _)). apply firstColumn_fake.
Qed.

(** ** Every key below the frozen index is dealt *)

Lemma triggerKeys_spec endIndex i : in_int64 endIndex -> i ∈ triggerKeys endIndex <-> 0 <= i < endIndex.
Proof. intros He. unfold triggerKeys. rewrite int64_id, elem_of_seqZ by done. lia. Qed.

Lemma triggerKeys_in_int64 endIndex i : in_int64 endIndex -> i ∈ triggerKeys endIndex -> in_int64 i.
Proof. intros He Hi%triggerKeys_spec; [|done]. unfold in_int64 in *. lia. Qed.

Definition shareSharingID (old new : epochInfo) (i : Z) : SharingID := GetSharingID (GenerateKeygenID i) (epochParams old new).
Definition sharePSSID (old new : epochInfo) (self i : Z) : PSSID := ToPSSID (mkPSSIDDetails (shareSharingID old new i) self).

Lemma shareSharingID_key old new i : GetKeygenID (shareSharingID old new i) = GenerateKeygenID i.
Proof.
  unfold shareSharingID. apply GetEpochParams_GetSharingID; simpl; try apply int64_range.
  by apply GenerateKeygenID_no_sep; vm_compute.
Qed.

Lemma sendEach_Ok l : Forall (fun x : Node * res PSSMessage => exists m, snd x = Ok m) l ->
  exists acts, sendEach l = (acts, Returned) /\ forall n m, (n, Ok m) ∈ l -> Send n m ∈ acts.
Proof.
  induction 1 as [|[n r] l [m Hm] _ (acts & E & Hin)]; [by exists []; split; [|intros ??; rewrite elem_of_nil]|].
  simpl in *. subst r. rewrite E. eexists. split; [done|].
  intros n' m'. rewrite !elem_of_cons. intros [[= -> ->]|H]; [by left|by right; apply Hin].
Qed.

(** What the node must be able to write. *)
Definition pssMarshals : Prop :=
  (forall m : PSSMsgShare, exists b, Marshal m = Some b) /\ (forall m : PSSMsgSend, exists b, Marshal m = Some b) /\
  (forall m : PSSMsgRecover, exists b, Marshal m = Some b).

(** The instance of a refresh at an old node: it is that of the node itself, whose id has
    the eight bytes that are logged; it deals, has no middleware and knows its new nodes,
    and has not seen this sharing yet. *)
Record dealerReady (inst : PSSInstance) (self : Node) (id : PSSID) (t : nat) : Prop := {
  dr_self : pnNodeDetails (piNode inst) = self;
  dr_id : long_id self;
  dr_send : piSendMiddleware inst = [];
  dr_receive : piReceiveMiddleware inst = [];
  dr_dealer : pnIsDealer (piNode inst) = true;
  dr_new : pnPSSStore (piNode inst) !! id = None;
  dr_k : netK (pnNewNodes (piNode inst)) = Z.of_nat t;
  dr_t : (0 < t)%nat;
}.

Context {SL : Secp256k1Laws} {CLS : CodecLaws PSSMsgShare} {MRL : MapRangeLaws}.

Local Abbreviation q := GeneratorOrder.

Lemma sendMessage_Ok t sid sh f f' C n :
  pssMarshals -> matrix_ok t f -> matrix_ok t f' -> exists m, sendMessage sid sh f f' C n = Ok m.
Proof.
  intros (_ & Hm & _) Hf Hf'. unfold sendMessage.
  destruct (EvaluateBivarPolyAtX_spec t f (NodeIndex n) Hf) as (a & -> & _).
  destruct (EvaluateBivarPolyAtX_spec t f' (NodeIndex n) Hf') as (a' & -> & _). cbn [mbind res_bind].
  unfold marshal. edestruct Hm as [b ->]. by eexists.
Qed.

Lemma recoverMessage_Ok sid sh : pssMarshals -> exists m, recoverMessage sid sh = Ok m.
Proof. intros (_ & _ & Hm). unfold recoverMessage, marshal. edestruct Hm as [b ->]. by eexists. Qed.

(** The protocol deals what its data source hands out. *)
Lemma processShare_deals (DS : PSSDataSource) (TR : Keygen.Transport) pn msg pss tape t sh :
  pssMarshals -> stPhase (psState pss) <> Ended -> stDealer (psState pss) = true ->
  GetSharing (GetKeygenID (pshSharingID msg)) = Ok (Some sh) ->
  netK (pnNewNodes pn) = Z.of_nat t -> (0 < t)%nat -> 0 <= shSi sh < q -> 0 <= shSiprime sh < q -> tape_ok tape ->
  exists f f' tape' acts,
    processShare pn msg pss tape = ((setPhase (setDealing pss f f' (commit_matrix f f')) Started, tape'), acts, Returned) /\
    matrix_ok t f /\ matrix_ok t f' /\ beval f 0 0 = shSi sh /\ beval f' 0 0 = shSiprime sh /\ tape_ok tape' /\
    forall nid nn, netNodes (pnNewNodes pn) !! nid = Some nn ->
      exists m r, sendMessage (pshSharingID msg) sh f f' (commit_matrix f f') nn = Ok m /\
        recoverMessage (pshSharingID msg) sh = Ok r /\ Send nn m ∈ acts /\ Send nn r ∈ acts.
Proof.
  intros Hmar Hph Hd Hsh Hk Ht Hsi Hsi' Htape. unfold processShare. rewrite decide_False by done.
  rewrite Hd, Hsh. cbn [negb run]. rewrite Hk.
  destruct (GenerateRandomBivariatePolynomial_spec (shSi sh) t tape Ht Hsi Htape) as (f & t1 & -> & Hf & Hf0 & Ht1).
  cbn [run fst snd].
  destruct (GenerateRandomBivariatePolynomial_spec (shSiprime sh) t t1 Ht Hsi' Ht1) as (f' & t2 & -> & Hf' & Hf0' & Ht2).
  cbn [run fst snd]. rewrite (GetCommitmentMatrix_spec t) by done. cbn [run].
  set (l := concat _).
  assert (Forall (fun x : Node * res PSSMessage => exists m, snd x = Ok m) l) as Hl.
  { apply Forall_concat, Forall_fmap, Forall_true. intros n. simpl.
    repeat constructor; [by apply (sendMessage_Ok t)|by apply recoverMessage_Ok]. }
  destruct (sendEach_Ok l Hl) as (acts & E & Hin). rewrite E.
  exists f, f', t2, acts. split_and!; [done..|]. intros nid nn Hnn.
  destruct (sendMessage_Ok t (pshSharingID msg) sh f f' (commit_matrix f f') nn Hmar Hf Hf') as [m Hm].
  destruct (recoverMessage_Ok (pshSharingID msg) sh Hmar) as [r Hr].
  assert (nn ∈ rangeNewNodes 0 pn) as Hrange.
  { unfold rangeNewNodes. apply list_elem_of_fmap. exists (nid, nn). split; [done|]. by rewrite mapRange_perm, elem_of_map_to_list. }
  exists m, r. split_and!; [done..| |]; apply Hin; unfold l; apply list_elem_of_In, in_concat.
  all: eexists; split; [apply list_elem_of_In, list_elem_of_fmap; by exists nn|].
  all: rewrite Hm, Hr, <-list_elem_of_In, !elem_of_cons; naive_solver.
Qed.

Lemma selfNode_answers n self : selfNode n = Got self ->
  snd (Ethereum_GetSelfPublicKey (netDB n) (netEth n)) = Got (PubKey self) /\
  snd (Ethereum_GetSelfIndex (netDB n) (netEth n)) = Got (NodeIndex self).
Proof.
  unfold selfNode. destruct (snd (Ethereum_GetSelfPublicKey _ _)), (snd (Ethereum_GetSelfIndex _ _)); by intros [= <-].
Qed.

(** A node that sends to itself does not use the wire. *)
Lemma transportSend_self {M} `{Codec M} n prefix msgType self ref (m : M) :
  selfNode n = Got self -> nodeByAddress n (PubKey self) = Got ref ->
  transportSend n prefix msgType self m = ToSelf self m.
Proof.
  intros [Hpk _]%selfNode_answers Href. unfold transportSend. rewrite Href, Hpk. cbn [toRes mbind res_bind].
  by rewrite (proj2 (samePoint_true _ _) eq_refl).
Qed.

Lemma pssLogIDs_Ok pn sender : long_id (pnNodeDetails pn) -> long_id sender -> logIDs pn sender = Ok tt.
Proof.
  intros (s & E)%shortID_Ok (s' & E')%shortID_Ok. unfold logIDs, PssTypes.ToNodeDetailsID. by rewrite E; simpl; rewrite E'.
Qed.

(** C27: Every key below the frozen index is handed over with the share that was
    put out for it: for each such key the node sends itself a message of its own,
    on which its instance of the refresh ([dealerReady]: a dealer that is the node
    itself, with an id of eight bytes or more, and has no refresh under the message's
    id yet) draws two polynomials that have the
    stored share and blinding share of the key at the origin, keeps them under the
    id of this dealer and this key, and sends every new node its slices of them
    with the commitments, and the public polynomial of the key. *)
Theorem frozen_key_is_dealt staggerDelay h old new endIndex i inst self ref nodes s c t :
  let n := hoNet h in
  let prefix := GetPSSProtocolPrefix (int64 (eiId old)) (int64 (eiId new)) in
  let pssID := sharePSSID old new (NodeIndex self) i in
  in_int64 endIndex -> 0 <= i < endIndex ->
  Rep s (netDB n) -> selfNode n = Got self -> nodeByAddress n (PubKey self) = Got ref ->
  psInstances (hoPss h) !! prefix = Some inst -> dealerReady inst self pssID t ->
  pssReady n (piNode inst) nodes (NodeIndex self) -> firstColumn (tableMatrix s i) = Ok c ->
  0 <= csSi (tableShare s i) < q -> 0 <= csSiPrime (tableShare s i) < q ->
  pssMarshals -> tape_ok (psTape (hoPss h)) ->
  let sh := mkSharing (GenerateKeygenID i) nodes (Pss.netEpochID (pnOldNodes (piNode inst))) (NodeIndex self)
              (csSi (tableShare s i)) (csSiPrime (tableShare s i)) c in
  i ∈ triggerKeys endIndex /\
  exists h' acts inst' pss,
    triggerKey staggerDelay h old new i = (h', [PssActions prefix acts], Returned) /\
    psInstances (hoPss h') !! prefix = Some inst' /\ pnPSSStore (piNode inst') !! pssID = Some (Some pss) /\
    matrix_ok t (psF pss) /\ matrix_ok t (psFprime pss) /\ psC pss = commit_matrix (psF pss) (psFprime pss) /\
    beval (psF pss) 0 0 = csSi (tableShare s i) /\ beval (psFprime pss) 0 0 = csSiPrime (tableShare s i) /\
    tape_ok (psTape (hoPss h')) /\
    forall nid nn, netNodes (pnNewNodes (piNode inst)) !! nid = Some nn ->
      exists m r, sendMessage (shareSharingID old new i) sh (psF pss) (psFprime pss) (psC pss) nn = Ok m /\
        recoverMessage (shareSharingID old new i) sh = Ok r /\ Send nn m ∈ acts /\ Send nn r ∈ acts.
Proof.
  intros n prefix pssID He Hi HR Hself Href Hinst [Hown Hlong Hsm Hrm Hd Hnew Hk Ht] Hready Hc Hsi Hsi' Hmar Htape sh.
  pose proof (proj2 (triggerKeys_spec endIndex i He) Hi) as Hin. split; [done|].
  pose proof (triggerKeys_in_int64 endIndex i He Hin) as Hi64.
  unfold triggerKey. fold n prefix. rewrite Hself. unfold PSSService_Call. rewrite Hinst.
  unfold pssSend. rewrite Hsm. cbn [runMiddleware]. rewrite (transportSend_self n _ _ self ref) by done.
  unfold pssReceive. rewrite Hinst, Hrm. cbn [runMiddleware]. unfold ProcessMessage.
  rewrite (pssLogIDs_Ok (piNode inst) self) by (by rewrite ?Hown). cbn [run]. unfold routeMessage, shareMessage.
  cbn [pmPSSID CreatePSSMessage pmMethod pmData]. fold (shareSharingID old new i).
  change (ToPSSID (mkPSSIDDetails (shareSharingID old new i) (NodeIndex self))) with pssID.
  unfold GetOrSetIfNotComplete. rewrite Hnew, String.eqb_refl.
  destruct (proj1 Hmar (mkPSSMsgShare (shareSharingID old new i))) as [b Hb]. rewrite Hb. cbn [default].
  change (id b) with b. rewrite (Unmarshal_Marshal _ _ Hb).
  set (pn1 := setPSSStore _ _).
  edestruct (processShare_deals (dataSource n (piNode inst)) (transportSign n) pn1
    (mkPSSMsgShare (shareSharingID old new i)) (newPSS (piNode inst) pssID) (psTape (hoPss h)) t sh)
    as (f & f' & tape' & acts & E & Hf & Hf' & Hf0 & Hf0' & Htape' & Hsent); [done|done|done| |done..|].
  - simpl. rewrite shareSharingID_key. apply pssGetSharing_spec; [done|done|lia|done|done].
  - rewrite E. simpl. eexists _, acts, _, _. split; [done|]. simpl. rewrite !lookup_insert_eq.
    split; [done|]. simpl. rewrite lookup_insert_eq. split; [done|]. by split_and!.
Qed.

End props.
