(* ===== verification/Abci.v ===== *)
(** The replicated application as Tendermint drives it (src/dkgnode/abci_app.go),
    with the authentication of transactions (bft_tx.go, node_auth.go and the
    Ethereum part of service_library.go).

    Every call of the ABCI interface maps the application to the new one and its
    response.  [Stopped] is a panic or a [logging.Fatal]. *)
From Stdlib Require Import ZArith.
From stdpp Require Import gmap strings.
From S2P Require Import Prelude BigInt Field Curve Pvss Avss Nizkpk Ecdsa Ids Effects Keygen Mapping Dealer PssTypes Bft.

(** ** Data (bft_tx.go, abci_app.go) *)

Record DefaultBFTTxWrapper := mkWrapper {
  wrBFTTx : list Z;
  wrNonce : Z;
  wrPubKey : Point;
  wrMsgType : Z;
  wrSignature : option (list Z);
}.

Record getIndexesQuery := mkGetIndexesQuery { qVerifier : string; qVerifierID : string }.

Inductive response := RespOK (tags : list (string * string)) | Unauthorized | Stopped.

Record ResponseQuery := mkResponseQuery { rqCode : Z; rqValue : list Z }.

Class AbciCodecs := {
  codec_wrapper :: Codec DefaultBFTTxWrapper;
  codec_state :: Codec State;
  codec_info :: Codec AppInfo;
  codec_query :: Codec getIndexesQuery;
}.

(** ** Hexadecimal strings *)

Definition IntToHexstring (i : Z) : string := Text16 i.

Definition HexstringToInt (hs : string) : Z :=
  match SetString16 hs with Some bi => int64 bi | None => 0 end.

(** ** Initial state *)

Definition StateZero : State := mkState 0 0 0 None ∅ ∅ ∅ ∅ ∅ ∅ ∅ ∅ 0.
Definition AppInfoZero : AppInfo := mkAppInfo 0 [].

Section abci.
Context {SO : Secp256k1} {TC : TorusCrypto} {NC : NodeConfig} {SV : Services} {MR : MapRange}.
Context {KC : KeygenCodecs} {MC : MappingCodecs} {BC : BftCodecs} {AC : AbciCodecs}.

(** ** Authentication *)

(** The wrapper without its signature; a failed serialisation gives nil. *)
Definition GetSerializedBody (w : DefaultBFTTxWrapper) : list Z :=
  default [] (Marshal (mkWrapper (wrBFTTx w) (wrNonce w) (wrPubKey w) (wrMsgType w) None)).

(** The details that are returned, and the error if any: with an error they are
    the zero details.  The last reference with the key is the one found. *)
Definition verifyDataWithEpoch (pk : Point) (sig data : list Z) (epoch : Z) : Node * option string :=
  match nodeRegisterMap epoch with
  | None => (NodeZero, Some "epoch doesnt exist in node register map, verifyDataWithEpoch"%string)
  | Some nodeList =>
      match list.last (filter (fun nodeRef => samePoint (nrPublicKey nodeRef) pk = true) nodeList) with
      | None => (NodeZero, Some "node doesnt exist in node register map"%string)
      | Some foundNode =>
          if negb (VerifyPtFromRaw data pk sig) then (NodeZero, Some "invalid ecdsa sig for data"%string)
          else (mkNode (int64 (nrIndex foundNode)) (nrPublicKey foundNode), None)
      end
  end.

(** The method of the service library reads the data of the response, which is
    never nil here, and not its error. *)
Definition VerifyDataWithEpoch (pk : Point) (sig data : list Z) (epoch : Z) : res Node :=
  Ok (fst (verifyDataWithEpoch pk sig data epoch)).

Definition authenticateBftTx (tx : list Z) : res (DefaultBFTTxWrapper * Node) :=
  match Unmarshal (A := DefaultBFTTxWrapper) tx with
  | None => Err errUnmarshalTx
  | Some parsedTx =>
      senderDetails ← VerifyDataWithEpoch (wrPubKey parsedTx) (default [] (wrSignature parsedTx))
                        (GetSerializedBody parsedTx) GetCurrentEpoch;
      Ok (parsedTx, senderDetails)
  end.

(** ** Transactions *)

Definition DeliverTx (now : Z * Z) (app : App) (tx : list Z) : App * list Action * response :=
  match authenticateBftTx tx with
  | Err _ => (app, [], Unauthorized)
  | Panic => (app, [], Stopped)
  | Ok (parsedTx, senderDetails) =>
      let '(app', acts, r) :=
        ValidateAndUpdateAndTagBFTTx now app (wrBFTTx parsedTx) (wrMsgType parsedTx) senderDetails in
      (app', acts, match r with Passed tags => RespOK tags | Rejected _ => Unauthorized | Crashed => Stopped end)
  end.

Definition CheckTx (now : Z * Z) (app : App) (tx : list Z) : response :=
  match authenticateBftTx tx with
  | Err _ => Unauthorized
  | Panic => Stopped
  | Ok (parsedTx, senderDetails) =>
      match validateTx now app (wrBFTTx parsedTx) (wrMsgType parsedTx) senderDetails (appLaggingState app) with
      | Passed _ => RespOK []
      | Rejected _ => Unauthorized
      | Crashed => Stopped
      end
  end.

(** ** Blocks *)

Definition BeginBlock (app : App) (time : Z) : App :=
  setState app (setBlock (appState app) time (Some [])).

(** The share message that starts the key generation of an index. *)
Definition shareKeygen (i : Z) : list Action :=
  let dkgID := GenerateDKGID i in
  match Marshal (mkKeygenMsgShare dkgID) with
  | None => []
  | Some data =>
      [ShareKeygen (CreateKeygenMessage (ToKeygenID (mkKeygenIDDetails dkgID GetSelfIndex)) "share" data)]
  end.

Definition EndBlock (app : App) : list Action :=
  let created := int64 (sLastCreatedIndex (appState app)) in
  let unassigned := int64 (sLastUnassignedIndex (appState app)) in
  if int64 (created - unassigned) <? KeyBuffer then
    concat (shareKeygen <$> seqZ created (int64 (unassigned + KeyBuffer) - created))
  else [].

(** ** Persistence *)

Definition SaveState (app : App) : res App :=
  stateBytes ← deref (Marshal (appState app));
  infoBytes ← deref (Marshal (appInfo app));
  Ok (setDb app (<[appInfoKey := infoBytes]> (<[stateKey := stateBytes]> (appDb app)))).

Definition LoadState (db : gmap string (list Z)) : res (App * bool) :=
  match default [] (db !! stateKey) with
  | [] => Ok (mkApp AppInfoZero StateZero StateZero db, false)
  | stateBytes =>
      state ← deref (Unmarshal stateBytes);
      laggingState ← deref (Unmarshal stateBytes);
      info ← deref (Unmarshal (default [] (db !! appInfoKey)));
      Ok (mkApp info state laggingState db, true)
  end.

(** From the database of the application, which the source opens itself. *)
Definition NewABCIApp (db : gmap string (list Z)) : res App :=
  r ← LoadState db;
  let '(app, stateExists) := r in
  if (stateExists : bool) then Ok app else Ok (mkApp AppInfoZero StateZero StateZero db).

Definition Commit (app : App) : res (App * list Z) :=
  byt ← deref (Marshal (appState app));
  let currAppHash := Keccak256 byt in
  let info := mkAppInfo (int64 (Height (appInfo app) + 1)) currAppHash in
  app ← SaveState (mkApp info (appState app) (appLaggingState app) (appDb app));
  lagging ← deref (Unmarshal byt);
  Ok (mkApp (appInfo app) (appState app) lagging (appDb app), currAppHash).

(** The height and hash Tendermint is told when it starts. *)
Definition Info (app : App) : Z * list Z := (Height (appInfo app), AppHash (appInfo app)).

(** ** Queries *)

Definition Query (app : App) (path : string) (data : list Z) : ResponseQuery :=
  if (path =? "GetIndexesFromVerifierID")%string then
    match Unmarshal (A := getIndexesQuery) data with
    | None => mkResponseQuery 10 []
    | Some queryArgs =>
        match retrieveVerifierToKeyIndex app (qVerifier queryArgs) (qVerifierID queryArgs) with
        | Ok keyIndexes => mkResponseQuery 0 (default [] (Marshal keyIndexes))
        | _ => mkResponseQuery 10 []
        end
    end
  else mkResponseQuery 0 [].

Definition getIndexesFromVerifierID (app : App) (verifier verifierID : string) : res (list Z) :=
  match Marshal (mkGetIndexesQuery verifier verifierID) with
  | None => Err "could not marshal query args error"
  | Some argBytes =>
      let r := Query app "GetIndexesFromVerifierID" argBytes in
      if rqCode r =? 10 then Err "Failed to find keyindexes with response code"
      else match Unmarshal (rqValue r) with
           | Some keyIndexes => Ok keyIndexes
           | None => Err "could not parse retrieved keyindex list"
           end
  end.

End abci.
