(* ===== verification/AbciService.v ===== *)
(** The ABCI service (src/dkgnode/abci_server.go), the methods of the service library in
    front of it (src/dkgnode/service_library.go) and the iteration over the users that
    have keys.

    The order in which the application's database goes through a range of keys is the
    database's, a parameter. *)
From Stdlib Require Import ZArith Sorted.
From stdpp Require Import gmap strings sorting.
From S2P Require Import Prelude BigInt Field Curve Ids Effects EventBus Keygen Mapping Dealer PssTypes Torusdb TorusdbSpec Bft BftProps Abci.

(** ** The database's iterators *)

(** The entries from a key up to another. *)
Class AppDB := { Iterator : gmap string (list Z) -> list Z -> list Z -> list (string * list Z) }.

Class AppDBLaws `{AppDB} := {
  Iterator_entries db start stop :
    Iterator db start stop ≡ₚ filter (fun kv => in_range start stop (stringBytes kv.1)) (map_to_list db);
  Iterator_sorted db start stop : Sorted bytes_le ((fun kv => stringBytes kv.1) <$> Iterator db start stop);
}.

(** utils.go *)
Definition incrementLastBit (b : list Z) : list Z := Bytes (SetBytes b + 1).

Definition endVerifierToKeyIndexKey : list Z := incrementLastBit (stringBytes verifierToKeyIndexPrefixKey).

(** ** The service *)

Record VerifierData := mkVerifierData {
  vOk : bool; vVerifier : string; vVerifierID : string; vKeyIndexes : list Z; vErr : option string;
}.

Definition VerifierDataZero : VerifierData := mkVerifierData false EmptyString EmptyString [] None.

(** An open iterator is what is left of its range. *)
Record ABCIService := mkABCIService { abApp : App; dbIterators : gmap string (list (string * list Z)) }.

Inductive abciRequest := last_created_index | last_unassigned_index | retrieve_key_mapping (keyIndex : Z)
  | get_indexes_from_verifier_id (verifier verifierID : string) | get_verifier_iterator
  | get_verifier_iterator_next (randomID : string) | abci_other (method : string).

Inductive abciData := AbciUint (i : Z) | AbciKey (k : KeyAssignmentPublic) | AbciIndexes (l : list Z) | AbciID (id : string)
  | AbciVerifier (d : VerifierData).

Section service.
Context {SO : Secp256k1} {TC : TorusCrypto} {NC : NodeConfig} {SV : Services} {MR : MapRange}.
Context {KC : KeygenCodecs} {MC : MappingCodecs} {BC : BftCodecs} {AC : AbciCodecs} {AD : AppDB}.

(** The users' entries, in the order of the database. *)
Definition usersRange (app : App) : list (string * list Z) :=
  Iterator (appDb app) (stringBytes verifierToKeyIndexPrefixKey) endVerifierToKeyIndexKey.

(** The next entry of an iterator; an entry that cannot be read is not passed. *)
Definition verifierIteratorNext (randomID : string) (entries : list (string * list Z)) : list (string * list Z) * res VerifierData :=
  match entries with
  | [] => ([], Ok VerifierDataZero)
  | (key, value) :: rest =>
      match deconstructVerifierKey key with
      | Panic => (entries, Panic)
      | Err _ => (entries, Ok (mkVerifierData true EmptyString EmptyString [] (Some ("key is not in right format for " +:+ randomID))))
      | Ok (verifier, verifierID) =>
          match Unmarshal value with
          | None => (entries, Ok (mkVerifierData true EmptyString EmptyString [] (Some ("could not unmarshal keyIndexes " +:+ randomID))))
          | Some keyIndexes => (rest, Ok (mkVerifierData true verifier verifierID keyIndexes None))
          end
      end
  end.

(** [randomID] is the number that is drawn for a new iterator.  An iterator at its end is
    closed and forgotten. *)
Definition ABCIService_Call (a : ABCIService) (randomID : string) (req : abciRequest) : ABCIService * res abciData :=
  match req with
  | last_created_index => (a, Ok (AbciUint (sLastCreatedIndex (appState (abApp a)))))
  | last_unassigned_index => (a, Ok (AbciUint (sLastUnassignedIndex (appState (abApp a)))))
  | retrieve_key_mapping keyIndex => (a, k ← retrieveKeyMapping (abApp a) keyIndex; Ok (AbciKey k))
  | get_indexes_from_verifier_id verifier verifierID =>
      (a, l ← getIndexesFromVerifierID (abApp a) verifier verifierID; Ok (AbciIndexes l))
  | get_verifier_iterator =>
      (mkABCIService (abApp a) (<[randomID := usersRange (abApp a)]> (dbIterators a)), Ok (AbciID randomID))
  | get_verifier_iterator_next randomID =>
      match dbIterators a !! randomID with
      | None => (a, Err ("Could not find dbIterator for randomID " +:+ randomID))
      | Some [] => (mkABCIService (abApp a) (delete randomID (dbIterators a)), Ok (AbciVerifier VerifierDataZero))
      | Some entries =>
          let '(rest, d) := verifierIteratorNext randomID entries in
          (mkABCIService (abApp a) (<[randomID := rest]> (dbIterators a)), d ← d; Ok (AbciVerifier d))
      end
  | abci_other method => (a, Err ("ABCI service method " +:+ method +:+ " not found"))
  end.

(** ** The library *)

Definition ABCI_RetrieveKeyMapping (a : ABCIService) (keyIndex : Z) : res KeyAssignmentPublic :=
  d ← snd (ABCIService_Call a EmptyString (retrieve_key_mapping keyIndex));
  match d with AbciKey k => Ok k | _ => Err "could not cast in castOrUnmarshal" end.

Definition ABCI_GetIndexesFromVerifierID (a : ABCIService) (verifier verifierID : string) : res (list Z) :=
  d ← snd (ABCIService_Call a EmptyString (get_indexes_from_verifier_id verifier verifierID));
  match d with AbciIndexes l => Ok l | _ => Err "could not cast in castOrUnmarshal" end.

(** [viVal] is nil until the first entry. *)
Record VerifierIterator := mkVerifierIterator { viRandomID : string; viVal : option VerifierData; viErr : option string }.

Definition iteratorTopic (randomID : string) : string := "iterator_value:" +:+ randomID.

Section bus.
Context {Event : Type}.

Definition ABCI_GetVerifierIterator (a : ABCIService) (bus : EventBus Event) (randomID : string) (handler : nat)
    : ABCIService * EventBus Event * res VerifierIterator :=
  match ABCIService_Call a randomID get_verifier_iterator with
  | (a, Ok (AbciID id)) => (a, SubscribeAsync bus (iteratorTopic id) handler false, Ok (mkVerifierIterator id None None))
  | (a, Ok _) => (a, bus, Err "could not cast in castOrUnmarshal")
  | (a, Err e) => (a, bus, Err e)
  | (a, Panic) => (a, bus, Panic)
  end.

(** [CallNext]: the end of the iteration takes the handler from the bus. *)
Definition VerifierIterator_Next (a : ABCIService) (bus : EventBus Event) (handler : nat) (it : VerifierIterator)
    : ABCIService * EventBus Event * VerifierIterator * bool :=
  match ABCIService_Call a EmptyString (get_verifier_iterator_next (viRandomID it)) with
  | (a, Ok (AbciVerifier d)) =>
      let it' := mkVerifierIterator (viRandomID it) (Some d) (vErr d) in
      if vOk d then (a, bus, it', true)
      else
        match Unsubscribe bus (iteratorTopic (viRandomID it)) handler with
        | Ok bus => (a, bus, it', false)
        | _ => (a, bus, it, false)
        end
  | (a, _) => (a, bus, it, false)
  end.

Definition VerifierIterator_Value (it : VerifierIterator) : VerifierData :=
  match viVal it with
  | Some d => d
  | None => mkVerifierData false EmptyString EmptyString [] (Some "Could not cast to struct"%string)
  end.

(** What a loop over the iterator sees, when it is left to run for [fuel] rounds, and
    whether the iterator has ended by then. *)
Fixpoint iterate (fuel : nat) (a : ABCIService) (bus : EventBus Event) (handler : nat) (it : VerifierIterator)
    : ABCIService * EventBus Event * list VerifierData * bool :=
  match fuel with
  | O => (a, bus, [], false)
  | S fuel =>
      match VerifierIterator_Next a bus handler it with
      | (a, bus, it, true) =>
          let '(a, bus, seen, ended) := iterate fuel a bus handler it in (a, bus, VerifierIterator_Value it :: seen, ended)
      | (a, bus, it, false) => (a, bus, [], true)
      end
  end.

End bus.

(** ** The range of the users *)

Lemma bytes_ltb_two k : bytes_ltb k [118; 116] = false /\ bytes_ltb k [118; 117] = true <-> exists k', k = 118 :: 116 :: k'.
Proof.
  destruct k as [|x [|y k]]; simpl.
  - split; [by intros []|naive_solver].
  - split; [|naive_solver]. destruct (Z.ltb_spec x 118), (Z.ltb_spec 118 x); intros []; try done; lia.
  - rewrite !bytes_ltb_nil. destruct (decide (x = 118)) as [->|Hx].
    + simpl. destruct (decide (y = 116)) as [->|Hy]; [split; [by eexists|done]|].
      split; [|intros [k' [= ? _]]; done].
      destruct (Z.ltb_spec y 116), (Z.ltb_spec 116 y), (Z.ltb_spec y 117), (Z.ltb_spec 117 y); intros []; try done; lia.
    + split; [|intros [k' [= ? _]]; done].
      destruct (Z.ltb_spec x 118), (Z.ltb_spec 118 x); intros []; try done; lia.
Qed.

(** The range has the keys with the users' prefix. *)
Lemma in_users key :
  in_range (stringBytes verifierToKeyIndexPrefixKey) endVerifierToKeyIndexKey (stringBytes key) <->
  exists s, key = verifierToKeyIndexPrefixKey +:+ s.
Proof.
  change (stringBytes verifierToKeyIndexPrefixKey) with [118; 116]. change endVerifierToKeyIndexKey with [118; 117].
  unfold in_range. rewrite bytes_ltb_two. split.
  - intros [k' E]. destruct key as [|c1 [|c2 key]]; try done. unfold stringBytes in E. simpl in E. injection E as E1 E2 _.
    rewrite <- (ascii_N_embedding c1), <- (ascii_N_embedding c2).
    replace (N_of_ascii c1) with 118%N by lia. replace (N_of_ascii c2) with 116%N by lia. by exists key.
  - intros [s ->]. by eexists.
Qed.

Lemma split_chars_mid sep w s : split_chars sep (w ++ sep :: s) = split_chars sep w ++ split_chars sep s.
Proof.
  induction w as [|c w IH]; simpl; [by rewrite decide_True|]. destruct (decide (c = sep)); [by rewrite IH|].
  rewrite IH. pose proof (split_chars_nonempty sep w). by destruct (split_chars sep w).
Qed.

(** Two words joined that split into two words are those two. *)
Lemma Split_two v vid v' vid' : Split (Join [v; vid] Delimiter1) Delimiter1 = [v'; vid'] -> v = v' /\ vid = vid'.
Proof.
  unfold Split, Join. rewrite chars_unchars. simpl. rewrite split_chars_mid, fmap_app.
  pose proof (join_split_chars Delimiter1 (chars v)) as Ev. pose proof (join_split_chars Delimiter1 (chars vid)) as Eid.
  destruct (split_chars Delimiter1 (chars v)) as [|w1 [|]] eqn:E1; [by apply split_chars_nonempty in E1| |].
  - destruct (split_chars Delimiter1 (chars vid)) as [|w2 [|]] eqn:E2; [by apply split_chars_nonempty in E2| |done].
    simpl in *. subst. intros [= <- <-]. by rewrite !unchars_chars.
  - destruct (split_chars Delimiter1 (chars vid)) as [|w2 ws] eqn:E2; [by apply split_chars_nonempty in E2|].
    simpl. intros E. apply (f_equal length) in E. simpl in E. rewrite length_app in E. simpl in E. lia.
Qed.

(** ** The iteration *)

Definition readable (kv : string * list Z) : Prop :=
  exists v vid (l : list Z), deconstructVerifierKey kv.1 = Ok (v, vid) /\ Unmarshal kv.2 = Some l.

Definition verifierData (kv : string * list Z) : VerifierData :=
  match deconstructVerifierKey kv.1, Unmarshal kv.2 with
  | Ok (v, vid), Some l => mkVerifierData true v vid l None
  | _, _ => VerifierDataZero
  end.

Lemma deconstruct_users s : deconstructVerifierKey (verifierToKeyIndexPrefixKey +:+ s) =
  v ← FromVerifierDetailsID s; Ok (vdVerifier v, vdVerifierID v).
Proof.
  assert (String.substring 0 (String.length s) s = s) as E by (induction s as [|c s IH]; simpl; by rewrite ?IH).
  change (verifierToKeyIndexPrefixKey +:+ s) with (String "v" (String "t" s)). unfold deconstructVerifierKey.
  cbn [String.length String.substring Nat.ltb Nat.leb]. replace (S (S (String.length s)) - 2)%nat with (String.length s) by lia.
  by rewrite E.
Qed.

(** The entry of a user is read as the user's. *)
Lemma deconstruct_form key v vid : key = verifierToKeyIndexPrefixKey +:+ (Join [v; vid] Delimiter1) -> forall v' vid',
  deconstructVerifierKey key = Ok (v', vid') -> v' = v /\ vid' = vid.
Proof.
  intros -> v' vid'. rewrite deconstruct_users. unfold FromVerifierDetailsID.
  destruct (Split _ _) as [|w1 [|w2 [|]]] eqn:E; try done. intros [= <- <-]. apply Split_two in E as [-> ->]. done.
Qed.

Lemma deconstruct_inv key v vid s : key = verifierToKeyIndexPrefixKey +:+ s ->
  deconstructVerifierKey key = Ok (v, vid) -> key = formVerifierKey v vid.
Proof.
  intros ->. rewrite deconstruct_users. destruct (FromVerifierDetailsID s) as [d| |] eqn:E; [|done..]. intros [= <- <-].
  apply FromVerifierDetailsID_inv in E. by rewrite <- E.
Qed.

Lemma verifierIteratorNext_readable id kv rest : readable kv ->
  verifierIteratorNext id (kv :: rest) = (rest, Ok (verifierData kv)) /\ vOk (verifierData kv) = true.
Proof.
  destruct kv as [key value]. intros (v & vid & l & E1 & E2). unfold verifierData. simpl in *. by rewrite E1, E2.
Qed.

Section iterate.
Context {Event : Type}.

Lemma iterate_entries (handler : nat) (bus bus' : EventBus Event) id : Unsubscribe bus (iteratorTopic id) handler = Ok bus' ->
  forall entries fuel a it, viRandomID it = id -> dbIterators a !! id = Some entries -> Forall readable entries ->
  (length entries < fuel)%nat ->
  iterate fuel a bus handler it = (mkABCIService (abApp a) (delete id (dbIterators a)), bus', verifierData <$> entries, true).
Proof.
  intros Hu. induction entries as [|kv entries IH]; intros [|fuel] a it Hid He Hr Hf; simpl in Hf; try lia.
  - simpl. unfold VerifierIterator_Next. rewrite Hid. simpl. rewrite He. simpl. by rewrite Hu.
  - apply Forall_cons_1 in Hr as [Hkv Hr]. simpl. unfold VerifierIterator_Next. rewrite Hid. simpl. rewrite He.
    destruct (verifierIteratorNext_readable id kv entries Hkv) as [-> Hok]. simpl. rewrite Hok.
    rewrite (IH fuel (mkABCIService (abApp a) (<[id := entries]> (dbIterators a)))); try done; [|by simpl; rewrite lookup_insert_eq|lia].
    simpl. by rewrite delete_insert_eq.
Qed.

End iterate.

Definition usersReadable (app : App) : Prop :=
  forall s b, appDb app !! (verifierToKeyIndexPrefixKey +:+ s) = Some b -> readable (verifierToKeyIndexPrefixKey +:+ s, b).

Context {ADL : AppDBLaws}.

Lemma users_entries app key b :
  (key, b) ∈ usersRange app <->
  appDb app !! key = Some b /\ exists s, key = verifierToKeyIndexPrefixKey +:+ s.
Proof. unfold usersRange. rewrite Iterator_entries, list_elem_of_filter, elem_of_map_to_list. simpl. rewrite in_users. tauto. Qed.

Lemma users_nodup app : NoDup (usersRange app).*1.
Proof.
  unfold usersRange. rewrite Iterator_entries. apply NoDup_fmap_fst; [|apply list.NoDup_filter, NoDup_map_to_list].
  intros k b b'. rewrite !list_elem_of_filter, !elem_of_map_to_list. naive_solver.
Qed.

(** What is seen of the users' entries. *)
Lemma users_readable app : usersReadable app ->
  Forall readable (usersRange app).
Proof.
  intros Hr. apply list.Forall_forall. intros [key b]. rewrite users_entries. intros [Hk [s ->]]. by apply Hr.
Qed.

Lemma verifierData_form kv s : readable kv -> kv.1 = verifierToKeyIndexPrefixKey +:+ s ->
  exists v vid l, verifierData kv = mkVerifierData true v vid l None /\ kv.1 = formVerifierKey v vid /\ Unmarshal kv.2 = Some l.
Proof.
  intros (v & vid & l & E1 & E2) Es. exists v, vid, l. unfold verifierData. rewrite E1, E2. split_and!; [done| |done].
  by eapply deconstruct_inv.
Qed.

Lemma users_seen app : usersReadable app ->
  forall v vid l,
    (mkVerifierData true v vid l None ∈
       verifierData <$> usersRange app) <->
    retrieveVerifierToKeyIndex app v vid = Ok l.
Proof.
  intros Hr v vid l. rewrite list_elem_of_fmap. unfold retrieveVerifierToKeyIndex. split.
  - intros ([key b] & E & [Hk [s Es]]%users_entries). specialize (Hr s b). rewrite <- Es in Hr.
    destruct (verifierData_form (key, b) s (Hr Hk) Es) as (v' & vid' & l' & E' & Ek & El). simpl in Ek, El.
    rewrite E' in E. injection E as -> -> ->. by rewrite <- Ek, Hk, El.
  - destruct (appDb app !! formVerifierKey v vid) as [b|] eqn:Hk; [|done].
    destruct (Hr _ _ Hk) as (v' & vid' & l' & E1 & E2). simpl in E1, E2. rewrite E2. intros [= ->].
    exists (formVerifierKey v vid, b). split; [|apply users_entries; split; [done|by eexists]].
    destruct (deconstruct_form _ v vid eq_refl _ _ E1) as [-> ->]. unfold verifierData. simpl.
    unfold formVerifierKey at 1. by rewrite E1, E2.
Qed.

Lemma users_keys app : usersReadable app ->
  (fun d => formVerifierKey (vVerifier d) (vVerifierID d)) <$>
    (verifierData <$> usersRange app) =
  (usersRange app).*1.
Proof.
  intros Hr. rewrite <- list_fmap_compose. apply list_fmap_ext. intros i [key b] Hi.
  apply list_elem_of_lookup_2, users_entries in Hi as [Hk [s Es]]. specialize (Hr s b). rewrite <- Es in Hr.
  destruct (verifierData_form (key, b) s (Hr Hk) Es) as (v & vid & l & E & Ek & _).
  change (formVerifierKey (vVerifier (verifierData (key, b))) (vVerifierID (verifierData (key, b))) = key). by rewrite E.
Qed.

(** When every entry of the users can be read, a loop over the library's iterator
    ends after as many rounds as there are users with keys, has seen each user once, in
    the order of the database's keys, with the key indexes the application gives for it,
    and leaves neither the iterator in the service nor its handler on the bus. *)
Theorem iteration_sees_users {Event} (a : ABCIService) (bus : EventBus Event) randomID handler :
  usersReadable (abApp a) ->
  Forall (fun h => callBack h <> handler) (handlersOf bus (iteratorTopic randomID)) ->
  exists a1 bus1 it seen bus2,
    ABCI_GetVerifierIterator a bus randomID handler = (a1, bus1, Ok it) /\
    (forall fuel, (length (usersRange (abApp a)) < fuel)%nat ->
       iterate fuel a1 bus1 handler it = (mkABCIService (abApp a) (delete randomID (dbIterators a)), bus2, seen, true)) /\
    length seen = length (usersRange (abApp a)) /\ (forall topic, handlersOf bus2 topic = handlersOf bus topic) /\
    (forall v vid l, (mkVerifierData true v vid l None ∈ seen) <-> retrieveVerifierToKeyIndex (abApp a) v vid = Ok l) /\
    Forall (fun d => d = mkVerifierData true (vVerifier d) (vVerifierID d) (vKeyIndexes d) None) seen /\
    NoDup ((fun d => (vVerifier d, vVerifierID d)) <$> seen) /\
    Sorted bytes_le ((fun d => stringBytes (formVerifierKey (vVerifier d) (vVerifierID d))) <$> seen).
Proof.
  intros Hr Hbus. set (entries := usersRange (abApp a)).
  destruct (Unsubscribe_Subscribe bus (iteratorTopic randomID) handler (mkEventHandler handler false true false) eq_refl Hbus)
    as (bus2 & Hu & Hb).
  eexists _, _, _, (verifierData <$> entries), bus2. split_and!; [reflexivity| | |done|by apply users_seen|..].
  - intros fuel Hf. erewrite iterate_entries; [|exact Hu|done|simpl; apply lookup_insert_eq|by apply users_readable|exact Hf].
    simpl. by rewrite delete_insert_eq.
  - by rewrite length_fmap.
  - apply list.Forall_forall. intros d (kv & -> & Hkv)%list_elem_of_fmap.
    pose proof (proj1 (list.Forall_forall _ _) (users_readable _ Hr) _ Hkv) as (v & vid & l & E1 & E2).
    unfold verifierData. by rewrite E1, E2.
  - apply (NoDup_fmap_1 (fun p => formVerifierKey p.1 p.2)). rewrite <- list_fmap_compose.
    change (NoDup ((fun d => formVerifierKey (vVerifier d) (vVerifierID d)) <$> (verifierData <$> entries))).
    unfold entries. rewrite users_keys by done. apply users_nodup.
  - pose proof (Iterator_sorted (appDb (abApp a)) (stringBytes verifierToKeyIndexPrefixKey) endVerifierToKeyIndexKey) as Hs.
    pose proof (f_equal (fmap stringBytes) (users_keys (abApp a) Hr)) as E. rewrite <- !list_fmap_compose in E.
    rewrite <- list_fmap_compose. exact (eq_ind_r (Sorted bytes_le) Hs E).
Qed.

(** An entry that cannot be read is not passed: the iterator reports it for ever, and a
    loop over it does not end. *)
Theorem unreadable_entry_stalls {Event} (a : ABCIService) (bus : EventBus Event) handler it key b rest v d :
  dbIterators a !! viRandomID it = Some ((key, b) :: rest) -> FromVerifierDetailsID v = Err d ->
  key = verifierToKeyIndexPrefixKey +:+ v ->
  forall fuel, (iterate fuel a bus handler it).2 = false /\ length (iterate fuel a bus handler it).1.2 = fuel.
Proof.
  intros He Ev -> fuel. revert a it He. induction fuel as [|fuel IH]; intros a it He; [done|].
  simpl. unfold VerifierIterator_Next. simpl. rewrite He. unfold verifierIteratorNext. rewrite deconstruct_users, Ev. simpl.
  match goal with |- context [iterate fuel ?a' bus handler ?it'] =>
    destruct (IH a' it') as [H1 H2]; [simpl; by rewrite lookup_insert_eq|];
    destruct (iterate fuel a' bus handler it') as [[[] ?] ?] end.
  simpl in *. split; [done|]. by f_equal.
Qed.

(** Storing a user whose names are free of the delimiter keeps the entries readable; a
    user's name with the delimiter makes an entry that cannot be read. *)
Lemma storeVerifier_readable {CL : CodecLaws (list Z)} app v vid l app' :
  usersReadable app -> Delimiter1 ∉ chars v -> Delimiter1 ∉ chars vid ->
  storeVerifierToKeyIndex app v vid l = Ok app' -> usersReadable app'.
Proof.
  intros Hr Hv Hvid. unfold storeVerifierToKeyIndex, marshal. destruct (Marshal l) as [b|] eqn:E; [|done]. intros [= <-] s b'.
  simpl. rewrite lookup_insert_Some. intros [[Ek <-]|[_ Hk]]; [|by apply Hr].
  exists v, vid, l. split; [|by apply Unmarshal_Marshal]. simpl. rewrite <- Ek. unfold formVerifierKey.
  rewrite deconstruct_users. change (Join [v; vid] Delimiter1) with (ToVerifierDetailsID (mkVerifierDetails v vid)).
  by rewrite ToVerifierDetailsID_round.
Qed.

Lemma delimiter_unreadable v vid : Delimiter1 ∈ chars vid ->
  FromVerifierDetailsID (Join [v; vid] Delimiter1) = Err "Error parsing PSSIDDetails, too few fields".
Proof.
  intros (l1 & l2 & E)%list_elem_of_split. unfold FromVerifierDetailsID, Split, Join. rewrite chars_unchars. simpl.
  rewrite split_chars_mid, E, split_chars_mid, !fmap_app.
  assert (forall w, (0 < length (split_chars Delimiter1 w))%nat) as Hl.
  { intros w. pose proof (split_chars_nonempty Delimiter1 w). destruct (split_chars Delimiter1 w); [done|simpl; lia]. }
  match goal with |- match ?l with _ => _ end = _ => assert (3 <= length l)%nat as H end.
  { rewrite !length_app, !length_fmap. pose proof (Hl (chars v)). pose proof (Hl l1). pose proof (Hl l2). lia. }
  revert H. generalize (unchars <$> split_chars Delimiter1 (chars v)). intros ws H. repeat case_match; done || (simpl in H; lia).
Qed.

End service.
