(* ===== verification/Tendermint.v ===== *)
(** The way of a transaction to the chain (src/dkgnode/bft_tx.go and the queue of
    src/msgqueue/msg_queue.go), the queries that the Tendermint service forwards
    (src/dkgnode/tendermint.go) and the methods of the service library in front of
    them (src/dkgnode/service_library.go).

    Tendermint itself, its RPC client and its websocket are parameters. *)
From Stdlib Require Import ZArith.
From stdpp Require Import gmap strings.
From S2P Require Import Prelude BigInt Field Curve Pvss Ids Effects EventBus Services Keygen Dealer Torusdb Library Mapping PssTypes.
From S2P Require Import P2p Ethereum EthereumLibrary Transport Bft Abci.

(** ** The message queue *)

Section queue.
Context {Msg Resp World : Type}.

(** [process] is the function of the queue: its response, or nil with an error. *)
Context (process : Msg -> World -> option Resp * World).

Definition queueAttempts : nat := 600.

(** The loop of an engine over one message: the last response, nil when every attempt
    has failed. *)
Fixpoint tryMessage (attempts : nat) (msg : Msg) (w : World) : option Resp * World :=
  match attempts with
  | O => (None, w)
  | S attempts =>
      match process msg w with
      | (Some response, w) => (Some response, w)
      | (None, w) => tryMessage attempts msg w
      end
  end.

(** The callers of [Add] that wait for an engine, with their messages, and the engines. *)
Inductive Engine := Idle | Busy (caller : nat) (msg : Msg) (k : nat) | Replying (caller : nat) (response : option Resp).

Record MessageQueue := mkMessageQueue {
  mqAdding : list (nat * Msg); mqEngines : list Engine; mqWorld : World; mqReplies : list (nat * option Resp);
}.

Definition NewMessageQueue (num : nat) (w : World) : MessageQueue := mkMessageQueue [] (replicate num Idle) w [].

(** One attempt of an engine; the sleep between two attempts is the wait for the next
    step. *)
Definition attempt (q : MessageQueue) (i : nat) (caller : nat) (msg : Msg) (k : nat) : MessageQueue :=
  let '(response, w) := process msg (mqWorld q) in
  let engine :=
    match response, k with
    | Some _, _ => Replying caller response
    | None, S (S k) => Busy caller msg (S k)
    | None, _ => Replying caller None
    end in
  mkMessageQueue (mqAdding q) (<[i := engine]> (mqEngines q)) w (mqReplies q).

Inductive queueStep : MessageQueue -> MessageQueue -> Prop :=
  | queue_add q caller msg :
      queueStep q (mkMessageQueue (mqAdding q ++ [(caller, msg)]) (mqEngines q) (mqWorld q) (mqReplies q))
  | queue_take q i caller msg rest :
      mqEngines q !! i = Some Idle -> mqAdding q ≡ₚ (caller, msg) :: rest ->
      queueStep q (mkMessageQueue rest (<[i := Busy caller msg queueAttempts]> (mqEngines q)) (mqWorld q) (mqReplies q))
  | queue_attempt q i caller msg k :
      mqEngines q !! i = Some (Busy caller msg k) -> queueStep q (attempt q i caller msg k)
  | queue_reply q i caller response :
      mqEngines q !! i = Some (Replying caller response) ->
      queueStep q (mkMessageQueue (mqAdding q) (<[i := Idle]> (mqEngines q)) (mqWorld q) (mqReplies q ++ [(caller, response)])).

End queue.

(** ** Transactions *)

(** Tendermint's RPC: the result of a broadcast, or nil with an error. *)
Class TendermintRPC := {
  chainState : Type;
  BroadcastTxSync : list Z -> chainState -> option (Z * list Z) * chainState;
}.

(** What is handed to [Broadcast]; a value of another type has the name of its type. *)
Inductive bftTx :=
  | TxAssignment (tx : AssignmentBFTTx) | TxKeygen (m : KeygenMessage) | TxPSS (m : PSSMessage)
  | TxMapping (m : MappingMessage) | TxDealer (m : Message) | TxOther (typeName : string).

Definition getType (tx : bftTx) : string :=
  match tx with
  | TxAssignment _ => "AssignmentBFTTx" | TxKeygen _ => "KeygenMessage" | TxPSS _ => "PSSMessage"
  | TxMapping _ => "MappingMessage" | TxDealer _ => "Message" | TxOther n => n
  end.

Definition bftTxs : gmap string Z :=
  list_to_map [("AssignmentBFTTx", 1); ("KeygenMessage", 2); ("PSSMessage", 3); ("MappingMessage", 4); ("Message", 5)].

Section tendermint.
Context {SO : Secp256k1} {TC : TorusCrypto} {TS : TorusSign} {DC : TorusDBCodecs} {LP : LibP2P}.
Context {NL : NodeListContract} {RR : RegisterRange} {BC : BftCodecs} {AC : AbciCodecs} {TR : TendermintRPC}.

Definition marshalTx (tx : bftTx) : res (list Z) :=
  match tx with
  | TxAssignment tx => marshal tx | TxKeygen m => marshal m | TxPSS m => marshal m
  | TxMapping m => marshal m | TxDealer m => marshal m
  | TxOther _ => Err "could not marshal"
  end.

(** [nonce] is the random number that is drawn; a value of a type that is not in the
    table, or that no case above serialises, does not get past the table. *)
Definition PrepareBFTTx (n : Net) (nonce : Z) (tx : bftTx) : res (list Z) :=
  match bftTxs !! getType tx with
  | None => Err ("Msg type does not exist for BFT: " +:+ getType tx +:+ " ")
  | Some msgType =>
      pk ← toRes (snd (Ethereum_GetSelfPublicKey (netDB n) (netEth n)));
      bftRaw ← marshalTx tx;
      let wrapper := mkWrapper bftRaw (int64 nonce mod 2 ^ 32) pk msgType None in
      let data := Abci.GetSerializedBody wrapper in
      signature ← toRes (snd (Ethereum_SelfSignData (netDB n) (netEth n) data));
      marshal (mkWrapper bftRaw (int64 nonce mod 2 ^ 32) pk msgType (Some signature))
  end.

(** A result that the queue gave up on is not a result of a broadcast.  The code of a
    refusal is converted to a rune. *)
Definition Broadcast (n : Net) (nonce : Z) (tx : bftTx) (runeString : Z -> string) (w : chainState) : res (list Z) * chainState :=
  match PrepareBFTTx n nonce tx with
  | Ok preparedTx =>
      match tryMessage BroadcastTxSync queueAttempts preparedTx w with
      | (None, w) => (Err "return type for broadcast was not *tmtypes.ResultBroadcastTx: <nil>", w)
      | (Some (code, hash), w) =>
          (if negb (code =? 0) then Err ("Could not broadcast, ErrorCode: " +:+ runeString code) else Ok hash, w)
      end
  | Err e => (Err e, w)
  | Panic => (Panic, w)
  end.

End tendermint.

(** ** Queries *)

Section queries.

(** A channel with room for one response. *)
Record Chan := mkChan { chBuffer : list (list Z); chClosed : bool }.

(** The channels stay when their query leaves the map: a goroutine forwards what is in
    them. *)
Record QueryHandler := mkQueryHandler {
  QueryMap : gmap string nat; QueryCount : gmap string Z; qhChans : list Chan;
}.

Definition NewQueryHandler : QueryHandler := mkQueryHandler ∅ ∅ [].

Definition setChan (h : QueryHandler) (c : nat) (ch : Chan) : QueryHandler :=
  mkQueryHandler (QueryMap h) (QueryCount h) (<[c := ch]> (qhChans h)).

(** [fails] is the answer of the websocket to the subscription. *)
Definition RegisterQuery (h : QueryHandler) (query : string) (count : Z) (fails : option string) : QueryHandler * res nat :=
  match QueryMap h !! query with
  | Some _ => (h, Err ("BFTWS: query has already been registered for query: " +:+ query))
  | None =>
      match fails with
      | Some e => (mkQueryHandler (delete query (QueryMap h)) (delete query (QueryCount h)) (qhChans h), Err e)
      | None =>
          (mkQueryHandler (<[query := length (qhChans h)]> (QueryMap h)) (<[query := count]> (QueryCount h))
             (qhChans h ++ [mkChan [] false]), Ok (length (qhChans h)))
      end
  end.

(** A message of the websocket for [query]; [None] while the channel is full, with the
    lock held.  Sending on a channel that is closed panics. *)
Definition RouteWSMessage (h : QueryHandler) (query : string) (error : option string) (result : list Z) (fails : option string)
    : option (QueryHandler * res unit) :=
  match error with
  | Some e => Some (h, Err ("BFTWS: websocket subscription received error: " +:+ e))
  | None =>
      match QueryMap h !! query with
      | None => Some (h, Err ("BFTWS: websocket subscription received message but no listener, querystring: " +:+ query))
      | Some c =>
          match qhChans h !! c with
          | None => Some (h, Panic)
          | Some ch =>
              if chClosed ch then Some (h, Panic)
              else if Nat.ltb 0 (length (chBuffer ch)) then None
              else
                let h := setChan h c (mkChan [result] false) in
                let count := default 0 (QueryCount h !! query) in
                if count =? 0 then Some (h, Ok tt)
                else
                  let h := mkQueryHandler (QueryMap h) (<[query := count - 1]> (QueryCount h)) (qhChans h) in
                  if negb (count - 1 =? 0) then Some (h, Ok tt)
                  else
                    let h := setChan (mkQueryHandler (delete query (QueryMap h)) (QueryCount h) (qhChans h)) c (mkChan [result] true) in
                    match fails with
                    | Some e => Some (h, Err ("BFTWS: websocket could not unsubscribe, queryString: " +:+ query))
                    | None => Some (mkQueryHandler (QueryMap h) (delete query (QueryCount h)) (qhChans h), Ok tt)
                    end
          end
      end
  end.

Definition DeregisterQuery (h : QueryHandler) (query : string) (fails : option string) : QueryHandler * res unit :=
  match fails with
  | Some e => (h, Err e)
  | None =>
      match QueryMap h !! query with
      | Some c =>
          match qhChans h !! c with
          | Some ch =>
              if chClosed ch then (h, Panic)
              else
                (mkQueryHandler (delete query (QueryMap h)) (delete query (QueryCount h))
                   (<[c := mkChan (chBuffer ch) true]> (qhChans h)), Ok tt)
          | None => (h, Panic)
          end
      | None => (mkQueryHandler (QueryMap h) (delete query (QueryCount h)) (qhChans h), Ok tt)
      end
  end.

(** The goroutine of [register_query] takes one response and publishes it. *)
Definition forwardResponse (h : QueryHandler) (c : nat) : option (QueryHandler * list Z) :=
  match qhChans h !! c with
  | Some (mkChan (response :: buffer) closed) => Some (setChan h c (mkChan buffer closed), response)
  | _ => None
  end.

(** What happens to the queries, a registration, a response that is put into a channel
    and one that is taken out of it, in the order of the lock. *)
Inductive queryEvent := Registered (query : string) (count : Z) | Routed (c : nat) (result : list Z) | Forwarded (c : nat) (result : list Z).

Inductive queryStep : QueryHandler -> list queryEvent -> QueryHandler -> Prop :=
  | query_register h query count fails h' r :
      RegisterQuery h query count fails = (h', r) ->
      queryStep h (match r with Ok _ => [Registered query count] | _ => [] end) h'
  | query_route h query error result fails h' r :
      RouteWSMessage h query error result fails = Some (h', r) ->
      queryStep h (match error, QueryMap h !! query with None, Some c => [Routed c result] | _, _ => [] end) h'
  | query_deregister h query fails h' r :
      DeregisterQuery h query fails = (h', r) -> queryStep h [] h'
  | query_forward h c h' result :
      forwardResponse h c = Some (h', result) -> queryStep h [Forwarded c result] h'.

Inductive queryRun : QueryHandler -> list queryEvent -> Prop :=
  | query_start : queryRun NewQueryHandler []
  | query_next h tr evs h' : queryRun h tr -> queryStep h evs h' -> queryRun h' (tr ++ evs).

End queries.

(** ** The service *)

Section service.
Context {SO : Secp256k1} {TC : TorusCrypto} {TS : TorusSign} {DC : TorusDBCodecs} {LP : LibP2P}.
Context {NL : NodeListContract} {RR : RegisterRange} {BC : BftCodecs} {AC : AbciCodecs} {TR : TendermintRPC}.

(** [tmUp] is [bftRPCWSStatus], which the monitor sets together with the clients. *)
Record TendermintService := mkTendermintService { tmNodeKey : res (list Z); tmUp : bool; tmQueries : QueryHandler }.

Inductive tmRequest := get_node_key | get_status | broadcast (tx : bftTx) | register_query (query : string) (count : Z)
  | deregister_query (query : string) | tm_other (method : string).

Inductive tmData := TmKey (bytes : list Z) | TmStatus (up : bool) | TmHash (hash : list Z) | TmNone.

Definition setQueries (t : TendermintService) (h : QueryHandler) : TendermintService :=
  mkTendermintService (tmNodeKey t) (tmUp t) h.

(** The start of the websocket by the monitor. *)
Definition abciMonitor (t : TendermintService) (started : bool) : TendermintService :=
  if started then mkTendermintService (tmNodeKey t) true (tmQueries t) else t.

(** A broadcast while the clients are down is attempted as often as retry-go does by
    default: [upLater] says whether they come up meanwhile.  A registration whose query
    succeeds gives the channel to forward. *)
Definition TendermintService_Call (t : TendermintService) (n : Net) (nonce : Z) (runeString : Z -> string) (upLater : bool)
    (downError : string) (fails : option string) (w : chainState) (req : tmRequest)
    : TendermintService * res tmData * option nat * chainState :=
  match req with
  | get_node_key => (t, k ← tmNodeKey t; Ok (TmKey k), None, w)
  | get_status => (t, Ok (TmStatus (tmUp t)), None, w)
  | broadcast tx =>
      if tmUp t || upLater then
        let '(r, w) := Broadcast n nonce tx runeString w in (t, h ← r; Ok (TmHash h), None, w)
      else (t, Err downError, None, w)
  | register_query query count =>
      match RegisterQuery (tmQueries t) query count fails with
      | (h, Ok c) => (setQueries t h, Ok TmNone, Some c, w)
      | (h, Err e) => (setQueries t h, Err e, None, w)
      | (h, Panic) => (setQueries t h, Panic, None, w)
      end
  | deregister_query query =>
      let '(h, r) := DeregisterQuery (tmQueries t) query fails in (setQueries t h, _ ← r; Ok TmNone, None, w)
  | tm_other method => (t, Err ("Tendermint service method " +:+ method +:+ " not found"), None, w)
  end.

(** *** The library in front of it *)

Definition forwardTopic (query : string) : string := "tendermint:forward:" +:+ query.

(** [TendermintMethodsImpl.RegisterQuery]: a handler for the topic of the query and the
    request; [response] is the error of the service.  The handler stays when the
    request fails. *)
Definition Tendermint_RegisterQuery {Event} (bus : EventBus Event) (query : string) (handler : nat) (response : option string)
    : EventBus Event * res unit :=
  if HasCallback bus (forwardTopic query) then
    (bus, Err ("Cannot call RegisterQuery on query " +:+ query +:+ " as it already has a handler"))
  else
    (SubscribeAsync bus (forwardTopic query) handler false,
     match response with Some e => Err e | None => Ok tt end).

Definition Tendermint_DeregisterQuery {Event} (bus : EventBus Event) (query : string) (response : option string)
    : EventBus Event * res unit :=
  match UnsubscribeAll bus (forwardTopic query) with
  | Ok bus => (bus, match response with Some e => Err e | None => Ok tt end)
  | Err e => (bus, Err e)
  | Panic => (bus, Panic)
  end.

(** The handler of a registered query: the count of its calls, whether it deregisters,
    and what it sends to the caller. *)
Definition forwardHandler (numOfRes count : Z) (response : option (list Z)) : Z * bool * option (list Z) :=
  let numOfRes := numOfRes + 1 in
  if numOfRes =? count then (numOfRes, true, response)
  else if count <? numOfRes then (numOfRes, false, None)
  else (numOfRes, false, response).

End service.

(** ** The start of the node *)

(** The public keys of Tendermint's library: the compressed form of a point and the
    address of a key. *)
Class TendermintKeys := { SerializeCompressed : Z -> Z -> list Z; KeyAddress : list Z -> list Z }.

(** The first 32 bytes of the padded key. *)
Definition tmPrivateKeyFromBigInt (key : Z) : list Z := take 32 (padPrivKeyBytes (Bytes key)).

Record GenesisValidator := mkGenesisValidator { gvAddress : list Z; gvPubKey : list Z; gvPower : Z }.

Definition comma : Ascii.ascii := ","%char.

Section start.
Context {TK : TendermintKeys}.

Definition rawPointToTMPubKey (X Y : Z) : list Z :=
  let bytes := take 33 (SerializeCompressed X Y) in bytes ++ replicate (33 - length bytes) 0.

(** The validators and the persistent peers that a node starts with. *)
Definition genesisValidators (nodeList : list Ethereum.NodeReference) : res (list GenesisValidator) :=
  mapM (fun n =>
    pk ← deref (Ethereum.nrPublicKey n);
    let pubkeyBytes := rawPointToTMPubKey (PX pk) (PY pk) in
    Ok (mkGenesisValidator (KeyAddress pubkeyBytes) pubkeyBytes 1)) nodeList.

Definition PersistentPeers (nodeList : list Ethereum.NodeReference) : string :=
  Join (Ethereum.nrTMP2PConnection <$> nodeList) comma.

End start.
