(* ===== verification/Rpc.v ===== *)
(** The requests users and other nodes send to a node over JSON-RPC
    (src/dkgnode/jrpc_handlers.go, handlers.go): a handler reads the replicated
    application, the node's database, the cache of commitments and the verifiers,
    and answers or fails.

    The node lists, the node's own keys, signatures as torus-common makes them,
    encryption of shares, the serialisation and Tendermint are parameters; the
    current time is an argument. *)
From Stdlib Require Import ZArith.
From stdpp Require Import gmap strings.
From S2P Require Import Prelude BigInt Field Curve Pvss Ecdsa Ids Effects Keygen Mapping Dealer GoTime Auth Cache PssTypes Torusdb Library Bft Abci.

(** ** Outcomes: a result, a JSON-RPC error, or a panic *)

Record jrpcError := mkJrpcError { jeCode : Z; jeMessage : string; jeData : string }.

Inductive reply (A : Type) : Type :=
  | Reply (a : A)
  | Failed (e : jrpcError)
  | Died.

Arguments Reply {A} a.
Arguments Failed {A} e.
Arguments Died {A}.

#[global] Instance reply_bind : MBind reply := fun A B f m =>
  match m with
  | Reply a => f a
  | Failed e => Failed e
  | Died => Died
  end.

Definition inputError (d : string) : jrpcError := mkJrpcError (-32602) "Input error" d.
Definition internal602 (d : string) : jrpcError := mkJrpcError (-32602) "Internal error" d.
Definition internal603 (d : string) : jrpcError := mkJrpcError (-32603) "Internal error" d.
Definition validationError (d : string) : jrpcError := mkJrpcError (-32602) "validation error" d.

(** A call whose error becomes the answer's. *)
Definition try {A} (m : res A) (e : string -> jrpcError) : reply A :=
  match m with
  | Ok a => Reply a
  | Err s => Failed (e s)
  | Panic => Died
  end.

Definition demand (b : bool) (e : jrpcError) : reply unit := if b then Reply tt else Failed e.

(** ** Data (handlers.go, abci_app.go) *)

Record ConnectionDetailsMessage := mkConnectionDetailsMessage {
  cmTimestamp : string;
  cmMessage : string;
  cmNodeAddress : list Z;
}.
Record ConnectionDetailsParams := mkConnectionDetailsParams {
  cpPubKey : Point;
  cpMessage : ConnectionDetailsMessage;
  cpSignature : list Z;
}.

Record CommitmentRequestParams := mkCommitmentRequestParams {
  rpMessagePrefix : string;
  rpTokenCommitment : string;
  rpTempPubX : string;
  rpTempPubY : string;
  rpVerifierIdentifier : string;
}.
Record CommitmentRequestResultData := mkCommitmentRequestResultData {
  rdMessagePrefix : string;
  rdTokenCommitment : string;
  rdTempPubX : string;
  rdTempPubY : string;
  rdVerifierIdentifier : string;
  rdTimeSigned : string;
}.
Record CommitmentRequestResult := mkCommitmentRequestResult {
  crSignature : string;
  crData : string;
  crNodePubX : string;
  crNodePubY : string;
}.

Record NodeSignature := mkNodeSignature {
  nsSignature : string;
  nsData : string;
  nsNodePubKeyX : string;
  nsNodePubKeyY : string;
}.
Record ValidatedNodeSignature := mkValidatedNodeSignature { vnSignature : NodeSignature; vnNodeIndex : Z }.

Record ShareRequestParams := mkShareRequestParams { spItem : list (list Z) }.
Record ShareRequestItem := mkShareRequestItem {
  siIDToken : string;
  siNodeSignatures : list NodeSignature;
  siVerifierIdentifier : string;
}.

Record KeyAssignParams := mkKeyAssignParams { kpVerifier : string; kpVerifierID : string }.
Record KeyAssignItem := mkKeyAssignItem { kiKeyIndex : string; kiPubKey : Point; kiAddress : string }.
Record VerifierLookupParams := mkVerifierLookupParams { lpVerifier : string; lpVerifierID : string }.
Record KeyLookupParams := mkKeyLookupParams { lkPubKey : Point }.
Record DealerResult := mkDealerResult { drCode : Z; drMessage : string }.

(** torus-common's signature. *)
Record Signature := mkSignature { sgRaw : list Z; sgHash : list Z; sgR : list Z; sgS : list Z; sgV : Z }.

(** ** Parameters *)

(** The values of a JSON object, the metadata of an encryption, and the rest of
    the node. *)
Class RpcEnv := {
  JsonValue : Type;
  EciesMetadata : Type;
  AwaitCompleteNodeList : Z -> list NodeReference;
  GetSelfPrivateKey : Z;
  GetSelfPublicKey : Point;
  GetSelfAddressHex : string;
  GetTMP2PConnection : string;
  GetP2PConnection : string;
  IsDebug : bool;
  EncryptShares : bool;
  AddressString : list Z -> string;
  SignData : list Z -> Z -> Signature;
  SigToHex : Signature -> string;
  HexToSig : string -> Signature;
  IsValidSignature : Point -> Signature -> bool;
  Encrypt : string -> list Z -> res (list Z * option EciesMetadata);
  BroadcastAssignment : AssignmentBFTTx -> res string;
  BroadcastDealer : Message -> res string;
  RegisterQuery : string -> option string;
  eventQuery : list Z -> string;
  eventTxResult : list Z -> Z * bool;
}.

Record KeyAssignment `{RpcEnv} := mkKeyAssignment {
  keKeyAssignmentPublic : KeyAssignmentPublic;
  keShare : list Z;
  keMetadata : option EciesMetadata;
}.

Class RpcCodecs `{RpcEnv} := {
  codec_connection_params :: Codec ConnectionDetailsParams;
  codec_commitment_params :: Codec CommitmentRequestParams;
  codec_share_params :: Codec ShareRequestParams;
  codec_share_item :: Codec ShareRequestItem;
  codec_json_map :: Codec (gmap string JsonValue);
  codec_key_assign_params :: Codec KeyAssignParams;
  codec_verifier_lookup_params :: Codec VerifierLookupParams;
  codec_key_lookup_params :: Codec KeyLookupParams;
  codec_update_share :: Codec MsgUpdateShare;
  codec_update_commitment :: Codec MsgUpdateCommitment;
}.

(** The services of the node the handlers call. *)
Record RpcNode `{GoCache} := mkRpcNode {
  rnApp : App;
  rnDB : TorusLDB;
  rnCache : CacheService;
  rnVerifier : DefaultGeneralVerifier;
}.

Definition setCache `{GoCache} (n : RpcNode) (c : CacheService) : RpcNode :=
  mkRpcNode _ (rnApp n) (rnDB n) c (rnVerifier n).
Definition setDB `{GoCache} (n : RpcNode) (db : TorusLDB) : RpcNode :=
  mkRpcNode _ (rnApp n) db (rnCache n) (rnVerifier n).

(** ** Texts *)

Definition CommitmentRequestParams_ToString (p : CommitmentRequestParams) : string :=
  Join [rpMessagePrefix p; rpTokenCommitment p; rpTempPubX p; rpTempPubY p; rpVerifierIdentifier p] Delimiter1.

Definition CommitmentRequestResultData_ToString (c : CommitmentRequestResultData) : string :=
  Join [rdMessagePrefix c; rdTokenCommitment c; rdTempPubX c; rdTempPubY c; rdVerifierIdentifier c; rdTimeSigned c]
    Delimiter1.

(** Fields after the sixth are ignored. *)
Definition CommitmentRequestResultData_FromString (data : string) : res CommitmentRequestResultData :=
  match Split data Delimiter1 with
  | a :: b :: c :: d :: e :: f :: _ => Ok (mkCommitmentRequestResultData a b c d e f)
  | _ => Err "Could not parse commitmentrequestresultdata"
  end.

(** A text that does not parse leaves the zero data. *)
Definition resultData (data : string) : CommitmentRequestResultData :=
  match CommitmentRequestResultData_FromString data with
  | Ok c => c
  | _ => mkCommitmentRequestResultData "" "" "" "" "" ""
  end.

(** What nodes must have signed alike. *)
Definition commonPart (data : string) : string :=
  let c := resultData data in
  Join [rdMessagePrefix c; rdTokenCommitment c; rdVerifierIdentifier c] Delimiter1.

(** [fmt.Sprintf("%064s", s)]. *)
Definition pad064 (s : string) : string :=
  unchars (replicate (64 - length (chars s))%nat "0"%char ++ chars s).

Section rpc.
Context {SO : Secp256k1} {TC : TorusCrypto} {NC : NodeConfig} {SV : Services} {MR : MapRange}.
Context {KC : KeygenCodecs} {MC : MappingCodecs} {BC : BftCodecs} {ABC : AbciCodecs}.
Context {DC : TorusDBCodecs} {WB : Web} {CF : AuthConfig} {AUC : AuthCodecs} {GC : GoCache}.
Context {RE : RpcEnv} {RC : RpcCodecs}.

Definition errParams : jrpcError := mkJrpcError (-32602) "Invalid params" EmptyString.

(** [jsonrpc.Unmarshal] of the parameters. *)
Definition parseParams {A} `{Codec A} (params : list Z) : reply A :=
  match Unmarshal params with Some p => Reply p | None => Failed errParams end.

Definition ConnectionDetailsMessage_String (c : ConnectionDetailsMessage) : string :=
  Join [cmTimestamp c; cmMessage c; AddressString (cmNodeAddress c)] Delimiter1.

(** Whether the message is valid, and the error; an expired message comes with
    no error. *)
Definition ConnectionDetailsMessage_Validate (now : Z * Z) (c : ConnectionDetailsMessage) (pubKey : Point)
    (sig : list Z) : res bool :=
  if negb (cmMessage c =? "ConnectionDetails")%string then Err "message is not ConnectionDetails"
  else match Atoi (cmTimestamp c) with
       | None => Err "could not parse time signed"
       | Some unixTime =>
           if timeBefore (timeAdd (timeUnix unixTime 0) (10 * Minute)) now then Ok false
           else ECDSAVerify (stringBytes (ConnectionDetailsMessage_String c)) pubKey sig
       end.

(** The last node of the current list with the keys. *)
Definition NodeValidation (nodeSig : NodeSignature) : res NodeReference :=
  let nodeList := AwaitCompleteNodeList GetCurrentEpoch in
  let named n := (Text16 (PX (nrPublicKey n)) =? nsNodePubKeyX nodeSig)%string
              && (Text16 (PY (nrPublicKey n)) =? nsNodePubKeyY nodeSig)%string in
  match list.last (filter (fun n => named n = true) nodeList) with
  | None => Err "Node not found for nodeSig"
  | Some node =>
      let recSig := HexToSig (nsSignature nodeSig) in
      let sig32 := take 32 (Keccak256 (stringBytes (nsData nodeSig))) in
      let recoveredSig := mkSignature (sgRaw recSig) sig32 (sgR recSig) (sgS recSig) ((sgV recSig - 27) mod 256) in
      if IsValidSignature (nrPublicKey node) recoveredSig then Ok node
      else Err "Could not validate ecdsa signature"
  end.

(** The Ethereum service compares with the key the node's database has for the
    address. *)
Definition ValidateEpochPubKey (db : TorusLDB) (nodeAddress : list Z) (pubK : Point) : bool :=
  match Database_RetrieveNodePubKey db nodeAddress with
  | Ok pubKey => samePoint pubKey pubK
  | _ => false
  end.

(** ** Commitments *)

Definition CommitmentRequest (now : Z * Z) (n : RpcNode) (params : list Z)
    : RpcNode * reply CommitmentRequestResult :=
  match parseParams (A := CommitmentRequestParams) params with
  | Failed e => (n, Failed e)
  | Died => (n, Died)
  | Reply p =>
      if negb (rpMessagePrefix p =? "mug00")%string then (n, Failed (internal603 "Incorrect message prefix"))
      else
        let '(c, found) := tokenCommitExists (nanos now) (rnCache n) (rpVerifierIdentifier p) (rpTokenCommitment p) in
        if found && negb IsDebug then (setCache n c, Failed (internal603 "Duplicate token found"))
        else
          let tempPubKey := mkPoint (HexToBigInt (rpTempPubX p)) (HexToBigInt (rpTempPubY p)) in
          let c := recordTokenCommit (nanos now) c (rpVerifierIdentifier p) (rpTokenCommitment p) tempPubKey in
          let data := mkCommitmentRequestResultData (rpMessagePrefix p) (rpTokenCommitment p) (rpTempPubX p)
                        (rpTempPubY p) (rpVerifierIdentifier p) (Itoa (int64 (fst now - unixToInternal))) in
          let text := CommitmentRequestResultData_ToString data in
          (setCache n c,
           Reply (mkCommitmentRequestResult (SigToHex (SignData (stringBytes text) GetSelfPrivateKey)) text
                    (Text16 (PX GetSelfPublicKey)) (Text16 (PY GetSelfPublicKey))))
  end.

Definition Ping : reply string := Reply GetSelfAddressHex.

Definition ConnectionDetailsRequest (now : Z * Z) (n : RpcNode) (params : list Z) : reply ConnectionDetails :=
  p ← parseParams (A := ConnectionDetailsParams) params;
  _ ← demand (ValidateEpochPubKey (rnDB n) (cmNodeAddress (cpMessage p)) (cpPubKey p))
        (internal602 "Invalid pub key for provided epoch");
  valid ← try (ConnectionDetailsMessage_Validate now (cpMessage p) (cpPubKey p) (cpSignature p))
            (fun e => internal602 ("Could not validate connection details message, err: " ++ e));
  _ ← demand valid (internal602 "invalid connection details message");
  Reply (mkConnectionDetails GetTMP2PConnection GetP2PConnection).

(** ** Shares *)

(** What the loop over the items of a share request collects. *)
Record shareAcc := mkShareAcc {
  saCache : CacheService;
  allKeyIndexes : gmap string Z;
  allValidVerifierIDs : gmap string bool;
  saPubKey : Point;
}.

(** The signatures of nodes of the current list. *)
Definition validSignatures (sigs : list NodeSignature) : list ValidatedNodeSignature :=
  omap (fun s => match NodeValidation s with
                 | Ok node => Some (mkValidatedNodeSignature s (nrIndex node))
                 | _ => None
                 end) sigs.

Definition commonDataMap (sigs : list ValidatedNodeSignature) : gmap string Z :=
  foldl (fun m s => let d := commonPart (nsData (vnSignature s)) in <[d := default 0 (m !! d) + 1]> m) ∅ sigs.

(** [commonDataCount] stays zero, so the last key of the range is taken. *)
Definition commonDataString (sigs : list ValidatedNodeSignature) : string :=
  let commonDataCount := 0 in
  foldl (fun s '(k, v) => if commonDataCount <? v then k else s) EmptyString (mapRange 61 (commonDataMap sigs)).

(** One item of the request: a token, its verifier and the nodes that signed its
    commitment. *)
Definition shareItem (now : Z * Z) (n : RpcNode) (numberOfThresholdNodes : Z) (acc : shareAcc) (rawItem : list Z)
    : reply shareAcc :=
  match Unmarshal (A := ShareRequestItem) rawItem with
  | None => Failed (internal602 "Error occurred while parsing sharerequestitem")
  | Some item =>
  match Unmarshal (A := gmap string JsonValue) rawItem with
  | None => Failed (internal602 "Error occurred while parsing jsonmap")
  | Some jsonMap =>
  redactedRawItem ← try (marshal (delete "nodesignatures" jsonMap))
                      (fun e => internal602 ("Error occurred while marshalling" ++ e));
  v ← try (Verify (rnVerifier n) now redactedRawItem)
        (fun e => internal602 ("Error occurred while verifying params" ++ e));
  let '(verified, verifierID) := v in
  _ ← demand verified (internal602 "Could not verify params");
  let valid := validSignatures (siNodeSignatures item) in
  _ ← demand (numberOfThresholdNodes <=? Z.of_nat (length valid)) (internal602 "Not enough valid signatures");
  let common := commonDataString valid in
  let validCommon := filter (fun s => (commonPart (nsData (vnSignature s)) =? common)%string = true) valid in
  _ ← demand (numberOfThresholdNodes <=? Z.of_nat (length validCommon))
        (internal602 "Not enough valid signatures on the same data");
  match Split common Delimiter1 with
  | [_; commonTokenCommitment; commonVerifierIdentifier] =>
      cleanedToken ← try (cleanToken (rnVerifier n) commonVerifierIdentifier (siIDToken item))
                       (fun e => internal602 ("Error when cleaning token " ++ e));
      _ ← demand (HexEncode (Keccak256 (stringBytes cleanedToken)) =? commonTokenCommitment)%string
            (internal602 "Token commitment and token are not compatible");
      keyIndexes ← try (getIndexesFromVerifierID (rnApp n) commonVerifierIdentifier verifierID)
                     (fun e => internal603 ("share request could not retrieve keyIndexes: " ++ e));
      let '(c, pubKey) := getTokenCommitKey (nanos now) (saCache acc) commonVerifierIdentifier commonTokenCommitment in
      Reply (mkShareAcc c
               (foldl (fun m index => <[Text16 index := index]> m) (allKeyIndexes acc) keyIndexes)
               (<[Join [siVerifierIdentifier item; verifierID] Delimiter1 := true]> (allValidVerifierIDs acc))
               pubKey)
  | _ => Failed (internal602 "Could not parse common data")
  end
  end
  end.

(** What a failing item leaves is what the items before it collected. *)
Fixpoint shareItems (now : Z * Z) (n : RpcNode) (numberOfThresholdNodes : Z) (acc : shareAcc)
    (items : list (list Z)) : shareAcc * reply unit :=
  match items with
  | [] => (acc, Reply tt)
  | rawItem :: rest =>
      match shareItem now n numberOfThresholdNodes acc rawItem with
      | Reply acc' => shareItems now n numberOfThresholdNodes acc' rest
      | Failed e => (acc, Failed e)
      | Died => (acc, Died)
      end
  end.

(** The entries of an access structure, as the keys of [allValidVerifierIDs]. *)
Definition accessEntries (a : KeyAssignmentPublic) : list string :=
  mapRange 62 (default ∅ (kaVerifiers a)) ≫= fun '(verifieridentifier, verifierIDs) =>
    (fun verifierID => Join [verifieridentifier; verifierID] Delimiter1) <$> default [] verifierIDs.

Definition validCount (valid : gmap string bool) (a : KeyAssignmentPublic) : Z :=
  foldl (fun count entry =>
    foldl (fun count '(verifierStrings, _) => if (entry =? verifierStrings)%string then count + 1 else count)
      count (mapRange 63 valid)) 0 (accessEntries a).

Definition encryptShare (pubKey : Point) (ke : KeyAssignment) : reply KeyAssignment :=
  if EncryptShares then
    let pubKeyHex := ("04" ++ pad064 (Text16 (PX pubKey)) ++ pad064 (Text16 (PY pubKey)))%string in
    r ← try (Encrypt pubKeyHex (keShare ke)) (fun e => internal603 ("could not encrypt shares with err: " ++ e));
    let '(encrypted, metadata) := r in
    match metadata with
    | None => Failed (internal603 "could not encrypt shares, metadata nil")
    | Some _ => Reply (mkKeyAssignment _ (keKeyAssignmentPublic ke) encrypted metadata)
    end
  else Reply ke.

(** The share of one key index, if its access structure is satisfied. *)
Definition shareOf (n : RpcNode) (acc : shareAcc) (keys : list KeyAssignment) (index : Z)
    : reply (list KeyAssignment) :=
  a ← try (retrieveKeyMapping (rnApp n) index) (fun e => internal603 ("could not retrieve access structure: " ++ e));
  s ← try (Database_RetrieveCompletedShare (rnDB n) index) (fun _ => internal603 "could not retrieve completed share");
  if kaThreshold a <=? validCount (allValidVerifierIDs acc) a then
    ke ← encryptShare (saPubKey acc) (mkKeyAssignment _ a (Bytes (fst s)) None);
    Reply (keys ++ [ke])
  else Reply keys.

Fixpoint foldReply {A B} (f : B -> A -> reply B) (b : B) (l : list A) : reply B :=
  match l with
  | [] => Reply b
  | a :: l' => b' ← f b a; foldReply f b' l'
  end.

Definition ShareRequest (now : Z * Z) (n : RpcNode) (params : list Z) : RpcNode * reply (list KeyAssignment) :=
  match GetEpochInfo GetCurrentEpoch with
  | None => (n, Failed (internal602 "Error occurred while current epoch"))
  | Some (K, _) =>
      match parseParams (A := ShareRequestParams) params with
      | Failed e => (n, Failed e)
      | Died => (n, Died)
      | Reply p =>
          let '(acc, r) := shareItems now n (int64 K) (mkShareAcc (rnCache n) ∅ ∅ PointO) (spItem p) in
          (setCache n (saCache acc),
           _ ← r; foldReply (shareOf n acc) [] (sortIndexes (mapRange 64 (allKeyIndexes acc)).*2))
      end
  end.

(** ** Assignment *)

(** The loop over the answers of the websocket, until one for this query arrives
    whose result is not a failure; when there are no more the request times out.
    [err] is the error of the last call, [tmp] the error that will be returned. *)
Fixpoint awaitTx (query : string) (err : bool) (tmp : option jrpcError) (events : list (list Z)) : option jrpcError :=
  match events with
  | [] => Some (internal603 "key assignment error: timed out")
  | e :: rest =>
      let tmp := if err then Some (internal603 "unable to parse websocket tm response") else tmp in
      if negb (eventQuery e =? query)%string then awaitTx query err tmp rest
      else
        let '(code, unmarshalErr) := eventTxResult e in
        if negb (code =? 0) then awaitTx query unmarshalErr tmp rest else tmp
  end.

(** [answers query] is what the websocket sends before the deadline.  A query
    that could not be registered has a channel nothing is sent to. *)
Definition Rpc_assignKey (tgv : DefaultGeneralVerifier) (answers : string -> list (list Z))
    (verifier verifierID : string) : reply unit :=
  _ ← demand (negb (verifierID =? "")%string) (inputError "VerifierID is empty");
  _ ← demand (existsb (fun v => (v =? verifier)%string) (ListVerifiers tgv)) (inputError "Verifier not supported");
  hash ← try (BroadcastAssignment (mkAssignmentBFTTx verifier verifierID))
           (fun e => internal603 ("Unable to broadcast: " ++ e));
  let query := ("tx.hash='" ++ hash ++ "'")%string in
  let events := match RegisterQuery query with Some _ => [] | None => answers query end in
  match awaitTx query false None events with
  | Some e => Failed e
  | None => Reply tt
  end.

Definition keyItem (index : Z) (pk : Point) : KeyAssignItem := mkKeyAssignItem (Text16 index) pk (PointToEthAddressHex pk).

Definition retrieveKeysFromVerifierID (n : RpcNode) (verifier verifierID : string) : reply (list KeyAssignItem) :=
  keyIndexes ← try (getIndexesFromVerifierID (rnApp n) verifier verifierID)
                 (fun e => internal603 ("Unable to retieve keyIndexes error: " ++ e));
  foldReply (fun keys index =>
    pk ← try (Database_RetrieveIndexToPublicKey (rnDB n) index)
           (fun e => mkJrpcError (-32603) ("Could not find address to key index error: " ++ e) EmptyString);
    Reply (keys ++ [keyItem index pk])) [] keyIndexes.

(** [after] is the node once the assignment is answered. *)
Definition KeyAssign (n after : RpcNode) (answers : string -> list (list Z)) (params : list Z)
    : reply (list KeyAssignItem) :=
  p ← parseParams (A := KeyAssignParams) params;
  _ ← Rpc_assignKey (rnVerifier n) answers (kpVerifier p) (kpVerifierID p);
  retrieveKeysFromVerifierID after (kpVerifier p) (kpVerifierID p).

(** ** Look-ups *)

Definition VerifierLookup (n : RpcNode) (params : list Z) : reply (list KeyAssignItem) :=
  p ← parseParams (A := VerifierLookupParams) params;
  _ ← demand (negb (lpVerifierID p =? "")%string) (inputError "VerifierID is empty");
  _ ← demand (existsb (fun v => (v =? lpVerifier p)%string) (ListVerifiers (rnVerifier n)))
        (inputError "Verifier not supported");
  keyIndexes ← try (getIndexesFromVerifierID (rnApp n) (lpVerifier p) (lpVerifierID p))
                 (fun e => mkJrpcError (-32602) "Input Error"
                             ("Verifier + VerifierID has not yet been assigned " ++ e));
  foldReply (fun keys index =>
    a ← try (retrieveKeyMapping (rnApp n) index)
          (fun e => mkJrpcError (-32603) ("Could not find address to key index error: " ++ e) EmptyString);
    Reply (keys ++ [keyItem index (kaPublicKey a)])) [] keyIndexes.

Definition KeyLookup (n : RpcNode) (params : list Z) : reply KeyAssignmentPublic :=
  p ← parseParams (A := KeyLookupParams) params;
  _ ← demand (negb ((Text16 (PX (lkPubKey p)) =? "0")%string || (Text16 (PY (lkPubKey p)) =? "0")%string))
        (inputError "pubkey is empty");
  keyIndex ← try (Database_RetrievePublicKeyToIndex (rnDB n) (lkPubKey p))
               (fun _ => inputError "no log of public key");
  try (retrieveKeyMapping (rnApp n) keyIndex) (fun _ => inputError "no key assignment found for public key").

(** ** Dealer messages, whose methods are not registered *)

(** The envelope, checked against the key the database has for its index. *)
Definition dealerEnvelope (n : RpcNode) (params : list Z) (invalid : jrpcError) : reply Message :=
  dealerMessage ← parseParams (A := Message) params;
  existingPubKey ← try (Database_RetrieveIndexToPublicKey (rnDB n) (dmKeyIndex dealerMessage))
                     (fun e => mkJrpcError (-32602) e "error while getting the existing public key");
  _ ← demand (Message_Validate dealerMessage existingPubKey) invalid;
  Reply dealerMessage.

Definition UpdatePublicKey (n : RpcNode) (params : list Z) : reply DealerResult :=
  dealerMessage ← dealerEnvelope n params (validationError "invalid dealer message");
  _ ← try (BroadcastDealer dealerMessage)
        (fun e => mkJrpcError (-32602) e "error while doing the tendermint broadcast");
  Reply (mkDealerResult 200 "public key updated").

Definition storeDB (n : RpcNode) (r : TorusLDB * option string) (e : string) (ok : DealerResult)
    : RpcNode * reply DealerResult :=
  let '(db, err) := r in
  (setDB n db, match err with Some s => Failed (mkJrpcError (-32602) s e) | None => Reply ok end).

Definition UpdateShare (now : Z * Z) (n : RpcNode) (params : list Z) : RpcNode * reply DealerResult :=
  match dealerEnvelope n params (validationError "Invalid dealer message") with
  | Failed e => (n, Failed e)
  | Died => (n, Died)
  | Reply dealerMessage =>
      match Unmarshal (A := MsgUpdateShare) (dmData dealerMessage) with
      | None => (n, Failed (mkJrpcError (-32602) errUnmarshal
                              "error while unmarshalling dealerMessage.Data into dealer.MsgUpdateShare"))
      | Some m =>
          if negb (MsgUpdateShare_Validate now m) then (n, Failed (validationError "invalid dealer.MsgUpdateShare"))
          else storeDB n (Database_StoreCompletedPSSShare (rnDB n) (usKeyIndex m) (usSi m) (usSiprime m))
                 "error while storing completed PSS share" (mkDealerResult 200 "share updated")
      end
  end.

Definition UpdateCommitment (now : Z * Z) (n : RpcNode) (params : list Z) : RpcNode * reply DealerResult :=
  match dealerEnvelope n params (mkJrpcError (-32602) "public Key Validation error" "invalid public key") with
  | Failed e => (n, Failed e)
  | Died => (n, Died)
  | Reply dealerMessage =>
      match Unmarshal (A := MsgUpdateCommitment) (dmData dealerMessage) with
      | None => (n, Failed (mkJrpcError (-32602) errUnmarshal
                              "error while unmarshalling the dealerMessage.Data into MsgUpdateCommitment"))
      | Some m =>
          if negb (MsgUpdateCommitment_Validate now m)
          then (n, Failed (validationError "invalid dealer.MsgUpdateCommitment"))
          else storeDB n (Database_StorePSSCommitmentMatrix (rnDB n) (ucKeyIndex m) (ucCommitment m))
                 "error while storing the commitment matrix" (mkDealerResult 200 "commitment updated!")
      end
  end.

(** For testing. *)
Definition ShareCount (n : RpcNode) : res Z := Database_GetShareCount (rnDB n).

End rpc.
