(* ===== verification/AbciProps.v ===== *)
(** What the replicated application achieves: an assignment hands out the next key
    and files it, the index counters stay in order, a missing key does not stop
    the assignments, a confirmed freeze does, what a block accepts the mempool
    accepts, and a restart finds the last committed state. *)
From Stdlib Require Import ZArith.
From stdpp Require Import gmap strings sorting relations.
From S2P Require Import Prelude BigInt Field Curve Pvss Avss Nizkpk Ecdsa Ids Effects Keygen Mapping Dealer PssTypes Bft BftProps Abci.

(** What a reader of the serialised state gets: the source excludes [BlockTime] from it
    by its tag, so it comes back as the zero time. *)
Definition withoutBlockTime (s : State) : State := setBlock s 0 (sNewKeyAssignments s).

(** The serialisation of what a commit writes: it never fails, never gives nothing, and
    is read back, the state without its block time. *)
Class AbciCodecLaws `{AbciCodecs} := {
  Unmarshal_state (s : State) b : Marshal s = Some b -> Unmarshal b = Some (withoutBlockTime s);
  law_info :: CodecLaws AppInfo;
  Marshal_state_total (s : State) : exists x b, Marshal s = Some (x :: b);
  Marshal_info_total (i : AppInfo) : exists b, Marshal i = Some b;
}.

Section abci.
Context {SO : Secp256k1} {TC : TorusCrypto} {NC : NodeConfig} {SV : Services} {MR : MapRange}.
Context {KC : KeygenCodecs} {MC : MappingCodecs} {BC : BftCodecs} {AC : AbciCodecs}.

(** ** The application as a transition system *)

(** A call of Tendermint that may change the application; a call that stops the
    process has no successor. *)
Inductive abciStep : App -> App -> Prop :=
  | step_begin app time : abciStep app (BeginBlock app time)
  | step_deliver now app tx app' acts r :
      DeliverTx now app tx = (app', acts, r) -> r <> Stopped -> abciStep app app'
  | step_commit app app' hash : Commit app = Ok (app', hash) -> abciStep app app'.

(** Between two commits. *)
Inductive blockStep : App -> App -> Prop :=
  | block_begin app time : blockStep app (BeginBlock app time)
  | block_deliver now app tx app' acts r :
      DeliverTx now app tx = (app', acts, r) -> blockStep app app'.

(** An assignment for anyone, whoever has signed it. *)
Definition isAssignment (tx : list Z) : Prop := exists w a,
  Unmarshal (A := DefaultBFTTxWrapper) tx = Some w /\ wrMsgType w = 1 /\
  Unmarshal (A := AssignmentBFTTx) (wrBFTTx w) = Some a.

Definition deliverAll (now : Z * Z) (app : App) (txs : list (list Z)) : App :=
  foldl (fun app tx => fst (fst (DeliverTx now app tx))) app txs.

(** ** Lemmas *)

(** Authentication accepts whatever can be parsed, with the zero sender when the
    signature is wrong: the method that calls it drops its error. *)
Lemma authentication_accepts tx w :
  Unmarshal (A := DefaultBFTTxWrapper) tx = Some w -> exists sender, authenticateBftTx tx = Ok (w, sender) /\
    (VerifyPtFromRaw (GetSerializedBody w) (wrPubKey w) (default [] (wrSignature w)) = false ->
     sender = NodeZero).
Proof.
  unfold authenticateBftTx, VerifyDataWithEpoch. intros ->. eexists. split; [reflexivity|].
  unfold verifyDataWithEpoch. intros Hv. repeat case_match; simpl in *; by rewrite ?Hv in *.
Qed.

Lemma deliver_assignment now app tx K T :
  thresholds = Passed (K, T) -> isAssignment tx -> exists a raw,
  Unmarshal (A := AssignmentBFTTx) raw = Some a /\
  DeliverTx now app tx = (let '(app', acts, r) := assignmentRule K T app raw in
    (app', acts, match r with Passed tags => RespOK tags | Rejected _ => Unauthorized | Crashed => Stopped end)).
Proof.
  intros HK (w & a & Ew & Em & Ea). destruct (authentication_accepts tx w Ew) as (sender & E & _).
  exists a, (wrBFTTx w). split; [done|]. unfold DeliverTx, ValidateAndUpdateAndTagBFTTx.
  by rewrite E, HK, Em.
Qed.

Lemma assignmentRule_open K T app raw a :
  assignmentOpen K T (appState app) = Passed tt -> Unmarshal (A := AssignmentBFTTx) raw = Some a ->
  sLastUnassignedIndex (appState app) < sLastCreatedIndex (appState app) ->
  assignmentRule K T app raw = (let '(app', r) := assignKey app a in (app', [], r)).
Proof.
  unfold assignmentRule, unmarshal. intros -> -> Hl. simpl. by destruct (Z.leb_spec (sLastCreatedIndex (appState app))
    (sLastUnassignedIndex (appState app))); [lia|].
Qed.

Lemma setState_twice app s s' : setState (setState app s) s' = setState app s'.
Proof. done. Qed.

Lemma setState_same app : setState app (appState app) = app.
Proof. by destruct app. Qed.

(** *** A missing key *)

Definition missingKey (s : State) : Prop :=
  PX (kpGS (pubKeyOf s (nextDKGID s))) = 0 \/ PY (kpGS (pubKeyOf s (nextDKGID s))) = 0.

Lemma assignKey_missing app a :
  missingKey (appState app) -> 0 <= sConsecutiveFailedPubKeyAssigns (appState app) < MaxFailedPubKeyAssigns ->
  exists e, assignKey app a =
    (setState app (setFailed (appState app) (sConsecutiveFailedPubKeyAssigns (appState app) + 1)), Rejected e).
Proof.
  unfold missingKey, assignKey, MaxFailedPubKeyAssigns. intros Hm Hc.
  destruct (Z.eqb_spec (sConsecutiveFailedPubKeyAssigns (appState app)) 100); [lia|].
  replace (_ || _) with true by (destruct Hm as [-> | ->]; by rewrite ?orb_true_r).
  rewrite uint64_id by (unfold in_uint64; lia). eauto.
Qed.

Lemma deliver_missing now K T app tx :
  thresholds = Passed (K, T) -> assignmentOpen K T (appState app) = Passed tt ->
  sLastUnassignedIndex (appState app) < sLastCreatedIndex (appState app) -> missingKey (appState app) ->
  0 <= sConsecutiveFailedPubKeyAssigns (appState app) < MaxFailedPubKeyAssigns -> isAssignment tx ->
  DeliverTx now app tx = (setState app (setFailed (appState app)
    (sConsecutiveFailedPubKeyAssigns (appState app) + 1)), [], Unauthorized).
Proof.
  intros HK Ho Hl Hm Hc Ht. destruct (deliver_assignment now app tx K T HK Ht) as (a & raw & Ea & ->).
  rewrite (assignmentRule_open K T app raw a Ho Ea Hl). by destruct (assignKey_missing app a Hm Hc) as [e ->].
Qed.

Lemma deliverAll_missing now K T txs : forall app,
  thresholds = Passed (K, T) -> assignmentOpen K T (appState app) = Passed tt ->
  sLastUnassignedIndex (appState app) < sLastCreatedIndex (appState app) ->
  missingKey (appState app) -> 0 <= sConsecutiveFailedPubKeyAssigns (appState app) ->
  sConsecutiveFailedPubKeyAssigns (appState app) + Z.of_nat (length txs) <= MaxFailedPubKeyAssigns ->
  Forall isAssignment txs ->
  deliverAll now app txs = setState app (setFailed (appState app)
    (sConsecutiveFailedPubKeyAssigns (appState app) + Z.of_nat (length txs))).
Proof.
  unfold MaxFailedPubKeyAssigns. induction txs as [|tx txs IH]; intros app HK Ho Hl Hm H0 Hc Htx.
  - simpl. rewrite Z.add_0_r. by destruct app as [? [] ? ?].
  - apply list.Forall_cons in Htx as [Ht Htx]. simpl in Hc. unfold deliverAll. simpl.
    rewrite (deliver_missing now K T app tx HK Ho Hl Hm) by (unfold MaxFailedPubKeyAssigns; lia || done). simpl.
    etrans; [apply (IH (setState app (setFailed (appState app)
      (sConsecutiveFailedPubKeyAssigns (appState app) + 1)))); try done; simpl; lia|].
    simpl. unfold setState, setFailed. simpl. do 2 f_equal. lia.
Qed.

(** *** Runs *)

Context {BL : BftCodecLaws} {ML : MapRangeLaws} {AL : AbciCodecLaws}.

Lemma deliver_ok now app tx app' acts r : DeliverTx now app tx = (app', acts, r) -> okStep app app'.
Proof.
  unfold DeliverTx. destruct (authenticateBftTx tx) as [[w sender]| |]; try (intros [= <- _ _]; apply okStep_refl).
  pose proof (rules_ok now app (wrBFTTx w) (wrMsgType w) sender) as H.
  destruct (ValidateAndUpdateAndTagBFTTx _ _ _ _ _) as [[app1 acts1] r1]. by intros [= <- _ _].
Qed.

Lemma Commit_Ok app : exists b app',
  Marshal (appState app) = Some b /\ Commit app = Ok (app', Keccak256 b) /\
  appState app' = appState app /\ appLaggingState app' = withoutBlockTime (appState app) /\
  appInfo app' = mkAppInfo (int64 (Height (appInfo app) + 1)) (Keccak256 b) /\
  NewABCIApp (appDb app') =
    Ok (mkApp (appInfo app') (withoutBlockTime (appState app)) (withoutBlockTime (appState app)) (appDb app')).
Proof.
  destruct (Marshal_state_total (appState app)) as (x & b & Es).
  destruct (Marshal_info_total (mkAppInfo (int64 (Height (appInfo app) + 1)) (Keccak256 (x :: b)))) as [i Ei].
  unfold Commit, SaveState. simpl. rewrite Es. simpl. rewrite Ei. simpl.
  rewrite (Unmarshal_state _ _ Es). simpl. eexists _, _. split_and!; try reflexivity.
  unfold NewABCIApp, LoadState. simpl. rewrite lookup_insert_ne, !lookup_insert_eq by done. simpl.
  by rewrite (Unmarshal_state _ _ Es), (Unmarshal_Marshal _ _ Ei).
Qed.

Lemma abciStep_indexes a b : abciStep a b -> indexStep (indexes a) (indexes b) /\ freezesGrow a b.
Proof.
  assert (forall a b, indexes a = indexes b ->
    sMappingProposeFreezes (appState a) = sMappingProposeFreezes (appState b) ->
    indexStep (indexes a) (indexes b) /\ freezesGrow a b) as Hsame.
  { intros x y E F. split; [rewrite <- E; destruct (indexes x); constructor|by apply freezesGrow_refl]. }
  destruct 1 as [app time|now app tx app' acts r E _|app app' hash E]; [by apply Hsame| |].
  - by destruct (deliver_ok _ _ _ _ _ _ E) as (? & ? & _).
  - destruct (Commit_Ok app) as (b & app1 & _ & E1 & Es & _). rewrite E1 in E. injection E as <- _.
    apply Hsame; unfold indexes; by rewrite Es.
Qed.

Lemma blockStep_saved a b : blockStep a b -> saved a b.
Proof. destruct 1 as [|? ? ? ? ? ? E]; [done|]. by destruct (deliver_ok _ _ _ _ _ _ E) as (_ & _ & ?). Qed.

(** Loading reads nothing but the two saved entries. *)
Lemma NewABCIApp_saved db db' app :
  db' !! stateKey = db !! stateKey -> db' !! appInfoKey = db !! appInfoKey -> NewABCIApp db = Ok app ->
  NewABCIApp db' = Ok (mkApp (appInfo app) (appState app) (appLaggingState app) db').
Proof.
  unfold NewABCIApp, LoadState. intros -> ->. destruct (default [] (db !! stateKey)) as [|x l]; simpl.
  - by intros [= <-].
  - destruct (Unmarshal (x :: l)); simpl; [|done]. destruct (Unmarshal (default [] _)); simpl; [|done].
    by intros [= <-].
Qed.

(** *** The two checks *)

(** A premise or both sides of an equivalence that cannot pass. *)
Ltac rejects := solve [intros [? [=]] | split; intros [? [=]]].

Lemma votersOf_created {V} (m : gmap string (gmap string V)) id : votersOf (created m id) id = votersOf m id.
Proof. unfold votersOf, created. destruct (m !! id) eqn:E; [by rewrite E|by rewrite lookup_insert_eq]. Qed.

Lemma mappingRule_passed K T app sender tx :
  passed (snd (mappingRule K T app sender tx)) <-> passed (validateMapping (appState app) sender tx).
Proof.
  unfold mappingRule, validateMapping, freezeRule, summaryRule, keyRule.
  destruct (unmarshal tx) as [m| |]; [|rejects..]. simpl. destruct (default false _); [rejects|]. simpl.
  case_match; [|case_match; [|case_match; [|rejects]]];
    (destruct (unmarshal (mmData m)) as [d| |]; [|rejects..]); simpl; rewrite votersOf_created;
    (destruct (voted _ sender); simpl; [rejects|]); repeat case_match; split; intros; apply passed_Passed.
Qed.

Lemma keygenRule_passed K app tx site :
  passed (snd (keygenRule K app tx)) -> passed (validateKeygen site K (appState app) tx).
Proof.
  unfold keygenRule, validateKeygen. destruct (unmarshal tx) as [m| |]; [|rejects..]. simpl.
  case_match; [|case_match; [|rejects]].
  - unfold proposeRule. destruct (unmarshal (kmData m)) as [msg| |]; [|rejects..]. simpl.
    rewrite passed_bind_ret, (checkPropose_passed _ _ _ site 0%nat).
    destruct (checkPropose 0 K (appState app) msg); [intros _; apply passed_Passed|rejects..].
  - unfold pubKeyRule. destruct (unmarshal (kmData m)) as [msg| |]; [|rejects..]. simpl.
    destruct (checkPubKey K (appState app) msg); [intros _; apply passed_Passed|rejects..].
Qed.

Lemma pssRule_passed app tx site : passed (snd (pssRule app tx)) -> passed (validatePSS site (appState app) tx).
Proof.
  unfold pssRule, validatePSS. destruct (unmarshal tx) as [m| |]; [|rejects..]. simpl.
  case_match; [|rejects]. destruct (unmarshal (pmData m)) as [msg| |]; [|rejects..]. simpl.
  rewrite passed_bind_ret, (checkPSSPropose_passed _ _ site 0%nat).
  destruct (checkPSSPropose 0 (appState app) msg); [intros _; apply passed_Passed|rejects..].
Qed.

Lemma assignmentRule_passed K T app tx :
  passed (snd (assignmentRule K T app tx)) -> passed (validateAssignment K T app (appState app) tx).
Proof.
  unfold assignmentRule, validateAssignment. destruct (assignmentOpen K T (appState app)); [|rejects..]. simpl.
  destruct (unmarshal tx); [|rejects..]. simpl. case_match; [rejects|]. intros _. apply passed_Passed.
Qed.

Lemma rules_passed now app tx msgType sender :
  (passed (snd (ValidateAndUpdateAndTagBFTTx now app tx msgType sender)) ->
   passed (validateTx now app tx msgType sender (appState app))) /\
  (msgType = 4 -> passed (validateTx now app tx msgType sender (appState app)) ->
   passed (snd (ValidateAndUpdateAndTagBFTTx now app tx msgType sender))).
Proof.
  unfold ValidateAndUpdateAndTagBFTTx, validateTx. destruct thresholds as [[K T]| |];
    [|split; [|intros _]; rejects..]. simpl. split.
  - case_match; [apply assignmentRule_passed|]. case_match; [apply keygenRule_passed|].
    case_match; [apply pssRule_passed|]. case_match; [apply mappingRule_passed|].
    case_match; [|rejects]. unfold dealerRule. destruct (checkDealer now app tx); [|rejects..].
    intros _. apply passed_Passed.
  - intros ->. simpl. apply mappingRule_passed.
Qed.

(** ** Properties *)

(** C20: an assignment that is open, while there is a key at the last unassigned
    index, is accepted and hands that key to the user: the key's entry names the
    user alone, the user's list of indexes gains the index and stays sorted, no
    other key and no other user is touched, the next assignment will hand out the
    next index, and the public key is dropped from the state. *)
Theorem assignment_fresh K T app raw tx :
  let s := appState app in
  let i := nextKeyIndex s in
  assignmentOpen K T s = Passed tt -> Unmarshal (A := AssignmentBFTTx) raw = Some tx ->
  in_uint64 (sLastCreatedIndex s) -> 0 <= sLastUnassignedIndex s < sLastCreatedIndex s ->
  sConsecutiveFailedPubKeyAssigns s <> MaxFailedPubKeyAssigns -> ~ missingKey s ->
  exists app',
    assignmentRule K T app raw = (app', [], Passed [("assignment", "1")]%string) /\
    retrieveKeyMapping app' i = Ok (mkKeyAssignmentPublic i (kpGS (pubKeyOf s (nextDKGID s))) 1
      (Some {[atVerifier tx := Some [atVerifierID tx]]})) /\
    (exists l, retrieveVerifierToKeyIndex app' (atVerifier tx) (atVerifierID tx) = Ok l /\ Sorted Z.le l /\
       l ≡ₚ i :: match retrieveVerifierToKeyIndex app (atVerifier tx) (atVerifierID tx) with Ok l0 => l0 | _ => [] end) /\
    (forall j, j <> i -> retrieveKeyMapping app' j = retrieveKeyMapping app j) /\
    (forall v vid, formVerifierKey v vid <> formVerifierKey (atVerifier tx) (atVerifierID tx) ->
       retrieveVerifierToKeyIndex app' v vid = retrieveVerifierToKeyIndex app v vid) /\
    indexes app' = (sLastUnassignedIndex s + 1, sLastCreatedIndex s) /\
    sConsecutiveFailedPubKeyAssigns (appState app') = 0 /\
    sKeygenPubKeys (appState app') = delete (nextDKGID s) (sKeygenPubKeys s).
Proof.
  intros s i Ho Ea Hu Hl Hf Hm. rewrite (assignmentRule_open K T app raw tx Ho Ea) by (subst s; lia).
  unfold assignKey. fold s i. destruct (Z.eqb_spec (sConsecutiveFailedPubKeyAssigns s) MaxFailedPubKeyAssigns); [done|].
  destruct (Z.eqb_spec (PX (kpGS (pubKeyOf s (nextDKGID s)))) 0) as [H|]; [destruct Hm; by left|].
  destruct (Z.eqb_spec (PY (kpGS (pubKeyOf s (nextDKGID s)))) 0) as [H|]; [destruct Hm; by right|]. simpl.
  match goal with |- context [storeKeyMapping ?x ?y ?z] =>
    destruct (storeKeyMapping_Ok x y z) as (app1 & -> & Hs1 & _ & Hk & Hko & Hv) end.
  match goal with |- context [storeVerifierToKeyIndex ?x ?y ?z ?w] =>
    destruct (storeVerifierToKeyIndex_Ok x y z w) as (app2 & -> & Hs2 & _ & Hvi & Hk2 & Hvo) end.
  eexists. split; [reflexivity|]. rewrite Hs2, Hs1. split_and!.
  - by rewrite <- Hk, <- Hk2.
  - exists (keyIndexesAfter app tx i). split_and!; [exact Hvi|apply sortIndexes_sorted|].
    unfold keyIndexesAfter. rewrite sortIndexes_perm. case_match; [|done..].
    by rewrite Permutation_app_comm.
  - intros j Hj. transitivity (retrieveKeyMapping app1 j); [apply Hk2|]. by rewrite (Hko j Hj).
  - intros v vid Hne. transitivity (retrieveVerifierToKeyIndex app1 v vid); [by apply Hvo|]. by rewrite Hv.
  - unfold indexes. simpl. rewrite uint64_id; [done|]. unfold in_uint64 in *. lia.
  - done.
  - done.
Qed.

(** C21: the index counters of the application behave as the counter machine:
    whatever blocks are delivered and committed, the last unassigned index never
    passes the last created one, as long as the latter does not wrap. *)
Theorem indexes_stay_ordered app app' :
  rtc (fun a b => abciStep a b /\ sLastCreatedIndex (appState a) < 2 ^ 64 - 1) app app' ->
  ordered (indexes app) ->
  rtc indexStep (indexes app) (indexes app') /\ ordered (indexes app').
Proof.
  induction 1 as [a|a b c [Hs Hl] _ IH]; intros Ho; [by split|].
  apply abciStep_indexes in Hs as [Hi _].
  destruct (IH (indexStep_ordered _ _ Hi Ho Hl)) as [H1 H2]. split; [by eapply rtc_l|done].
Qed.

(** C22: a key that is never produced does not stop the assignments: while the
    next key is missing every assignment is rejected, and changes nothing but the
    count of failures; after a hundred failures the next one drops the whole
    buffer, and the end of the block starts as many new key generations as the
    buffer holds. *)
Theorem missing_key_skipped now K T app txs tx :
  let s := appState app in
  thresholds = Passed (K, T) -> assignmentOpen K T s = Passed tt ->
  0 <= sLastUnassignedIndex s < sLastCreatedIndex s -> missingKey s ->
  0 < KeyBuffer -> sLastCreatedIndex s + KeyBuffer < 2 ^ 63 ->
  0 <= sConsecutiveFailedPubKeyAssigns s <= MaxFailedPubKeyAssigns ->
  Z.of_nat (length txs) = MaxFailedPubKeyAssigns - sConsecutiveFailedPubKeyAssigns s ->
  Forall isAssignment txs -> isAssignment tx ->
  let app' := setState app (setIndexes (setFailed s 0) (sLastCreatedIndex s) (sLastCreatedIndex s)) in
  (forall n t, txs !! n = Some t -> DeliverTx now (deliverAll now app (take n txs)) t =
     (setState app (setFailed s (sConsecutiveFailedPubKeyAssigns s + Z.of_nat n + 1)), [], Unauthorized)) /\
  DeliverTx now (deliverAll now app txs) tx = (app', [], RespOK []) /\
  EndBlock app' = concat (shareKeygen <$> seqZ (sLastCreatedIndex s) KeyBuffer).
Proof.
  intros s HK Ho Hl Hm HB Hr Hc Hlen Htxs Htx app'.
  assert (forall n, (n <= length txs)%nat -> deliverAll now app (take n txs) =
    setState app (setFailed s (sConsecutiveFailedPubKeyAssigns s + Z.of_nat n))) as E.
  { intros n Hn. replace (Z.of_nat n) with (Z.of_nat (length (take n txs))) by (rewrite length_take; lia).
    apply (deliverAll_missing now K T); try done; subst s; rewrite ?length_take; try lia. by apply Forall_take. }
  split_and!.
  - intros n t Ht. pose proof (lookup_lt_Some _ _ _ Ht). rewrite E by lia.
    rewrite (deliver_missing now K T (setState app (setFailed s (sConsecutiveFailedPubKeyAssigns s + Z.of_nat n))) t HK Ho);
      [done|simpl; lia|done|simpl; lia|]. by eapply list.Forall_lookup.
  - specialize (E (length txs) ltac:(lia)). rewrite take_ge in E by lia.
    replace (_ + _) with MaxFailedPubKeyAssigns in E by lia. rewrite E.
    destruct (deliver_assignment now (setState app (setFailed s MaxFailedPubKeyAssigns)) tx K T HK Htx)
      as (a & raw & Ea & ->).
    rewrite (assignmentRule_open K T (setState app (setFailed s MaxFailedPubKeyAssigns)) raw a Ho Ea)
      by (simpl; lia).
    reflexivity.
  - unfold EndBlock. simpl. rewrite Z.sub_diag.
    rewrite (int64_id 0), (int64_id (sLastCreatedIndex s)), (int64_id (_ + KeyBuffer)) by (unfold in_int64; lia).
    destruct (Z.ltb_spec 0 KeyBuffer); [|lia]. do 3 f_equal. lia.
Qed.

Lemma frozen_rejects K T now app app' tx :
  thresholds = Passed (K, T) -> anySize (K + T) (sMappingProposeFreezes (appState app)) = true ->
  rtc abciStep app app' -> isAssignment tx -> DeliverTx now app' tx = (app', [], Unauthorized).
Proof.
  intros HK Hf Hr Htx. assert (freezesGrow app app') as Hg.
  { clear -Hr BL AL. induction Hr as [a|a b c Hs _ IH]; [done|]. transitivity b; [|done].
    by apply abciStep_indexes in Hs as [_ ?]. }
  destruct (deliver_assignment now app' tx K T HK Htx) as (a & raw & _ & ->).
  unfold assignmentRule, assignmentOpen. by rewrite (anySize_grow _ _ _ Hg Hf).
Qed.

(** C23: once enough nodes have voted for a freeze, no assignment is accepted any
    more, whatever else is delivered or committed in between. *)
Theorem freeze_stops_assignments K T now app app' tx :
  thresholds = Passed (K, T) -> anySize (K + T) (sMappingProposeFreezes (appState app)) = true ->
  rtc abciStep app app' -> isAssignment tx -> DeliverTx now app' tx = (app', [], Unauthorized).
Proof. intros. by eapply frozen_rejects. Qed.

(** The checks read neither the time of the block nor its assignments, which the
    beginning of a block resets. *)
Lemma validateTx_setBlock now app tx msgType sender s time assignments :
  validateTx now app tx msgType sender (setBlock s time assignments) = validateTx now app tx msgType sender s.
Proof. reflexivity. Qed.

(** C24: whatever a block accepts, the mempool accepts in the same state (but for the time
    and the assignments of the block), although the two loop over the proofs of a proposal
    in orders of their own; and the votes of the key mapping are accepted by the one
    exactly when by the other. *)
Theorem check_accepts_what_is_delivered now app tx time assignments :
  appLaggingState app = setBlock (appState app) time assignments ->
  (forall app' acts tags, DeliverTx now app tx = (app', acts, RespOK tags) -> CheckTx now app tx = RespOK []) /\
  (forall w, Unmarshal (A := DefaultBFTTxWrapper) tx = Some w -> wrMsgType w = 4 ->
     CheckTx now app tx = RespOK [] -> exists app' acts tags, DeliverTx now app tx = (app', acts, RespOK tags)).
Proof.
  intros El. unfold DeliverTx, CheckTx. rewrite El. split.
  - intros app' acts tags. destruct (authenticateBftTx tx) as [[w sender]| |]; [|done..].
    destruct (rules_passed now app (wrBFTTx w) (wrMsgType w) sender) as [H _].
    rewrite validateTx_setBlock.
    destruct (ValidateAndUpdateAndTagBFTTx _ _ _ _ _) as [[app1 acts1] [tags1| |]]; [|done..].
    intros _. destruct H as [u ->]; [apply passed_Passed|done].
  - intros w Ew Em. destruct (authentication_accepts tx w Ew) as (sender & -> & _).
    destruct (rules_passed now app (wrBFTTx w) (wrMsgType w) sender) as [_ H]. rewrite validateTx_setBlock, Em in *. intros Hv.
    assert (passed (snd (ValidateAndUpdateAndTagBFTTx now app (wrBFTTx w) 4 sender))) as [tags Et]
      by (apply H; [done|]; case_match; done || apply passed_Passed).
    destruct (ValidateAndUpdateAndTagBFTTx now app (wrBFTTx w) 4 sender) as [[app1 acts1] r]. simpl in Et.
    subst r. eauto.
Qed.

(** C25: a commit always succeeds and keeps the state; and however many transactions
    follow it before the process stops, a restart finds the height and the hash that were
    committed and, as the state and the lagging state, the state that was committed with
    its block time reset to the zero time: that field is not serialised. *)
Theorem restart_finds_commit app : exists app' hash,
  Commit app = Ok (app', hash) /\ appState app' = appState app /\
  Info app' = (int64 (Height (appInfo app) + 1), hash) /\
  forall app'', rtc blockStep app' app'' ->
    NewABCIApp (appDb app'') =
      Ok (mkApp (appInfo app') (setBlock (appState app) 0 (sNewKeyAssignments (appState app)))
            (setBlock (appState app) 0 (sNewKeyAssignments (appState app))) (appDb app'')).
Proof.
  destruct (Commit_Ok app) as (b & app' & _ & E & Es & El & Ei & En). exists app', (Keccak256 b).
  split_and!; [done|done|by unfold Info; rewrite Ei|]. intros app'' Hr.
  assert (saved app' app'') as (_ & _ & Hk & Hi).
  { clear -Hr BL. induction Hr as [a|a b c Hs _ IH]; [done|]. transitivity b; [|done]. by apply blockStep_saved. }
  change (setBlock _ _ _) with (withoutBlockTime (appState app)). by rewrite (NewABCIApp_saved (appDb app') _ _ Hk Hi En).
Qed.

End abci.
