(* ===== verification/Freeze.v ===== *)
(** The freeze between two epochs: the application of the old chain counts the
    votes for it, a goroutine of the delivered transaction tells the mapping service,
    and the monitor of an old node polls that service.  Along every interleaving of
    the three nothing is handed over before the chain has confirmed the freeze, and
    the chain assigns no key from then on. *)
From Stdlib Require Import ZArith.
From stdpp Require Import gmap strings relations.
From S2P Require Import Prelude BigInt Field Curve Pvss Avss Nizkpk Ecdsa Ids Effects Keygen Dealer Torusdb Library PssTypes.
From S2P Require Import Pss Bft BftProps P2p Ethereum EthereumLibrary Transport KeygenService PssService Mapping MappingService Handover Abci AbciProps.

Section freeze.
Context {SO : Secp256k1} {TC : TorusCrypto} {TS : TorusSign} {EC : EthCrypto} {DC : TorusDBCodecs} {LP : LibP2P}.
Context {NL : NodeListContract} {RR : RegisterRange} {PCD : P2pCodecs} {EA : EthAddress}.
Context {PC : PSSCodecs} {CM : Codec PSSMessage} {MC : MappingCodecs} {CMM : Codec MappingMessage}.
Context {BC : BftCodecs} {MR : MapRange} {NC : NodeConfig} {SV : Services} {KC : KeygenCodecs} {AC : AbciCodecs}.

(** ** The three as one system *)

(** The freezes that the goroutines of a transaction report. *)
Definition freezesOf (acts : list Bft.Action) : list MappingID :=
  omap (fun a => match a with SetFreezeState id _ => Some id | _ => None end) acts.

Definition writesFreeze (req : mappingRequest) : bool :=
  match req with set_freeze_state _ _ _ => true | _ => false end.

(** A goroutine reports the freeze with the last unassigned index it finds. *)
Definition reportFreeze (app : App) (h : hoNode) (id : MappingID) : hoNode :=
  hoSetMapping h (moService (MappingService_Call (hoNet h) app (hoMapping h)
    (set_freeze_state id 2 (sLastUnassignedIndex (appState app))))).

(** The application, the goroutines that have not run yet, the node, where its
    monitor is, and what the monitor has left.  The other requests of the mapping
    service and whatever else happens at the node come in between. *)
Inductive handover (staggerDelay : Z) : App -> list MappingID -> hoNode -> outgoing -> list hoAction -> Prop :=
  | ho_start app h : mpFreezeState (hoMapping h) = ∅ -> handover staggerDelay app [] h OutStart []
  | ho_tick app gs h pc acts h' pc' acts' :
      handover staggerDelay app gs h pc acts -> outgoingStep staggerDelay app h pc = (h', pc', acts') ->
      handover staggerDelay app gs h' pc' (acts ++ acts')
  | ho_deliver app gs h pc acts now tx app' bft r :
      handover staggerDelay app gs h pc acts -> DeliverTx now app tx = (app', bft, r) -> r <> Stopped ->
      handover staggerDelay app' (gs ++ freezesOf bft) h pc acts
  | ho_begin app gs h pc acts time :
      handover staggerDelay app gs h pc acts -> handover staggerDelay (BeginBlock app time) gs h pc acts
  | ho_commit app gs h pc acts app' hash :
      handover staggerDelay app gs h pc acts -> Commit app = Ok (app', hash) -> handover staggerDelay app' gs h pc acts
  | ho_report app gs id gs' h pc acts :
      handover staggerDelay app (gs ++ id :: gs') h pc acts ->
      handover staggerDelay app (gs ++ gs') (reportFreeze app h id) pc acts
  | ho_request app gs h pc acts req :
      handover staggerDelay app gs h pc acts -> writesFreeze req = false ->
      handover staggerDelay app gs (hoSetMapping h (moService (MappingService_Call (hoNet h) app (hoMapping h) req))) pc acts
  | ho_world app gs h pc acts h' :
      handover staggerDelay app gs h pc acts -> hoMapping h' = hoMapping h -> handover staggerDelay app gs h' pc acts.

Definition isTrigger (a : hoAction) : bool :=
  match a with TriggerMapping _ _ | TriggerPSS _ _ _ => true | _ => false end.

Definition triggersOf (acts : list hoAction) : list hoAction := List.filter isTrigger acts.

(** ** Lemmas *)

(** *** What writes the state of the freeze *)

Lemma mappingResult_freeze s id i r : mpFreezeState (fst (fst (mappingResult s id i r))) = mpFreezeState s.
Proof. by destruct r as [[mn acts] st]. Qed.

Lemma mappingReceive_freeze s id nd m : mpFreezeState (fst (fst (mappingReceive s id nd m))) = mpFreezeState s.
Proof. unfold mappingReceive. case_match; [apply mappingResult_freeze|done]. Qed.

Lemma mappingReceiveBroadcast_freeze app s id m :
  mpFreezeState (fst (fst (mappingReceiveBroadcast app s id m))) = mpFreezeState s.
Proof. unfold mappingReceiveBroadcast. case_match; [apply mappingResult_freeze|done]. Qed.

Lemma request_freeze n app s req : writesFreeze req = false ->
  mpFreezeState (moService (MappingService_Call n app s req)) = mpFreezeState s.
Proof.
  destruct req as [d o w|id m|id|o w|id|id f l|id|id m|o w]; simpl; try done; intros _.
  - unfold newMappingNode. by repeat case_match.
  - case_match; [done|]. pose proof (mappingReceiveBroadcast_freeze app s id m) as Hf0.
    by destruct (mappingReceiveBroadcast _ _ _ _) as [[s' acts] st].
  - unfold proposeFreeze. case_match; [done|]. case_match; [|done]. case_match; [|done..].
    match goal with |- context [mappingReceive ?s ?id ?nd ?m] => pose proof (mappingReceive_freeze s id nd m) as Hf end.
    by destruct (mappingReceive _ _ _ _) as [[s' acts] st].
  - unfold summaryFrozen. case_match; [done|]. case_match; [|done].
    match goal with |- context [mappingReceiveBroadcast ?a ?s ?id ?m] =>
      pose proof (mappingReceiveBroadcast_freeze a s id m) as Hf end.
    by destruct (mappingReceiveBroadcast _ _ _ _) as [[s' acts] st].
Qed.

Lemma askEth_mapping {A} (h : hoNode) (f : TorusLDB -> EthereumService -> EthereumService * answer A) h' a :
  askEth h f = (h', a) -> hoMapping h' = hoMapping h.
Proof. unfold askEth. destruct (f _ _). by intros [= <- _]. Qed.

Lemma startProtocols_freeze sd app h old new io iw h' st :
  startProtocols sd app h old new io iw = (h', st) -> mpFreezeState (hoMapping h') = mpFreezeState (hoMapping h).
Proof.
  unfold startProtocols. set (po := PSSService_Call _ _ _ _). set (h1 := hoSetPss h _).
  pose proof (request_freeze (hoNet h1) app (hoMapping h1) (new_mapping_node (mappingStartData old new) io iw) eq_refl) as Hr.
  destruct (poStatus po); try (by intros [= <- _]).
  all: destruct (moStatus _); intros [= <- _]; done.
Qed.

(** What one step of the monitor does to the state of the freezes, and when it
    triggers the hand-over. *)
Inductive freezeStep (m : gmap MappingID FreezeStateData) : gmap MappingID FreezeStateData -> outgoing -> list hoAction -> Prop :=
  | fs_keep pc acts : Forall (fun a => isTrigger a = false) acts -> freezeStep m m pc acts
  | fs_propose id pc : freezeStep m (<[id := mkFreezeStateData 1 0]> m) pc []
  | fs_trigger id e old new :
      m !! id = Some (mkFreezeStateData 2 e) ->
      freezeStep m (<[id := mkFreezeStateData 3 e]> m) OutDone [TriggerMapping e id; TriggerPSS e old new].

Lemma FreezeState_2 s id : FreezeState (FreezeState_Get s id) = 2 ->
  mpFreezeState s !! id = Some (mkFreezeStateData 2 (fsLastUnassignedIndex (FreezeState_Get s id))).
Proof. unfold FreezeState_Get. destruct (mpFreezeState s !! id) as [[f e]|]; simpl; [by intros ->|done]. Qed.

Ltac eths := repeat match goal with
  | |- context [askEth ?h ?f] => let E := fresh "E" in destruct (askEth h f) as [? []] eqn:E; apply askEth_mapping in E
  end.

Lemma outgoing_freeze sd app h pc h' pc' acts : outgoingStep sd app h pc = (h', pc', acts) ->
  freezeStep (mpFreezeState (hoMapping h)) (mpFreezeState (hoMapping h')) pc' acts /\ (pc = OutDone -> pc' = OutDone /\ acts = []).
Proof.
  assert (forall (h1 : hoNode) pc, mpFreezeState (hoMapping h1) = mpFreezeState (hoMapping h) ->
    freezeStep (mpFreezeState (hoMapping h)) (mpFreezeState (hoMapping h1)) pc []) as Hkeep.
  { intros h1 pc1 ->. by constructor. }
  destruct pc as [|c|c|c x|c x|id o w|id o w|id o w|]; cbn [outgoingStep].
  - eths; intros [= <- <- <-]; (split; [apply Hkeep; congruence|done]).
  - eths; try case_match; intros [= <- <- <-]; (split; [apply Hkeep; congruence|done]).
  - eths; try case_match; intros [= <- <- <-]; (split; [apply Hkeep; congruence|done]).
  - eths; intros [= <- <- <-]; (split; [apply Hkeep; congruence|done]).
  - eths; try case_match; try (intros [= <- <- <-]; split; [apply Hkeep; congruence|done]).
    destruct (startProtocols _ _ _ _ _ _ _) as [hs st] eqn:Es. apply startProtocols_freeze in Es.
    destruct st; intros [= <- <- <-]; (split; [apply Hkeep; congruence|done]).
  - case_match; [|intros [= <- <- <-]; split; [by apply Hkeep|done]].
    pose proof (request_freeze (hoNet h) app (hoMapping h) (propose_freeze id) eq_refl) as Hr.
    destruct (moStatus _); intros [= <- <- <-]; (split; [|done]); [..|by apply Hkeep].
    all: simpl in Hr |- *; rewrite Hr; constructor; by repeat constructor.
  - intros [= <- <- <-]. split; [|done]. apply fs_propose.
  - destruct (Z.eqb_spec (FreezeState (FreezeState_Get (hoMapping h) id)) 2) as [E|_];
      intros [= <- <- <-]; (split; [|done]); [|by apply Hkeep].
    apply FreezeState_2 in E. by apply fs_trigger.
  - intros [= <- <- <-]. split; [by apply Hkeep|done].
Qed.

(** *** What the chain reports *)

Context {BL : BftCodecLaws} {ML : MapRangeLaws} {AL : AbciCodecLaws}.

Definition frozen (K T : Z) (app : App) : Prop := anySize (K + T) (sMappingProposeFreezes (appState app)) = true.

Lemma frozen_step K T app app' : frozen K T app -> rtc abciStep app app' -> frozen K T app'.
Proof.
  intros Hf Hr. eapply anySize_grow; [|exact Hf]. clear Hf.
  induction Hr as [a|a b c Hs _ IH]; [done|]. transitivity b; [|done]. by apply abciStep_indexes in Hs as [_ ?].
Qed.

(** A rule that reports no freeze. *)
Definition quiet (r : App * list Bft.Action * outcome (list (string * string))) : Prop := freezesOf (snd (fst r)) = [].

Ltac quietly := repeat case_match; simpl; done.

Lemma markKeygens_quiet n : freezesOf (markKeygens n) = [].
Proof.
  unfold freezesOf, markKeygens. induction (seqZ 0 (int64 n)) as [|i l IH]; [done|]. simpl. by destruct (GetKeygenStarted _).
Qed.

Lemma assignmentRule_quiet K T app tx : quiet (assignmentRule K T app tx).
Proof. unfold quiet, assignmentRule. destruct (_ ≫= _); [|done..]. case_match; [done|]. by destruct (assignKey _ _). Qed.

Lemma keygenRule_quiet K app tx : quiet (keygenRule K app tx).
Proof.
  unfold quiet, keygenRule. destruct (unmarshal tx); [|done..]. case_match; [|case_match; [|done]].
  - unfold proposeRule. destruct (_ ≫= _) as [[msg p]| |]; [|done..]. unfold decideKeygen. simpl. by destruct (Marshal _).
  - unfold pubKeyRule. destruct (_ ≫= _) as [[msg GS]| |]; [|done..]. quietly.
Qed.

Lemma pssRule_quiet app tx : quiet (pssRule app tx).
Proof.
  unfold quiet, pssRule. destruct (unmarshal tx); [|done..]. case_match; [|done].
  destruct (_ ≫= _) as [[msg p]| |]; [|done..]. quietly.
Qed.

Lemma dealerRule_quiet now app tx : quiet (dealerRule now app tx).
Proof. unfold quiet, dealerRule. destruct (checkDealer _ _ _) as [[]| |]; [|done..]. quietly. Qed.

Lemma summaryRule_quiet K app sender id data : quiet (summaryRule K app sender id data).
Proof.
  unfold quiet, summaryRule. destruct (unmarshal data); [|done..]. case_match; [done|]. case_match; [|done].
  apply markKeygens_quiet.
Qed.

Lemma keyRule_quiet K app sender id data : quiet (keyRule K app sender id data).
Proof. unfold quiet, keyRule. destruct (unmarshal data); [|done..]. case_match; [done|]. by case_match. Qed.

(** The last vote for a freeze is in the state before it is reported. *)
Lemma freezeRule_reports K T app sender data :
  quiet (freezeRule K T app sender data) \/ frozen K T (fst (fst (freezeRule K T app sender data))).
Proof.
  unfold quiet, freezeRule. destruct (unmarshal data) as [m| |]; [|by left..]. case_match; [by left|].
  destruct (Z.eqb_spec (Z.of_nat (size (<[Ids.ToNodeDetailsID sender := true]>
    (votersOf (created (sMappingProposeFreezes (appState app)) (pfbMappingID m)) (pfbMappingID m))))) (K + T)) as [E|_];
    [right|by left].
  apply anySize_spec. eexists (pfbMappingID m), _. split; [simpl; by rewrite lookup_insert_eq|lia].
Qed.

Lemma mappingRule_reports K T app sender tx :
  quiet (mappingRule K T app sender tx) \/ frozen K T (fst (fst (mappingRule K T app sender tx))).
Proof.
  unfold mappingRule. destruct (unmarshal tx) as [m| |]; [|by left..]. case_match; [by left|].
  case_match; [apply freezeRule_reports|]. case_match; [left; apply summaryRule_quiet|].
  case_match; [left; apply keyRule_quiet|by left].
Qed.

Lemma deliver_reports K T now app tx app' acts r :
  thresholds = Passed (K, T) -> DeliverTx now app tx = (app', acts, r) -> freezesOf acts = [] \/ frozen K T app'.
Proof.
  intros HK. unfold DeliverTx. destruct (authenticateBftTx tx) as [[w sender]| |]; try (intros [= <- <- _]; by left).
  assert (let v := ValidateAndUpdateAndTagBFTTx now app (wrBFTTx w) (wrMsgType w) sender in
    quiet v \/ frozen K T (fst (fst v))) as H.
  { unfold ValidateAndUpdateAndTagBFTTx. rewrite HK.
    repeat (case_match; [first [apply mappingRule_reports|left;
      first [apply assignmentRule_quiet|apply keygenRule_quiet|apply pssRule_quiet|apply dealerRule_quiet]]|]). by left. }
  destruct (ValidateAndUpdateAndTagBFTTx _ _ _ _ _) as [[app1 acts1] r1]. by intros [= <- <- _].
Qed.

(** ** Safety of the hand-over *)

(** An index that some application with a confirmed freeze had, on the way to this one. *)
Definition frozenAt (K T : Z) (app : App) (e : Z) : Prop := exists app1,
  frozen K T app1 /\ e = sLastUnassignedIndex (appState app1) /\ rtc abciStep app1 app.

Lemma frozenAt_step K T app app' e : frozenAt K T app e -> rtc abciStep app app' -> frozenAt K T app' e.
Proof. intros (app1 & Hf & He & Hr) Hs. exists app1. split_and!; [done..|]. by etrans. Qed.

Record handoverInv (K T : Z) (app : App) (gs : list MappingID) (h : hoNode) (pc : outgoing) (acts : list hoAction) : Prop := {
  hi_pending : gs <> [] -> frozen K T app;
  hi_reported : forall id e, mpFreezeState (hoMapping h) !! id = Some (mkFreezeStateData 2 e) -> frozenAt K T app e;
  hi_triggers : triggersOf acts = [] \/
    pc = OutDone /\ exists e id old new, frozenAt K T app e /\ triggersOf acts = [TriggerMapping e id; TriggerPSS e old new];
}.

Lemma handoverInv_app K T app app' gs h pc acts :
  handoverInv K T app gs h pc acts -> rtc abciStep app app' -> handoverInv K T app' gs h pc acts.
Proof.
  intros [H1 H2 H3] Hs. split.
  - intros Hg. by eapply frozen_step; [apply H1|].
  - intros id e H. by eapply frozenAt_step; [eapply H2|].
  - destruct H3 as [H3|(Hpc & e & id & old & new & He & Ha)]; [by left|right].
    split; [done|]. exists e, id, old, new. split; [|done]. by eapply frozenAt_step.
Qed.

Lemma handover_inv K T sd app gs h pc acts :
  thresholds = Passed (K, T) -> handover sd app gs h pc acts -> handoverInv K T app gs h pc acts.
Proof.
  intros HK. induction 1 as [app h H0|app gs h pc acts h' pc' acts' _ IH Hs|app gs h pc acts now tx app' bft r _ IH Hd Hr
    |app gs h pc acts time _ IH|app gs h pc acts app' hash _ IH Hc|app gs id gs' h pc acts _ IH
    |app gs h pc acts req _ IH Hw|app gs h pc acts h' _ IH Hm].
  - split; [done| |by left]. intros id e. by rewrite H0, lookup_empty.
  - destruct IH as [H1 H2 H3]. apply outgoing_freeze in Hs as [Hs Hdone]. split; [done|..].
    + intros id e. destruct Hs as [|i p|i e1 o w Hi]; [apply H2|..].
      all: destruct (decide (i = id)) as [->|Hne]; [by rewrite lookup_insert_eq; intros [= ?]|].
      all: rewrite lookup_insert_ne by done; apply H2.
    + unfold triggersOf in *. rewrite filter_app. destruct H3 as [E|(Hpc & H3)].
      * rewrite E. destruct Hs as [p acts' Hq|i p|i e o w Hi]; [left|by left|right].
        { clear -Hq. induction Hq as [|a l Ha _ IHq]; [done|]. simpl. by rewrite Ha. }
        split; [done|]. exists e, i, o, w. split; [by eapply H2|done].
      * destruct (Hdone Hpc) as [-> ->]. right. split; [done|]. by rewrite app_nil_r.
  - eapply handoverInv_app in IH; [|apply rtc_once; eapply step_deliver; [exact Hd|exact Hr]].
    destruct IH as [H1 H2 H3]. split; [|done|done]. intros Hg.
    destruct (deliver_reports K T _ _ _ _ _ _ HK Hd) as [E|]; [|done]. rewrite E, app_nil_r in Hg. by apply H1.
  - eapply handoverInv_app; [done|]. apply rtc_once. apply step_begin.
  - eapply handoverInv_app; [done|]. apply rtc_once. by eapply step_commit.
  - destruct IH as [H1 H2 H3]. assert (frozen K T app) as Hf by (apply H1; by destruct gs). split; [done| |done].
    intros i e. simpl. destruct (decide (id = i)) as [->|Hne];
      [rewrite lookup_insert_eq; intros [= <-]|rewrite lookup_insert_ne by done; apply H2].
    exists app. split_and!; [done|done|]. apply rtc_refl.
  - destruct IH as [H1 H2 H3]. split; [done| |done]. simpl. by rewrite request_freeze.
  - destruct IH as [H1 H2 H3]. split; [done| |done]. by rewrite Hm.
Qed.

(** C26: Nothing is handed over before the chain has confirmed the freeze: along every
    interleaving of the chain, the goroutines that report its freezes, the mapping
    service and the monitor of an old node, the monitor triggers the hand-over at
    most once, of the owners and of the keys together and up to one index, which was
    the chain's last unassigned index when a freeze had been confirmed; and from then
    on the chain accepts no assignment, so no key beyond it is handed out. *)
Theorem handover_after_freeze K T sd app gs h pc acts :
  thresholds = Passed (K, T) -> handover sd app gs h pc acts ->
  triggersOf acts = [] \/
  exists e id old new app1,
    triggersOf acts = [TriggerMapping e id; TriggerPSS e old new] /\
    anySize (K + T) (sMappingProposeFreezes (appState app1)) = true /\ e = sLastUnassignedIndex (appState app1) /\
    rtc abciStep app1 app /\
    forall now app2 tx, rtc abciStep app1 app2 -> isAssignment tx -> DeliverTx now app2 tx = (app2, [], Unauthorized).
Proof.
  intros HK Hh. destruct (hi_triggers _ _ _ _ _ _ _ (handover_inv K T sd app gs h pc acts HK Hh))
    as [E|(_ & e & id & old & new & (app1 & Hf & He & Hr) & Ha)]; [by left|right].
  exists e, id, old, new, app1. split_and!; [done..|]. intros now app2 tx Hr2 Htx.
  by apply (frozen_rejects K T now app1).
Qed.

(** A report that comes between the monitor's look at the state and its own write
    is overwritten, and the monitor then waits for a report that does not come. *)
Lemma early_report_overwritten sd app h id old new :
  let h1 := reportFreeze app h id in
  FreezeState_Get (hoMapping h1) id = mkFreezeStateData 2 (sLastUnassignedIndex (appState app)) /\
  exists h2, outgoingStep sd app h1 (OutSetFreeze id old new) = (h2, OutAwait id old new, []) /\
    outgoingStep sd app h2 (OutAwait id old new) = (h2, OutAwait id old new, []).
Proof.
  split; [unfold FreezeState_Get; simpl; by rewrite lookup_insert_eq|]. eexists. split; [done|].
  cbn [outgoingStep]. unfold FreezeState_Get at 1. simpl. by rewrite lookup_insert_eq.
Qed.

End freeze.
