(* ===== verification/RpcProps.v ===== *)
(** What the handlers of Rpc guarantee: a share is released only to a request that
    satisfies the access structure of its key, a token's commitment is bound to
    one temporary key while the cache remembers it, who the Torus verifier
    identifies, and who may ask for connection details. *)
From Stdlib Require Import ZArith.
From stdpp Require Import gmap strings sorting.
From S2P Require Import Prelude BigInt Field Curve Pvss Ecdsa Ids Effects Keygen Mapping Dealer GoTime Auth Cache PssTypes Torusdb TorusdbSpec Library Bft BftProps Abci Rpc.

(** ** Steps of a reply *)

Lemma bind_Reply {A B} (m : reply A) (f : A -> reply B) b :
  m ≫= f = Reply b -> exists a, m = Reply a /\ f a = Reply b.
Proof. destruct m; simpl; [|done..]. by eexists. Qed.

Lemma try_Reply {A} (m : res A) e a : try m e = Reply a -> m = Ok a.
Proof. destruct m; simpl; congruence. Qed.

Lemma demand_Reply b e u : demand b e = Reply u -> b = true.
Proof. by destruct b. Qed.

(** Take a reply apart into the calls that answered. *)
Ltac reply_inv :=
  repeat match goal with
  | H : _ ≫= _ = Reply _ |- _ =>
      let a := fresh "a" in let H1 := fresh "H" in apply bind_Reply in H as (a & H1 & H)
  | H : try _ _ = Reply _ |- _ => apply try_Reply in H
  | H : demand _ _ = Reply _ |- _ => apply demand_Reply in H
  | H : Reply _ = Reply _ |- _ => injection H as H; subst
  | H : (_ <=? _) = true |- _ => apply Z.leb_le in H
  | H : (_ =? _)%string = true |- _ => apply String.eqb_eq in H
  end.

Section props.
Context {SO : Secp256k1} {TC : TorusCrypto} {NC : NodeConfig} {SV : Services} {MR : MapRange} {ML : MapRangeLaws}.
Context {KC : KeygenCodecs} {MC : MappingCodecs} {BC : BftCodecs} {ABC : AbciCodecs}.
Context {DC : TorusDBCodecs} {WB : Web} {CF : AuthConfig} {AUC : AuthCodecs} {GC : GoCache} {GL : GoCacheLaws}.
Context {RE : RpcEnv} {RC : RpcCodecs}.

(** ** Who an item of a share request authenticates: the abstract specification *)

(** A node of the current list signed the commitment. *)
Definition signedCommitment (common : string) (s : NodeSignature) : Prop :=
  (exists node, NodeValidation s = Ok node) /\ commonPart (nsData s) = common.

(** The verifier named by the item accepted its token for the user, and [K]
    signatures of the item commit to that token. *)
Definition authenticated (now : Z * Z) (n : RpcNode) (K : Z) (rawItem : list Z) (verifier verifierID : string) : Prop :=
  exists item jsonMap redacted prefix commonVerifier cleaned sigs,
    Unmarshal (A := ShareRequestItem) rawItem = Some item /\ siVerifierIdentifier item = verifier /\
    Unmarshal (A := gmap string JsonValue) rawItem = Some jsonMap /\
    Marshal (delete "nodesignatures" jsonMap) = Some redacted /\
    Verify (rnVerifier n) now redacted = Ok (true, verifierID) /\
    cleanToken (rnVerifier n) commonVerifier (siIDToken item) = Ok cleaned /\
    sublist sigs (siNodeSignatures item) /\ K <= Z.of_nat (length sigs) /\
    Forall (signedCommitment
              (Join [prefix; HexEncode (Keccak256 (stringBytes cleaned)); commonVerifier] Delimiter1)) sigs.

(** ** One item *)

Lemma marshal_Ok {A} `{Codec A} (a : A) b : marshal a = Ok b -> Marshal a = Some b.
Proof. unfold marshal. destruct (Marshal a); congruence. Qed.

(** The signatures that were kept, as a sublist of those of the item. *)
Lemma validCommon_sublist common sigs :
  exists sigs', sublist sigs' sigs /\ Forall (signedCommitment common) sigs' /\
    length sigs' =
      length (filter (fun s => (commonPart (nsData (vnSignature s)) =? common)%string = true) (validSignatures sigs)).
Proof.
  induction sigs as [|s sigs (sigs' & Hs & HF & Hl)]; [by exists []|].
  unfold validSignatures in *. csimpl. destruct (NodeValidation s) as [node| |] eqn:E.
  - rewrite filter_cons. simpl. case_decide as Hc.
    + exists (s :: sigs'). split_and!; [by constructor| |simpl; congruence]. constructor; [|done].
      split; [by eexists|by apply String.eqb_eq].
    + exists sigs'. split_and!; [by constructor|done|done].
  - exists sigs'. split_and!; [by constructor|done|done].
  - exists sigs'. split_and!; [by constructor|done|done].
Qed.

Lemma Split_three s a b c : Split s Delimiter1 = [a; b; c] -> s = Join [a; b; c] Delimiter1.
Proof. intros <-. by rewrite Join_Split. Qed.

(** What an item that passed adds. *)
Lemma shareItem_Reply now n K acc rawItem acc' :
  shareItem now n K acc rawItem = Reply acc' ->
  (exists v vid, authenticated now n K rawItem v vid /\
     allValidVerifierIDs acc' = <[Join [v; vid] Delimiter1 := true]> (allValidVerifierIDs acc)) /\
  (forall T v k, commitKey T (saCache acc') v k = commitKey T (saCache acc) v k).
Proof.
  unfold shareItem. destruct (Unmarshal rawItem) as [item|] eqn:Ei; [|done].
  destruct (Unmarshal rawItem) as [jsonMap|] eqn:Ej in |- *; [|done]. intros E. reply_inv.
  destruct a0 as [verified vid]. reply_inv. subst.
  destruct (Split _ Delimiter1) as [|prefix [|ctc [|cv [|]]]] eqn:Es; try done. reply_inv.
  match goal with E : (let '(_, _) := ?g in _) = _ |- _ =>
    pose proof (getTokenCommitKey_cache (nanos now)) as Hc; destruct g as [c pubKey] eqn:Eg end.
  reply_inv. simpl. split.
  - exists (siVerifierIdentifier item), vid. split; [|done].
    destruct (validCommon_sublist (commonDataString (validSignatures (siNodeSignatures item))) (siNodeSignatures item))
      as (sigs & Hsub & HF & Hl).
    match goal with
    | Hr : marshal _ = Ok ?r, Hct : cleanToken _ _ _ = Ok ?ct |- _ => exists item, jsonMap, r, prefix, cv, ct, sigs
    end.
    rewrite Hl. split_and!; try done; [by apply marshal_Ok|].
    by rewrite (Split_three _ _ _ _ Es) in HF.
  - intros T v k. specialize (Hc T (saCache acc)). 
    match type of Eg with getTokenCommitKey _ _ ?x ?y = _ => rewrite <-(Hc x y v k) end. by rewrite Eg.
Qed.

(** The items of a request that passed, all or up to the one that failed. *)
Lemma shareItems_collects now n K items : forall acc,
  let acc' := fst (shareItems now n K acc items) in
  (forall e, e ∈ dom (allValidVerifierIDs acc') ->
     (e ∈ dom (allValidVerifierIDs acc)) \/
     exists raw v vid, (raw ∈ items) /\ authenticated now n K raw v vid /\ e = Join [v; vid] Delimiter1) /\
  (forall T v k, commitKey T (saCache acc') v k = commitKey T (saCache acc) v k).
Proof.
  induction items as [|raw items IH]; intros acc; simpl; [by eauto|].
  destruct (shareItem now n K acc raw) as [acc1|e|] eqn:E; simpl; [|by eauto..].
  destruct (shareItem_Reply _ _ _ _ _ _ E) as [(v & vid & Hau & Hids) Hc]. destruct (IH acc1) as [H1 H2]. split.
  - intros e He. destruct (H1 e He) as [He'|(raw' & v' & vid' & Hin & Hau' & ->)].
    + rewrite Hids, dom_insert_L in He'. apply elem_of_union in He' as [->%elem_of_singleton|He']; [|by left].
      right. exists raw, v, vid. split_and!; [by left|done|done].
    + right. exists raw', v', vid'. split_and!; [by right|done|done].
  - intros T v' k. by rewrite H2, Hc.
Qed.

(** ** The access structure *)

Lemma inner_count (e : string) (l : list (string * bool)) : forall c,
  NoDup l.*1 ->
  foldl (fun count '(s, _) => if (e =? s)%string then count + 1 else count) c l =
    c + (if decide (e ∈ l.*1) then 1 else 0).
Proof.
  induction l as [|[s b] l IH]; intros c Hnd; [simpl; lia|].
  rewrite fmap_cons in Hnd. apply list.NoDup_cons in Hnd as [Hs Hnd]. simpl in Hs. simpl foldl. rewrite IH by done.
  assert (e ∈ ((s, b) :: l).*1 <-> e = s \/ (e ∈ l.*1)) as He by (rewrite fmap_cons, list.elem_of_cons; done).
  destruct (String.eqb_spec e s) as [->|Hne]; repeat case_decide; try lia; tauto.
Qed.

(** The count is the number of entries that are authenticated. *)
Lemma validCount_filter valid a :
  validCount valid a = Z.of_nat (length (filter (fun e => e ∈ dom valid) (accessEntries a))).
Proof.
  unfold validCount. set (l := mapRange 63 valid).
  assert (l ≡ₚ map_to_list valid) as Hl by apply mapRange_perm.
  assert (forall es c, foldl (fun count entry =>
     foldl (fun count '(s, _) => if (entry =? s)%string then count + 1 else count) count l) c es =
     c + Z.of_nat (length (filter (fun e => e ∈ dom valid) es))) as H; [|by rewrite H].
  induction es as [|e es IH]; intros c; simpl; [lia|]. rewrite IH.
  rewrite inner_count by (rewrite Hl; apply NoDup_fst_map_to_list).
  assert (e ∈ l.*1 <-> e ∈ dom valid) as He.
  { rewrite Hl, elem_of_dom, list_elem_of_fmap. split.
    - intros ([k b] & -> & Hk). apply elem_of_map_to_list in Hk. by eexists.
    - intros [b Hb]. exists (e, b). by rewrite elem_of_map_to_list. }
  rewrite filter_cons. destruct (decide (e ∈ dom valid)) as [Hd|Hd].
  - rewrite decide_True by by apply He. simpl. lia.
  - rewrite decide_False by by rewrite He. lia.
Qed.

(** ** The released shares *)

Lemma foldReply_inv {A B} (f : B -> A -> reply B) (P : B -> Prop) l : forall b b',
  (forall b a b', a ∈ l -> f b a = Reply b' -> P b -> P b') -> foldReply f b l = Reply b' -> P b -> P b'.
Proof.
  induction l as [|a l IH]; intros b b' Hf E Hb; simpl in E; [by injection E as <-|].
  apply bind_Reply in E as (b1 & E1 & E). apply (IH b1 b'); [|done|].
  - intros c x c' Hx. apply Hf. set_solver.
  - apply (Hf b a b1); [set_solver|done|done].
Qed.

Lemma encryptShare_Reply P ke ke' :
  encryptShare P ke = Reply ke' ->
  keKeyAssignmentPublic ke' = keKeyAssignmentPublic ke /\ (EncryptShares = false -> ke' = ke).
Proof.
  unfold encryptShare. destruct EncryptShares; [|by intros [= <-]]. intros E. reply_inv.
  destruct a as [encrypted [metadata|]]; [|done]. by reply_inv.
Qed.

(** A released share is that of a key whose access structure is satisfied. *)
Definition releasedFor (n : RpcNode) (acc : shareAcc) (ke : KeyAssignment) : Prop :=
  exists index s s',
    retrieveKeyMapping (rnApp n) index = Ok (keKeyAssignmentPublic ke) /\
    Database_RetrieveCompletedShare (rnDB n) index = Ok (s, s') /\
    (EncryptShares = false -> keShare ke = Bytes s) /\
    kaThreshold (keKeyAssignmentPublic ke) <= validCount (allValidVerifierIDs acc) (keKeyAssignmentPublic ke).

Lemma shareOf_releasedFor n acc keys index keys' :
  shareOf n acc keys index = Reply keys' -> Forall (releasedFor n acc) keys -> Forall (releasedFor n acc) keys'.
Proof.
  unfold shareOf. intros E HF. reply_inv. destruct (Z.leb_spec (kaThreshold a) (validCount (allValidVerifierIDs acc) a)).
  - reply_inv. match goal with H : encryptShare _ _ = Reply _ |- _ => apply encryptShare_Reply in H as [Ha Hs] end.
    apply Forall_app. split; [done|]. apply list.Forall_cons. split; [|by apply list.Forall_nil].
    destruct a0 as [s s']. simpl in *. exists index, s, s'. rewrite Ha. split_and!; try done.
    intros HE. by rewrite (Hs HE).
  - by reply_inv.
Qed.

(** C16: A share request answers with the share of a key only if the request
    satisfies the key's access structure: at least as many entries of the structure
    as its threshold asks for are users that the verifier named by an item of the
    request accepted, each item carrying as many signatures of current nodes on the
    commitment to its own token as the epoch's threshold; the share is then the one
    the node's database holds for the key. *)
Theorem share_release_authorised now n params n' keys ke :
  ShareRequest now n params = (n', Reply keys) -> ke ∈ keys ->
  exists K T p index s s' entries,
    GetEpochInfo GetCurrentEpoch = Some (K, T) /\ Unmarshal (A := ShareRequestParams) params = Some p /\
    retrieveKeyMapping (rnApp n) index = Ok (keKeyAssignmentPublic ke) /\
    Database_RetrieveCompletedShare (rnDB n) index = Ok (s, s') /\
    (EncryptShares = false -> keShare ke = Bytes s) /\
    sublist entries (accessEntries (keKeyAssignmentPublic ke)) /\
    kaThreshold (keKeyAssignmentPublic ke) <= Z.of_nat (length entries) /\
    Forall (fun e => exists raw v vid,
      (raw ∈ spItem p) /\ authenticated now n (int64 K) raw v vid /\ e = Join [v; vid] Delimiter1) entries.
Proof.
  unfold ShareRequest, parseParams. destruct (GetEpochInfo GetCurrentEpoch) as [[K T]|] eqn:EK; [|done].
  destruct (Unmarshal params) as [p|] eqn:Ep; [|done].
  pose proof (shareItems_collects now n (int64 K) (spItem p) (mkShareAcc (rnCache n) ∅ ∅ PointO)) as [Hids _].
  destruct (shareItems _ _ _ _ _) as [acc r]. intros [= _ E] Hke. reply_inv.
  match goal with H : foldReply _ _ _ = Reply _ |- _ =>
    apply (foldReply_inv _ (Forall (releasedFor n acc))) in H; [|by eauto using shareOf_releasedFor|by apply list.Forall_nil] end.
  match goal with H : Forall _ keys |- _ => rewrite list.Forall_forall in H; destruct (H ke Hke) as (index & s & s' & ? & ? & ? & Ht) end.
  rewrite validCount_filter in Ht. exists K, T, p, index, s, s'.
  exists (filter (fun e => e ∈ dom (allValidVerifierIDs acc)) (accessEntries (keKeyAssignmentPublic ke))).
  split_and!; try done.
  - apply sublist_filter.
  - apply list.Forall_forall. intros e [He _]%list_elem_of_filter. simpl in Hids.
    destruct (Hids e He) as [He'|H']; [set_solver|exact H'].
Qed.

(** ** Commitments *)

(** A request for a commitment, read from its parameters. *)
Definition commitsTo (params : list Z) (verifier tokenCommitment : string) (P : Point) : Prop :=
  exists p, Unmarshal (A := CommitmentRequestParams) params = Some p /\
    rpVerifierIdentifier p = verifier /\ rpTokenCommitment p = tokenCommitment /\
    mkPoint (HexToBigInt (rpTempPubX p)) (HexToBigInt (rpTempPubY p)) = P.

(** An answered request finds no key for its commitment, and its key is remembered. *)
Lemma CommitmentRequest_Reply now n params n' r :
  IsDebug = false -> CommitmentRequest now n params = (n', Reply r) ->
  exists v k P, commitsTo params v k P /\ commitKey (nanos now) (rnCache n) v k = None /\
    forall T v' k', commitKey T (rnCache n') v' k' =
      if decide (v = v' /\ k = k') then (if nanos now + 90 * Minute <? T then None else Some P)
      else commitKey T (rnCache n) v' k'.
Proof.
  intros HD. unfold CommitmentRequest, parseParams. destruct (Unmarshal params) as [p|] eqn:Ep; [|done].
  destruct (negb _); [done|].
  pose proof (tokenCommitExists_key (nanos now) (rnCache n) (rpVerifierIdentifier p) (rpTokenCommitment p)) as Hf.
  pose proof (tokenCommitExists_cache (nanos now)) as Hc. specialize (fun T => Hc T (rnCache n) (rpVerifierIdentifier p) (rpTokenCommitment p)).
  destruct (tokenCommitExists _ _ _ _) as [c found]. rewrite HD, andb_true_r. destruct found; [done|].
  intros [= <- _]. simpl in *. exists (rpVerifierIdentifier p), (rpTokenCommitment p).
  eexists. split_and!; [by exists p| |].
  - symmetry in Hf. apply bool_decide_eq_false in Hf. by apply eq_None_not_Some.
  - intros T v' k'. rewrite recordTokenCommit_key. by rewrite Hc.
Qed.

(** Any other outcome leaves what is remembered as it was. *)
Lemma CommitmentRequest_other now n params n' r :
  CommitmentRequest now n params = (n', r) -> (forall a, r <> Reply a) ->
  forall T v k, commitKey T (rnCache n') v k = commitKey T (rnCache n) v k.
Proof.
  unfold CommitmentRequest, parseParams. destruct (Unmarshal params) as [p|]; [|by intros [= <- <-]].
  destruct (negb _); [by intros [= <- <-]|]. intros E Hr T v k.
  pose proof (tokenCommitExists_cache (nanos now) T (rnCache n) (rpVerifierIdentifier p) (rpTokenCommitment p) v k) as Hc.
  destruct (tokenCommitExists _ _ _ _) as [c found]. destruct (found && _); injection E as <- <-; [exact Hc|].
  by edestruct Hr.
Qed.

Lemma ShareRequest_commitKey now n params T v k :
  commitKey T (rnCache (fst (ShareRequest now n params))) v k = commitKey T (rnCache n) v k.
Proof.
  unfold ShareRequest, parseParams. destruct (GetEpochInfo GetCurrentEpoch) as [[K ?]|]; [|done].
  destruct (Unmarshal params) as [p|]; [|done].
  pose proof (shareItems_collects now n (int64 K) (spItem p) (mkShareAcc (rnCache n) ∅ ∅ PointO)) as [_ Hc].
  destruct (shareItems _ _ _ _ _) as [acc r]. simpl in *. by rewrite Hc.
Qed.

(** ** Histories of a node *)

Inductive rpcRequest :=
  | ReqCommitment (params : list Z)
  | ReqShare (params : list Z)
  | ReqUpdateShare (params : list Z)
  | ReqUpdateCommitment (params : list Z)
  | ReqOther (app : App) (db : TorusLDB).

(** A request, or a change of the application and the database by the rest of the
    node. *)
Definition rpcStep (n : RpcNode) (req : (Z * Z) * rpcRequest) : RpcNode :=
  let '(now, req) := req in
  match req with
  | ReqCommitment params => fst (CommitmentRequest now n params)
  | ReqShare params => fst (ShareRequest now n params)
  | ReqUpdateShare params => fst (UpdateShare now n params)
  | ReqUpdateCommitment params => fst (UpdateCommitment now n params)
  | ReqOther app db => mkRpcNode _ app db (rnCache n) (rnVerifier n)
  end.

Definition rpcRun (n : RpcNode) (reqs : list ((Z * Z) * rpcRequest)) : RpcNode := foldl rpcStep n reqs.

Lemma UpdateShare_cache now n params : rnCache (fst (UpdateShare now n params)) = rnCache n.
Proof.
  unfold UpdateShare, storeDB. destruct (dealerEnvelope _ _ _); [|done..]. destruct (Unmarshal _); [|done].
  destruct (negb _); [done|]. by destruct (Database_StoreCompletedPSSShare _ _ _ _).
Qed.

Lemma UpdateCommitment_cache now n params : rnCache (fst (UpdateCommitment now n params)) = rnCache n.
Proof.
  unfold UpdateCommitment, storeDB. destruct (dealerEnvelope _ _ _); [|done..]. destruct (Unmarshal _); [|done].
  destruct (negb _); [done|]. by destruct (Database_StorePSSCommitmentMatrix _ _ _).
Qed.

(** The key remembered until a time stays the same in every request before it. *)
Lemma commitKey_step until n req v k P :
  IsDebug = false -> nanos (fst req) <= until ->
  (forall T, T <= until -> commitKey T (rnCache n) v k = Some P) ->
  forall T, T <= until -> commitKey T (rnCache (rpcStep n req)) v k = Some P.
Proof.
  intros HD Ht Hk T HT. destruct req as [now [params|params|params|params|app db]]; simpl in *.
  - destruct (CommitmentRequest now n params) as [n' r] eqn:E. simpl. destruct r as [r|e|].
    + destruct (CommitmentRequest_Reply _ _ _ _ _ HD E) as (v' & k' & P' & _ & Hnone & ->).
      rewrite decide_False; [by apply Hk|]. intros [-> ->]. by rewrite Hk in Hnone.
    + rewrite (CommitmentRequest_other _ _ _ _ _ E) by done. by apply Hk.
    + rewrite (CommitmentRequest_other _ _ _ _ _ E) by done. by apply Hk.
  - rewrite ShareRequest_commitKey. by apply Hk.
  - rewrite UpdateShare_cache. by apply Hk.
  - rewrite UpdateCommitment_cache. by apply Hk.
  - by apply Hk.
Qed.

Lemma commitKey_run until n reqs v k P :
  IsDebug = false -> Forall (fun req => nanos (fst req) <= until) reqs ->
  (forall T, T <= until -> commitKey T (rnCache n) v k = Some P) ->
  forall T, T <= until -> commitKey T (rnCache (rpcRun n reqs)) v k = Some P.
Proof.
  intros HD. revert n. induction reqs as [|req reqs IH]; intros n HF Hk; [done|].
  apply list.Forall_cons in HF as [Ht HF]. apply IH; [done|]. by apply commitKey_step.
Qed.

(** C17: With the debug mode off, when a node has answered a request to commit to a token, then for ninety
    minutes, whatever requests it serves one after the other and however the rest
    of the node changes, shares for that token are encrypted to the temporary key
    of that request, and no other request for the same commitment at the same
    verifier is answered. *)
Theorem commitment_bound now n params n' r reqs later :
  IsDebug = false -> CommitmentRequest now n params = (n', Reply r) ->
  nanos later <= nanos now + 90 * Minute -> Forall (fun req => nanos (fst req) <= nanos later) reqs ->
  exists v k P, commitsTo params v k P /\
    snd (getTokenCommitKey (nanos later) (rnCache (rpcRun n' reqs)) v k) = P /\
    forall params' P' n'' r', commitsTo params' v k P' ->
      CommitmentRequest later (rpcRun n' reqs) params' <> (n'', Reply r').
Proof.
  intros HD E Hl HF. destruct (CommitmentRequest_Reply _ _ _ _ _ HD E) as (v & k & P & Hp & _ & Hk).
  assert (commitKey (nanos later) (rnCache (rpcRun n' reqs)) v k = Some P) as HP.
  { apply (commitKey_run (nanos later)); [done|done| |lia]. intros T HT. rewrite Hk, decide_True by done.
    destruct (Z.ltb_spec (nanos now + 90 * Minute) T); [lia|done]. }
  exists v, k, P. split_and!; [done|by rewrite getTokenCommitKey_key, HP|].
  intros params' P' n'' r' (p & Ep & Hv & Hk' & _) E'.
  destruct (CommitmentRequest_Reply _ _ _ _ _ HD E') as (v2 & k2 & P2 & (p2 & Ep2 & Hv2 & Hk2 & _) & Hnone & _).
  rewrite Ep in Ep2. injection Ep2 as <-. rewrite <-Hv2, <-Hk2, Hv, Hk', HP in Hnone. done.
Qed.

End props.

(** ** Connection details *)

(** A number on exactly 32 bytes. *)
Definition fixed32 (x : Z) : list Z := replicate (32 - length (Bytes x))%nat 0 ++ Bytes x.

Lemma SetBytes_fixed32 x : 0 <= x < 2 ^ 256 -> SetBytes (fixed32 x) = x /\ length (fixed32 x) = 32%nat.
Proof.
  intros Hx. pose proof (Bytes_length x 32) as Hl. split.
  - unfold fixed32. rewrite SetBytes_zeros, SetBytes_Bytes. lia.
  - unfold fixed32. rewrite length_app, length_replicate. change (256 ^ Z.of_nat 32) with (2 ^ 256) in Hl. lia.
Qed.

Section connect.
Context {SO : Secp256k1} {SL : Secp256k1Laws} {SV : Services} {TC : TorusCrypto} {NC : NodeConfig} {MR : MapRange}.
Context {KC : KeygenCodecs} {MC : MappingCodecs} {BC : BftCodecs} {DC : TorusDBCodecs} {DL : TorusDBLaws} {GC : GoCache}.
Context {RE : RpcEnv} {RC : RpcCodecs}.

Local Abbreviation q := GeneratorOrder.

(** The zero point is the public key of the private key zero: anyone can sign for it. *)
Lemma zero_key_forged str :
  q <= 2 ^ 256 -> hashToInt (Keccak256 str) mod q <> 0 -> PX secp_G mod q <> 0 ->
  exists sig, ECDSAVerify str PointO sig = Ok true.
Proof.
  intros Hq He Hr. set (e := hashToInt (Keccak256 str)) in *. pose proof (mod_order_bound e) as Heb.
  pose proof (mod_order_bound (PX secp_G)) as Hrb. pose proof order_ge_2 as H2.
  exists (fixed32 (PX secp_G mod q) ++ fixed32 (e mod q)).
  destruct (SetBytes_fixed32 (PX secp_G mod q)) as [Er Lr]; [lia|].
  destruct (SetBytes_fixed32 (e mod q)) as [Es Ls]; [lia|].
  unfold ECDSAVerify. rewrite length_app, Lr, Ls. cbn [Nat.ltb Nat.leb Nat.add].
  rewrite (take_app_length' _ _ 32), (drop_app_length' _ _ 32), take_ge, Er, Es by lia.
  unfold ecdsa_Verify. fold e. destruct (Z.leb_spec (PX secp_G mod q) 0), (Z.leb_spec (e mod q) 0); try lia.
  destruct (Z.leb_spec q (PX secp_G mod q)), (Z.leb_spec q (e mod q)); try lia. cbn [orb].
  destruct (ModInverse_prime (e mod q) q order_prime) as (w & -> & _ & Hw); [by rewrite Z.mod_mod by lia|].
  cbn [deref mbind res_bind]. cbv zeta.
  assert ((e * w) mod q = 1) as ->.
  { rewrite <-Z.mul_mod_idemp_l, Z.mul_comm by lia. exact Hw. }
  rewrite ScalarBaseMult_Bytes, ScalarMult_Bytes by (apply O_on_curve || apply mod_order_bound || lia).
  rewrite smul_O, Add_O_r, smul_1 by (apply G_on_curve || by apply smul_on_curve, G_on_curve).
  destruct ((PX secp_G =? 0) && (PY secp_G =? 0)) eqn:E0.
  - apply andb_true_iff in E0 as [E1%Z.eqb_eq E2%Z.eqb_eq]. destruct G_not_O. destruct secp_G; simpl in *. by subst.
  - by rewrite Z.eqb_refl.
Qed.

Lemma RetrieveNodePubKey_table s t a :
  Rep s t -> Database_RetrieveNodePubKey t a = Ok (default PointO (tNodeKeys s !! a)).
Proof.
  intros HR. destruct (node_key_answer s t a HR) as [_ E]. unfold Database_RetrieveNodePubKey. rewrite <-E.
  destruct s as [nk]. simpl. by destruct (nk !! a).
Qed.

(** An address the database has no public key for has the zero key, and for the
    zero key anyone can compute a signature: a recent request in the name of any
    unknown node is answered with the node's connection details. *)
Theorem unknown_node_connects now n s addr timestamp u :
  Rep s (rnDB n) -> tNodeKeys s !! addr = None ->
  Atoi timestamp = Some u -> timeBefore (timeAdd (timeUnix u 0) (10 * Minute)) now = false ->
  let msg := mkConnectionDetailsMessage timestamp "ConnectionDetails" addr in
  q <= 2 ^ 256 -> PX secp_G mod q <> 0 ->
  hashToInt (Keccak256 (stringBytes (ConnectionDetailsMessage_String msg))) mod q <> 0 ->
  exists sig, forall params,
    Unmarshal params = Some (mkConnectionDetailsParams PointO msg sig) ->
    ConnectionDetailsRequest now n params = Reply (mkConnectionDetails GetTMP2PConnection GetP2PConnection).
Proof.
  intros HR Ha Hu Hnow msg Hq Hr He. destruct (zero_key_forged _ Hq He Hr) as [sig Hsig]. exists sig. intros params Hp.
  unfold ConnectionDetailsRequest, parseParams. rewrite Hp. cbn [mbind reply_bind cpMessage cpPubKey cpSignature].
  unfold ValidateEpochPubKey. rewrite (RetrieveNodePubKey_table _ _ _ HR). cbn [msg cmNodeAddress]. rewrite Ha.
  cbn [default from_option]. change (samePoint PointO PointO) with true. cbn [demand mbind reply_bind].
  unfold ConnectionDetailsMessage_Validate. cbn [cmMessage cmTimestamp msg]. rewrite Hu, Hnow.
  cbn [negb String.eqb Ascii.eqb Bool.eqb]. by rewrite Hsig.
Qed.

End connect.
