(* ===== verification/Server.v ===== *)
(** The server service (src/dkgnode/server.go): how a node asks another for its
    connection details, which that node's handler answers ([Rpc.ConnectionDetailsRequest])
    and the register of the first waits for ([Ethereum.nodeConnections]).

    The HTTP client, the JSON-RPC library that takes the parameters out of a request and
    wraps a result, and the serialisation are parameters.  The router is in Middleware. *)
From Stdlib Require Import ZArith.
From stdpp Require Import gmap strings.
From S2P Require Import Prelude BigInt Field Curve Ecdsa Ids Effects Keygen Mapping Dealer GoTime Auth Cache PssTypes Torusdb TorusdbSpec Library.
From S2P Require Import P2p Ethereum EthereumLibrary EthereumProps Transport Bft Abci Rpc RpcProps.

(** ** Data *)

Record ConnectionDetailsRequestBody := mkConnectionDetailsRequestBody {
  cbRpcVersion : string; cbMethod : string; cbId : Z; cbParams : ConnectionDetailsParams;
}.

Record ConnectionDetailsJRPCResponse := mkConnectionDetailsJRPCResponse { cjRpcVersion : string; cjId : Z; cjResult : ConnectionDetails }.

Class ServerCodecs := {
  codec_details_request :: Codec ConnectionDetailsRequestBody;
  codec_details_response :: Codec ConnectionDetailsJRPCResponse;
}.

(** [c.Post(url, contentType, body)]: nothing when it fails, and else what reading the
    body of the response gives. *)
Definition httpClient : Type := string -> list Z -> option (res (list Z)).

(** The response, if a request has been made. *)
Inductive attempt := NoAttempt | AttemptFailed | Responded (body : res (list Z)).

Section server.
Context {SO : Secp256k1} {TC : TorusCrypto} {TS : TorusSign} {EC : EthCrypto} {DC : TorusDBCodecs} {LP : LibP2P}.
Context {NL : NodeListContract} {RR : RegisterRange} {RE : RpcEnv} {SCD : ServerCodecs}.

Definition postTo (post : httpClient) (url : string) (body : list Z) : attempt :=
  match post url body with Some resp => Responded resp | None => AttemptFailed end.

(** Another attempt when the last one failed. *)
Definition orPost (a : attempt) (post : httpClient) (url : string) (body : list Z) : attempt :=
  match a with AttemptFailed => postTo post url body | _ => a end.

(** [uri] and [port] of an endpoint. *)
Definition splitEndpoint (endpoint : string) : res (string * string) :=
  match Split endpoint ":"%char with
  | [] => Err "could not get uri from endpoint"
  | [uri] => Ok (uri, EmptyString)
  | uri :: port :: _ => Ok (uri, port)
  end.

(** Without a port no request is made and [resp] stays nil. *)
Definition attempts (post : httpClient) (uri port : string) (body : list Z) : attempt :=
  let a := if negb (port =? EmptyString)%string then
             orPost (postTo post ("https://" +:+ uri +:+ ":" +:+ port +:+ "/jrpc") body)
               post ("http://" +:+ uri +:+ ":" +:+ port +:+ "/jrpc") body
           else NoAttempt in
  let a := orPost a post ("https://" +:+ uri +:+ "/jrpc") body in
  orPost a post ("http://" +:+ uri +:+ "/jrpc") body.

(** [time.Now().Unix()]. *)
Definition unixSeconds (now : Z * Z) : Z := int64 (fst now - unixToInternal).

(** The signed request. *)
Definition connectionDetailsParams (n : Net) (now : Z * Z) : res ConnectionDetailsParams :=
  pubKey ← toRes (snd (Ethereum_GetSelfPublicKey (netDB n) (netEth n)));
  privKey ← toRes (snd (Ethereum_GetSelfPrivateKey (netDB n) (netEth n)));
  nodeAddress ← toRes (snd (Ethereum_GetSelfAddress (netDB n) (netEth n)));
  let message := mkConnectionDetailsMessage (Itoa (unixSeconds now)) "ConnectionDetails" nodeAddress in
  sig ← ECDSASign (stringBytes (ConnectionDetailsMessage_String message)) privKey;
  Ok (mkConnectionDetailsParams pubKey message sig).

Definition Server_RequestConnectionDetails (n : Net) (now : Z * Z) (post : httpClient) (endpoint : string) : res ConnectionDetails :=
  params ← connectionDetailsParams n now;
  body ← marshal (mkConnectionDetailsRequestBody "2.0" "ConnectionDetails" 10 params);
  up ← splitEndpoint endpoint;
  match attempts post (fst up) (snd up) body with
  | NoAttempt => Panic
  | AttemptFailed => Err "could not get connection Details"
  | Responded resp =>
      responseBody ← resp;
      match Unmarshal (A := ConnectionDetailsJRPCResponse) responseBody with
      | None => Err "could not unmarshal"
      | Some r => Ok (mkConnectionDetails (cdTMP2PConnection (cjResult r)) (cdP2PConnection (cjResult r)))
      end
  end.

Inductive serverRequest := request_connection_details (endpoint : string) | server_other (method : string).

Definition ServerService_Call (n : Net) (now : Z * Z) (post : httpClient) (req : serverRequest) : res ConnectionDetails :=
  match req with
  | request_connection_details endpoint => Server_RequestConnectionDetails n now post endpoint
  | server_other method => Err ("server service method " +:+ method +:+ " not found")
  end.

(** The library's method hands on the response; a panic of the service is an error of
    its response. *)
Definition Server_Library_RequestConnectionDetails (n : Net) (now : Z * Z) (post : httpClient) (endpoint : string) : res ConnectionDetails :=
  match ServerService_Call n now post (request_connection_details endpoint) with
  | Panic => Err "runtime error: invalid memory address or nil pointer dereference"
  | r => r
  end.

(** The peers as the Ethereum service sees them through the server. *)
Definition serverPeers (n : Net) (now : Z * Z) (post : httpClient) (hostID : string) (connect : string -> string -> bool) : EthPeers := {|
  RequestConnectionDetails := Server_Library_RequestConnectionDetails n now post;
  hostPeerID := hostID;
  connects := connect;
|}.

End server.

(** ** The exchange *)

(** The JSON-RPC library at the peer: the parameters of a request and the response with a
    result. *)
Class JsonRpc := { rpcParams : list Z -> option (list Z); rpcResult : ConnectionDetails -> list Z }.

Class JsonRpcLaws `{RpcEnv, ServerCodecs, JsonRpc, RpcCodecs} := {
  rpcParams_request r body : Marshal r = Some body ->
    exists params, rpcParams body = Some params /\ Unmarshal params = Some (cbParams r);
  rpcResult_response d : exists r, Unmarshal (rpcResult d) = Some r /\ cjResult r = d;
}.

Section exchange.
Context {SO : Secp256k1} {SL : Secp256k1Laws} {TC : TorusCrypto} {TS : TorusSign} {EC : EthCrypto} {EL : EthCryptoLaws}.
Context {DC : TorusDBCodecs} {DL : TorusDBLaws} {LP : LibP2P} {NL : NodeListContract} {RR : RegisterRange}.
Context {SV : Bft.Services} {NC : NodeConfig} {MR : MapRange} {KC : KeygenCodecs} {MC : MappingCodecs} {BC : BftCodecs} {GC : GoCache}.
Context {RE : RpcEnv} {RC : RpcCodecs} {SCD : ServerCodecs} {JR : JsonRpc} {JL : JsonRpcLaws}.

(** The server of a peer: its handler answers a request for connection details. *)
Definition peerAnswers (now : Z * Z) (peer : RpcNode) (body : list Z) : option (res (list Z)) :=
  params ← rpcParams body;
  match ConnectionDetailsRequest now peer params with Reply d => Some (Ok (rpcResult d)) | _ => None end.

Lemma unixSeconds_time now : clockTime now -> timeUnix (unixSeconds now) 0 = (fst now, 0).
Proof.
  unfold clockTime, unixSeconds, timeUnix, unixToInternal. intros [H _]. rewrite (int64_id (fst now - 62135596800)) by (unfold in_int64; lia).
  rewrite Z.div_0_l, Z.mod_0_l, Z.add_0_r by done. f_equal. replace (fst now - 62135596800 + 62135596800) with (fst now) by lia.
  apply int64_id. unfold in_int64. lia.
Qed.

(** The node's own keys and address. *)
Definition ownKeys (n : Net) (d : Z) (addr : list Z) : Prop :=
  esNodePrivK (netEth n) = Some d /\ esNodePubK (netEth n) = Some (d ⊙ secp_G) /\ esNodeAddr (netEth n) = Some addr.

Lemma connectionDetailsParams_valid n now p d addr : ownKeys n d addr -> clockTime now -> connectionDetailsParams n now = Ok p ->
  cpPubKey p = d ⊙ secp_G /\ cmNodeAddress (cpMessage p) = addr /\
  forall now', clockTime now' -> nanos now' <= fst now * Second + 10 * Minute ->
    ConnectionDetailsMessage_Validate now' (cpMessage p) (cpPubKey p) (cpSignature p) = Ok true.
Proof.
  intros (Hd & Hpub & Ha) Hnow. unfold connectionDetailsParams.
  destruct (snd (Ethereum_GetSelfPublicKey _ _)) as [pk| | |] eqn:Epk; [|done..]. apply SelfPublicKey_answer in Epk.
  rewrite Hpub in Epk. injection Epk as <-.
  unfold Ethereum_GetSelfPrivateKey, Ethereum_GetSelfAddress, ask. simpl. unfold locking.
  destruct (esLocked _); [done|]. rewrite Hd, Ha. simpl.
  destruct (ECDSASign _ d) as [sig| |] eqn:Es; [|done..]. simpl. intros [= <-]. simpl. split_and!; [done..|].
  intros now' Hnow' Hle. unfold ConnectionDetailsMessage_Validate. simpl cmMessage. cbn [String.eqb Ascii.eqb Bool.eqb negb].
  simpl cmTimestamp. rewrite Atoi_Itoa by (unfold unixSeconds; apply int64_range). rewrite unixSeconds_time by done.
  rewrite timeAdd_before; [|destruct Hnow; split; simpl; [lia|split; [lia|done]]|done|by unfold Minute, Second; lia].
  unfold nanos at 1. simpl. rewrite Z.add_0_r. destruct (Z.ltb_spec (fst now * Second + 10 * Minute) (nanos now')); [lia|].
  by apply ecdsa_complete.
Qed.

Lemma splitEndpoint_join uri port : ":"%char ∉ chars uri -> ":"%char ∉ chars port ->
  splitEndpoint (Join [uri; port] ":"%char) = Ok (uri, port).
Proof. intros H1 H2. unfold splitEndpoint. by rewrite Split_Join by (done || by repeat constructor). Qed.

(** C39: When the contract hides how a node can be reached and declares where its server
    is, the server answers requests as the handler of connection details does, and the
    peer's connections do not hold the separator of the records of the database, then
    a node with its keys, whose public key the peer has stored under its address, learns
    exactly the connections of the peer, and stores them for the time when the peer does
    not answer. *)
Theorem hidden_connections_learned n now d addr post now' peer peerAddr details uri port params hostID connect :
  ownKeys n d addr -> clockTime now -> clockTime now' -> nanos now' <= fst now * Second + 10 * Minute ->
  connectionDetailsParams n now = Ok params ->
  is_Some (Marshal (mkConnectionDetailsRequestBody "2.0" "ConnectionDetails" 10 params)) ->
  ctDeclaredIp details = Join [uri; port] ":"%char -> ":"%char ∉ chars uri -> ":"%char ∉ chars port -> port <> EmptyString ->
  ctTmP2PListenAddress details = EmptyString ->
  ValidateEpochPubKey (rnDB peer) addr (d ⊙ secp_G) = true -> separated (mkConnectionDetails GetTMP2PConnection GetP2PConnection) ->
  (forall body, post ("https://" +:+ uri +:+ ":" +:+ port +:+ "/jrpc") body = peerAnswers now' peer body) ->
  let learned := mkConnectionDetails GetTMP2PConnection GetP2PConnection in
  exists t', nodeConnections (EP := serverPeers n now post hostID connect) (netDB n) peerAddr details = (t', Ok learned) /\
    Database_RetrieveConnectionDetails t' peerAddr = Ok learned.
Proof.
  intros Hown Hnow Hnow' Hle Hp [body Hbody] Hip Huri Hport Hne Htm Hval Hsep Hpost learned.
  destruct (connectionDetailsParams_valid _ _ _ _ _ Hown Hnow Hp) as (Hk & Ha & Hv).
  assert (Server_Library_RequestConnectionDetails n now post (ctDeclaredIp details) = Ok learned) as Hreq.
  { unfold Server_Library_RequestConnectionDetails, ServerService_Call, Server_RequestConnectionDetails, marshal.
    rewrite Hp. cbn [mbind res_bind]. rewrite Hbody, Hip, splitEndpoint_join by done. cbn [mbind res_bind fst snd].
    unfold attempts. rewrite (proj2 (String.eqb_neq port EmptyString)) by done. cbn [negb]. unfold postTo at 1.
    rewrite Hpost. unfold peerAnswers. destruct (rpcParams_request _ _ Hbody) as (raw & -> & Hraw). cbn [mbind option_bind].
    simpl cbParams in Hraw. unfold ConnectionDetailsRequest, parseParams. rewrite Hraw. cbn [mbind reply_bind].
    rewrite Ha, Hk, Hval. cbn [demand mbind reply_bind]. rewrite <- Hk, Hv by done. cbn [try mbind reply_bind demand].
    destruct (rpcResult_response learned) as (r & Er & Ed). cbn [orPost]. fold learned. simpl. rewrite Er, Ed. done. }
  unfold nodeConnections. rewrite Htm. change ((EmptyString =? EmptyString)%string) with true. rewrite orb_true_r.
  simpl RequestConnectionDetails. rewrite Hreq.
  assert (Database_StoreConnectionDetails (netDB n) peerAddr learned =
    (dbSet (netDB n) (connectionDetailsBytes ++ peerAddr) (stringBytes (Join [GetTMP2PConnection; GetP2PConnection] Delimiter1)), None))
    as -> by reflexivity.
  eexists. split; [reflexivity|]. unfold Database_RetrieveConnectionDetails, dbQuery. cbn [Call snd].
  unfold RetrieveConnectionDetails, dbGet, dbSet. rewrite lookup_insert_eq. destruct Hsep as [H1 H2].
  by rewrite bytesString_stringBytes, Split_Join by first [done|by repeat constructor].
Qed.

(** An endpoint without a port: no request is made, whatever the peer would answer. *)
Theorem no_port_no_request n now post uri : ":"%char ∉ chars uri -> forall params body, connectionDetailsParams n now = Ok params ->
  marshal (mkConnectionDetailsRequestBody "2.0" "ConnectionDetails" 10 params) = Ok body ->
  Server_RequestConnectionDetails n now post uri = Panic.
Proof.
  intros Hu params body Hp Hb. unfold Server_RequestConnectionDetails. rewrite Hp. cbn [mbind res_bind]. rewrite Hb.
  cbn [mbind res_bind]. unfold splitEndpoint, Split. rewrite split_chars_word by done. simpl. done.
Qed.

End exchange.
