(* ===== verification/TendermintProps.v ===== *)
(** A prepared transaction is authenticated as its sender's and reaches the rule of its
    type; a query's responses are forwarded in order, no more than were asked for; and
    what the queue of transactions answers. *)
From Stdlib Require Import ZArith.
From stdpp Require Import gmap strings.
From S2P Require Import Prelude BigInt Field Curve Pvss Ids Effects EventBus Services Keygen Dealer Torusdb TorusdbSpec Library Mapping PssTypes.
From S2P Require Import P2p Ethereum EthereumLibrary EthereumProps Transport Bft Abci Tendermint.

(** ** The queue *)

Section queue.
Context {Msg Resp World : Type} (process : Msg -> World -> option Resp * World).

(** The state of the world after [k] attempts. *)
Fixpoint afterAttempts (k : nat) (msg : Msg) (w : World) : World :=
  match k with O => w | S k => afterAttempts k msg (process msg w).2 end.

(** The answer is that of the first attempt that succeeds, and nil when none of the
    attempts allowed does. *)
Lemma tryMessage_spec n msg w : exists k, (k <= n)%nat /\
  (forall j, (j < k)%nat -> (process msg (afterAttempts j msg w)).1 = None) /\
  match tryMessage process n msg w with
  | (Some resp, w') => (k < n)%nat /\ process msg (afterAttempts k msg w) = (Some resp, w')
  | (None, w') => k = n /\ w' = afterAttempts n msg w
  end.
Proof.
  revert w. induction n as [|n IH]; intros w; [exists 0%nat; split_and!; [lia|intros; lia|done..]|].
  simpl. destruct (process msg w) as [[resp|] w'] eqn:E.
  - exists 0%nat. simpl. rewrite E. split_and!; [lia|intros; lia|lia|done].
  - destruct (IH w') as (k & Hk & Hj & Hr). exists (S k). split; [lia|]. split.
    + intros [|j] Hlt; simpl; rewrite E; [done|]. apply Hj. lia.
    + simpl. rewrite E. simpl. destruct (tryMessage process n msg w') as [[resp|] w'']; [split; [lia|tauto]|].
      split; [lia|tauto].
Qed.

End queue.

(** ** Transactions *)

Section tx.
Context {SO : Secp256k1} {SL : Secp256k1Laws} {TC : TorusCrypto} {TS : TorusSign} {TSL : TorusSignLaws} {DC : TorusDBCodecs} {LP : LibP2P}.
Context {NL : NodeListContract} {RR : RegisterRange} {NC : NodeConfig} {SV : Bft.Services} {MR : MapRange}.
Context {KC : KeygenCodecs} {MC : MappingCodecs} {BC : BftCodecs} {AC : AbciCodecs}.
Context {CW : CodecLaws DefaultBFTTxWrapper} {CA : CodecLaws AssignmentBFTTx} {CK : CodecLaws KeygenMessage}
  {CP : CodecLaws PSSMessage} {CMM : CodecLaws MappingMessage} {CD : CodecLaws Message} {TR : TendermintRPC}.

(** The rule of the transaction's type reads the bytes as the transaction. *)
Definition readsAs (tx : bftTx) (bytes : list Z) : Prop :=
  match tx with
  | TxAssignment tx => Unmarshal bytes = Some tx | TxKeygen m => Unmarshal bytes = Some m | TxPSS m => Unmarshal bytes = Some m
  | TxMapping m => Unmarshal bytes = Some m | TxDealer m => Unmarshal bytes = Some m | TxOther _ => False
  end.

Lemma marshal_reads {A} `{CodecLaws A} (a : A) bytes : marshal a = Ok bytes -> Unmarshal bytes = Some a.
Proof. unfold marshal. destruct (Marshal a) eqn:E; [|done]. intros [= <-]. by apply Unmarshal_Marshal. Qed.

Lemma marshalTx_reads tx bytes : marshalTx tx = Ok bytes -> readsAs tx bytes.
Proof. destruct tx; simpl; (apply marshal_reads || done). Qed.

(** The type byte selects the rule of the type. *)
Definition ruleOf (now : Z * Z) (K T : Z) (app : App) (sender : Node) (tx : bftTx) (bytes : list Z)
    : App * list Action * outcome (list (string * string)) :=
  match tx with
  | TxAssignment _ => assignmentRule K T app bytes
  | TxKeygen _ => keygenRule K app bytes
  | TxPSS _ => pssRule app bytes
  | TxMapping _ => mappingRule K T app sender bytes
  | TxDealer _ => dealerRule now app bytes
  | TxOther _ => (app, [], Rejected None)
  end.

Definition asReply (r : App * list Action * outcome (list (string * string))) : App * list Action * response :=
  let '(app, acts, r) := r in
  (app, acts, match r with Passed tags => RespOK tags | Rejected _ => Unauthorized | Crashed => Stopped end).

(** A transaction that a registered node prepares is delivered by every application
    whose register has the node to the rule of its type, with the node as its sender and
    bytes that the rule reads as the transaction. *)
Lemma prepared_tx_delivered n nonce tx raw d refs ref K T :
  PrepareBFTTx n nonce tx = Ok raw ->
  0 < d < GeneratorOrder -> esNodePrivK (netEth n) = Some d -> esNodePubK (netEth n) = Some (d ⊙ secp_G) ->
  nodeRegisterMap Bft.GetCurrentEpoch = Some refs ->
  list.last (filter (fun r => samePoint (nrPublicKey r) (d ⊙ secp_G) = true) refs) = Some ref ->
  thresholds = Passed (K, T) ->
  exists bytes, readsAs tx bytes /\
    forall now app, DeliverTx now app raw = asReply (ruleOf now K T app (mkNode (int64 (nrIndex ref)) (nrPublicKey ref)) tx bytes).
Proof.
  intros Hp Hd Hpriv Hpub Hreg Hlast Hth. unfold PrepareBFTTx in Hp.
  destruct (bftTxs !! getType tx) as [msgType|] eqn:Et; [|done].
  destruct (snd (Ethereum_GetSelfPublicKey _ _)) as [pk| | |] eqn:Epk; [|done..]. cbn [toRes mbind res_bind] in Hp.
  pose proof (SelfPublicKey_answer n pk Epk) as E. rewrite Hpub in E. injection E as <-.
  destruct (marshalTx tx) as [bytes| |] eqn:Em; [|done..]. cbn [mbind res_bind] in Hp.
  set (w0 := mkWrapper bytes _ _ msgType None) in Hp.
  destruct (toRes (snd (Ethereum_SelfSignData _ _ _))) as [sig| |] eqn:Es; [|done..]. cbn [mbind res_bind] in Hp.
  apply (SelfSignData_answer n d) in Es as ->; [|done]. apply marshal_reads in Hp.
  exists bytes. split; [by apply marshalTx_reads|]. intros now app. unfold DeliverTx, authenticateBftTx. rewrite Hp.
  set (w := mkWrapper bytes _ _ msgType (Some _)). change (Abci.GetSerializedBody w) with (Abci.GetSerializedBody w0).
  unfold VerifyDataWithEpoch, verifyDataWithEpoch. rewrite Hreg. simpl wrPubKey. rewrite Hlast. simpl wrSignature. cbn [default].
  unfold id at 1. rewrite VerifyPtFromRaw_SignDataRaw by done. cbn [negb fst mbind res_bind]. unfold ValidateAndUpdateAndTagBFTTx. rewrite Hth.
  simpl wrBFTTx. simpl wrMsgType.
  destruct tx; vm_compute in Et; try (injection Et as <-; done).
  by apply marshalTx_reads in Em.
Qed.

(** C36: When the parameters of the current epoch are known, so that the rules have their
    thresholds, a node that is registered and whose broadcast gives a hash has submitted one
    signed transaction, at most 600 times, until Tendermint accepted it with that hash;
    and every application whose register has the node delivers it to the rule of its
    type, with the node as its sender and bytes that the rule reads as what was
    broadcast. *)
Theorem broadcast_delivered n nonce tx runeString w hash w' d refs ref K T :
  Broadcast n nonce tx runeString w = (Ok hash, w') ->
  0 < d < GeneratorOrder -> esNodePrivK (netEth n) = Some d -> esNodePubK (netEth n) = Some (d ⊙ secp_G) ->
  nodeRegisterMap Bft.GetCurrentEpoch = Some refs ->
  list.last (filter (fun r => samePoint (nrPublicKey r) (d ⊙ secp_G) = true) refs) = Some ref ->
  thresholds = Passed (K, T) ->
  exists raw bytes k, (k < 600)%nat /\
    (forall j, (j < k)%nat -> fst (BroadcastTxSync raw (afterAttempts BroadcastTxSync j raw w)) = None) /\
    BroadcastTxSync raw (afterAttempts BroadcastTxSync k raw w) = (Some (0, hash), w') /\
    readsAs tx bytes /\
    forall now app, DeliverTx now app raw =
      asReply (ruleOf now K T app (mkNode (int64 (nrIndex ref)) (nrPublicKey ref)) tx bytes).
Proof.
  intros Hb Hd Hpriv Hpub Hreg Hlast Hth. unfold Broadcast in Hb.
  destruct (PrepareBFTTx n nonce tx) as [raw| |] eqn:Ep; [|done..].
  destruct (prepared_tx_delivered n nonce tx raw d refs ref K T) as (bytes & Hreads & Hdel); try done.
  destruct (tryMessage_spec BroadcastTxSync queueAttempts raw w) as (k & _ & Hj & Hr).
  destruct (tryMessage _ _ _ _) as [[[code h]|] w'']; [|done]. destruct Hr as [Hk Hr].
  destruct (Z.eqb_spec code 0) as [->|]; simpl in Hb; [|done]. injection Hb as -> ->.
  exists raw, bytes, k. by split_and!.
Qed.

End tx.

(** ** Queries *)

Section queries.

Definition registrations (tr : list queryEvent) : list (string * Z) :=
  omap (fun e => match e with Registered query count => Some (query, count) | _ => None end) tr.

Definition routed (c : nat) (tr : list queryEvent) : list (list Z) :=
  omap (fun e => match e with Routed c' result => if decide (c' = c) then Some result else None | _ => None end) tr.

Definition forwarded (c : nat) (tr : list queryEvent) : list (list Z) :=
  omap (fun e => match e with Forwarded c' result => if decide (c' = c) then Some result else None | _ => None end) tr.

(** A channel of a query: what is in it and how much of the count is left. *)
Definition chanOk (h : QueryHandler) (tr : list queryEvent) (c : nat) (ch : Chan) (query : string) (count : Z) : Prop :=
  (length (chBuffer ch) <= 1)%nat /\ routed c tr = forwarded c tr ++ chBuffer ch /\
  (chClosed ch = false <-> QueryMap h !! query = Some c) /\
  (0 <= count -> chClosed ch = false ->
     QueryCount h !! query = Some (if count =? 0 then 0 else count - Z.of_nat (length (routed c tr)))) /\
  (0 < count -> Z.of_nat (length (routed c tr)) + (if chClosed ch then 0 else 1) <= count).

Definition queryInv (h : QueryHandler) (tr : list queryEvent) : Prop :=
  length (registrations tr) = length (qhChans h) /\
  (forall query c, QueryMap h !! query = Some c -> exists count, registrations tr !! c = Some (query, count)) /\
  (forall c, (length (qhChans h) <= c)%nat -> routed c tr = [] /\ forwarded c tr = []) /\
  (forall c ch query count, qhChans h !! c = Some ch -> registrations tr !! c = Some (query, count) -> chanOk h tr c ch query count).

Lemma registrations_app tr tr' : registrations (tr ++ tr') = registrations tr ++ registrations tr'.
Proof. apply omap_app. Qed.

Lemma routed_app c tr tr' : routed c (tr ++ tr') = routed c tr ++ routed c tr'.
Proof. apply omap_app. Qed.

Lemma forwarded_app c tr tr' : forwarded c (tr ++ tr') = forwarded c tr ++ forwarded c tr'.
Proof. apply omap_app. Qed.

Lemma routed_one c c' result : routed c [Routed c' result] = if decide (c' = c) then [result] else [].
Proof. unfold routed. simpl. by case_decide. Qed.

Lemma forwarded_one c c' result : forwarded c [Forwarded c' result] = if decide (c' = c) then [result] else [].
Proof. unfold forwarded. simpl. by case_decide. Qed.

(** A step that leaves the channel, its place in the map and its count alone. *)
Lemma chanOk_frame h h' tr evs c ch query count :
  chanOk h tr c ch query count -> routed c evs = [] -> forwarded c evs = [] ->
  (QueryMap h' !! query = Some c <-> QueryMap h !! query = Some c) ->
  (QueryMap h !! query = Some c -> QueryCount h' !! query = QueryCount h !! query) ->
  chanOk h' (tr ++ evs) c ch query count.
Proof.
  intros (Hb & Hr & Ho & Hc & Hl) E1 E2 Hm Hq. unfold chanOk. rewrite routed_app, forwarded_app, E1, E2, !app_nil_r, Hm.
  split_and!; try done. intros Hp Hopen. rewrite Hq by tauto. by apply Hc.
Qed.

(** The step changes one channel and what belongs to its query. *)
Lemma queryInv_update h h' tr evs c ch query count :
  queryInv h tr -> registrations tr !! c = Some (query, count) -> registrations evs = [] ->
  qhChans h' = <[c := ch]> (qhChans h) -> (c < length (qhChans h))%nat ->
  (forall c', c' <> c -> routed c' evs = [] /\ forwarded c' evs = []) ->
  (forall query', query' <> query -> QueryMap h' !! query' = QueryMap h !! query' /\ QueryCount h' !! query' = QueryCount h !! query') ->
  (QueryMap h' !! query = QueryMap h !! query /\ (QueryMap h !! query <> Some c -> QueryCount h' !! query = QueryCount h !! query)
   \/ QueryMap h' !! query = None /\ QueryMap h !! query = Some c) ->
  chanOk h' (tr ++ evs) c ch query count ->
  queryInv h' (tr ++ evs).
Proof.
  intros (Hn & Hm & Hf & Ho) Hreg Eevs Ech Hc Hev Hother Hsame Hok. unfold queryInv.
  rewrite registrations_app, Eevs, app_nil_r, Ech, length_insert. split_and!; [done| | |].
  - intros q' c' Hq. destruct (decide (q' = query)) as [->|Hne].
    + destruct Hsame as [[E _]|[E _]]; rewrite E in Hq; [eauto|done].
    + rewrite (proj1 (Hother q' Hne)) in Hq. eauto.
  - intros c' Hc'. rewrite routed_app, forwarded_app. destruct (Hf c' Hc') as [-> ->]. apply Hev. lia.
  - intros c' ch' q' n' Hl Hr'. destruct (decide (c' = c)) as [->|Hne].
    + rewrite list_lookup_insert_eq in Hl by done. simplify_eq. done.
    + rewrite list_lookup_insert_ne in Hl by done. specialize (Hev c' Hne) as [? ?].
      apply (chanOk_frame h); [by apply Ho|done|done|..]; (destruct (decide (q' = query)) as [->|Hq];
        [|by rewrite ?(proj1 (Hother q' Hq)), ?(proj2 (Hother q' Hq))]).
      * destruct Hsame as [[E _]|[E E']]; [by rewrite E|]. rewrite E, E'. naive_solver.
      * destruct Hsame as [[_ E]|[_ E]]; [|naive_solver]. intros Hc'. apply E. naive_solver.
Qed.

Lemma registrations_lookup_lt tr c query count h :
  queryInv h tr -> registrations tr !! c = Some (query, count) -> (c < length (qhChans h))%nat.
Proof. intros (Hn & _) H. apply lookup_lt_Some in H. lia. Qed.

Lemma RegisterQuery_inv h tr query count fails h' r :
  queryInv h tr -> RegisterQuery h query count fails = (h', r) ->
  queryInv h' (tr ++ match r with Ok _ => [Registered query count] | _ => [] end).
Proof.
  intros Hinv. pose proof Hinv as (Hn & Hm & Hf & Ho). unfold RegisterQuery.
  destruct (QueryMap h !! query) as [c|] eqn:Eq; [intros [= <- <-]; by rewrite app_nil_r|].
  destruct fails as [e|]; intros [= <- <-]; rewrite ?app_nil_r; unfold queryInv; cbn [qhChans QueryMap QueryCount].
  - rewrite delete_id by done. split_and!; [done|done|done|]. intros c ch q n Hc Hr. rewrite <- (app_nil_r tr).
    apply (chanOk_frame h); [by apply Ho|done|done|done|]. intros Hq. simpl. apply lookup_delete_ne. congruence.
  - rewrite registrations_app, !length_app. simpl. split_and!; [by rewrite Hn| | |].
    + intros q c. rewrite lookup_insert_Some. intros [[<- <-]|[_ Hq]].
      * exists count. rewrite <- Hn. by rewrite list_lookup_middle.
      * destruct (Hm q c Hq) as [n Hr]. exists n. by apply lookup_app_l_Some.
    + intros c Hc. rewrite routed_app, forwarded_app, !app_nil_r. apply Hf. lia.
    + intros c ch q n Hc Hr. apply lookup_app_Some in Hc as [Hc|[Hge Hc]].
      * pose proof (lookup_lt_Some _ _ _ Hc). rewrite lookup_app_l in Hr by lia.
        apply (chanOk_frame h); [by apply Ho|done|done|..]; simpl; destruct (decide (q = query)) as [->|Hne];
          rewrite ?lookup_insert_eq, ?lookup_insert_ne by done; try done; rewrite ?Eq; [|done].
        split; [intros [= E]; lia|done].
      * apply list_lookup_singleton_Some in Hc as [Hc <-]. assert (c = length (qhChans h)) as -> by lia.
        rewrite <- Hn, list_lookup_middle in Hr by done. simplify_eq. unfold chanOk.
        rewrite routed_app, forwarded_app. destruct (Hf (length (qhChans h))) as [-> ->]; [lia|].
        simpl. rewrite !lookup_insert_eq. split_and!; try done; [lia| |intros; simpl; lia].
        intros _ _. f_equal. destruct (Z.eqb_spec n 0); lia.
Qed.

Lemma DeregisterQuery_inv h tr query fails h' r :
  queryInv h tr -> DeregisterQuery h query fails = (h', r) -> r <> Panic /\ queryInv h' (tr ++ []).
Proof.
  intros Hinv. pose proof Hinv as (Hn & Hm & Hf & Ho). unfold DeregisterQuery.
  destruct fails as [e|]; [intros [= <- <-]; by rewrite app_nil_r|].
  destruct (QueryMap h !! query) as [c|] eqn:Eq.
  - destruct (Hm query c Eq) as [count Hr]. pose proof (registrations_lookup_lt _ _ _ _ _ Hinv Hr) as Hc.
    destruct (lookup_lt_is_Some_2 _ _ Hc) as [ch Ech]. rewrite Ech. pose proof (Ho _ _ _ _ Ech Hr) as (Hb & Ht & Hopen & Hcnt & Hl).
    rewrite (proj2 Hopen Eq) in *. intros [= <- <-]. split; [done|].
    apply (queryInv_update h _ _ _ c (mkChan (chBuffer ch) true) query count); try done; simpl.
    + intros q Hq. by rewrite !lookup_delete_ne.
    + right. by rewrite lookup_delete_eq.
    + unfold chanOk. rewrite app_nil_r. simpl. rewrite lookup_delete_eq. split_and!; try done. intros Hp. specialize (Hl Hp). lia.
  - intros [= <- <-]. split; [done|]. unfold queryInv. rewrite app_nil_r. split_and!; try done.
    intros c ch q n Hc Hr. rewrite <- (app_nil_r tr). apply (chanOk_frame h); [by apply Ho|done|done|done|].
    intros Hq. simpl. apply lookup_delete_ne. congruence.
Qed.

Lemma forwardResponse_inv h tr c h' result :
  queryInv h tr -> forwardResponse h c = Some (h', result) -> queryInv h' (tr ++ [Forwarded c result]).
Proof.
  intros Hinv. pose proof Hinv as (Hn & Hm & Hf & Ho). unfold forwardResponse.
  destruct (qhChans h !! c) as [[[|x buffer] closed]|] eqn:Ech; try done. intros [= <- <-].
  pose proof (lookup_lt_Some _ _ _ Ech) as Hc. destruct (lookup_lt_is_Some_2 (registrations tr) c) as [[query count] Hr]; [lia|].
  pose proof (Ho _ _ _ _ Ech Hr) as (Hb & Ht & Hopen & Hcnt & Hl). simpl in *.
  apply (queryInv_update h _ _ _ c (mkChan buffer closed) query count); try done.
  - intros c' Hne. split; [done|]. rewrite forwarded_one. by rewrite decide_False by congruence.
  - by left.
  - unfold chanOk. rewrite routed_app, forwarded_app, forwarded_one, decide_True by done. simpl. rewrite app_nil_r.
    split_and!; try done; [lia|]. by rewrite <- app_assoc.
Qed.

(** The response is in the channel, and the count has gone down, or the channel is closed
    with the last one. *)
Lemma routed_chanOk h tr c query count result m k closed :
  queryInv h tr -> QueryMap h !! query = Some c -> registrations tr !! c = Some (query, count) ->
  qhChans h !! c = Some (mkChan [] false) ->
  m !! query = (if closed : bool then None else Some c) ->
  k = default 0 (QueryCount h !! query) ->
  (closed = true -> k = 1) -> (closed = false -> k <> 1) ->
  forall counts chans, (closed = false -> k = 0 -> counts = QueryCount h) ->
  (closed = false -> k <> 0 -> counts !! query = Some (k - 1)) ->
  chanOk (mkQueryHandler m counts chans) (tr ++ [Routed c result]) c (mkChan [result] closed) query count.
Proof.
  intros (Hn & Hm & Hf & Ho) Eq Hr Ech Em Ek Hcl Hop counts chans Hsame Hdec.
  destruct (Ho _ _ _ _ Ech Hr) as (Hb & Ht & Hopen & Hcnt & Hl). simpl in *. rewrite app_nil_r in Ht.
  unfold chanOk. rewrite routed_app, forwarded_app, routed_one, decide_True by done. simpl. rewrite app_nil_r, length_app, Ht, Em.
  simpl. rewrite <- Ht. split_and!; [lia|done|by destruct closed| |].
  - intros Hp ->. specialize (Hcnt Hp eq_refl). rewrite Hcnt in Ek. simpl in Ek. destruct (Z.eqb_spec count 0) as [->|Hne].
    + by rewrite Hsame, Hcnt by done.
    + specialize (Hl ltac:(lia)). rewrite Hdec by (done || lia). f_equal. lia.
  - intros Hp. specialize (Hcnt ltac:(lia) eq_refl). specialize (Hl Hp). rewrite Hcnt in Ek. simpl in Ek.
    rewrite (proj2 (Z.eqb_neq count 0)) in Ek by lia. destruct closed; [lia|]. specialize (Hop eq_refl). lia.
Qed.

Lemma RouteWSMessage_inv h tr query error result fails h' r :
  queryInv h tr -> RouteWSMessage h query error result fails = Some (h', r) ->
  r <> Panic /\ queryInv h' (tr ++ match error, QueryMap h !! query with None, Some c => [Routed c result] | _, _ => [] end).
Proof.
  intros Hinv. pose proof Hinv as (Hn & Hm & Hf & Ho). unfold RouteWSMessage.
  destruct error as [e|]; [intros [= <- <-]; by rewrite app_nil_r|].
  destruct (QueryMap h !! query) as [c|] eqn:Eq; [|intros [= <- <-]; by rewrite app_nil_r].
  destruct (Hm query c Eq) as [count Hr]. pose proof (registrations_lookup_lt _ _ _ _ _ Hinv Hr) as Hc.
  destruct (lookup_lt_is_Some_2 _ _ Hc) as [[buffer closed] Ech]. rewrite Ech. pose proof (Ho _ _ _ _ Ech Hr) as (Hb & Ht & Hopen & _).
  apply Hopen in Eq as Ecl. simpl in Ecl |- *. subst closed. destruct buffer; [|done]. cbn [length Nat.ltb Nat.leb].
  set (k := default 0 (QueryCount h !! query)).
  assert (forall closed m counts,
    m !! query = (if closed : bool then None else Some c) -> (closed = true -> k = 1) -> (closed = false -> k <> 1) ->
    (closed = false -> k = 0 -> counts = QueryCount h) -> (closed = false -> k <> 0 -> counts !! query = Some (k - 1)) ->
    (forall q, q <> query -> m !! q = QueryMap h !! q /\ counts !! q = QueryCount h !! q) ->
    queryInv (mkQueryHandler m counts (<[c := mkChan [result] closed]> (qhChans h))) (tr ++ [Routed c result])) as Hgoal.
  { intros cl m counts Em H1 H2 H3 H4 H5.
    apply (queryInv_update h _ _ _ c (mkChan [result] cl) query count); try done.
    - intros c' Hne. split; [|done]. rewrite routed_one. by rewrite decide_False by congruence.
    - destruct cl; [right|left]; simpl; rewrite Em, Eq; naive_solver.
    - by eapply routed_chanOk. }
  clearbody k. unfold setChan. cbn [QueryMap QueryCount qhChans]. rewrite ?list_insert_insert_eq.
  destruct (Z.eqb_spec k 0) as [Hk|Hk].
  - intros [= <- <-]. split; [done|]. apply Hgoal; naive_solver.
  - destruct (Z.eqb_spec (k - 1) 0) as [Hk'|Hk']; simpl.
    + destruct fails as [e|]; intros [= <- <-]; (split; [done|]); apply Hgoal; try done; try lia; try apply lookup_delete_eq;
        intros q Hq; rewrite ?delete_insert_eq, ?lookup_delete_ne, ?lookup_insert_ne by done; done.
    + intros [= <- <-]. split; [done|]. apply Hgoal; try done; try lia; try (intros; apply lookup_insert_eq).
      intros q Hq. by rewrite lookup_insert_ne.
Qed.

Lemma queryRun_inv h tr : queryRun h tr -> queryInv h tr.
Proof.
  induction 1 as [|h tr evs h' _ IH Hs]; [by split_and!|]. destruct Hs.
  - by eapply RegisterQuery_inv.
  - by eapply RouteWSMessage_inv.
  - by eapply DeregisterQuery_inv.
  - by eapply forwardResponse_inv.
Qed.

(** C37: In every run the responses that are forwarded for a registered query are those
    that the websocket has routed to it, in their order and each once, with at most one
    still in the channel; no more are routed than were asked for, and the channel is
    closed when they all have been; a message of the websocket and a deregistration never
    send to or close a channel that is closed, and a message only waits for a channel
    that holds a response to forward. *)
Theorem query_responses_in_order h tr : queryRun h tr ->
  (forall c query count, registrations tr !! c = Some (query, count) -> exists ch, qhChans h !! c = Some ch /\
     routed c tr = forwarded c tr ++ chBuffer ch /\ (length (chBuffer ch) <= 1)%nat /\
     (0 < count -> Z.of_nat (length (routed c tr)) <= count /\ (Z.of_nat (length (routed c tr)) = count -> chClosed ch = true))) /\
  (forall query error result fails,
     match RouteWSMessage h query error result fails with
     | Some (_, r) => r <> Panic
     | None => exists c h' result', QueryMap h !! query = Some c /\ forwardResponse h c = Some (h', result')
     end) /\
  (forall query fails, snd (DeregisterQuery h query fails) <> Panic).
Proof.
  intros Hrun%queryRun_inv. pose proof Hrun as (Hn & Hm & Hf & Ho). split_and!.
  - intros c query count Hr. destruct (lookup_lt_is_Some_2 (qhChans h) c) as [ch Ech]; [by eapply registrations_lookup_lt|].
    destruct (Ho _ _ _ _ Ech Hr) as (Hb & Ht & _ & _ & Hl). exists ch. split_and!; try done. intros Hp. specialize (Hl Hp).
    destruct (chClosed ch); split; lia || done.
  - intros query error result fails. destruct (RouteWSMessage _ _ _ _ _) as [[h' r]|] eqn:E; [by eapply RouteWSMessage_inv in E as [? _]|].
    unfold RouteWSMessage, forwardResponse in *. repeat case_match; simplify_eq/=; eauto.
    match goal with Hc : qhChans h !! ?n = Some ?ch |- _ => exists n; rewrite Hc; destruct ch as [[|x b] cl]; eauto; done end.
  - intros query fails. destruct (DeregisterQuery _ _ _) as [h' r] eqn:E. by eapply DeregisterQuery_inv in E as [? _].
Qed.

End queries.

(** ** The library's handlers *)

(** A query that the service refuses keeps its handler in the library: it cannot be
    registered again. *)
Theorem refused_query_stays {Event} (bus : EventBus Event) query handler e bus' r :
  Tendermint_RegisterQuery bus query handler (Some e) = (bus', r) ->
  forall handler' response, Tendermint_RegisterQuery bus' query handler' response =
    (bus', Err ("Cannot call RegisterQuery on query " +:+ query +:+ " as it already has a handler")).
Proof.
  unfold Tendermint_RegisterQuery. intros H handler' response.
  assert (HasCallback bus' (forwardTopic query) = true) as ->; [|done]. revert H.
  destruct (HasCallback bus (forwardTopic query)) eqn:E; intros [= <- _]; [done|].
  apply HasCallback_spec. unfold SubscribeAsync. rewrite handlersOf_doSubscribe. rewrite decide_True by done.
  by destruct (handlersOf bus _).
Qed.

(** A query without a count, of which the service forwards every response, gives its
    caller none. *)
Theorem uncounted_query_silent numOfRes response : 0 <= numOfRes ->
  forwardHandler numOfRes 0 response = (numOfRes + 1, false, None).
Proof.
  intros H. unfold forwardHandler. rewrite (proj2 (Z.eqb_neq _ _)) by lia. by rewrite (proj2 (Z.ltb_lt _ _)) by lia.
Qed.

(** Tendermint signs with the node's key. *)
Theorem tm_key_is_node_key d : 0 <= d < 2 ^ 256 ->
  SetBytes (tmPrivateKeyFromBigInt d) = d /\ length (tmPrivateKeyFromBigInt d) = 32%nat.
Proof.
  intros Hd. assert (length (Bytes d) <= 32)%nat as Hl by (apply Bytes_length; exact Hd).
  unfold tmPrivateKeyFromBigInt, padPrivKeyBytes. destruct (Nat.ltb_spec (length (Bytes d)) 32).
  - rewrite take_ge by (rewrite length_app, length_replicate; lia). rewrite SetBytes_zeros, SetBytes_Bytes, length_app, length_replicate.
    split; lia.
  - rewrite take_ge, SetBytes_Bytes by lia. split; lia.
Qed.
