(* ===== verification/AbciToy.v ===== *)
(** A concrete replicated application: a serialisation of its data, a network of
    two nodes in the first epoch, and the witnesses of the application's
    properties. *)
From Stdlib Require Import ZArith.
From stdpp Require Import gmap strings sorting relations.
From S2P Require Import Prelude BigInt Field Curve Pvss Avss Nizkpk Ecdsa Ids Effects Keygen Mapping Dealer PssTypes Bft BftProps Abci AbciProps KeygenToy.
Import ToyCodec.

(** ** Serialisation *)

#[global] Instance ser_bool : Ser bool :=
  ser_iso (fun b : bool => if b then 1 else 0) (fun z => negb (z =? 0)) ltac:(by intros []).

#[global] Instance ser_option {A} `{Ser A} : Ser (option A) :=
  ser_iso (fun o : option A => match o with Some a => [a] | None => [] end)
    (fun l => match l with a :: _ => Some a | [] => None end) ltac:(by intros []).

#[global] Instance ser_assignment_tx : Ser AssignmentBFTTx :=
  ser_iso (fun m => (atVerifier m, atVerifierID m)) (fun '(a, b) => mkAssignmentBFTTx a b) ltac:(by intros []).

#[global] Instance ser_keygen_message : Ser KeygenMessage :=
  ser_iso (fun m => (kmVersion m, kmKeygenID m, kmMethod m, kmData m))
    (fun '(a, b, c, d) => mkKeygenMessage a b c d) ltac:(by intros []).

#[global] Instance ser_pss_message : Ser PSSMessage :=
  ser_iso (fun m => (pmVersion m, pmPSSID m, pmMethod m, pmData m))
    (fun '(a, b, c, d) => mkPSSMessage a b c d) ltac:(by intros []).

#[global] Instance ser_pss_propose : Ser PSSMsgPropose :=
  ser_iso (fun m => (pprNodeDetailsID m, pprSharingID m, pprPSSs m, pprSignedTexts m))
    (fun '(a, b, c, d) => mkPSSMsgPropose a b c d) ltac:(by intros []).

#[global] Instance ser_pss_decide : Ser PSSMsgDecide :=
  ser_iso (fun m => (pdcSharingID m, pdcPSSs m)) (fun '(a, b) => mkPSSMsgDecide a b) ltac:(by intros []).

#[global] Instance ser_mapping_message : Ser MappingMessage :=
  ser_iso (fun m => (mmVersion m, mmMappingID m, mmMethod m, mmData m))
    (fun '(a, b, c, d) => mkMappingMessage a b c d) ltac:(by intros []).

#[global] Instance ser_mapping_key : Ser MappingKey :=
  ser_iso (fun k => (mkIndex k, mkPublicKey k, mkThreshold k, mkVerifiers k))
    (fun '(a, b, c, d) => mkMappingKey a b c d) ltac:(by intros []).

#[global] Instance ser_dealer_message : Ser Message :=
  ser_iso (fun m => (dmMethod m, dmKeyIndex m, dmPubKey m, dmData m, dmSignature m))
    (fun '(a, b, c, d, e) => mkMessage a b c d e) ltac:(by intros []).

#[global] Instance ser_tmessage : Ser TMessage :=
  ser_iso (fun m => (tmTimestamp m, tmMessage m)) (fun '(a, b) => mkTMessage a b) ltac:(by intros []).

#[global] Instance ser_update : Ser MsgUpdatePublicKey :=
  ser_iso (fun m => (upKeyIndex m, upTMessage m, upOldPubKey m, upOldPubKeySig m, upNewPubKey m, upNewPubKeySig m))
    (fun '(a, b, c, d, e, f) => mkMsgUpdatePublicKey a b c d e f) ltac:(by intros []).

#[global] Instance ser_assignment : Ser KeyAssignmentPublic :=
  ser_iso (fun k => (kaIndex k, kaPublicKey k, kaThreshold k, kaVerifiers k))
    (fun '(a, b, c, d) => mkKeyAssignmentPublic a b c d) ltac:(by intros []).

#[global] Instance ser_pub_key : Ser KeygenPubKey :=
  ser_iso (fun k => (kpDKGID k, kpDecided k, kpGSHSprime k, kpGS k))
    (fun '(a, b, c, d) => mkKeygenPubKey a b c d) ltac:(by intros []).

#[global] Instance ser_counter : Ser MappingCounter :=
  ser_iso (fun c => (RequiredCount c, KeyCount c)) (fun '(a, b) => mkMappingCounter a b) ltac:(by intros []).

(** The state is written without its block time. *)
Definition state_fields (s : State) :=
  (sLastUnassignedIndex s, sLastCreatedIndex s, sNewKeyAssignments s, sPSSDecisions s, sKeygenDecisions s, sKeygenPubKeys s,
   sMappingProposeFreezes s, sMappingProposeSummarys s, sMappingProposeKeys s, sMappingCounters s, sMappingThawed s,
   sConsecutiveFailedPubKeyAssigns s).

Definition state_of (t : Z * Z * option (list KeyAssignmentPublic) * gmap string bool * gmap string bool * gmap string KeygenPubKey *
    gmap MappingID voters * gmap MappingID (gmap TransferSummaryID voters) * gmap MappingID (gmap MappingKeyID voters) *
    gmap MappingID MappingCounter * gmap MappingID bool * Z) : State :=
  let '(a, b, d, e, f, g, h, i, j, k, l, m) := t in mkState a b 0 d e f g h i j k l m.

Definition state_codec : Codec State := {|
  Marshal s := Marshal (state_fields s);
  Unmarshal b := state_of <$> Unmarshal b;
|}.

#[global] Instance ser_info : Ser AppInfo :=
  ser_iso (fun i => (Height i, AppHash i)) (fun '(a, b) => mkAppInfo a b) ltac:(by intros []).

#[global] Instance ser_wrapper : Ser DefaultBFTTxWrapper :=
  ser_iso (fun w => (wrBFTTx w, wrNonce w, wrPubKey w, wrMsgType w, wrSignature w))
    (fun '(a, b, c, d, e) => mkWrapper a b c d e) ltac:(by intros []).

#[global] Instance ser_query : Ser getIndexesQuery :=
  ser_iso (fun q => (qVerifier q, qVerifierID q)) (fun '(a, b) => mkGetIndexesQuery a b) ltac:(by intros []).

(** A summary is read only if its index is a [uint]. *)
Definition uint_codec : Codec MappingSummaryBroadcastMessage := {|
  Marshal m := Some [LastUnassignedIndex (sbTransferSummary m)];
  Unmarshal b := match b with
    | [i] => if (0 <=? i) && (i <? 2 ^ 64) then Some (mkMappingSummaryBroadcastMessage (mkTransferSummary i)) else None
    | _ => None
    end;
|}.

#[global] Instance atoy_mapping_codecs : MappingCodecs.
Proof.
  split; [| | |exact uint_codec|..]; apply @codec_ser.
  - exact (ser_iso pfMappingID mkMappingProposeFreezeMessage ltac:(by intros [])).
  - exact (ser_iso pfbMappingID mkMappingProposeFreezeBroadcastMessage ltac:(by intros [])).
  - exact (ser_iso (fun m => LastUnassignedIndex (smTransferSummary m))
      (fun i => mkMappingSummaryMessage (mkTransferSummary i)) ltac:(by intros [[]])).
  - exact ser_mapping_key.
  - exact (ser_iso kmMappingKey mkMappingKeyMessage ltac:(by intros [])).
  - exact (ser_iso kbMappingKey mkMappingKeyBroadcastMessage ltac:(by intros [])).
Defined.

#[global] Instance atoy_bft_codecs : BftCodecs := {|
  codec_assignment_tx := codec_ser;
  codec_keygen_message := codec_ser;
  codec_pss_message := codec_ser;
  codec_pss_propose := codec_ser;
  codec_pss_decide := codec_ser;
  codec_mapping_message := codec_ser;
  codec_dealer_message := codec_ser;
  codec_update_public_key := codec_ser;
  codec_assignment := codec_ser;
  codec_indexes := codec_ser;
|}.

#[global] Instance atoy_bft_laws : BftCodecLaws.
Proof.
  split; try apply codec_ser_laws; try by eexists.
  intros [|i [|]] m E; try done. revert E. simpl.
  destruct (Z.leb_spec 0 i), (Z.ltb_spec i (2 ^ 64)); try done. intros [= <-]. by split.
Qed.

#[global] Instance atoy_codecs : AbciCodecs := {|
  codec_wrapper := codec_ser;
  codec_state := state_codec;
  codec_info := codec_ser;
  codec_query := codec_ser;
|}.

#[global] Instance atoy_laws : AbciCodecLaws.
Proof.
  split; try apply codec_ser_laws; try by repeat eexists. intros s b E.
  exact (f_equal (fmap state_of) (Unmarshal_Marshal (state_fields s) b E)).
Qed.

(** ** The network: two nodes in the first epoch, one of them enough for a vote *)

Definition atoy_node (i : Z) : NodeReference := mkNodeReference i (mkPoint (100 + i) (200 + i)).

#[global] Instance atoy_services : Services := {|
  GetCurrentEpoch := 1;
  GetEpochInfo e := if e =? 1 then Some (1, 1) else None;
  nodeRegisterMap e := if e =? 1 then Some [atoy_node 1; atoy_node 2] else None;
  StorePublicKeyToIndexFails p i := None;
  GetKeygenStarted id := false;
  GetSelfIndex := 1;
|}.

Definition atoy_bytes {A} `{Ser A} (a : A) : list Z := ser a.

(** A user asks for a key; nobody has signed the transaction. *)
Definition atoy_raw (user : string) : list Z := atoy_bytes (mkAssignmentBFTTx "google" user).
Definition atoy_tx (user : string) : list Z :=
  atoy_bytes (mkWrapper (atoy_raw user) 0 (mkPoint 7 7) 1 None).

(** Keys five and six are made, key five has its public key. *)
Definition atoy_state : State :=
  mkState 5 7 0 None ∅ ∅ {[GenerateDKGID 5 := mkKeygenPubKey (GenerateDKGID 5) true (mkPoint 8 8) (mkPoint 9 9)]}
    ∅ ∅ ∅ ∅ ∅ 0.
Definition atoy_app : App := mkApp (mkAppInfo 3 []) atoy_state atoy_state ∅.
Definition atoy_now : Z * Z := (1600000000, 0).

Lemma atoy_thresholds : thresholds = Passed (1, 1).
Proof. vm_compute. reflexivity. Qed.

Lemma atoy_raw_reads user : Unmarshal (atoy_raw user) = Some (mkAssignmentBFTTx "google" user).
Proof. apply (Unmarshal_Marshal (A := AssignmentBFTTx)). reflexivity. Qed.

Lemma atoy_isAssignment user : isAssignment (atoy_tx user).
Proof.
  exists (mkWrapper (atoy_raw user) 0 (mkPoint 7 7) 1 None), (mkAssignmentBFTTx "google" user).
  split_and!; [apply (Unmarshal_Marshal (A := DefaultBFTTxWrapper)); reflexivity|done|apply atoy_raw_reads].
Qed.

Lemma triple_eq {A B C} (x : A * B * C) c : snd x = c -> x = (fst (fst x), snd (fst x), c).
Proof. by destruct x as [[]]; intros <-. Qed.

(** ** Witnesses *)

Lemma assignment_fresh_witness :
  snd (assignmentRule 1 1 atoy_app (atoy_raw "alice")) = Passed [("assignment", "1")]%string.
Proof.
  destruct (assignment_fresh 1 1 atoy_app (atoy_raw "alice") (mkAssignmentBFTTx "google" "alice"))
    as (app' & E & _).
  - vm_compute. reflexivity.
  - apply atoy_raw_reads.
  - vm_compute. split; congruence.
  - vm_compute. split; congruence.
  - vm_compute. congruence.
  - vm_compute. intros [|]; congruence.
  - by rewrite E.
Defined.

(** A block with one assignment. *)
Definition atoy_begun : App := BeginBlock atoy_app 1600000000.
Definition atoy_assigned : App := fst (fst (DeliverTx atoy_now atoy_begun (atoy_tx "alice"))).

Lemma atoy_delivered : DeliverTx atoy_now atoy_begun (atoy_tx "alice") =
  (atoy_assigned, snd (fst (DeliverTx atoy_now atoy_begun (atoy_tx "alice"))), RespOK [("assignment", "1")]%string).
Proof.
  apply triple_eq. vm_compute. reflexivity.
Qed.

Lemma indexes_stay_ordered_witness : ordered (indexes atoy_assigned).
Proof.
  apply (indexes_stay_ordered atoy_app atoy_assigned).
  - eapply rtc_l; [split; [apply (step_begin _ 1600000000)|vm_compute; reflexivity]|].
    eapply rtc_l; [split; [exact (step_deliver _ _ _ _ _ _ atoy_delivered ltac:(done))|vm_compute; reflexivity]|].
    apply rtc_refl.
  - vm_compute. split; [split|]; congruence.
Defined.

(** Key six has no public key; ninety-eight assignments have failed. *)
Definition atoy_stuck : App := setState atoy_app (setFailed (setIndexes atoy_state 6 7) 98).

Lemma missing_key_skipped_witness :
  snd (DeliverTx atoy_now (deliverAll atoy_now atoy_stuck [atoy_tx "alice"; atoy_tx "bob"]) (atoy_tx "carol"))
    = RespOK [].
Proof.
  destruct (missing_key_skipped atoy_now 1 1 atoy_stuck [atoy_tx "alice"; atoy_tx "bob"] (atoy_tx "carol"))
    as (_ & E & _).
  - exact atoy_thresholds.
  - vm_compute. reflexivity.
  - vm_compute. split; congruence.
  - left. vm_compute. reflexivity.
  - vm_compute. reflexivity.
  - vm_compute. reflexivity.
  - vm_compute. split; congruence.
  - vm_compute. reflexivity.
  - repeat constructor; apply atoy_isAssignment.
  - apply atoy_isAssignment.
  - by rewrite E.
Defined.

(** Both nodes have voted for a freeze. *)
Definition atoy_frozen : App :=
  setState atoy_app (setFreezes atoy_state {["1-2" := {["a" := true; "b" := true]}]}).

Lemma freeze_stops_assignments_witness :
  DeliverTx atoy_now (BeginBlock atoy_frozen 1600000000) (atoy_tx "alice") =
    (BeginBlock atoy_frozen 1600000000, [], Unauthorized).
Proof.
  apply (freeze_stops_assignments 1 1 atoy_now atoy_frozen).
  - exact atoy_thresholds.
  - vm_compute. reflexivity.
  - apply rtc_once, step_begin.
  - apply atoy_isAssignment.
Defined.

Lemma check_accepts_what_is_delivered_witness : CheckTx atoy_now atoy_app (atoy_tx "alice") = RespOK [].
Proof.
  destruct (check_accepts_what_is_delivered atoy_now atoy_app (atoy_tx "alice") 0 None eq_refl) as [H _].
  apply (H (fst (fst (DeliverTx atoy_now atoy_app (atoy_tx "alice"))))
    (snd (fst (DeliverTx atoy_now atoy_app (atoy_tx "alice")))) [("assignment", "1")]%string).
  apply triple_eq. vm_compute. reflexivity.
Defined.

Lemma restart_finds_commit_witness : exists app' hash,
  Commit (BeginBlock atoy_app 77) = Ok (app', hash) /\ Info app' = (4, hash) /\ sBlockTime (appState app') = 77 /\
  NewABCIApp (appDb app') = Ok (mkApp (appInfo app') (setBlock atoy_state 0 (Some [])) (setBlock atoy_state 0 (Some [])) (appDb app')).
Proof.
  destruct (restart_finds_commit (BeginBlock atoy_app 77)) as (app' & hash & E & Es & Ei & H). exists app', hash.
  split_and!; [done|exact Ei|by rewrite Es|]. apply H, rtc_refl.
Defined.

(** ** What a crash leaves behind *)

(** The user's list is written when the transaction is delivered, the state only
    at the commit: when the process stops in between and the block is delivered
    again, the user has the same index twice. *)
Definition atoy_replayed : res (list Z) :=
  r ← Commit atoy_app;
  let delivered app := fst (fst (DeliverTx atoy_now app (atoy_tx "alice"))) in
  app ← NewABCIApp (appDb (delivered (fst r)));
  retrieveVerifierToKeyIndex (delivered app) "google" "alice".

Lemma crash_doubles_index : atoy_replayed = Ok [5; 5].
Proof. vm_compute. reflexivity. Qed.

(** ** Decisions that nobody has signed *)

Definition atoy_wrap (msgType : Z) (raw : list Z) : list Z :=
  atoy_bytes (mkWrapper raw 0 (mkPoint 7 7) msgType None).

(** A proposal needs K key generations but no proof for any of them: with empty
    proofs the decision is taken and handed on. *)
Definition atoy_keygen : list Z :=
  atoy_wrap 2 (atoy_bytes (mkKeygenMessage "0" "" "propose"
    (atoy_bytes (mkKeygenMsgPropose "" (GenerateDKGID 9)
      [ToKeygenID (mkKeygenIDDetails (GenerateDKGID 9) 1)] [∅])))).

Lemma keygen_decided_without_proofs :
  let r := DeliverTx atoy_now atoy_app atoy_keygen in
  snd r = RespOK [] /\ length (snd (fst r)) = 1%nat /\
  sKeygenDecisions (appState (fst (fst r))) !! GenerateDKGID 9 = Some true.
Proof. vm_compute. by split_and!. Qed.

(** The thresholds of a refresh are read from the sharing id of the message
    itself: a negative one asks for nothing. *)
Definition atoy_sharing : string :=
  GetSharingID (GenerateKeygenID 5) (mkEpochParams 1 2 (-1) 0 2 2 (-1) 0).
Definition atoy_pss : list Z :=
  atoy_wrap 3 (atoy_bytes (mkPSSMessage "0" "" "propose" (atoy_bytes (mkPSSMsgPropose "" atoy_sharing [] [])))).

Lemma pss_decided_without_proofs :
  let r := DeliverTx atoy_now atoy_app atoy_pss in
  snd r = RespOK [("psspropose", "1")]%string /\ length (snd (fst r)) = 1%nat /\
  sPSSDecisions (appState (fst (fst r))) !! atoy_sharing = Some true.
Proof. vm_compute. by split_and!. Qed.

(** A proof in the name of a node that does not exist stops the process: its
    details are looked up by a call that ends in [logging.Fatal]. *)
Definition atoy_unknown : list Z :=
  atoy_wrap 2 (atoy_bytes (mkKeygenMessage "0" "" "propose"
    (atoy_bytes (mkKeygenMsgPropose "" (GenerateDKGID 9)
      [ToKeygenID (mkKeygenIDDetails (GenerateDKGID 9) 1)]
      [{[Ids.ToNodeDetailsID (mkNode 99 (mkPoint 1 1)) := mkProposeProof [] PointO]}])))).

Lemma unknown_node_stops :
  snd (DeliverTx atoy_now atoy_app atoy_unknown) = Stopped /\ CheckTx atoy_now atoy_app atoy_unknown = Stopped.
Proof. vm_compute. by split. Qed.
