(* ===== verification/AbciServiceToy.v ===== *)
(** Two users with keys in the application of [AbciToy], and the iteration over them. *)
From Stdlib Require Import ZArith Sorted.
From stdpp Require Import gmap strings sorting.
From S2P Require Import Prelude BigInt Field Curve Ids Effects EventBus Keygen Mapping Dealer PssTypes Torusdb TorusdbSpec Bft BftProps Abci AbciProps.
From S2P Require Import KeygenToy AbciToy AbciService.
Import ToyCodec.

Definition keyBytes_le (kv kv' : string * list Z) : Prop := bytes_le (stringBytes kv.1) (stringBytes kv'.1).

#[global] Instance keyBytes_le_dec kv kv' : Decision (keyBytes_le kv kv').
Proof. unfold keyBytes_le. apply _. Defined.

#[global] Instance keyBytes_le_total : Total keyBytes_le.
Proof. intros kv kv'. apply bytes_le_total. Qed.

(** A database that sorts what is in the range. *)
#[global] Instance atoy_db : AppDB := {|
  Iterator db start stop := merge_sort keyBytes_le (filter (fun kv => in_range start stop (stringBytes kv.1)) (map_to_list db));
|}.

#[global] Instance atoy_db_laws : AppDBLaws.
Proof.
  split; intros db start stop; simpl.
  - apply merge_sort_Permutation.
  - pose proof (Sorted_merge_sort keyBytes_le (filter (fun kv => in_range start stop (stringBytes kv.1)) (map_to_list db))) as Hs.
    induction Hs as [|kv l Hs IH Hh]; [constructor|]. simpl. constructor; [done|]. destruct Hh; constructor. done.
Qed.

Definition atoy_stored (app : App) (v vid : string) (l : list Z) : App :=
  match storeVerifierToKeyIndex app v vid l with Ok app' => app' | _ => app end.
Definition atoy_two : App := atoy_stored (atoy_stored atoy_app "torus" "bob" [6]) "google" "alice" [5].

Lemma atoy_two_readable : usersReadable atoy_two.
Proof.
  apply (storeVerifier_readable (atoy_stored atoy_app "torus" "bob" [6]) "google" "alice" [5]);
    [|by apply (bool_decide_unpack _); vm_compute..|reflexivity].
  apply (storeVerifier_readable atoy_app "torus" "bob" [6]); [|by apply (bool_decide_unpack _); vm_compute..|reflexivity].
  intros s b. simpl. by rewrite lookup_empty.
Qed.

Lemma iteration_sees_users_witness : exists a (bus : EventBus nat) it seen bus2,
  iterate 9 a bus 3 it = (mkABCIService atoy_two ∅, bus2, seen, true) /\
  mkVerifierData true "torus" "bob" [6] None ∈ seen /\ mkVerifierData true "google" "alice" [5] None ∈ seen.
Proof.
  destruct (iteration_sees_users (Event := nat) (mkABCIService atoy_two ∅) NewBus "7" 3) as (a & bus & it & seen & bus2 & H).
  - apply atoy_two_readable.
  - constructor.
  - destruct H as (_ & Hi & _ & _ & Hs & _ & _ & _). exists a, bus, it, seen, bus2.
    split_and!; [|apply Hs; vm_compute; reflexivity..]. rewrite Hi; [cbn [abApp dbIterators]; by rewrite delete_empty|]. vm_compute. lia.
Defined.
