(* ===== verification/RpcToy.v ===== *)
(** A node in operation: a serialisation of requests as maps from field names to
    values, two nodes that sign commitments, one user of the Torus verifier, and
    the witnesses of the properties of the request handlers. *)
From Stdlib Require Import ZArith.
From stdpp Require Import gmap strings.
From S2P Require Import Prelude BigInt Field Curve Pvss Ecdsa Ids Effects Keygen Mapping Dealer GoTime Auth AuthProps Cache PssTypes Torusdb TorusdbSpec TorusdbToy Library Bft BftProps Abci AbciToy KeygenToy Rpc RpcProps.
Import ToyCodec.

(** ** Requests as maps *)

(** The value of a field is serialised on its own. *)
Definition json : Type := gmap string (list Z).

Definition field {A} `{Ser A} (m : json) (name : string) : option A :=
  b ← m !! name; match de b with Some (a, []) => Some a | _ => None end.

Definition asJson (b : list Z) : option json :=
  match de (A := gmap string (list Z)) b with Some (m, []) => Some m | _ => None end.

(** A type that is only read from requests. *)
Definition reader {A} (f : json -> option A) : Codec A :=
  {| Marshal _ := None; Unmarshal b := m ← asJson b; f m |}.

#[global] Instance ser_node_signature : Ser NodeSignature :=
  ser_iso (fun s => (nsSignature s, nsData s, nsNodePubKeyX s, nsNodePubKeyY s))
    (fun '(a, b, c, d) => mkNodeSignature a b c d) ltac:(by intros []).

#[global] Instance ser_connection_params : Ser ConnectionDetailsParams :=
  ser_iso (fun p => (cpPubKey p, cmTimestamp (cpMessage p), cmMessage (cpMessage p), cmNodeAddress (cpMessage p), cpSignature p))
    (fun '(a, b, c, d, e) => mkConnectionDetailsParams a (mkConnectionDetailsMessage b c d) e)
    ltac:(by intros [? [] ?]).

#[global] Instance ser_commitment_params : Ser CommitmentRequestParams :=
  ser_iso (fun p => (rpMessagePrefix p, rpTokenCommitment p, rpTempPubX p, rpTempPubY p, rpVerifierIdentifier p))
    (fun '(a, b, c, d, e) => mkCommitmentRequestParams a b c d e) ltac:(by intros []).

#[global] Instance ser_share_params : Ser ShareRequestParams :=
  ser_iso spItem mkShareRequestParams ltac:(by intros []).

#[global] Instance toy_auth_codecs : AuthCodecs := {|
  codec_verify_message :=
    reader (fun m => t ← field m "idtoken"; v ← field m "verifieridentifier"; Some (mkVerifyMessage t v));
  codec_torus_request := {|
    Marshal r := Some (stringBytes (trVerifierID r) ++ Bytes (trTimestamp r));
    Unmarshal _ := None;
  |};
  codec_torus_params :=
    reader (fun m => i ← field m "verifier_id"; t ← field m "timestamp"; s ← field m "idtoken";
                     Some (mkTorusVerifierParams i t s));
  codec_google_params := reader (fun _ => None);
  codec_google_response := reader (fun _ => None);
  codec_facebook_params := reader (fun _ => None);
  codec_facebook_response := reader (fun _ => None);
  codec_twitch_params := reader (fun _ => None);
  codec_twitch_response := reader (fun _ => None);
  codec_test_params := reader (fun m => t ← field m "idtoken"; i ← field m "id"; Some (mkTestVerifierParams t i));
|}.

(** ** The rest of the node *)

#[global] Instance toy_web : Web := {| httpGet _ := Err "offline"; httpDo _ _ := Err "offline" |}.

#[global] Instance toy_auth_config : AuthConfig := {|
  GetS name := if (name =? "TorusVerifierPubKeyX")%string then "11" else "4";
  HexToBigInt s := default 0 (SetString16 s);
|}.

#[global] Instance toy_cache : GoCache := {|
  cache V := gmap string (V * Z);
  cacheNew V := ∅;
  cacheGet V now c k := e ← c !! k; if snd e <? now then None else Some (fst e);
  cacheSet V now c k v d := <[k := (v, now + d)]> c;
  cacheAdd V now c k v d :=
    match (e ← c !! k; if snd e <? now then None else Some (fst e)) with
    | Some _ => Err "Item already exists"
    | None => Ok (<[k := (v, now + d)]> c)
    end;
|}.

#[global] Instance toy_cache_laws : GoCacheLaws.
Proof.
  split; [done| |done]. intros V now t c k v d k' Hd. simpl. case_decide as Hk.
  - subst. by rewrite lookup_insert_eq.
  - by rewrite lookup_insert_ne.
Qed.

(** A signature of a node is the hash followed by the node's key. *)
#[global] Instance toy_env : RpcEnv := {|
  JsonValue := list Z;
  EciesMetadata := unit;
  AwaitCompleteNodeList _ := [atoy_node 1; atoy_node 2];
  GetSelfPrivateKey := 1;
  GetSelfPublicKey := mkPoint 101 201;
  GetSelfAddressHex := "0x1";
  GetTMP2PConnection := "tm://a";
  GetP2PConnection := "p2p://b";
  IsDebug := false;
  EncryptShares := false;
  AddressString a := HexEncode a;
  SignData b k := mkSignature b (Keccak256 b) (Keccak256 b ++ [100 + k]) [] 0;
  SigToHex s := HexEncode (sgR s);
  HexToSig s := mkSignature [] [] (match HexDecode s with Ok b => b | _ => [] end) [] 27;
  IsValidSignature P s := bool_decide (sgR s = sgHash s ++ [PX P] /\ sgV s = 0);
  Encrypt _ _ := Err "none";
  BroadcastAssignment _ := Err "offline";
  BroadcastDealer _ := Err "offline";
  RegisterQuery _ := None;
  eventQuery _ := EmptyString;
  eventTxResult _ := (0, false);
|}.

#[global] Instance toy_rpc_codecs : RpcCodecs := {|
  codec_connection_params := codec_ser;
  codec_commitment_params := codec_ser;
  codec_share_params := codec_ser;
  codec_share_item :=
    reader (fun m => t ← field m "idtoken"; s ← field m "nodesignatures"; v ← field m "verifieridentifier";
                     Some (mkShareRequestItem t s v));
  codec_json_map := codec_ser (A := gmap string (list Z));
  codec_key_assign_params := reader (fun _ => None);
  codec_verifier_lookup_params := reader (fun _ => None);
  codec_key_lookup_params := reader (fun _ => None);
  codec_update_share := reader (fun _ => None);
  codec_update_commitment := reader (fun _ => None);
|}.

(** ** The node, its user and the user's requests *)

Definition other_verifier (name : string) : Verifier := mkVerifier name TrimSpaces (fun _ _ => Err "not used").

Definition rpc_access : KeyAssignmentPublic :=
  mkKeyAssignmentPublic 5 (mkPoint 8 8) 1 (Some {["torus"%string := Some ["alice"; "bob"]%string]}).

Definition rpc_app : App :=
  setDb atoy_app
    (<[prefixKeyMapping (Text16 5) := atoy_bytes rpc_access]>
       (<[formVerifierKey "torus" "alice" := atoy_bytes [5]]> ∅)).

Definition rpc_db : TorusLDB := fst (Call ∅ (store_completed_keygen_share 5 42 43)).

Definition rpc_node : RpcNode :=
  mkRpcNode _ rpc_app rpc_db CacheService_OnStart
    (VerifierService_OnStart false (other_verifier "discord") (other_verifier "reddit")).

Definition rpc_now : Z * Z := (unixToInternal + 1600000000, 0).
Definition rpc_stamp : Z := 1600000000 * 10 ^ 9.

(** The token is a signature of the Torus verifier on the user and the time. *)
Definition rpc_token : string := HexEncode (17 :: stringBytes "alice" ++ Bytes rpc_stamp).
Definition rpc_commitment : string := HexEncode (Keccak256 (stringBytes rpc_token)).

Definition rpc_commit : list Z := ser (mkCommitmentRequestParams "mug00" rpc_commitment "a" "b" "torus").

(** What the first node answers to the commitment is the signature the share
    request carries. *)
Definition rpc_node_signature : list NodeSignature :=
  match snd (CommitmentRequest rpc_now rpc_node rpc_commit) with
  | Reply r => [mkNodeSignature (crSignature r) (crData r) (crNodePubX r) (crNodePubY r)]
  | _ => []
  end.

Definition rpc_item : list Z :=
  ser (list_to_map [("idtoken"%string, ser rpc_token); ("verifieridentifier"%string, ser "torus"%string);
                    ("verifier_id"%string, ser "alice"%string); ("timestamp"%string, ser rpc_stamp);
                    ("nodesignatures"%string, ser rpc_node_signature)] : json).

Definition rpc_share : list Z := ser (mkShareRequestParams [rpc_item]).

(** ** Witnesses *)

Lemma pair_eq {A B} (x : A * B) b : snd x = b -> x = (fst x, b).
Proof. by destruct x; intros <-. Qed.

(** The answer is one share, with the value in the database, of the user's key. *)
Definition rpc_answer_ok : bool :=
  match snd (ShareRequest rpc_now rpc_node rpc_share) with
  | Reply [ke] => bool_decide (keShare ke = [42]) && (kaThreshold (keKeyAssignmentPublic ke) =? 1)
  | _ => false
  end.

Lemma rpc_share_answer :
  exists ke, snd (ShareRequest rpc_now rpc_node rpc_share) = Reply [ke] /\ keShare ke = [42] /\
    kaThreshold (keKeyAssignmentPublic ke) = 1.
Proof.
  assert (rpc_answer_ok = true) as H by (vm_compute; reflexivity).
  unfold rpc_answer_ok in H. revert H. generalize (snd (ShareRequest rpc_now rpc_node rpc_share)). intros r H.
  destruct r as [[|ke [|]]| |]; try discriminate H. apply andb_true_iff in H as [H1%bool_decide_eq_true H2%Z.eqb_eq].
  by exists ke.
Qed.

Lemma share_release_authorised_witness :
  exists ke, snd (ShareRequest rpc_now rpc_node rpc_share) = Reply [ke] /\ keShare ke = [42] /\
  exists raw v vid, authenticated rpc_now rpc_node 1 raw v vid /\
    (Join [v; vid] Delimiter1 ∈ accessEntries (keKeyAssignmentPublic ke)).
Proof.
  destruct rpc_share_answer as (ke & Hr & Hs & Ht). exists ke. split; [exact Hr|]. split; [exact Hs|].
  destruct (share_release_authorised rpc_now rpc_node rpc_share _ _ ke (pair_eq _ _ Hr))
    as (K & T & p & index & s & s' & entries & EK & _ & _ & _ & _ & Hsub & Hlen & HF); [by left|].
  rewrite Ht in Hlen. injection EK as <- <-. destruct entries as [|e entries]; [by destruct Hlen|].
  apply list.Forall_cons in HF as [(raw & v & vid & _ & Hau & ->) _]. exists raw, v, vid. split; [exact Hau|].
  apply (elem_of_sublist _ _ _ (list_elem_of_here _ _) Hsub).
Defined.

(** The user commits; another key for the same token is refused for ninety minutes. *)
Abbreviation rpc_after := (fst (CommitmentRequest rpc_now rpc_node rpc_commit)).
Definition rpc_later : Z * Z := (fst rpc_now + 5000, 0).

Lemma commitment_bound_witness :
  exists v k P, commitsTo rpc_commit v k P /\
    snd (getTokenCommitKey (nanos rpc_later) (rnCache (rpcRun rpc_after [(rpc_now, ReqShare rpc_share)])) v k) = P.
Proof.
  assert (exists r, snd (CommitmentRequest rpc_now rpc_node rpc_commit) = Reply r) as [r Hr]
    by (eexists; vm_compute; reflexivity).
  destruct (commitment_bound rpc_now rpc_node rpc_commit rpc_after r [(rpc_now, ReqShare rpc_share)] rpc_later)
    as (v & k & P & Hc & Hk & _).
  - done.
  - exact (pair_eq _ _ Hr).
  - by vm_compute.
  - by repeat constructor; vm_compute.
  - exists v, k, P. split; [exact Hc|exact Hk].
Defined.

Lemma torus_identity_signed_witness :
  Verify (rnVerifier rpc_node) rpc_now rpc_item = Ok (true, "alice"%string).
Proof.
  apply (torus_identity_signed false (other_verifier "discord") (other_verifier "reddit") rpc_now rpc_item
           (mkVerifyMessage rpc_token "torus")); try done.
  split_and!; [done|by vm_compute|].
  exists (mkTorusVerifierParams "alice" rpc_stamp rpc_token), (stringBytes "alice" ++ Bytes rpc_stamp),
    (17 :: stringBytes "alice" ++ Bytes rpc_stamp).
  split_and!; try (by vm_compute); by apply bool_decide_eq_true; vm_compute.
Defined.

(** A database that has heard of no node. *)
Definition rpc_stranger : RpcNode := setDB rpc_node ∅.

Lemma unknown_node_connects_witness :
  exists sig, ConnectionDetailsRequest rpc_now rpc_stranger
    (ser (mkConnectionDetailsParams PointO
       (mkConnectionDetailsMessage "1600000000" "ConnectionDetails" [7; 7]) sig)) =
    Reply (mkConnectionDetails "tm://a" "p2p://b").
Proof.
  destruct (unknown_node_connects rpc_now rpc_stranger noTables [7; 7] "1600000000" 1600000000) as [sig H].
  - exact Rep_empty.
  - done.
  - by vm_compute.
  - by vm_compute.
  - by vm_compute.
  - by vm_compute.
  - by vm_compute.
  - exists sig. apply H. apply (Unmarshal_Marshal (A := ConnectionDetailsParams)). reflexivity.
Defined.
