(* ===== verification/NodeToy.v ===== *)
(** A concrete network of nodes: the first epoch has the nodes 1 and 2, the second
    the nodes 3 and 4.  A node learns the others from the contract, sends and
    receives a message, starts a key generation, deals a stored key to the next
    epoch, and goes through the freeze; the witnesses of the properties of the
    services evaluate it. *)
From Stdlib Require Import ZArith.
From stdpp Require Import gmap strings relations.
From S2P Require Import Prelude BigInt Field Curve Pvss Avss Nizkpk Ecdsa Ids Effects Keygen Dealer Torusdb TorusdbSpec Library.
From S2P Require Import Bft BftProps Abci AbciProps KeygenToy PssToy TorusdbToy AbciToy.
From S2P Require Import P2p Ethereum EthereumLibrary EthereumProps Transport KeygenService LibrarySpec Mapping MappingService.
From S2P Require Import PssTypes Pss PssService Handover HandoverProps Freeze.
Import ToyCodec.

(** ** The libraries and the contract *)

#[global] Instance ntoy_p2p : LibP2P := {|
  Multiaddr := string;
  NewMultiaddr s := Ok s;
  ValueForIPFS s := Ok s;
  MultiaddrString s := s;
  IDB58Encode s := s;
  IDB58Decode s := Ok s;
|}.

#[global] Instance ser_p2p_msg : Ser P2PBasicMsg :=
  ser_iso (fun m => (bmVersion m, bmTimestamp m, bmId m, bmGossip m, bmNodeId m, bmNodePubKey m, bmSign m, bmMsgType m, bmPayload m))
    (fun '(a, b, c, d, e, f, g, h, i) => mkP2PBasicMsg a b c d e f g h i) ltac:(by intros []).

#[global] Instance ser_ping : Ser PingMessage := ser_iso pgMessage mkPingMessage ltac:(by intros []).

#[global] Instance ntoy_p2p_codecs : P2pCodecs := {| codec_p2p_msg := codec_ser; codec_ping_message := codec_ser |}.

(** The owner of a key signs with the text that everyone can check. *)
#[global] Instance ntoy_sign : TorusSign := {| SignDataRaw data d := PX (d ⊙ secp_G) :: data |}.

#[global] Instance ntoy_sign_laws : TorusSignLaws.
Proof. split. intros data d _. by apply bool_decide_eq_true. Qed.

#[global] Instance ntoy_address : EthAddress := {| PointToEthAddress P := [PX P; PY P] |}.

#[global] Instance ntoy_registers : RegisterRange := {| rangeRegisters site m := map_to_list m |}.

#[global] Instance ntoy_registers_laws : RegisterRangeLaws.
Proof. by split. Qed.

Definition ntoy_pub (i : Z) : Point := toy_key i ⊙ secp_G.
Definition ntoy_addr (i : Z) : list Z := PointToEthAddress (ntoy_pub i).
Definition ntoy_peer (i : Z) : string := "peer" +:+ Itoa i.

(** Every node runs with threshold one of two in epoch one, and with two of two in
    epoch two. *)
#[global] Instance ntoy_contract : NodeListContract := {|
  contractNodeDetails a :=
    match list_find (fun i => ntoy_addr i = a) [1; 2; 3; 4] with
    | Some (_, i) => Ok (mkContractDetails EmptyString i (PX (ntoy_pub i)) (PY (ntoy_pub i)) "tm" (ntoy_peer i))
    | None => Err "no such node"
    end;
  contractGetNodes e := Ok (ntoy_addr <$> (if e =? 1 then [1; 2] else [3; 4]));
  contractGetEpochInfo e := if e =? 1 then Ok (mkEpochInfo 1 2 1 1 0 2) else Ok (mkEpochInfo 2 2 2 0 1 0);
  contractGetPssStatus _ _ := Ok 1;
  contractNodeRegistered _ _ := Ok true;
  contractIsWhitelisted _ _ := Ok true;
|}.

#[global] Instance ntoy_config : EthConfig := {|
  ShouldRegister := true; ProvidedIPAddress := "10.0.0.1"; TMP2PListenAddress := "tcp://0.0.0.0:26656";
  PublicURL := EmptyString; HttpServerPort := "443" |}.

Definition ntoy_client : EthClient := {|
  PendingNonceAt := Ok 0; SuggestGasPrice := Ok 1; listNodeFails := None; tmNodeID := "tm";
  IDAddressString a b := a +:+ "@" +:+ b; hostAddress := "/ip4/0.0.0.0/tcp/1080" |}.

Definition ntoy_peers (i : Z) : EthPeers := {|
  RequestConnectionDetails _ := Err "no answer"; hostPeerID := ntoy_peer i; connects _ _ := true |}.

Definition ntoy_outside (i : Z) : outside := mkOutside ntoy_contract (ntoy_peers i) ntoy_client ∅.

(** ** The nodes *)

Definition ntoy_start (i epoch : Z) : EthereumService := EthereumService_OnStart (toy_key i) (ntoy_addr i) epoch.
Definition ntoy_events (i : Z) (e : EthereumService) (evs : list ethEvent) : EthereumService :=
  foldl (ethStep (ntoy_outside i)) e evs.
Definition ntoy_eth (i : Z) : EthereumService := ntoy_events i (ntoy_start i 1) [CurrentTick; NextTick].

Lemma ntoy_reach i : ethReach (toy_key i) (ntoy_addr i) 1 (ntoy_eth i).
Proof. apply (ethNext _ _ _ _ (ntoy_outside i) NextTick), (ethNext _ _ _ _ (ntoy_outside i) CurrentTick), ethStart. Qed.

Definition ntoy_proto : string := "keygen-1/".
Definition ntoy_host (i : Z) : P2PService :=
  mkP2PService _ (ntoy_peer i) (Some (ntoy_peer i)) [] {[ntoy_proto]} ∅.
Definition ntoy_net (i : Z) : Net := mkNet _ ∅ (ntoy_eth i) (ntoy_host i) (1600000000, 0) (fun _ _ => None).

Example ntoy_self : selfNode (ntoy_net 1) = Got (mkNode 1 (ntoy_pub 1)).
Proof. vm_compute. reflexivity. Qed.

Example ntoy_knows_next : snd (Ethereum_AwaitNodesConnected ∅ (ntoy_eth 1) 2) = Got tt.
Proof. vm_compute. reflexivity. Qed.

(** ** A message *)

Definition ntoy_share : KeygenMessage :=
  CreateKeygenMessage (toy_id 1) "share" (ToyCodec.ser (mkKeygenMsgShare toy_dkg)).

(** What node 1 puts on the wire for node 2. *)
Definition ntoy_wire : list P2pAction :=
  match transportSend (ntoy_net 1) ntoy_proto "transportKeygenMessage" (mkNode 2 (ntoy_pub 2)) ntoy_share with
  | OnWire acts => acts
  | _ => []
  end.

Lemma ntoy_sent : transportSend (ntoy_net 1) ntoy_proto "transportKeygenMessage" (mkNode 2 (ntoy_pub 2)) ntoy_share
  = OnWire ntoy_wire.
Proof. vm_compute. reflexivity. Qed.

Definition ntoy_ref (i : Z) : NodeReference :=
  mkNodeReference (Some (ntoy_addr i)) (Some i) (ntoy_peer i) (Some (ntoy_pub i)) "tm" (ntoy_peer i).

Lemma ntoy_registered : registered (ntoy_eth 2) (ntoy_pub 1) (ntoy_ref 1).
Proof.
  exists 1, (mkNodeRegister false false [ntoy_ref 1; ntoy_ref 2]). split; [vm_compute; reflexivity|].
  split; [left|reflexivity].
Qed.

Lemma transport_delivers_witness : exists data,
  ntoy_wire = [WriteStream "peer2" ntoy_proto data] /\
  onStream (ntoy_net 2) ntoy_proto (Ok data) = [Delivered (mkNode 1 (ntoy_pub 1)) ntoy_share].
Proof.
  destruct (transport_delivers (ntoy_net 1) ntoy_proto "transportKeygenMessage" (mkNode 2 (ntoy_pub 2)) ntoy_share ntoy_wire
    (toy_key 1) ntoy_sent) as (peerID & data & msg & E & _ & (ref & Href & Hp) & H).
  - vm_compute. by split.
  - vm_compute. reflexivity.
  - vm_compute. reflexivity.
  - exists data. split.
    + assert (nodeByAddress (ntoy_net 1) (ntoy_pub 2) = Got (ntoy_ref 2)) as Hn by (vm_compute; reflexivity).
      simpl in Href. rewrite Hn in Href. injection Href as <-. injection Hp as <-. exact E.
    + apply (H (toy_key 2) (ntoy_addr 2) 1 (ntoy_net 2) (ntoy_ref 1) 1 (ntoy_ref 1)).
      * apply ntoy_reach.
      * vm_compute. reflexivity.
      * by apply (bool_decide_unpack _).
      * vm_compute. reflexivity.
      * reflexivity.
      * apply ntoy_registered.
Defined.

(** ** A key generation is started once *)

Definition ntoy_keygen : KeygennofsmService := mkKeygennofsmService (toy_start 1) toy_avss_tape.

Definition ntoy_started := receive_message (ntoy_net 1) ntoy_keygen ntoy_share.

Lemma ntoy_started_eq : receive_message (ntoy_net 1) ntoy_keygen ntoy_share =
  (fst (fst (fst ntoy_started)), snd (fst (fst ntoy_started)), snd (fst ntoy_started), snd ntoy_started).
Proof. change (receive_message _ _ _) with ntoy_started. by destruct ntoy_started as [[[]]]. Qed.

(** The second share message, after the node has stored other things and has been
    restarted, does nothing; the first one dealt. *)
Definition ntoy_later : Net :=
  setNetDB (ntoy_net 2) (requests (netDB (snd (fst (fst ntoy_started)))) [store_completed_keygen_share 5 1 1]).

Lemma keygen_started_once_witness :
  snd (fst ntoy_started) <> [] /\ receive_message ntoy_later ntoy_keygen ntoy_share = (ntoy_keygen, ntoy_later, [], Returned).
Proof.
  split; [vm_compute; congruence|].
  apply (keygen_started_once (ntoy_net 1) ntoy_keygen ntoy_share noTables _ _ _ _ Rep_empty eq_refl ntoy_started_eq
    [store_completed_keygen_share 5 1 1]).
  - by repeat constructor.
  - rewrite list_elem_of_singleton. congruence.
  - reflexivity.
  - reflexivity.
  - reflexivity.
Defined.

(** ** What is stored is dealt *)

Definition ntoy_key : Keygen.KeyStorage := Keygen.mkKeyStorage 5 9 6 [ped 9 6; ped 4 2].
Definition ntoy_tables : Tables := tablesAfter noTables (storeKeyRequests ntoy_key).
Definition ntoy_stored : Net := setNetDB (ntoy_net 1) (storeKey ∅ ntoy_key).

Definition ntoy_epoch (e : Z) : epochInfo := if e =? 1 then mkEpochInfo 1 2 1 1 0 2 else mkEpochInfo 2 2 2 0 1 0.

(** The refresh service of node 1, with the instance for the two epochs. *)
Definition ntoy_pss : PSSService :=
  poService (PSSService_Call ntoy_stored 100 (PSSService_OnStart toy_avss_tape)
    (new_PSS_node (mkPSSStartData "start" 1 2 1 1 2 2 2 0) true false)).
Definition ntoy_prefix : string :=
  GetPSSProtocolPrefix (int64 (eiId (ntoy_epoch 1))) (int64 (eiId (ntoy_epoch 2))).
Definition ntoy_inst : PSSInstance := default (mkPSSInstance (NewPSSNode NodeZero 0 [] 0 0 0 [] 0 0 0 false false 0) "" [] [])
  (psInstances ntoy_pss !! ntoy_prefix).

Lemma ntoy_pssReady n : netEth n = ntoy_eth 1 ->
  pssReady n (piNode ntoy_inst) [mkNode 1 (ntoy_pub 1); mkNode 2 (ntoy_pub 2)] 1.
Proof.
  intros E. unfold pssReady, Ethereum_GetNodeList, Ethereum_GetSelfIndex, ask. rewrite E.
  split; vm_compute; reflexivity.
Qed.

(** The key is put out, refreshed, and each time the next refresh deals what was
    put out. *)
Lemma stored_key_is_dealt_witness : exists sh,
  pssGetSharing ntoy_stored (piNode ntoy_inst) (GenerateKeygenID 5) = Ok (Some sh) /\ shSi sh = 9 /\ shSiprime sh = 6 /\
  shC sh = [ped 9 6; ped 4 2].
Proof.
  destruct (stored_key_is_dealt (ntoy_net 1) (piNode ntoy_inst) _ 1 noTables Rep_empty (ntoy_pssReady (ntoy_net 1) eq_refl))
    as [H _].
  eexists. split; [apply (H ntoy_key (ped 9 6) [ped 4 2])|split_and!; reflexivity].
  - vm_compute. congruence.
  - vm_compute. split; congruence.
  - reflexivity.
  - vm_compute. congruence.
  - reflexivity.
  - reflexivity.
Defined.

(** ** A frozen key is dealt *)

Definition ntoy_ho : hoNode := mkHoNode _ ntoy_stored ntoy_pss NewMappingService.

Lemma ntoy_dealer : dealerReady ntoy_inst (mkNode 1 (ntoy_pub 1)) (sharePSSID (ntoy_epoch 1) (ntoy_epoch 2) 1 5) 2.
Proof. split; try (vm_compute; reflexivity); [vm_compute; lia|lia]. Qed.

Lemma frozen_key_is_dealt_witness : exists h acts inst pss,
  triggerKey 100 ntoy_ho (ntoy_epoch 1) (ntoy_epoch 2) 5 = (h, [PssActions ntoy_prefix acts], Returned) /\
  psInstances (hoPss h) !! ntoy_prefix = Some inst /\
  pnPSSStore (piNode inst) !! sharePSSID (ntoy_epoch 1) (ntoy_epoch 2) 1 5 = Some (Some pss) /\ beval (psF pss) 0 0 = 9.
Proof.
  assert (Rep ntoy_tables (netDB ntoy_stored)) as HR.
  { change (netDB ntoy_stored) with (storeKey ∅ ntoy_key). rewrite storeKey_requests.
    apply requests_Rep; [apply Rep_empty|]. unfold storeKeyRequests. case_match; [constructor|].
    case_match; [constructor|]. by repeat constructor. }
  destruct (frozen_key_is_dealt 100 ntoy_ho (ntoy_epoch 1) (ntoy_epoch 2) 6 5 ntoy_inst (mkNode 1 (ntoy_pub 1)) (ntoy_ref 1)
    [mkNode 1 (ntoy_pub 1); mkNode 2 (ntoy_pub 2)] ntoy_tables [ped 9 6; ped 4 2] 2)
    as (_ & h & acts & inst & pss & E1 & E2 & E3 & _ & _ & _ & E4 & _).
  - by vm_compute.
  - lia.
  - exact HR.
  - vm_compute. reflexivity.
  - vm_compute. reflexivity.
  - vm_compute. reflexivity.
  - exact ntoy_dealer.
  - apply ntoy_pssReady. reflexivity.
  - vm_compute. reflexivity.
  - vm_compute. split; congruence.
  - vm_compute. split; congruence.
  - repeat split; intros m; by eexists.
  - exact toy_avss_tape_ok.
  - exists h, acts, inst, pss. split_and!; [exact E1|exact E2|exact E3|]. rewrite E4. vm_compute. reflexivity.
Defined.

(** ** The freeze *)

Section ticks.
Context (staggerDelay : Z) (app : App).

Fixpoint ntoy_ticks (k : nat) (x : hoNode * outgoing * list hoAction) : hoNode * outgoing * list hoAction :=
  match k with
  | O => x
  | S k =>
      let '(h, pc, acts) := x in
      let '(h, pc, acts') := outgoingStep staggerDelay app h pc in
      ntoy_ticks k (h, pc, acts ++ acts')
  end.

Lemma ntoy_ticks_handover k gs : forall x,
  handover staggerDelay app gs (fst (fst x)) (snd (fst x)) (snd x) ->
  handover staggerDelay app gs (fst (fst (ntoy_ticks k x))) (snd (fst (ntoy_ticks k x))) (snd (ntoy_ticks k x)).
Proof.
  induction k as [|k IH]; intros [[h pc] acts] H; [done|]. simpl.
  destruct (outgoingStep staggerDelay app h pc) as [[h' pc'] acts'] eqn:E. apply IH. simpl in *. by eapply ho_tick.
Qed.

End ticks.

(** The vote of a node for the freeze. *)
Definition ntoy_freeze : MappingID := GetMappingID 1 2.
Definition ntoy_vote_body : list Z :=
  atoy_bytes (mkMappingMessage "0" ntoy_freeze "mapping_propose_freeze"
    (default [] (Marshal (mkMappingProposeFreezeBroadcastMessage ntoy_freeze)))).
Definition ntoy_vote (i : Z) : list Z :=
  let w := mkWrapper ntoy_vote_body 0 (Bft.nrPublicKey (atoy_node i)) 4 in
  atoy_bytes (w (Some (PX (Bft.nrPublicKey (atoy_node i)) :: Abci.GetSerializedBody (w None)))).

Definition ntoy_deliver (app : App) (i : Z) := DeliverTx atoy_now app (ntoy_vote i).
Definition ntoy_app1 : App := fst (fst (ntoy_deliver atoy_app 1)).
Definition ntoy_app2 : App := fst (fst (ntoy_deliver ntoy_app1 2)).

Example ntoy_votes :
  freezesOf (snd (fst (ntoy_deliver atoy_app 1))) = [] /\ freezesOf (snd (fst (ntoy_deliver ntoy_app1 2))) = [ntoy_freeze] /\
  snd (ntoy_deliver atoy_app 1) = RespOK [] /\ snd (ntoy_deliver ntoy_app1 2) = RespOK [].
Proof. vm_compute. by split_and!. Qed.

(** The monitor runs until it waits for the freeze, the votes are delivered, the
    goroutine reports, and the monitor goes on. *)
Definition ntoy_ho0 : hoNode := mkHoNode _ (ntoy_net 1) (PSSService_OnStart toy_avss_tape) NewMappingService.
Definition ntoy_wait := ntoy_ticks 100 atoy_app 9 (ntoy_ho0, OutStart, []).
Definition ntoy_done := ntoy_ticks 100 ntoy_app2 2 (reportFreeze ntoy_app2 (fst (fst ntoy_wait)) ntoy_freeze, snd (fst ntoy_wait), snd ntoy_wait).

Example ntoy_done_triggers : triggersOf (snd ntoy_done) =
  [TriggerMapping 5 ntoy_freeze; TriggerPSS 5 (ntoy_epoch 1) (ntoy_epoch 2)].
Proof. vm_compute. reflexivity. Qed.

Lemma ntoy_deliver_eq app i : DeliverTx atoy_now app (ntoy_vote i) =
  (fst (fst (ntoy_deliver app i)), snd (fst (ntoy_deliver app i)), snd (ntoy_deliver app i)).
Proof. unfold ntoy_deliver. by destruct (DeliverTx _ _ _) as [[]]. Qed.

(** The last of two votes is reported. *)
Lemma ntoy_report now app tx1 app1 b1 r1 tx2 app2 b2 r2 id h pc acts :
  handover 100 app [] h pc acts -> DeliverTx now app tx1 = (app1, b1, r1) -> r1 <> Stopped -> freezesOf b1 = [] ->
  DeliverTx now app1 tx2 = (app2, b2, r2) -> r2 <> Stopped -> freezesOf b2 = [id] ->
  handover 100 app2 [] (reportFreeze app2 h id) pc acts.
Proof.
  intros H E1 N1 V1 E2 N2 V2. apply (ho_report 100 app2 [] id []). simpl. rewrite <-V2, <-(app_nil_l (freezesOf b2)).
  eapply ho_deliver; [|exact E2|exact N2]. rewrite <-V1. by eapply (ho_deliver _ app []).
Qed.

Lemma ntoy_waits : handover 100 atoy_app [] (fst (fst ntoy_wait)) (snd (fst ntoy_wait)) (snd ntoy_wait).
Proof. apply ntoy_ticks_handover, ho_start. reflexivity. Qed.

Lemma ntoy_handover : handover 100 ntoy_app2 [] (fst (fst ntoy_done)) (snd (fst ntoy_done)) (snd ntoy_done).
Proof.
  destruct ntoy_votes as (V1 & V2 & R1 & R2). apply ntoy_ticks_handover.
  eapply ntoy_report; [exact ntoy_waits|exact (ntoy_deliver_eq atoy_app 1)|by rewrite R1|exact V1|
    exact (ntoy_deliver_eq ntoy_app1 2)|by rewrite R2|exact V2].
Qed.

Lemma handover_after_freeze_witness : exists app1, rtc abciStep app1 ntoy_app2 /\
  sLastUnassignedIndex (appState app1) = 5 /\
  triggersOf (snd ntoy_done) = [TriggerMapping 5 ntoy_freeze; TriggerPSS 5 (ntoy_epoch 1) (ntoy_epoch 2)].
Proof.
  destruct (handover_after_freeze 1 1 100 ntoy_app2 [] (fst (fst ntoy_done)) (snd (fst ntoy_done)) (snd ntoy_done)
    atoy_thresholds ntoy_handover) as [E|(e & id & old & new & app1 & E & _ & He & Hr & _)].
  - rewrite ntoy_done_triggers in E. discriminate E.
  - exists app1. rewrite ntoy_done_triggers in *. injection E as <- _ _ _. split_and!; [exact Hr|by rewrite He|reflexivity].
Defined.
