(* ===== verification/GatewayToy.v ===== *)
(** A user whose captcha lets a request to assign a key through once, and a node whose
    contract entry hides its connections: the witnesses of Middleware and Server. *)
From Stdlib Require Import ZArith.
From stdpp Require Import gmap strings.
From S2P Require Import Prelude BigInt Field Curve Pvss Ecdsa Ids Effects Keygen Mapping Dealer GoTime Auth Cache PssTypes Torusdb TorusdbSpec TorusdbToy Library.
From S2P Require Import P2p Ethereum EthereumLibrary EthereumProps Transport Bft Abci KeygenToy AbciToy Rpc RpcProps RpcToy NodeToy Base64 Middleware Server.
Import ToyCodec.

(** ** The captcha *)

(** The captcha signs with its abscissa and the length of what it signs. *)
#[global] Instance gtoy_captcha : CaptchaConfig := {|
  JRPCAuth := true;
  captchaPubKey := mkPoint 7 7;
  EthPrivateKey := "5";
  VerifyPtFromRawWithPubKey data x y P sig := bool_decide (sig = [PX P; Z.of_nat (length data) mod 256]);
|}.

#[global] Instance gtoy_middleware_codecs : MiddlewareCodecs := {|
  codec_jrpc_request := reader (fun m => s ← field m "method"; Some (mkJRPCRequest s));
  codec_custom_auth := reader (fun _ => None);
|}.

Definition gtoy_body : list Z := ser (<["method"%string := ser KeyAssignMethod]> (∅ : gmap string (list Z))).
Definition gtoy_sig : list Z := [7; Z.of_nat (length gtoy_body + 13) mod 256].
Definition gtoy_request : Middleware.Request := mkRequest (EncodeToString gtoy_sig) "9" "1600000000" (Some gtoy_body).
Definition gtoy_next : Handler (A := unit) := fun now r cx c => (c, Served tt).
Definition gtoy_cr : Credentials := mkCredentials "1600000000" "9" (EncodeToString gtoy_sig) (Some gtoy_sig) gtoy_body.

(** At the second of the signature, and ten seconds later. *)
Definition gtoy_now : Z * Z := (1600000000 + unixToInternal, 0).
Definition gtoy_later : Z * Z := (1600000010 + unixToInternal, 0).

Definition gtoy_cache : CacheService := fst (router gtoy_next gtoy_now gtoy_request CacheService_OnStart).

Lemma gtoy_served : router gtoy_next gtoy_now gtoy_request CacheService_OnStart = (gtoy_cache, Served tt).
Proof. vm_compute. reflexivity. Qed.

Lemma captcha_once_witness : exists e, snd (router gtoy_next gtoy_later gtoy_request gtoy_cache) = Rejected401 e.
Proof.
  destruct (captcha_once gtoy_next (fun _ _ _ _ => eq_refl) gtoy_now gtoy_request gtoy_cr CacheService_OnStart gtoy_cache tt
    gtoy_later gtoy_request gtoy_cr 1600000000 []) as (_ & _ & _ & e & He); [done|by vm_compute|exact gtoy_served|by vm_compute|done|by vm_compute| | | |done|].
  - vm_compute. repeat split; congruence.
  - vm_compute. repeat split; congruence.
  - by vm_compute.
  - by exists e.
Defined.

(** The second text of the signature is let through at once. *)
Lemma gtoy_replayed : exists s, s <> rqSignature gtoy_request /\
  snd (router gtoy_next gtoy_now (mkRequest s "9" "1600000000" (Some gtoy_body)) gtoy_cache) = Served tt.
Proof. exists (unchars (variant64 gtoy_sig)). split; [by vm_compute|]. vm_compute. reflexivity. Qed.

(** The fields of the deprecated form are taken out of the body. *)
Definition gtoy_quoted (s : string) : list Z := quote :: stringBytes s ++ [quote].
Example gtoy_filtered :
  filterBytes (stringBytes "{" ++ gtoy_quoted "method" ++ stringBytes ": " ++ gtoy_quoted "KeyAssign" ++ stringBytes ", "
      ++ gtoy_quoted "torus-nonce" ++ stringBytes ": " ++ gtoy_quoted "9" ++ stringBytes "}")
    ["torus-signature"; "torus-nonce"; "torus-timestamp"]%string =
  stringBytes "{" ++ gtoy_quoted "method" ++ stringBytes ": " ++ gtoy_quoted "KeyAssign" ++ stringBytes "}".
Proof. vm_compute. reflexivity. Qed.

(** ** Connection details *)

#[global] Instance ser_details_request : Ser ConnectionDetailsRequestBody :=
  ser_iso (fun r => (cbRpcVersion r, cbMethod r, cbId r, cbParams r)) (fun '(a, b, c, d) => mkConnectionDetailsRequestBody a b c d)
    ltac:(by intros []).

#[global] Instance ser_connection_details : Ser ConnectionDetails :=
  ser_iso (fun d => (cdTMP2PConnection d, cdP2PConnection d)) (fun '(a, b) => Torusdb.mkConnectionDetails a b) ltac:(by intros []).

#[global] Instance ser_details_response : Ser ConnectionDetailsJRPCResponse :=
  ser_iso (fun r => (cjRpcVersion r, cjId r, cjResult r)) (fun '(a, b, c) => mkConnectionDetailsJRPCResponse a b c)
    ltac:(by intros []).

#[global] Instance gtoy_server_codecs : ServerCodecs := {|
  codec_details_request := codec_ser;
  codec_details_response := codec_ser;
|}.

#[global] Instance gtoy_jsonrpc : JsonRpc := {|
  rpcParams body := r ← Unmarshal (A := ConnectionDetailsRequestBody) body; Marshal (cbParams r);
  rpcResult d := ser (mkConnectionDetailsJRPCResponse "2.0" 10 d);
|}.

#[global] Instance gtoy_jsonrpc_laws : JsonRpcLaws.
Proof.
  split.
  - intros r body Hb. exists (ser (cbParams r)). split.
    + unfold rpcParams, gtoy_jsonrpc. erewrite (Unmarshal_Marshal (A := ConnectionDetailsRequestBody)) by exact Hb. reflexivity.
    + apply (Unmarshal_Marshal (A := ConnectionDetailsParams)). reflexivity.
  - intros d. exists (mkConnectionDetailsJRPCResponse "2.0" 10 d). split; [|done].
    apply (Unmarshal_Marshal (A := ConnectionDetailsJRPCResponse)). reflexivity.
Qed.

(** The peer has the public key of node 1, which finds only where the server is in the
    contract. *)
Definition gtoy_peer : RpcNode := setDB rpc_node (fst (Database_StoreNodePubKey ∅ (ntoy_addr 1) (ntoy_pub 1))).
Definition gtoy_details : contractDetails := mkContractDetails "node2:443" 2 (PX (ntoy_pub 2)) (PY (ntoy_pub 2)) EmptyString EmptyString.
Definition gtoy_post : httpClient := fun url body =>
  if (url =? "https://node2:443/jrpc")%string then peerAnswers rpc_now gtoy_peer body else None.

Lemma hidden_connections_learned_witness : exists t',
  nodeConnections (EP := serverPeers (ntoy_net 1) rpc_now gtoy_post "peer1" (fun _ _ => true)) (netDB (ntoy_net 1)) (ntoy_addr 2) gtoy_details
    = (t', Ok (Torusdb.mkConnectionDetails "tm://a" "p2p://b")) /\
  Database_RetrieveConnectionDetails t' (ntoy_addr 2) = Ok (Torusdb.mkConnectionDetails "tm://a" "p2p://b").
Proof.
  assert (exists p, connectionDetailsParams (ntoy_net 1) rpc_now = Ok p) as [p Hp] by (eexists; vm_compute; reflexivity).
  change "tm://a"%string with GetTMP2PConnection. change "p2p://b"%string with GetP2PConnection.
  refine (hidden_connections_learned (ntoy_net 1) rpc_now (toy_key 1) (ntoy_addr 1) gtoy_post rpc_now gtoy_peer (ntoy_addr 2)
    gtoy_details "node2" "443" p "peer1" (fun _ _ => true) _ _ _ _ Hp _ _ _ _ _ _ _ _ _).
  - vm_compute. repeat split.
  - clear Hp. vm_compute. repeat split; congruence.
  - clear Hp. vm_compute. repeat split; congruence.
  - clear Hp. vm_compute. congruence.
  - by eexists.
  - reflexivity.
  - by apply (bool_decide_unpack _); vm_compute.
  - by apply (bool_decide_unpack _); vm_compute.
  - done.
  - reflexivity.
  - by vm_compute.
  - split; by apply (bool_decide_unpack _); vm_compute.
  - intros body. reflexivity.
Defined.
