(* ===== verification/TendermintToy.v ===== *)
(** A chain that refuses the first two submissions: node 1 of the network of [NodeToy]
    broadcasts an assignment; and a query of two responses. *)
From Stdlib Require Import ZArith.
From stdpp Require Import gmap strings.
From S2P Require Import Prelude BigInt Field Curve Pvss Ids Effects EventBus Services Keygen Dealer Torusdb TorusdbSpec Library Mapping PssTypes.
From S2P Require Import Bft BftProps Abci AbciProps KeygenToy PssToy TorusdbToy AbciToy P2p Ethereum EthereumLibrary EthereumProps Transport NodeToy.
From S2P Require Import Tendermint TendermintProps.
Import ToyCodec.

(** The register of the application has the nodes of the network. *)
Definition ttoy_node (i : Z) : Bft.NodeReference := Bft.mkNodeReference i (ntoy_pub i).

Definition ttoy_services : Bft.Services := {|
  Bft.GetCurrentEpoch := 1;
  Bft.GetEpochInfo e := if e =? 1 then Some (1, 1) else None;
  Bft.nodeRegisterMap e := if e =? 1 then Some [ttoy_node 1; ttoy_node 2] else None;
  Bft.StorePublicKeyToIndexFails p i := None;
  Bft.GetKeygenStarted id := false;
  Bft.GetSelfIndex := 1;
|}.

(** The number of submissions so far; the hash of a transaction is its length. *)
#[global] Instance ttoy_rpc : TendermintRPC := {|
  chainState := nat;
  BroadcastTxSync raw w := (if Nat.ltb w 2 then None else Some (0, [Z.of_nat (length raw)]), S w);
|}.

Definition ttoy_chain : chainState := 0%nat.

Definition ttoy_tx : bftTx := TxAssignment (mkAssignmentBFTTx "google" "alice").

Lemma broadcast_delivered_witness : exists raw hash bytes,
  Broadcast (ntoy_net 1) 77 ttoy_tx (fun _ => EmptyString) ttoy_chain = (Ok hash, (3%nat : chainState)) /\
  readsAs ttoy_tx bytes /\
  DeliverTx (SV := ttoy_services) atoy_now atoy_begun raw =
    asReply (ruleOf (SV := ttoy_services) atoy_now 1 1 atoy_begun (mkNode 1 (ntoy_pub 1)) ttoy_tx bytes).
Proof.
  destruct (Broadcast (ntoy_net 1) 77 ttoy_tx (fun _ => EmptyString) ttoy_chain) as [[hash| |] w'] eqn:E; try (vm_compute in E; done).
  destruct (broadcast_delivered (SV := ttoy_services) (ntoy_net 1) 77 ttoy_tx (fun _ => EmptyString) ttoy_chain hash w' (toy_key 1)
    [ttoy_node 1; ttoy_node 2] (ttoy_node 1) 1 1 E) as (raw & bytes & k & _ & _ & Ek & Hr & Hd);
    [vm_compute; by split|vm_compute; done..|].
  exists raw, hash, bytes. split_and!; [|done|apply Hd]. f_equal. vm_compute in E. by injection E.
Defined.

(** Two responses of a query that asked for two: the second is still in the channel. *)
Definition ttoy_registered : QueryHandler := fst (RegisterQuery NewQueryHandler "q" 2 None).
Definition ttoy_route (h : QueryHandler) (result : list Z) : QueryHandler := from_option fst h (RouteWSMessage h "q" None result None).
Definition ttoy_forward (h : QueryHandler) : QueryHandler := from_option fst h (forwardResponse h 0).
Definition ttoy_queries : QueryHandler := ttoy_route (ttoy_forward (ttoy_route ttoy_registered [1])) [2].
Definition ttoy_events : list queryEvent := [Registered "q" 2; Routed 0 [1]; Forwarded 0 [1]; Routed 0 [2]].

Lemma ttoy_run : queryRun ttoy_queries ttoy_events.
Proof.
  change ttoy_events with (((([] ++ [Registered "q" 2]) ++ [Routed 0 [1]]) ++ [Forwarded 0 [1]]) ++ [Routed 0 [2]]).
  apply (query_next (ttoy_forward (ttoy_route ttoy_registered [1])) _ [Routed 0 [2]]);
    [|by apply (query_route (ttoy_forward (ttoy_route ttoy_registered [1])) "q" None [2] None _ (Ok tt))].
  apply (query_next (ttoy_route ttoy_registered [1]) _ [Forwarded 0 [1]]); [|by apply query_forward].
  apply (query_next ttoy_registered _ [Routed 0 [1]]); [|by apply (query_route ttoy_registered "q" None [1] None _ (Ok tt))].
  apply (query_next _ _ [Registered "q" 2] _ query_start). by apply (query_register _ "q" 2 None _ (Ok 0%nat)).
Qed.

Lemma query_responses_in_order_witness : exists ch, qhChans ttoy_queries !! 0%nat = Some ch /\
  [[1]; [2]] = [[1]] ++ chBuffer ch /\ chClosed ch = true.
Proof.
  destruct (query_responses_in_order ttoy_queries ttoy_events ttoy_run) as [H _].
  destruct (H 0%nat "q" 2 eq_refl) as (ch & E & Hr & _ & Hc). exists ch. split; [done|]. split; [exact Hr|].
  by apply Hc.
Defined.
